(* ===== verification/_CoqProject ===== *)
-Q . S2P
Prelude.v
Base32.v
Crypto.v
RollingHash.v
Streams.v
MemoryStreams.v
FileStreams.v
Zeroed.v
CompositeStreams.v
CryptoStreams.v
Lzma.v
StreamUtils.v
StdMap.v
Filesystem.v
Snapshot.v
DataStore.v
FileDataStore.v
SSHDataStore.v
AwsS3DataStore.v
Repository.v
RepositoryKeys.v
Upload.v
Chunks.v
RepositoryFiles.v
FileTransfer.v
Integrity.v
PackFiles.v
Backup.v
Cli.v
CliFormat.v
CliCommands.v
CliSpec.v
CliRestore.v
CliBackup.v
CliHistory.v
