(* ===== verification/Prelude.v ===== *)
(** * Verification of NebulaBackup

    NebulaBackup (src/libnebula, src/cli) is a backup program: it cuts files into
    blocks, compresses and encrypts them, stores them as objects named by the
    HMAC of their contents in a backend (a directory, an SFTP server, an S3
    bucket), and keeps the catalogue of a backup, its snapshot, as one more
    object.  This library translates its C++ code to executable definitions and
    proves what they do.  This file is the root; it also holds the prelude.

    ** The parts and the files

    The layers of the program, from the bottom, with the files of src/libnebula
    they model; every file requires the ones it calls.

    - Bytes, words and outcomes: Prelude (below).  [result] is a C++ outcome: a
      value, an exception of Exception.h, undefined behaviour, or a loop bound
      of the model that was too small.
    - Base32 (Base32.cpp): the names of objects.
    - Crypto (libressl, as the class [EVP] with the laws [EVPSpec]; [Toy] is a
      concrete instance); RollingHash (RollingHash.cpp).
    - Streams (InputStream, OutputStream: classes over the state of an object,
      and their contracts), MemoryStreams, FileStreams (FileStream,
      TempFileStream over a disk), CompositeStreams (BufferedInputStream,
      InputRangeStream, MultiInputStream), CryptoStreams (EncryptedOutputStream,
      DecryptedInputStream), Lzma (LZMAUtils, LZMAInputStream over the class
      [LZMA]), StreamUtils (the sealed object: HMAC, initialisation vector,
      ciphertext).
    - Zeroed (ZeroedAllocator.h, ZeroedArray.h, the buffers of Repository and
      TempFileStream): memory that is scrubbed, as addresses and blocks; the
      other files have the contents of these containers only.
    - StdMap (std::map), Filesystem (FileInfo.cpp, the class [Paths] of
      boost::filesystem and its [lexically_relative]), Snapshot (Snapshot.cpp).
    - DataStore (DataStore.h: the class of backends and the contract
      [DataStoreSpec]) and its implementations FileDataStore,
      SSHDataStore (over the class [SSH]) and AwsS3DataStore (over [S3]).
    - Repository (Repository.h/cpp: keys, snapshots, blocks) and Upload (its
      uploadFile, finalizePack and downloadFile).
    - Cli (options, prompts and dispatch of src/cli/Main.cpp), CliFormat (what
      it prints), CliCommands (its commands over a [process]).

    State is passed explicitly: a stream is a record that a call returns anew, a
    backend and the clock are the state of [io (world D)] (the monad [io] is
    below), a process adds the console and the disk.  A state survives an
    exception, as in C++; so does the output of a copy, of the opening of an
    object and of a download ([copy_into], [decompress_into], [download_into]),
    of which [copyTo], [decompressDecryptHMAC] and [downloadFile] are the forms
    for callers that drop the output with the exception.

    ** What the theorems show

    - The whole program.  Backup: an abstract specification (a working set and
      named snapshots, maps from paths to contents); commands that are given
      with their preconditions ([pre_all]) complete and implement it
      ([backup_refinement]), and with the store and the password alone
      everything committed comes back ([disaster_recovery]).  CliSpec,
      CliRestore, CliBackup, CliHistory: the command line does this too, end to
      end: [backup] commits exactly the files of its arguments, whatever becomes a
      pack or is cut into blocks, [restore] of a later process puts those that
      its arguments name back ([backup_command], [restore_correct]); from a
      store that was damaged it restores exactly or fails with a beginning of the
      file ([restore_damaged]); and this stays so over a life of backups and
      changes of the password ([repository_life]).  Three commands do not do what
      they say: a restore of a whole snapshot writes no file (in
      [restore_correct]: the relative path from an empty base is empty in
      boost), a dry run commits ([dry_run_commits_empty]), and a second backup of
      an unchanged small file is undefined ([backup_twice_undefined]).
    - Files.  FileTransfer ([transfer_roundtrip]) and PackFiles
      ([pack_roundtrip], [pack_collects], [finalizePack_existing]) over the
      lemmas of RepositoryFiles; Integrity: from a damaged store a download writes
      the right contents, or a beginning of them and throws ([download_sound]),
      but objects that
      are exchanged are not noticed ([exchange_unnoticed]).  A large file is cut
      into blocks that partition it within their bounds ([blocks_correct]), by
      comparison of the loop with the reference definition [blocks_of] of
      Chunks.
    - Keys and snapshots.  RepositoryKeys ([unlock_correct],
      [change_password_correct], [snapshot_commit_load]); Snapshot: the
      invariant of the catalogue, saving and loading, loading of any bytes on
      any heap ([load_terminates]; [Heap] says what a vector can be resized to
      and what byte comes after the string table, which is read), entries, and the walk of a directory with its defect
      ([forEach_misses_files]).
    - Memory.  What the scrubbed containers held cannot be found in memory that
      is not in use ([scrubbed_memory]), the table of a rolling hash excepted
      ([table_left]).
    - Objects.  StreamUtils: opening a sealed object gives its contents
      ([object_roundtrip]) and nothing that is not authentic is decrypted
      ([tampering_detected]) or written.
    - Streams.  Each stream keeps the contract [InputStreamSpec] or
      [OutputStreamSpec], as instances; the rest is proved against the
      contracts.  Round trips of the temporary, cipher and LZMA streams,
      transparency of the others.
    - Encodings.  Base32 against RFC 4648, the rolling hash against the
      polynomial of its window.
    - Backends.  FileDataStore is a finite map ([file_store_map]) when the file
      system has no errors ([Faults]), which it reports otherwise
      ([fds_get_error]); the SFTP and the S3 backend do what their theorems say,
      defects included.
    - The console: password prompts, mode strings.

    Properties with a hypothesis have a witness, at a concrete input, with the
    classes instantiated ([Toy], [Plain], [Posix], [Demo], ToySSH, ToyS3).

    ** Bounds

    Loops that are not structural have fuel, and the theorems say that it is
    enough: the number of bytes a stream has left ([remaining], which the model
    adds to the class), the length of the data in the codecs.  Loops that only
    a library ends have a bound that the library's class provides: [dBound] and
    [lBound] of the cipher and LZMA streams are the size of their source and
    [decompress_bound] (an assumption of the theorems on sizes),
    [again_left] and [handle_left] of an SFTP session; how the S3 SDK reads the
    stream of an upload is a finite program ([body_program]).  Machine integers
    are [Z] with [uwrap] and [swrap] where the code relies on or could meet
    their limits.  The logarithm that gives the bits of the rolling hash, which
    the code computes on doubles, is a member of [Env] without a law: it is not
    always the one of the integers (at [2^29] it is 30), and the theorems only
    need that the code clamps it.

    ** Not modelled

    Third-party code is a class with laws, except [lexically_relative] of boost,
    on which the places of restored files depend.  Left out: what
    the containers of the standard library do with scrubbed memory between its
    allocation and its end (in Zeroed it is any sequence of writes), and the
    objects that keep short strings in themselves; failures of an allocation
    outside of Zeroed and of [Snapshot::load]; the recursive mutex of Snapshot and the worker of
    libraries (one thread runs); the buffering of stdio; the allocator of
    LZMAUtils, which is malloc and free; starting and stopping of the AWS SDK;
    the Windows branch of FileInfo; the texts of exceptions, of the help and the
    printing of progress callbacks, which are given as their answers. *)
From Stdlib Require Import String.
From Stdlib Require Import ZArith Lia Bool Strings.Byte List.
From stdpp Require Export base numbers list gmap.

Export String.StringSyntax.

#[global] Open Scope Z_scope.

(** ** Bytes *)

Abbreviation byte := Byte.byte (only parsing).
Abbreviation bytes := (list Byte.byte) (only parsing).

#[export] Instance byte_eq_dec : EqDecision Byte.byte := Byte.byte_eq_dec.
#[export] Instance byte_countable : Countable Byte.byte :=
  inj_countable Byte.to_N Byte.of_N Byte.of_to_N.
#[export] Instance byte_inhabited : Inhabited Byte.byte := populate Byte.x00.

(** The value of an [uint8_t]. *)
Definition b2z (b : byte) : Z := Z.of_N (Byte.to_N b).

(** Conversion of an integer to [uint8_t]: the value modulo 256. *)
Definition z2b (z : Z) : byte :=
  match Byte.of_N (Z.to_N (z mod 256)) with
  | Some b => b
  | None => Byte.x00
  end.

(** A string literal of the source, without its terminating NUL. *)
Definition str (s : String.string) : bytes := String.list_byte_of_string s.

Arguments str s%_string_scope.

(** ** Machine words *)

(** Unsigned words wrap modulo [2^w]; signed words are kept in two's complement. *)
Definition uwrap (w z : Z) : Z := z mod 2 ^ w.
Definition swrap (w z : Z) : Z := (z + 2 ^ (w - 1)) mod 2 ^ w - 2 ^ (w - 1).

Declare Scope nebula_scope.
Delimit Scope nebula_scope with neb.
#[global] Open Scope nebula_scope.

Abbreviation u8 := (uwrap 8) (only parsing).
Abbreviation u16 := (uwrap 16) (only parsing).
Abbreviation u32 := (uwrap 32) (only parsing).
Abbreviation u64 := (uwrap 64) (only parsing).
Abbreviation i32 := (swrap 32) (only parsing).
Abbreviation i64 := (swrap 64) (only parsing).

(** ** Buffers indexed by [size_t] *)

Fixpoint zlen {A} (l : list A) : Z :=
  match l with [] => 0 | _ :: l => Z.succ (zlen l) end.

(** The first [n] elements, or all of them. *)
Fixpoint ztake {A} (n : Z) (l : list A) : list A :=
  match l with
  | [] => []
  | x :: l => if n <=? 0 then [] else x :: ztake (n - 1) l
  end.

(** What is left after the first [n] elements. *)
Fixpoint zdrop {A} (n : Z) (l : list A) : list A :=
  match l with
  | [] => []
  | x :: l' => if n <=? 0 then l else zdrop (n - 1) l'
  end.

(** [p[n]], when the index is inside the buffer. *)
Fixpoint znth {A} (n : Z) (l : list A) : option A :=
  match l with
  | [] => None
  | x :: l => if n =? 0 then Some x else znth (n - 1) l
  end.

(** [p[n] = x]; nothing happens outside of the buffer. *)
Fixpoint zset {A} (n : Z) (x : A) (l : list A) : list A :=
  match l with
  | [] => []
  | y :: l => if n =? 0 then x :: l else y :: zset (n - 1) x l
  end.

(** ** Little-endian integers ([writeType]/[readType] on the target machines) *)

Fixpoint le_bytes (n : nat) (z : Z) : bytes :=
  match n with
  | O => []
  | S n => z2b z :: le_bytes n (z / 256)
  end.

Fixpoint le_val (l : bytes) : Z :=
  match l with
  | [] => 0
  | b :: l => b2z b + 256 * le_val l
  end.

(** ** Outcomes of the code

    [Throw] is a C++ exception of the classes of Exception.h, [Undef] is
    undefined behaviour of C++ (an access outside of a buffer, a read of an
    uninitialised pointer, ...), [NoFuel] says that the bound of a loop of the
    model was too small; the termination theorems exclude it. *)

Inductive exn :=
  | FileNotFoundException
  | FileIOException
  | CancelledException
  | DiskQuotaExceededException
  | InvalidArgumentException
  | RepositoryException
  | InvalidRepositoryException
  | InvalidDataException
  | InvalidOperationException
  | EncryptionFailedException
  | InsufficientBufferSizeException
  | LZMAException
  | IndexOutOfBoundException
  | VerificationFailedException
  | ShortReadException
  | InvalidFormatException
  | InitializationException
  | ConnectionException
  | filesystem_error       (* thrown by boost::filesystem *)
  | length_error           (* thrown by std::vector *)
  | bad_alloc.             (* thrown by operator new *)

#[export] Instance exn_eq_dec : EqDecision exn.
Proof. solve_decision. Defined.

Inductive result (A : Type) :=
  | Ret (a : A)
  | Throw (e : exn)
  | Undef
  | NoFuel.
Arguments Ret {A} a.
Arguments Throw {A} e.
Arguments Undef {A}.
Arguments NoFuel {A}.

#[export] Instance result_ret : MRet result := fun A a => Ret a.
#[export] Instance result_bind : MBind result := fun A B f m =>
  match m with
  | Ret a => f a
  | Throw e => Throw e
  | Undef => Undef
  | NoFuel => NoFuel
  end.
#[export] Instance result_fmap : FMap result := fun A B f m =>
  match m with
  | Ret a => Ret (f a)
  | Throw e => Throw e
  | Undef => Undef
  | NoFuel => NoFuel
  end.

(** [if(!c) throw e;] *)
Definition guard_or (c : bool) (e : exn) : result unit := if c then Ret tt else Throw e.

(** The value of a call that reports its failure, which the code turns into [e]. *)
Definition or_throw {A} (o : option A) (e : exn) : result A :=
  match o with Some a => Ret a | None => Throw e end.

(** An access that is undefined when it is out of bounds. *)
Definition or_undef {A} (o : option A) : result A :=
  match o with Some a => Ret a | None => Undef end.

(** * Lemmas *)

(** ** Outcomes *)

Lemma bind_Ret {A B} (m : result A) (f : A -> result B) b :
  (m ≫= f) = Ret b <-> exists a, m = Ret a /\ f a = Ret b.
Proof. destruct m; simpl; naive_solver. Qed.

Lemma bind_Throw {A B} (m : result A) (f : A -> result B) e :
  (m ≫= f) = Throw e <-> m = Throw e \/ exists a, m = Ret a /\ f a = Throw e.
Proof. destruct m; simpl; naive_solver. Qed.

Lemma bind_assoc {A B C} (m : result A) (f : A -> result B) (g : B -> result C) :
  ((m ≫= f) ≫= g) = (m ≫= fun a => f a ≫= g).
Proof. by destruct m. Qed.

Lemma bind_of_Ret {A B} (a : A) (f : A -> result B) : (Ret a ≫= f) = f a.
Proof. done. Qed.

Lemma or_throw_Ret {A} (o : option A) e a : or_throw o e = Ret a <-> o = Some a.
Proof. destruct o; simpl; naive_solver. Qed.

Lemma or_undef_Ret {A} (o : option A) a : or_undef o = Ret a <-> o = Some a.
Proof. destruct o; simpl; naive_solver. Qed.

Lemma guard_or_Ret c e u : guard_or c e = Ret u <-> c = true.
Proof. destruct c, u; simpl; naive_solver. Qed.

(** Splits the hypotheses [(x ← m; k) = Ret b] of the context. *)
Ltac inv_ret :=
  repeat match goal with
  | H : (_ ≫= _) = Ret _ |- _ =>
      let a := fresh "r" in let H1 := fresh "Hr" in let H2 := fresh "Hk" in
      apply bind_Ret in H as (a & H1 & H2); simpl in H2
  | H : or_throw _ _ = Ret _ |- _ => apply or_throw_Ret in H
  | H : or_undef _ = Ret _ |- _ => apply or_undef_Ret in H
  | H : guard_or _ _ = Ret _ |- _ => apply guard_or_Ret in H
  | H : Ret _ = Ret _ |- _ => injection H as H
  | p : (_ * _)%type |- _ => destruct p
  end; simplify_eq.

(** ** Bytes and words *)

Lemma b2z_range b : 0 <= b2z b < 256.
Proof. unfold b2z. pose proof (Byte.to_N_bounded b). lia. Qed.

Lemma z2b_b2z b : z2b (b2z b) = b.
Proof.
  unfold z2b. rewrite Z.mod_small by apply b2z_range.
  unfold b2z. rewrite N2Z.id, Byte.of_to_N. done.
Qed.

Lemma b2z_z2b z : b2z (z2b z) = z mod 256.
Proof.
  assert (0 <= z mod 256 < 256) as Hr by (apply Z.mod_pos_bound; lia).
  unfold z2b, b2z. destruct (Byte.of_N _) as [b|] eqn:E.
  - apply Byte.to_of_N in E. rewrite E. lia.
  - apply Byte.of_N_None_iff in E. lia.
Qed.

Lemma b2z_inj a b : b2z a = b2z b -> a = b.
Proof. intros H. rewrite <-(z2b_b2z a), <-(z2b_b2z b). by rewrite H. Qed.

Lemma z2b_mod z : z2b (z mod 256) = z2b z.
Proof. unfold z2b. by rewrite Z.mod_mod by lia. Qed.

Lemma uwrap_range w z : 0 <= w -> 0 <= uwrap w z < 2 ^ w.
Proof. intros. apply Z.mod_pos_bound. lia. Qed.

Lemma uwrap_small w z : 0 <= z < 2 ^ w -> uwrap w z = z.
Proof. apply Z.mod_small. Qed.

Lemma swrap_range w z : 0 < w -> - 2 ^ (w - 1) <= swrap w z < 2 ^ (w - 1).
Proof.
  intros Hw. unfold swrap.
  assert (2 ^ w = 2 * 2 ^ (w - 1)) as E.
  { rewrite <-Z.pow_succ_r by lia. f_equal. lia. }
  pose proof (Z.mod_pos_bound (z + 2 ^ (w - 1)) (2 ^ w)). lia.
Qed.

Lemma swrap_small w z : 0 < w -> - 2 ^ (w - 1) <= z < 2 ^ (w - 1) -> swrap w z = z.
Proof.
  intros Hw Hz. unfold swrap.
  assert (2 ^ w = 2 * 2 ^ (w - 1)) as E.
  { rewrite <-Z.pow_succ_r by lia. f_equal. lia. }
  rewrite Z.mod_small; lia.
Qed.

(** ** Buffers *)

Lemma zlen_length {A} (l : list A) : zlen l = Z.of_nat (length l).
Proof. induction l; cbn [zlen length]; lia. Qed.

Lemma to_nat_zlen {A} (l : list A) : Z.to_nat (zlen l) = length l.
Proof. by rewrite zlen_length, Nat2Z.id. Qed.

Lemma zlen_nonneg {A} (l : list A) : 0 <= zlen l.
Proof. rewrite zlen_length. lia. Qed.

Lemma zlen_app {A} (l k : list A) : zlen (l ++ k) = zlen l + zlen k.
Proof. rewrite !zlen_length, length_app. lia. Qed.

Lemma zlen_nil {A} : zlen (@nil A) = 0.
Proof. done. Qed.

Lemma zlen_cons {A} (x : A) l : zlen (x :: l) = 1 + zlen l.
Proof. simpl. lia. Qed.

Lemma zlen_nil_inv {A} (l : list A) : zlen l = 0 -> l = [].
Proof. destruct l; [done|]. simpl. pose proof (zlen_nonneg l). lia. Qed.

Lemma ztake_take {A} n (l : list A) : ztake n l = take (Z.to_nat n) l.
Proof.
  revert n. induction l as [|x l IH]; intros n; simpl; [by rewrite take_nil|].
  case (Z.leb_spec n 0); intros.
  - by rewrite Z2Nat.nonpos by lia.
  - rewrite IH. replace (Z.to_nat n) with (S (Z.to_nat (n - 1))) by lia. done.
Qed.

Lemma zdrop_drop {A} n (l : list A) : zdrop n l = drop (Z.to_nat n) l.
Proof.
  revert n. induction l as [|x l IH]; intros n; simpl; [by rewrite drop_nil|].
  case (Z.leb_spec n 0); intros.
  - by rewrite Z2Nat.nonpos by lia.
  - rewrite IH. replace (Z.to_nat n) with (S (Z.to_nat (n - 1))) by lia. done.
Qed.

Lemma znth_lookup {A} n (l : list A) : 0 <= n -> znth n l = l !! Z.to_nat n.
Proof.
  revert n. induction l as [|x l IH]; intros n Hn; simpl; [done|].
  case (Z.eqb_spec n 0); intros.
  - by subst.
  - rewrite IH by lia. replace (Z.to_nat n) with (S (Z.to_nat (n - 1))) by lia. done.
Qed.

Lemma ztake_zdrop {A} n (l : list A) : ztake n l ++ zdrop n l = l.
Proof. rewrite ztake_take, zdrop_drop. apply take_drop. Qed.

Lemma zlen_fmap {A B} (f : A -> B) (l : list A) : zlen (f <$> l) = zlen l.
Proof. by rewrite !zlen_length, length_fmap. Qed.

Lemma zlen_ztake {A} n (l : list A) : 0 <= n -> zlen (ztake n l) = Z.min n (zlen l).
Proof. intros. rewrite ztake_take, !zlen_length, length_take. lia. Qed.

Lemma zlen_zdrop {A} n (l : list A) : 0 <= n -> zlen (zdrop n l) = Z.max 0 (zlen l - n).
Proof. intros. rewrite zdrop_drop, !zlen_length, length_drop. lia. Qed.

Lemma ztake_nonpos {A} n (l : list A) : n <= 0 -> ztake n l = [].
Proof. intros. rewrite ztake_take, Z2Nat.nonpos by lia. done. Qed.

Lemma zdrop_nonpos {A} n (l : list A) : n <= 0 -> zdrop n l = l.
Proof. intros. rewrite zdrop_drop, Z2Nat.nonpos by lia. done. Qed.

Lemma ztake_ge {A} n (l : list A) : zlen l <= n -> ztake n l = l.
Proof. rewrite zlen_length. intros. rewrite ztake_take, take_ge by lia. done. Qed.

Lemma zdrop_ge {A} n (l : list A) : zlen l <= n -> zdrop n l = [].
Proof. rewrite zlen_length. intros. rewrite zdrop_drop, drop_ge by lia. done. Qed.

Lemma ztake_nil {A} n : ztake n (@nil A) = [].
Proof. done. Qed.

Lemma zdrop_nil {A} n : zdrop n (@nil A) = [].
Proof. done. Qed.

Lemma zdrop_zdrop {A} n m (l : list A) : 0 <= n -> 0 <= m -> zdrop n (zdrop m l) = zdrop (m + n) l.
Proof. intros. rewrite !zdrop_drop, drop_drop. f_equal. lia. Qed.

Lemma ztake_add {A} n m (l : list A) :
  0 <= n -> 0 <= m -> ztake (n + m) l = ztake n l ++ ztake m (zdrop n l).
Proof.
  intros. rewrite !ztake_take, zdrop_drop, Z2Nat.inj_add by lia.
  by rewrite take_take_drop.
Qed.

Lemma ztake_app {A} n (l k : list A) :
  0 <= n -> ztake n (l ++ k) = ztake n l ++ ztake (n - zlen l) k.
Proof.
  intros. rewrite !ztake_take, take_app, zlen_length. f_equal. f_equal. lia.
Qed.

Lemma zdrop_app {A} n (l k : list A) :
  0 <= n -> zdrop n (l ++ k) = zdrop n l ++ zdrop (n - zlen l) k.
Proof.
  intros. rewrite !zdrop_drop, drop_app, zlen_length. f_equal. f_equal. lia.
Qed.

Lemma ztake_app_exact {A} (l k : list A) n : n = zlen l -> ztake n (l ++ k) = l.
Proof.
  intros ->. rewrite ztake_app by apply zlen_nonneg.
  rewrite (ztake_ge (zlen l) l), (ztake_nonpos _ k), app_nil_r by lia. done.
Qed.

Lemma zdrop_app_exact {A} (l k : list A) n : n = zlen l -> zdrop n (l ++ k) = k.
Proof.
  intros ->. rewrite zdrop_app by apply zlen_nonneg.
  rewrite (zdrop_ge (zlen l) l), (zdrop_nonpos _ k) by lia. done.
Qed.

Lemma ztake_ztake {A} n m (l : list A) : 0 <= n <= m -> ztake n (ztake m l) = ztake n l.
Proof. intros. rewrite !ztake_take, take_take. f_equal. lia. Qed.

Lemma zdrop_ztake {A} n m (l : list A) : 0 <= n -> 0 <= m ->
  zdrop n (ztake m l) = ztake (m - n) (zdrop n l).
Proof.
  intros. rewrite !ztake_take, !zdrop_drop, skipn_firstn_comm. f_equal. lia.
Qed.

Lemma znth_app_l {A} n (l k : list A) : 0 <= n < zlen l -> znth n (l ++ k) = znth n l.
Proof.
  rewrite zlen_length. intros. rewrite !znth_lookup, lookup_app_l by lia. done.
Qed.

Lemma znth_app_r {A} n (l k : list A) : zlen l <= n -> znth n (l ++ k) = znth (n - zlen l) k.
Proof.
  pose proof (zlen_nonneg l). rewrite zlen_length in *. intros.
  rewrite !znth_lookup, lookup_app_r by lia. f_equal. lia.
Qed.

Lemma znth_None {A} n (l : list A) : zlen l <= n -> znth n l = None.
Proof.
  pose proof (zlen_nonneg l). intros. rewrite znth_lookup by lia.
  apply lookup_ge_None. rewrite zlen_length in *. lia.
Qed.

Lemma znth_Some {A} n (l : list A) : 0 <= n < zlen l -> is_Some (znth n l).
Proof.
  rewrite zlen_length. intros. rewrite znth_lookup by lia. apply lookup_lt_is_Some. lia.
Qed.

Lemma zlen_replicate {A} n (x : A) : zlen (replicate n x) = Z.of_nat n.
Proof. by rewrite zlen_length, length_replicate. Qed.

Lemma zlen_concat_le {A} (l : list (list A)) x : x ∈ l -> zlen x <= zlen (concat l).
Proof.
  induction 1 as [|y z l Hin IH]; simpl; rewrite zlen_app.
  - pose proof (zlen_nonneg (concat l)). lia.
  - pose proof (zlen_nonneg z). lia.
Qed.

Lemma zset_insert {A} n x (l : list A) : 0 <= n -> zset n x l = <[Z.to_nat n := x]> l.
Proof.
  revert n. induction l as [|y l IH]; intros n Hn; simpl; [done|].
  case (Z.eqb_spec n 0); intros.
  - by subst.
  - rewrite IH by lia. replace (Z.to_nat n) with (S (Z.to_nat (n - 1))) by lia. done.
Qed.

Lemma zlen_zset {A} n x (l : list A) : zlen (zset n x l) = zlen l.
Proof. revert n. induction l as [|y l IH]; intros n; simpl; [done|]. case_match; simpl; congruence. Qed.

(** ** Little-endian integers *)

Lemma zlen_le_bytes n z : zlen (le_bytes n z) = Z.of_nat n.
Proof. revert z. induction n as [|n IH]; intros z; [done|]. cbn [le_bytes zlen]. rewrite IH. lia. Qed.

Lemma le_val_le_bytes n z : le_val (le_bytes n z) = z mod 256 ^ Z.of_nat n.
Proof.
  revert z. induction n as [|n IH]; intros z; [by rewrite Z.mod_1_r|].
  cbn [le_bytes le_val]. rewrite IH, b2z_z2b.
  assert (0 < 256 ^ Z.of_nat n) by (apply Z.pow_pos_nonneg; lia).
  rewrite Nat2Z.inj_succ, Z.pow_succ_r by lia. rewrite Z.rem_mul_r by lia. done.
Qed.

Lemma le_val_range l : 0 <= le_val l < 256 ^ zlen l.
Proof.
  induction l as [|b l IH]; cbn [le_val zlen]; [lia|].
  rewrite Z.pow_succ_r by apply zlen_nonneg. pose proof (b2z_range b). lia.
Qed.

Lemma le_bytes_le_val l : le_bytes (length l) (le_val l) = l.
Proof.
  induction l as [|b l IH]; [done|]. cbn [le_bytes le_val length].
  pose proof (b2z_range b). f_equal.
  - rewrite <-z2b_mod. replace ((b2z b + 256 * le_val l) mod 256) with (b2z b).
    + apply z2b_b2z.
    + Z.div_mod_to_equations. lia.
  - replace ((b2z b + 256 * le_val l) / 256) with (le_val l); [done|].
    Z.div_mod_to_equations. lia.
Qed.

Lemma le_bytes_small n z : 0 <= z < 256 ^ Z.of_nat n -> le_val (le_bytes n z) = z.
Proof. intros. by rewrite le_val_le_bytes, Z.mod_small. Qed.

(** ** Bit operations as arithmetic *)

Lemma lor_add n a b : 0 <= n -> a mod 2 ^ n = 0 -> 0 <= b < 2 ^ n -> Z.lor a b = a + b.
Proof.
  intros Hn Ha Hb.
  assert (Z.land a b = 0) as Hd.
  { apply Z.bits_inj'. intros i Hi. rewrite Z.land_spec, Z.bits_0.
    destruct (Z.lt_ge_cases i n).
    - rewrite <-(Z.mod_pow2_bits_low a n i), Ha, Z.bits_0 by lia. done.
    - rewrite <-(Z.mod_small b (2 ^ n)), Z.mod_pow2_bits_high, andb_false_r by lia. done. }
  by rewrite Z.add_nocarry_lxor, Z.lxor_lor.
Qed.

Lemma lor_shiftl_add n a b : 0 <= n -> 0 <= b < 2 ^ n -> Z.lor (Z.shiftl a n) b = a * 2 ^ n + b.
Proof.
  intros. rewrite Z.shiftl_mul_pow2, (lor_add n) by (rewrite ?Z.mod_mul; lia). done.
Qed.

Lemma land_mask n a : 0 <= n -> Z.land a (Z.shiftl 1 n - 1) = a mod 2 ^ n.
Proof.
  intros. rewrite Z.shiftl_1_l, <-Z.land_ones by lia. f_equal. rewrite Z.ones_equiv. lia.
Qed.

Lemma shiftr_div n a : 0 <= n -> Z.shiftr a n = a / 2 ^ n.
Proof. apply Z.shiftr_div_pow2. Qed.

(** ** State and exceptions *)

(** The state is kept when an exception is thrown. *)
Definition io (W A : Type) : Type := W -> result A * W.

Section Io.
Context {W : Type}.

#[export] Instance io_ret : MRet (io W) := fun A a w => (Ret a, w).
#[export] Instance io_bind : MBind (io W) := fun A B f m w =>
  match m w with
  | (Ret a, w) => f a w
  | (Throw e, w) => (Throw e, w)
  | (Undef, w) => (Undef, w)
  | (NoFuel, w) => (NoFuel, w)
  end.

(** A computation that does not touch the state. *)
Definition lift {A} (m : result A) : io W A := fun w => (m, w).
Definition throw {A} (e : exn) : io W A := fun w => (Throw e, w).
Definition get_state : io W W := fun w => (Ret w, w).
Definition put_state (w : W) : io W unit := fun _ => (Ret tt, w).

Lemma io_bind_Ret {A B} (m : io W A) (f : A -> io W B) w a w' : m w = (Ret a, w') -> (m ≫= f) w = f a w'.
Proof. intros E. unfold mbind, io_bind. by rewrite E. Qed.

Lemma io_bind_Throw {A B} (m : io W A) (f : A -> io W B) w e w' : m w = (Throw e, w') ->
  (m ≫= f) w = (Throw e, w').
Proof. intros E. unfold mbind, io_bind. by rewrite E. Qed.

Lemma io_bind_Undef {A B} (m : io W A) (f : A -> io W B) w : fst (m w) = Undef -> fst ((m ≫= f) w) = Undef.
Proof. unfold mbind, io_bind. by destruct (m w) as [[] ?]. Qed.

Lemma io_Ret_inj {A} (a b : A) (w w' : W) : (Ret a, w) = (Ret b, w') -> a = b /\ w = w'.
Proof. intros E. by injection E. Qed.

Lemma io_bind_inv {A B} (m : io W A) (f : A -> io W B) w b w' : (m ≫= f) w = (Ret b, w') ->
  exists a w1, m w = (Ret a, w1) /\ f a w1 = (Ret b, w').
Proof. unfold mbind, io_bind. destruct (m w) as [[a| | |] w1]; [|done..]. by exists a, w1. Qed.

Lemma io_bind_lift {A B} (a : A) (f : A -> io W B) w : (lift (Ret a) ≫= f) w = f a w.
Proof. done. Qed.

Lemma io_bind_assoc {A B C} (m : io W A) (f : A -> io W B) (g : B -> io W C) w :
  ((m ≫= f) ≫= g) w = (m ≫= fun a => f a ≫= g) w.
Proof. unfold mbind, io_bind. by destruct (m w) as [[] ?]. Qed.

(** A call that changes the state unless it fails. *)
Definition update (f : W -> result W) : io W unit := fun w =>
  match f w with
  | Ret w => (Ret tt, w)
  | Throw e => (Throw e, w)
  | Undef => (Undef, w)
  | NoFuel => (NoFuel, w)
  end.

(** What is left of a call when its state is forgotten with an exception. *)
Definition returned {A} (x : result A * W) : result (A * W) :=
  match x with
  | (Ret a, w) => Ret (a, w)
  | (Throw e, _) => Throw e
  | (Undef, _) => Undef
  | (NoFuel, _) => NoFuel
  end.

Lemma returned_bind {A B} (m : io W A) (f : A -> io W B) w :
  returned ((m ≫= f) w) = ('(a, w) ← returned (m w); returned (f a w)).
Proof. unfold mbind at 1, io_bind. by destruct (m w) as [[] ?]. Qed.

Lemma returned_lift {A} (m : result A) w : returned (lift m w) = (a ← m; Ret (a, w)).
Proof. by destruct m. Qed.

Lemma returned_update (f : W -> result W) w : returned (update f w) = (w ← f w; Ret (tt, w)).
Proof. unfold update. by destruct (f w). Qed.

Lemma returned_Ret {A} (x : result A * W) a w : returned x = Ret (a, w) <-> x = (Ret a, w).
Proof. destruct x as [[] ?]; split; intros E; try done; by injection E as <- <-. Qed.
End Io.

(** The two halves of a state. *)
Definition on_fst {W V A} (m : io W A) : io (W * V) A := fun '(w, v) => let (a, w) := m w in (a, (w, v)).
Definition on_snd {W V A} (m : io V A) : io (W * V) A := fun '(w, v) => let (a, v) := m v in (a, (w, v)).

Lemma on_fst_eq {W V A} (m : io W A) w (v : V) a w' : m w = (a, w') -> on_fst m (w, v) = (a, (w', v)).
Proof. intros E. unfold on_fst. by rewrite E. Qed.

Lemma on_snd_eq {W V A} (m : io V A) (w : W) v a v' : m v = (a, v') -> on_snd m (w, v) = (a, (w, v')).
Proof. intros E. unfold on_snd. by rewrite E. Qed.

(** ** Automation *)

Create HintDb nebula discriminated.
Create Rewrite HintDb zlen.
#[export] Hint Resolve zlen_nonneg b2z_range : nebula.
#[export] Hint Rewrite @zlen_app @zlen_nil @zlen_cons @zlen_replicate @zlen_zset zlen_le_bytes : zlen.

(** Arithmetic over lengths of buffers. *)
Ltac zlen_lia :=
  autorewrite with zlen in *;
  repeat match goal with
  | |- context [zlen ?l] => lazymatch goal with
      | _ : 0 <= zlen l |- _ => fail
      | _ => pose proof (zlen_nonneg l) end
  | _ : context [zlen ?l] |- _ => lazymatch goal with
      | _ : 0 <= zlen l |- _ => fail
      | _ => pose proof (zlen_nonneg l) end
  end; lia.
