(* ===== verification/Base32.v ===== *)
(** * Base32.cpp: the base32 text form of object identifiers

    [base32encode] and [base32decode] of src/libnebula/Base32.cpp, statement by
    statement: the encoder keeps a bit accumulator ([value], [validBits]) and the
    space left in the output ([outLen]); the decoder works on groups of eight
    characters and a final partial group.  [group_value]/[group_digits] is the
    RFC 4648 description they are compared with: a group of five bytes is a
    40-bit number written as eight base-32 digits. *)
From S2P Require Import Prelude.
From Stdlib Require Import ZArith Lia.

(** ** Code *)

Definition base32hex : bytes := str "abcdefghijklmnopqrstuvwxyz234567".

(** The character [base32hex[idx]]. *)
Definition base32char (idx : Z) : byte := default Byte.x00 (znth idx base32hex).

(** The C library's [tolower] in the "C" locale. *)
Definition tolower (c : Z) : Z := if (65 <=? c) && (c <=? 90) then c + 32 else c.

Definition hex32ToInt (ch : byte) : result Z :=
  let c := tolower (swrap 8 (b2z ch)) in
  if (97 <=? c) && (c <=? 122) then Ret (c - 97)
  else if (50 <=? c) && (c <=? 55) then Ret (c - 50 + 26)
  else Throw InvalidArgumentException.

Record encoder := Encoder {
  value : Z;          (* unsigned int value *)
  validBits : Z;      (* int validBits *)
  outLen : Z;         (* size_t outLen: space left in outString *)
  outString : bytes   (* what has been written *)
}.

(** [*outString++ = c; outLen--;] after the check of the space left. *)
Definition put_char (st : encoder) (c : byte) : result encoder :=
  if outLen st <=? 0 then Throw InsufficientBufferSizeException
  else Ret (Encoder (value st) (validBits st) (outLen st - 1) (outString st ++ [c])).

(** [while(validBits >= 5) { ... }] *)
Fixpoint encode_bits (fuel : nat) (st : encoder) : result encoder :=
  if validBits st <? 5 then Ret st
  else match fuel with
  | O => NoFuel
  | S fuel =>
      let shift := validBits st - 5 in
      let idx := Z.land (Z.shiftr (value st) shift) 0x1F in
      st ← put_char st (base32char idx);
      encode_bits fuel (Encoder (Z.land (value st) (Z.shiftl 1 shift - 1))
                                (validBits st - 5) (outLen st) (outString st))
  end.

(** The body of the loop over the input bytes. *)
Definition encode_byte (st : encoder) (b : byte) : result encoder :=
  let v := Z.lor (uwrap 32 (Z.shiftl (value st) 8)) (b2z b) in
  encode_bits (Z.to_nat (validBits st + 8))
              (Encoder v (validBits st + 8) (outLen st) (outString st)).

Fixpoint encode_loop (st : encoder) (data : bytes) : result encoder :=
  match data with
  | [] => Ret st
  | b :: data => st ← encode_byte st b; encode_loop st data
  end.

(** The remainder of the bits. *)
Definition encode_rest (st : encoder) : result encoder :=
  if 0 <? validBits st then
    put_char st (base32char (Z.land (uwrap 32 (Z.shiftl (value st) (5 - validBits st))) 0x1F))
  else Ret st.

(** The text written to [outString], with its terminating NUL. *)
Definition base32encode (data : bytes) (len : Z) : result bytes :=
  st ← encode_loop (Encoder 0 0 len []) data;
  st ← encode_rest st;
  st ← put_char st Byte.x00;
  Ret (outString st).

Definition dec_byte0 (a b : Z) : byte := z2b (Z.lor (Z.shiftl a 3) (Z.shiftr b 2)).
Definition dec_byte1 (b c d : Z) : byte :=
  z2b (Z.lor (Z.lor (Z.shiftl (Z.land b 3) 6) (Z.shiftl c 1)) (Z.shiftr d 4)).
Definition dec_byte2 (d e : Z) : byte := z2b (Z.lor (Z.shiftl (Z.land d 0xF) 4) (Z.shiftr e 1)).
Definition dec_byte3 (e f g : Z) : byte :=
  z2b (Z.lor (Z.lor (Z.shiftl (Z.land e 1) 7) (Z.shiftl f 2)) (Z.shiftr g 3)).
Definition dec_byte4 (g h : Z) : byte := z2b (Z.lor (Z.shiftl (Z.land g 7) 5) h).

(** The final partial group: [switch(inLen & 7)]. *)
Definition decode_tail (s : bytes) : result bytes :=
  match s with
  | [] => Ret []
  | [a; b] =>
      a ← hex32ToInt a; b ← hex32ToInt b;
      Ret [dec_byte0 a b]
  | [a; b; c; d] =>
      a ← hex32ToInt a; b ← hex32ToInt b; c ← hex32ToInt c; d ← hex32ToInt d;
      Ret [dec_byte0 a b; dec_byte1 b c d]
  | [a; b; c; d; e] =>
      a ← hex32ToInt a; b ← hex32ToInt b; c ← hex32ToInt c; d ← hex32ToInt d;
      e ← hex32ToInt e;
      Ret [dec_byte0 a b; dec_byte1 b c d; dec_byte2 d e]
  | [a; b; c; d; e; f; g] =>
      a ← hex32ToInt a; b ← hex32ToInt b; c ← hex32ToInt c; d ← hex32ToInt d;
      e ← hex32ToInt e; f ← hex32ToInt f; g ← hex32ToInt g;
      Ret [dec_byte0 a b; dec_byte1 b c d; dec_byte2 d e; dec_byte3 e f g]
  | _ => Throw InvalidArgumentException
  end.

(** The loop over whole groups, then the tail. *)
Fixpoint decode_groups (s : bytes) : result bytes :=
  match s with
  | a :: b :: c :: d :: e :: f :: g :: h :: s =>
      a ← hex32ToInt a; b ← hex32ToInt b; c ← hex32ToInt c; d ← hex32ToInt d;
      e ← hex32ToInt e; f ← hex32ToInt f; g ← hex32ToInt g; h ← hex32ToInt h;
      out ← decode_groups s;
      Ret (dec_byte0 a b :: dec_byte1 b c d :: dec_byte2 d e :: dec_byte3 e f g
           :: dec_byte4 g h :: out)
  | _ => decode_tail s
  end.

(** [switch(inLen & 7)] that sets [extra]. *)
Definition decode_extra (inLen : Z) : result Z :=
  match Z.land inLen 7 with
  | 0 => Ret 0
  | 2 => Ret 1
  | 4 => Ret 2
  | 5 => Ret 3
  | 7 => Ret 4
  | _ => Throw InvalidArgumentException
  end.

(** The returned count [outBytes] and the bytes written to [data], whose size is [len]. *)
Definition base32decode (s : bytes) (len : Z) : result (Z * bytes) :=
  extra ← decode_extra (zlen s);
  _ ← guard_or (negb (len <? Z.shiftr (zlen s) 3 * 5 + extra)) InsufficientBufferSizeException;
  out ← decode_groups s;
  Ret (zlen out, out).

(** ** Reference: RFC 4648 groups *)

(** The digits of one group of at most five bytes, given the 40-bit number. *)
Definition group_value (b0 b1 b2 b3 b4 : Z) : Z :=
  b0 * 2 ^ 32 + b1 * 2 ^ 24 + b2 * 2 ^ 16 + b3 * 2 ^ 8 + b4.
Definition group_digit (n k : Z) : Z := (n / 2 ^ (35 - 5 * k)) mod 32.
Definition group_chars (n : Z) (ks : list Z) : bytes := (fun k => base32char (group_digit n k)) <$> ks.

Fixpoint rfc4648 (data : bytes) : bytes :=
  match data with
  | b0 :: b1 :: b2 :: b3 :: b4 :: data =>
      group_chars (group_value (b2z b0) (b2z b1) (b2z b2) (b2z b3) (b2z b4)) [0;1;2;3;4;5;6;7]
      ++ rfc4648 data
  | [] => []
  | [b0] => group_chars (group_value (b2z b0) 0 0 0 0) [0;1]
  | [b0; b1] => group_chars (group_value (b2z b0) (b2z b1) 0 0 0) [0;1;2;3]
  | [b0; b1; b2] => group_chars (group_value (b2z b0) (b2z b1) (b2z b2) 0 0) [0;1;2;3;4]
  | [b0; b1; b2; b3] =>
      group_chars (group_value (b2z b0) (b2z b1) (b2z b2) (b2z b3) 0) [0;1;2;3;4;5;6]
  end.

(** The number of characters of [n] bytes, without the NUL. *)
Definition encoded_len (n : Z) : Z := (8 * n + 4) / 5.

Example base32_foobar : base32encode (str "foobar") 17 = Ret (str "mzxw6ytboi" ++ [Byte.x00]).
Proof. vm_compute. reflexivity. Qed.

(** * Properties *)

(** ** Characters *)

(** [base32char] and [hex32ToInt] are inverse on the 32 digits. *)
Lemma hex32ToInt_base32char d : 0 <= d < 32 -> hex32ToInt (base32char d) = Ret d.
Proof.
  intros Hd.
  assert (forallb (fun n => match hex32ToInt (base32char (Z.of_nat n)) with
                            | Ret k => k =? Z.of_nat n | _ => false end) (seq 0 32) = true) as H
    by (vm_compute; reflexivity).
  rewrite forallb_forall in H. specialize (H (Z.to_nat d)).
  rewrite Z2Nat.id in H by lia.
  destruct (hex32ToInt _) as [k| | |];
    (assert (In (Z.to_nat d) (seq 0 32)) as Hin by (apply in_seq; lia); specialize (H Hin)); try done.
  apply Z.eqb_eq in H. by subst.
Qed.

(** ** Capacity of the output buffer *)

(** Every character written takes one byte of the buffer, and no bits are lost. *)
Definition encoder_ok (len n : Z) (st : encoder) : Prop :=
  0 <= outLen st /\ outLen st + zlen (outString st) = len /\
  8 * n = 5 * zlen (outString st) + validBits st /\ 0 <= validBits st.

Lemma put_char_cases st c :
  (outLen st <= 0 /\ put_char st c = Throw InsufficientBufferSizeException) \/
  (0 < outLen st /\
   put_char st c = Ret (Encoder (value st) (validBits st) (outLen st - 1) (outString st ++ [c]))).
Proof. unfold put_char. destruct (Z.leb_spec (outLen st) 0); auto. Qed.

(** How a step of the encoder ends: normally, or because the buffer is full. *)
Definition fits_or_full (len n : Z) (drained : bool) (r : result encoder) (m : Z) : Prop :=
  match r with
  | Ret st => encoder_ok len n st /\ (drained = true -> validBits st < 5)
  | Throw InsufficientBufferSizeException => len < m
  | _ => False
  end.

Lemma encode_bits_ok len n fuel : forall st,
  encoder_ok len n st -> validBits st <= Z.of_nat fuel ->
  fits_or_full len n true (encode_bits fuel st) (8 * n / 5).
Proof.
  induction fuel as [|fuel IH]; intros st (H1 & H2 & H3 & H4) Hf; cbn [encode_bits].
  - destruct (Z.ltb_spec (validBits st) 5); [|lia]. split; [done|]. lia.
  - destruct (Z.ltb_spec (validBits st) 5); [split; [done|lia]|].
    destruct (put_char_cases st (base32char (Z.land (Z.shiftr (value st) (validBits st - 5)) 31)))
      as [[Hl ->]|[Hl ->]]; cbn.
    + pose proof (zlen_nonneg (outString st)). Z.div_mod_to_equations. lia.
    + apply IH; [|cbn; lia]. unfold encoder_ok; cbn [outLen outString validBits value].
      zlen_lia.
Qed.

Lemma encode_byte_ok len n st b :
  encoder_ok len n st ->
  fits_or_full len (n + 1) true (encode_byte st b) (8 * (n + 1) / 5).
Proof.
  intros (H1 & H2 & H3 & H4). apply encode_bits_ok; [|cbn [validBits]; lia].
  unfold encoder_ok; cbn [outLen outString validBits]. lia.
Qed.

Lemma encode_loop_ok len data : forall n st,
  encoder_ok len n st -> validBits st < 5 ->
  fits_or_full len (n + zlen data) true (encode_loop st data) (8 * (n + zlen data) / 5).
Proof.
  induction data as [|b data IH]; intros n st Hok Hv; cbn [encode_loop zlen].
  - rewrite Z.add_0_r. split; auto.
  - pose proof (encode_byte_ok len n st b Hok) as H. unfold fits_or_full in H.
    destruct (encode_byte st b) as [st'|[]| |]; try done; cbn.
    + destruct H as [Hok' Hv']. replace (n + Z.succ (zlen data)) with (n + 1 + zlen data) by lia.
      apply IH; auto.
    + pose proof (zlen_nonneg data). Z.div_mod_to_equations. lia.
Qed.

(** The capacity check of [base32encode] is exact. *)
Lemma base32encode_capacity_aux data len : 0 <= len ->
  match base32encode data len with
  | Ret s => zlen s = encoded_len (zlen data) + 1 /\ zlen s <= len
  | Throw InsufficientBufferSizeException => len < encoded_len (zlen data) + 1
  | _ => False
  end.
Proof.
  intros Hlen. unfold base32encode, encoded_len.
  pose proof (encode_loop_ok len data 0 (Encoder 0 0 len [])) as H. rewrite Z.add_0_l in H.
  specialize (H ltac:(unfold encoder_ok; cbn; lia) ltac:(cbn; lia)).
  pose proof (zlen_nonneg data).
  destruct (encode_loop _ data) as [st|[]| |]; try done; cbn; cbn in H;
    [|Z.div_mod_to_equations; lia].
  destruct H as ((H1 & H2 & H3 & H4) & Hv). specialize (Hv eq_refl).
  unfold encode_rest. destruct (Z.ltb_spec 0 (validBits st)).
  - destruct (put_char_cases st (base32char (Z.land (uwrap 32 (Z.shiftl (value st) (5 - validBits st))) 31)))
      as [[Hl ->]|[Hl ->]]; cbn -[zlen]; [Z.div_mod_to_equations; lia|].
    unfold put_char; cbn [outLen]. destruct (Z.leb_spec (outLen st - 1) 0); cbn -[zlen];
      autorewrite with zlen; Z.div_mod_to_equations; lia.
  - cbn. destruct (put_char_cases st Byte.x00) as [[Hl ->]|[Hl ->]]; cbn -[zlen];
      autorewrite with zlen; Z.div_mod_to_equations; lia.
Qed.

(** ** The encoder computes the RFC 4648 text *)

Lemma put_char_Ret st c st' :
  put_char st c = Ret st' ->
  st' = Encoder (value st) (validBits st) (outLen st - 1) (outString st ++ [c]).
Proof. unfold put_char. destruct (_ <=? _); naive_solver. Qed.

Lemma encode_bits_done fuel st : validBits st < 5 -> encode_bits fuel st = Ret st.
Proof. intros. destruct fuel; simpl; (destruct (Z.ltb_spec (validBits st) 5); [done|lia]). Qed.

Lemma encode_bits_step fuel st st' :
  5 <= validBits st -> encode_bits (S fuel) st = Ret st' ->
  let sh := validBits st - 5 in
  encode_bits fuel (Encoder (value st mod 2 ^ sh) sh (outLen st - 1)
                      (outString st ++ [base32char ((value st / 2 ^ sh) mod 32)])) = Ret st'.
Proof.
  intros Hv H sh. cbn [encode_bits] in H.
  destruct (Z.ltb_spec (validBits st) 5); [lia|].
  apply bind_Ret in H as (st1 & H1 & H). apply put_char_Ret in H1. subst st1.
  cbn [value validBits outLen outString] in H.
  rewrite land_mask, shiftr_div in H by lia.
  change 31 with (Z.ones 5) in H. rewrite Z.land_ones in H by lia. exact H.
Qed.

Lemma encode_byte_run st b st' :
  0 <= validBits st < 5 -> 0 <= value st < 2 ^ validBits st -> encode_byte st b = Ret st' ->
  let w := value st * 256 + b2z b in
  let s := validBits st + 3 in
  let c := base32char ((w / 2 ^ s) mod 32) in
  st' = if s <? 5 then Encoder (w mod 2 ^ s) s (outLen st - 1) (outString st ++ [c])
        else Encoder (w mod 2 ^ s mod 2 ^ (s - 5)) (s - 5) (outLen st - 1 - 1)
               ((outString st ++ [c]) ++ [base32char ((w mod 2 ^ s / 2 ^ (s - 5)) mod 32)]).
Proof.
  intros Hv Hr H w s c. unfold encode_byte in H.
  pose proof (b2z_range b).
  assert (2 ^ validBits st <= 2 ^ 4) by (apply Z.pow_le_mono_r; lia).
  assert (Z.lor (uwrap 32 (Z.shiftl (value st) 8)) (b2z b) = w) as Ew.
  { rewrite Z.shiftl_mul_pow2, uwrap_small, (lor_add 8) by (rewrite ?Z.mod_mul; lia). lia. }
  rewrite Ew in H.
  replace (Z.to_nat (validBits st + 8)) with (S (S (Z.to_nat (validBits st + 6)))) in H by lia.
  apply encode_bits_step in H; [|cbn; lia]. cbn [value validBits outLen outString] in H.
  replace (validBits st + 8 - 5) with s in H by lia.
  destruct (Z.ltb_spec s 5).
  - rewrite encode_bits_done in H by (cbn; lia). by injection H.
  - apply encode_bits_step in H; [|cbn; lia]. cbn [value validBits outLen outString] in H.
    rewrite encode_bits_done in H by (cbn; lia). by injection H.
Qed.

(** The five states in which the encoder meets a byte. *)
Section RunByte.
Context (v len : Z) (out : bytes) (b : byte) (st' : encoder).

Ltac run := intros Hv H; apply encode_byte_run in H; [exact H | cbn; lia | cbn; lia].

Lemma run0 : 0 <= v < 1 -> encode_byte (Encoder v 0 len out) b = Ret st' ->
  let w := v * 256 + b2z b in
  st' = Encoder (w mod 8) 3 (len - 1) (out ++ [base32char ((w / 8) mod 32)]).
Proof. run. Qed.

Lemma run3 : 0 <= v < 8 -> encode_byte (Encoder v 3 len out) b = Ret st' ->
  let w := v * 256 + b2z b in
  st' = Encoder ((w mod 64) mod 2) 1 (len - 1 - 1)
          ((out ++ [base32char ((w / 64) mod 32)]) ++ [base32char ((w mod 64 / 2) mod 32)]).
Proof. run. Qed.

Lemma run1 : 0 <= v < 2 -> encode_byte (Encoder v 1 len out) b = Ret st' ->
  let w := v * 256 + b2z b in
  st' = Encoder (w mod 16) 4 (len - 1) (out ++ [base32char ((w / 16) mod 32)]).
Proof. run. Qed.

Lemma run4 : 0 <= v < 16 -> encode_byte (Encoder v 4 len out) b = Ret st' ->
  let w := v * 256 + b2z b in
  st' = Encoder ((w mod 128) mod 4) 2 (len - 1 - 1)
          ((out ++ [base32char ((w / 128) mod 32)]) ++ [base32char ((w mod 128 / 4) mod 32)]).
Proof. run. Qed.

Lemma run2 : 0 <= v < 4 -> encode_byte (Encoder v 2 len out) b = Ret st' ->
  let w := v * 256 + b2z b in
  st' = Encoder ((w mod 32) mod 1) 0 (len - 1 - 1)
          ((out ++ [base32char ((w / 32) mod 32)]) ++ [base32char ((w mod 32 / 1) mod 32)]).
Proof. run. Qed.
End RunByte.

(** Runs the bytes of the input through hypothesis [H]. *)
Ltac run_bytes H :=
  cbn [encode_loop] in H;
  repeat (let st := fresh "st" in let H1 := fresh "H" in
    apply bind_Ret in H as (st & H1 & H);
    first [apply run0 in H1 | apply run3 in H1 | apply run1 in H1 | apply run4 in H1
          | apply run2 in H1];
    [subst st | first [apply Z.mod_pos_bound; lia | lia]]).

Ltac compute_pow :=
  repeat match goal with
  | |- context [2 ^ ?e] => let x := eval vm_compute in (2 ^ e) in change (2 ^ e) with x
  end.

(** Compares the characters of both sides digit by digit. *)
Ltac by_digits :=
  rewrite <-?app_assoc; cbn [app]; repeat f_equal;
  unfold group_digit, group_value; compute_pow;
  Z.div_mod_to_equations; lia.

(** Five bytes leave no bits behind. *)
Lemma encode_group b0 b1 b2 b3 b4 data len out st :
  encode_loop (Encoder 0 0 len out) (b0 :: b1 :: b2 :: b3 :: b4 :: data) = Ret st ->
  encode_loop (Encoder 0 0 (len - 8)
    (out ++ group_chars (group_value (b2z b0) (b2z b1) (b2z b2) (b2z b3) (b2z b4)) [0;1;2;3;4;5;6;7]))
    data = Ret st.
Proof.
  intros H.
  pose proof (b2z_range b0); pose proof (b2z_range b1); pose proof (b2z_range b2);
  pose proof (b2z_range b3); pose proof (b2z_range b4).
  cbn [encode_loop] in H. run_bytes H. rewrite <-H. rewrite Z.mod_1_r.
  f_equal. f_equal; [lia|]. unfold group_chars; cbn [fmap list_fmap].
  by_digits.
Qed.

(** Fewer than five bytes: the remaining bits are padded with zeros. *)
Lemma encode_partial data len out st :
  (length data < 5)%nat ->
  (encode_loop (Encoder 0 0 len out) data ≫= encode_rest) = Ret st ->
  outString st = out ++ rfc4648 data.
Proof.
  intros Hl H. apply bind_Ret in H as (st1 & H & Hr).
  destruct data as [|b0 [|b1 [|b2 [|b3 [|]]]]]; simpl in Hl; try lia;
    try pose proof (b2z_range b0); try pose proof (b2z_range b1);
    try pose proof (b2z_range b2); try pose proof (b2z_range b3);
    run_bytes H; injection H as <-;
    unfold encode_rest in Hr; cbn [validBits value Z.ltb Z.compare] in Hr;
    [injection Hr as <-; by rewrite app_nil_r|..];
    apply put_char_Ret in Hr; subst st; cbn [outString rfc4648];
    change 31 with (Z.ones 5); rewrite Z.land_ones, Z.shiftl_mul_pow2 by lia;
    unfold uwrap, group_chars; cbn [fmap list_fmap]; by_digits.
Qed.

Lemma encode_rfc4648 data : forall len out st,
  (encode_loop (Encoder 0 0 len out) data ≫= encode_rest) = Ret st ->
  outString st = out ++ rfc4648 data.
Proof.
  induction data as [data IH] using (induction_ltof1 _ (@length byte)). intros len out st H.
  destruct (Nat.lt_ge_cases (length data) 5) as [Hl|Hl]; [by apply encode_partial in H|].
  destruct data as [|b0 [|b1 [|b2 [|b3 [|b4 data]]]]]; simpl in Hl; try lia.
  apply bind_Ret in H as (st1 & H & Hr). apply encode_group in H.
  rewrite (IH data) with (len := len - 8) (st := st)
    (out := out ++ group_chars (group_value (b2z b0) (b2z b1) (b2z b2) (b2z b3) (b2z b4)) [0;1;2;3;4;5;6;7]).
  - rewrite <-app_assoc. done.
  - unfold ltof. simpl. lia.
  - by rewrite H.
Qed.

(** ** The decoder inverts it *)

Lemma dec_byte0_eq a b : 0 <= a < 32 -> 0 <= b < 32 ->
    dec_byte0 a b = z2b (a * 8 + b / 4).
Proof.
  intros. unfold dec_byte0. rewrite shiftr_div, lor_shiftl_add by (Z.div_mod_to_equations; lia). done.
Qed.

Lemma dec_byte1_eq b c d : 0 <= b < 32 -> 0 <= c < 32 -> 0 <= d < 32 ->
    dec_byte1 b c d = z2b (b mod 4 * 64 + c * 2 + d / 16).
Proof.
  intros. unfold dec_byte1. change (Z.land b 3) with (Z.land b (Z.ones 2)).
  rewrite Z.land_ones, shiftr_div, lor_shiftl_add by (rewrite ?Z.shiftl_mul_pow2; lia).
  rewrite (lor_add 1) by (rewrite ?Z.shiftl_mul_pow2 by lia; Z.div_mod_to_equations; lia).
  rewrite Z.shiftl_mul_pow2 by lia. f_equal.
Qed.

Lemma dec_byte2_eq d e : 0 <= d < 32 -> 0 <= e < 32 ->
    dec_byte2 d e = z2b (d mod 16 * 16 + e / 2).
Proof.
  intros. unfold dec_byte2. change (Z.land d 15) with (Z.land d (Z.ones 4)).
  rewrite Z.land_ones, shiftr_div, lor_shiftl_add by (Z.div_mod_to_equations; lia). done.
Qed.

Lemma dec_byte3_eq e f g : 0 <= e < 32 -> 0 <= f < 32 -> 0 <= g < 32 ->
    dec_byte3 e f g = z2b (e mod 2 * 128 + f * 4 + g / 8).
Proof.
  intros. unfold dec_byte3. change (Z.land e 1) with (Z.land e (Z.ones 1)).
  rewrite Z.land_ones, shiftr_div, lor_shiftl_add by (rewrite ?Z.shiftl_mul_pow2; lia).
  rewrite (lor_add 2) by (rewrite ?Z.shiftl_mul_pow2 by lia; Z.div_mod_to_equations; lia).
  rewrite Z.shiftl_mul_pow2 by lia. f_equal.
Qed.

Lemma dec_byte4_eq g h : 0 <= g < 32 -> 0 <= h < 32 ->
    dec_byte4 g h = z2b (g mod 8 * 32 + h).
Proof.
  intros. unfold dec_byte4. change (Z.land g 7) with (Z.land g (Z.ones 3)).
  rewrite Z.land_ones, lor_shiftl_add by lia. done.
Qed.

Lemma group_digit_range n k : 0 <= group_digit n k < 32.
Proof. apply Z.mod_pos_bound. lia. Qed.
#[local] Hint Resolve group_digit_range : nebula.

Lemma hex_group_digit n k : hex32ToInt (base32char (group_digit n k)) = Ret (group_digit n k).
Proof. apply hex32ToInt_base32char, group_digit_range. Qed.

(** Each decoded byte is the byte of the 40-bit group number it comes from. *)
Lemma decode_group_bytes b0 b1 b2 b3 b4 :
  let n := group_value (b2z b0) (b2z b1) (b2z b2) (b2z b3) (b2z b4) in
  let d := group_digit n in
  dec_byte0 (d 0) (d 1) = b0 /\ dec_byte1 (d 1) (d 2) (d 3) = b1 /\ dec_byte2 (d 3) (d 4) = b2 /\
  dec_byte3 (d 4) (d 5) (d 6) = b3 /\ dec_byte4 (d 6) (d 7) = b4.
Proof.
  intros n d.
  pose proof (b2z_range b0); pose proof (b2z_range b1); pose proof (b2z_range b2);
  pose proof (b2z_range b3); pose proof (b2z_range b4).
  rewrite dec_byte0_eq, dec_byte1_eq, dec_byte2_eq, dec_byte3_eq, dec_byte4_eq by apply group_digit_range.
  split_and!;
    match goal with |- z2b ?x = ?b => rewrite <-(z2b_b2z b); f_equal end;
    unfold d, n, group_digit, group_value; compute_pow; Z.div_mod_to_equations; lia.
Qed.

Lemma decode_groups_tail s : zlen s < 8 -> decode_groups s = decode_tail s.
Proof.
  do 8 (destruct s as [|? s]; [done|]). rewrite !zlen_cons. pose proof (zlen_nonneg s). lia.
Qed.

Lemma decode_rfc4648 data : decode_groups (rfc4648 data) = Ret data.
Proof.
  induction data as [data IH] using (induction_ltof1 _ (@length byte)).
  destruct data as [|b0 [|b1 [|b2 [|b3 [|b4 data]]]]];
    cbn [rfc4648 group_chars fmap list_fmap app].
  - done.
  - pose proof (decode_group_bytes b0 Byte.x00 Byte.x00 Byte.x00 Byte.x00) as (E0 & _).
    rewrite decode_groups_tail by done. cbn [decode_tail].
    rewrite !hex_group_digit, !bind_of_Ret. change (b2z Byte.x00) with 0 in *. by rewrite E0.
  - pose proof (decode_group_bytes b0 b1 Byte.x00 Byte.x00 Byte.x00) as (E0 & E1 & _).
    rewrite decode_groups_tail by done. cbn [decode_tail].
    rewrite !hex_group_digit, !bind_of_Ret. change (b2z Byte.x00) with 0 in *. by rewrite E0, E1.
  - pose proof (decode_group_bytes b0 b1 b2 Byte.x00 Byte.x00) as (E0 & E1 & E2 & _).
    rewrite decode_groups_tail by done. cbn [decode_tail].
    rewrite !hex_group_digit, !bind_of_Ret. change (b2z Byte.x00) with 0 in *. by rewrite E0, E1, E2.
  - pose proof (decode_group_bytes b0 b1 b2 b3 Byte.x00) as (E0 & E1 & E2 & E3 & _).
    rewrite decode_groups_tail by done. cbn [decode_tail].
    rewrite !hex_group_digit, !bind_of_Ret. change (b2z Byte.x00) with 0 in *. by rewrite E0, E1, E2, E3.
  - pose proof (decode_group_bytes b0 b1 b2 b3 b4) as (E0 & E1 & E2 & E3 & E4).
    cbn [decode_groups]. rewrite !hex_group_digit, !bind_of_Ret.
    rewrite (IH data) by (unfold ltof; simpl; lia). rewrite bind_of_Ret.
    by rewrite E0, E1, E2, E3, E4.
Qed.

(** ** Lengths *)

Lemma zlen_group_chars n ks : zlen (group_chars n ks) = zlen ks.
Proof. unfold group_chars. by rewrite !zlen_length, length_fmap. Qed.

Lemma zlen_rfc4648 data : zlen (rfc4648 data) = encoded_len (zlen data).
Proof.
  unfold encoded_len. induction data as [data IH] using (induction_ltof1 _ (@length byte)).
  destruct data as [|b0 [|b1 [|b2 [|b3 [|b4 data]]]]]; try done.
  cbn [rfc4648]. rewrite zlen_app, zlen_group_chars, IH by (unfold ltof; simpl; lia).
  rewrite !zlen_cons, zlen_nil. Z.div_mod_to_equations. lia.
Qed.

(** Only the 32 characters of the alphabet appear in a text. *)
Lemma base32char_in d : 0 <= d < 32 -> base32char d ∈ base32hex.
Proof.
  intros Hd. unfold base32char. destruct (znth_Some d base32hex) as [c E]; [exact Hd|]. rewrite E.
  rewrite znth_lookup in E by lia. by eapply list_elem_of_lookup_2.
Qed.

Lemma rfc4648_alphabet data c : c ∈ rfc4648 data -> c ∈ base32hex.
Proof.
  assert (forall n ks, c ∈ group_chars n ks -> c ∈ base32hex) as Hg.
  { intros n ks Hc. apply list_elem_of_fmap in Hc as (k & -> & _). apply base32char_in, group_digit_range. }
  induction data as [data IH] using (induction_ltof1 _ (@length byte)).
  destruct data as [|b0 [|b1 [|b2 [|b3 [|b4 data]]]]]; cbn [rfc4648];
    try apply Hg; [by intros Hc%elem_of_nil|].
  rewrite elem_of_app. intros [Hc|Hc]; [eauto|]. apply (IH data); [unfold ltof; simpl; lia|done].
Qed.

(** [switch(inLen & 7)] on the length of an encoded text gives the length of the data. *)
Lemma decode_extra_encoded n : 0 <= n ->
  exists extra, decode_extra (encoded_len n) = Ret extra /\
                Z.shiftr (encoded_len n) 3 * 5 + extra = n.
Proof.
  intros Hn. unfold decode_extra.
  change 7 with (Z.ones 3). rewrite Z.land_ones, shiftr_div by lia.
  change (2 ^ 3) with 8. unfold encoded_len.
  pose proof (Z.mod_pos_bound n 5).
  set (q := n / 5). assert (n = 5 * q + n mod 5) as En by (apply Z.div_mod; lia).
  assert (n mod 5 = 0 \/ n mod 5 = 1 \/ n mod 5 = 2 \/ n mod 5 = 3 \/ n mod 5 = 4) as Hc by lia.
  destruct Hc as [Hc|[Hc|[Hc|[Hc|Hc]]]]; rewrite Hc in En; rewrite En;
  [ replace ((8 * (5 * q + 0) + 4) / 5) with (0 + q * 8) by (Z.div_mod_to_equations; lia)
  | replace ((8 * (5 * q + 1) + 4) / 5) with (2 + q * 8) by (Z.div_mod_to_equations; lia)
  | replace ((8 * (5 * q + 2) + 4) / 5) with (4 + q * 8) by (Z.div_mod_to_equations; lia)
  | replace ((8 * (5 * q + 3) + 4) / 5) with (5 + q * 8) by (Z.div_mod_to_equations; lia)
  | replace ((8 * (5 * q + 4) + 4) / 5) with (7 + q * 8) by (Z.div_mod_to_equations; lia) ];
  rewrite Z.mod_add by lia; cbn [Z.modulo Z.div_eucl Z.pos_div_eucl];
  rewrite Z.div_add by lia; eexists; (split; [reflexivity|Z.div_mod_to_equations; lia]).
Qed.

(** The decoder writes at most five bytes per group. *)
Lemma decode_groups_length s : forall out, decode_groups s = Ret out ->
  zlen out = (5 * zlen s) / 8.
Proof.
  induction s as [s IH] using (induction_ltof1 _ (@length byte)). intros out H.
  destruct s as [|a [|b [|c [|d [|e [|f [|g [|h s]]]]]]]]; cbn [decode_groups decode_tail] in H;
    inv_ret; try done.
  match goal with H : decode_groups s = _ |- _ => apply IH in H; [|unfold ltof; simpl; lia] end.
  rewrite !zlen_cons. Z.div_mod_to_equations. lia.
Qed.

Lemma hex32ToInt_cases c : (exists d, hex32ToInt c = Ret d) \/ hex32ToInt c = Throw InvalidArgumentException.
Proof. unfold hex32ToInt. repeat case_match; eauto. Qed.

(** Reading invalid characters is the only way the groups can fail. *)
Lemma decode_groups_cases s :
  (exists out, decode_groups s = Ret out) \/ decode_groups s = Throw InvalidArgumentException.
Proof.
  induction s as [s IH] using (induction_ltof1 _ (@length byte)).
  destruct s as [|a [|b [|c [|d [|e [|f [|g [|h s]]]]]]]]; cbn [decode_groups decode_tail]; eauto;
    repeat match goal with
    | |- context [hex32ToInt ?x ≫= _] =>
        destruct (hex32ToInt_cases x) as [[? ->]| ->]; cbn [mbind result_bind]; eauto
    end.
  destruct (IH s) as [[out ->]| ->]; [unfold ltof; simpl; lia|cbn; eauto|cbn; eauto].
Qed.

Lemma decode_groups_Throw s e : decode_groups s = Throw e -> e = InvalidArgumentException.
Proof. destruct (decode_groups_cases s) as [[? E]|E]; congruence. Qed.

Lemma decode_groups_total s : decode_groups s <> Undef /\ decode_groups s <> NoFuel.
Proof. destruct (decode_groups_cases s) as [[? E]|E]; rewrite E; done. Qed.

(** ** Properties of the component *)

(** [base32encode] on either side of the capacity. *)
Lemma base32encode_eq data len : 0 <= len ->
  base32encode data len =
    if encoded_len (zlen data) + 1 <=? len then Ret (rfc4648 data ++ [Byte.x00])
    else Throw InsufficientBufferSizeException.
Proof.
  intros Hlen. pose proof (base32encode_capacity_aux data len Hlen) as H.
  destruct (base32encode data len) as [s|[]| |] eqn:E; try done.
  - destruct (Z.leb_spec (encoded_len (zlen data) + 1) len); [|lia]. f_equal.
    unfold base32encode in E. rewrite <-bind_assoc in E.
    apply bind_Ret in E as (st & E1 & E). apply encode_rfc4648 in E1. simpl in E1.
    apply bind_Ret in E as (st2 & E2 & E). apply put_char_Ret in E2. subst st2.
    cbn in E. injection E as <-. by rewrite E1.
  - destruct (Z.leb_spec (encoded_len (zlen data) + 1) len); [lia|done].
Qed.

(** C26: [base32encode] is the RFC 4648 text followed by a NUL exactly when the
    buffer has room for it, and throws [InsufficientBufferSizeException]
    otherwise; there is no other outcome. *)
Theorem base32encode_correct data len (Hlen : 0 <= len) :
  base32encode data len =
    if encoded_len (zlen data) + 1 <=? len then Ret (rfc4648 data ++ [Byte.x00])
    else Throw InsufficientBufferSizeException.
Proof. by apply base32encode_eq. Qed.

Lemma base32encode_correct_witness :
  0 <= 53 /\ base32encode (str "fooba") 53 = Ret (str "mzxw6ytb" ++ [Byte.x00]).
Proof. split; [lia|]. rewrite (base32encode_correct (str "fooba") 53); [vm_compute; reflexivity|lia]. Defined.

(** C25: decoding the text of an encoding gives the data back when the output
    buffer is large enough, and reports an insufficient buffer when it is not. *)
Theorem base32_roundtrip data len len' s
    (Hlen : 0 <= len) (Henc : base32encode data len = Ret s) :
  exists t, s = t ++ [Byte.x00] /\
    base32decode t len' =
      if zlen data <=? len' then Ret (zlen data, data)
      else Throw InsufficientBufferSizeException.
Proof.
  rewrite base32encode_eq in Henc by done.
  destruct (_ <=? _); [|done]. injection Henc as <-. exists (rfc4648 data). split; [done|].
  unfold base32decode. rewrite zlen_rfc4648.
  destruct (decode_extra_encoded (zlen data)) as (extra & Ex & Hs); [apply zlen_nonneg|].
  rewrite Ex, bind_of_Ret, Hs, decode_rfc4648, Z.leb_antisym. by destruct (len' <? zlen data).
Qed.

Lemma base32_roundtrip_witness :
  0 <= 53 /\ base32encode (str "nebula") 53 = Ret (str "nzswe5lmme" ++ [Byte.x00]) /\
  exists t, str "nzswe5lmme" ++ [Byte.x00] = t ++ [Byte.x00] /\
            base32decode t 6 = Ret (6, str "nebula").
Proof.
  split; [lia|]. assert (base32encode (str "nebula") 53 = Ret (str "nzswe5lmme" ++ [Byte.x00])) as E
    by (vm_compute; reflexivity).
  split; [exact E|]. exact (base32_roundtrip (str "nebula") 53 6 _ ltac:(lia) E).
Defined.

(** C27: [base32decode] never writes past the output buffer: what it returns is
    the number of bytes written, 5/8 of the characters, and it fits; on a length
    that no encoding has it throws [InvalidArgumentException]. *)
Theorem base32decode_bounds s len :
  match base32decode s len with
  | Ret (n, out) => n = zlen out /\ n = (5 * zlen s) / 8 /\ n <= len
  | Throw e => e = InvalidArgumentException \/
               (e = InsufficientBufferSizeException /\ len < (5 * zlen s) / 8)
  | _ => False
  end.
Proof.
  unfold base32decode.
  destruct (decode_extra (zlen s)) as [extra| | |] eqn:Ex.
  2-4: unfold decode_extra in Ex;
    destruct (Z.land _ _) as [|[[[]|[]|]|[[]|[]|]|]|]; try done; injection Ex as <-; by left.
  rewrite bind_of_Ret.
  assert (Z.shiftr (zlen s) 3 * 5 + extra = (5 * zlen s) / 8) as ->.
  { revert Ex. unfold decode_extra. change 7 with (Z.ones 3).
    rewrite Z.land_ones, shiftr_div by lia. change (2 ^ 3) with 8.
    pose proof (Z.mod_pos_bound (zlen s) 8).
    destruct (zlen s mod 8) as [|[[[]|[]|]|[[]|[]|]|]|] eqn:Em; intros Hx; try done;
      injection Hx as <-; Z.div_mod_to_equations; lia. }
  unfold guard_or. destruct (Z.ltb_spec len ((5 * zlen s) / 8)); cbn; [by right|].
  destruct (decode_groups s) as [out| | |] eqn:Eg; cbn.
  - pose proof (decode_groups_length _ _ Eg). lia.
  - left. by apply decode_groups_Throw in Eg.
  - by apply decode_groups_total in Eg.
  - by apply decode_groups_total in Eg.
Qed.
