(* ===== verification/Crypto.v ===== *)
(** * The cryptographic library as the code uses it

    libressl is not modelled: its EVP, HMAC, digest and PBKDF2 calls are the
    operations of the class [EVP], and [EVPSpec] is what their documentation
    promises — feeding a message in pieces is the same as feeding it at once,
    decryption inverts encryption, the sizes of digests and ciphertexts.  The
    only cipher the program uses is AES-256-CBC with PKCS padding, so the
    [EVP_CIPHER *] argument is left out.  [Toy] is a concrete instance of both
    classes, on which the theorems of the other files are instantiated. *)
From S2P Require Import Prelude.
From Stdlib Require Import ZArith Lia.

Definition EVP_MAX_KEY_LENGTH := 64.
Definition EVP_MAX_IV_LENGTH := 16.
Definition EVP_MAX_BLOCK_LENGTH := 32.
Definition EVP_MAX_MD_SIZE := 64.
Definition SHA256_DIGEST_LENGTH := 32.
Definition MD5_DIGEST_LENGTH := 16.
Definition PKCS5_SALT_LEN := 8.

(** [None] is the failure code of the C function. *)
Class EVP := {
  EncCtx : Type;
  DecCtx : Type;
  HmacCtx : Type;
  DigestCtx : Type;
  EVP_EncryptInit : bytes -> bytes -> option EncCtx;              (* key, iv *)
  EVP_EncryptUpdate : EncCtx -> bytes -> option (bytes * EncCtx);
  EVP_EncryptFinal : EncCtx -> option bytes;
  EVP_DecryptInit : bytes -> bytes -> option DecCtx;
  EVP_DecryptUpdate : DecCtx -> bytes -> option (bytes * DecCtx);
  EVP_DecryptFinal : DecCtx -> option (bytes * DecCtx);
  HMAC_Init : bytes -> option HmacCtx;                            (* key; SHA-256 *)
  HMAC_Update : HmacCtx -> bytes -> option HmacCtx;
  HMAC_Final : HmacCtx -> option bytes;
  EVP_DigestInit : option DigestCtx;                              (* MD5 *)
  EVP_DigestUpdate : DigestCtx -> bytes -> option DigestCtx;
  EVP_DigestFinal : DigestCtx -> option bytes;
  PKCS5_PBKDF2_HMAC : bytes -> bytes -> Z -> Z -> option bytes    (* password, salt, rounds, length *)
}.

Class EVPSpec `{EVP} := {
  encrypt : bytes -> bytes -> bytes -> bytes;
  decrypt : bytes -> bytes -> bytes -> option bytes;
  (** what an encryption context still outputs for the rest of a message *)
  enc_rest : EncCtx -> bytes -> bytes;
  (** what a decryption context still outputs for the rest of a ciphertext;
      [None] when the end of the ciphertext is malformed *)
  dec_rest : DecCtx -> bytes -> option bytes;
  hmac : bytes -> bytes -> bytes;
  hmac_rest : HmacCtx -> bytes -> bytes;
  md5 : bytes -> bytes;
  md5_rest : DigestCtx -> bytes -> bytes;
  encrypt_init key iv : exists c, EVP_EncryptInit key iv = Some c /\
    forall m, enc_rest c m = encrypt key iv m;
  encrypt_update c m : exists out c', EVP_EncryptUpdate c m = Some (out, c') /\
    forall m', enc_rest c (m ++ m') = out ++ enc_rest c' m';
  encrypt_final c : EVP_EncryptFinal c = Some (enc_rest c []);
  decrypt_init key iv : exists c, EVP_DecryptInit key iv = Some c /\
    forall m, dec_rest c m = decrypt key iv m;
  decrypt_update c m : exists out c', EVP_DecryptUpdate c m = Some (out, c') /\
    forall m', dec_rest c (m ++ m') = (out ++.) <$> dec_rest c' m';
  decrypt_final c : fst <$> EVP_DecryptFinal c = dec_rest c [];
  decrypt_encrypt key iv m : decrypt key iv (encrypt key iv m) = Some m;
  encrypt_length key iv m : zlen (encrypt key iv m) = (zlen m / 16 + 1) * 16;
  hmac_init key : exists c, HMAC_Init key = Some c /\ forall m, hmac_rest c m = hmac key m;
  hmac_update c m : exists c', HMAC_Update c m = Some c' /\
    forall m', hmac_rest c (m ++ m') = hmac_rest c' m';
  hmac_final c : HMAC_Final c = Some (hmac_rest c []);
  hmac_length key m : zlen (hmac key m) = SHA256_DIGEST_LENGTH;
  md5_init : exists c, EVP_DigestInit = Some c /\ forall m, md5_rest c m = md5 m;
  md5_update c m : exists c', EVP_DigestUpdate c m = Some c' /\
    forall m', md5_rest c (m ++ m') = md5_rest c' m';
  md5_final c : EVP_DigestFinal c = Some (md5_rest c []);
  md5_length m : zlen (md5 m) = MD5_DIGEST_LENGTH;
  pbkdf2_length password salt rounds len : 0 <= len ->
    exists k, PKCS5_PBKDF2_HMAC password salt rounds len = Some k /\ zlen k = len
}.

(** ** A concrete library

    A stream cipher with the padding of a block cipher, and a polynomial digest. *)
Module Toy.
Definition xor1 (k b : byte) : byte := z2b (Z.lxor (b2z k) (b2z b)).
Definition fold_bytes (l : bytes) : Z := fold_left (fun h b => (h * 257 + b2z b + 1) mod 2 ^ 61) l 0.
Definition keybyte (key iv : bytes) : byte := z2b (fold_bytes (key ++ iv)).
Definition pad (n : Z) : bytes :=
  let p := 16 - n mod 16 in replicate (Z.to_nat p) (z2b p).
Definition unpad (m : bytes) : option bytes :=
  match last m with
  | Some b => if (1 <=? b2z b) && (b2z b <=? 16) && (b2z b <=? zlen m) && (zlen m mod 16 =? 0)
              then Some (ztake (zlen m - b2z b) m) else None
  | None => None
  end.
Definition digest (n : nat) (key m : bytes) : bytes :=
  le_bytes n (fold_bytes (key ++ [Byte.xff] ++ m) * 2 ^ 64 + fold_bytes (m ++ key)).

#[global] Instance evp : EVP := {|
  EncCtx := (byte * Z)%type;
  DecCtx := (byte * bytes)%type;
  HmacCtx := (bytes * bytes)%type;
  DigestCtx := bytes;
  EVP_EncryptInit key iv := Some (keybyte key iv, 0);
  EVP_EncryptUpdate c m := Some (xor1 (fst c) <$> m, (fst c, snd c + zlen m));
  EVP_EncryptFinal c := Some (xor1 (fst c) <$> pad (snd c));
  EVP_DecryptInit key iv := Some (keybyte key iv, []);
  EVP_DecryptUpdate c m := Some ([], (fst c, snd c ++ m));
  EVP_DecryptFinal c := (fun out => (out, (fst c, []))) <$> unpad (xor1 (fst c) <$> snd c);
  HMAC_Init key := Some (key, []);
  HMAC_Update c m := Some (fst c, snd c ++ m);
  HMAC_Final c := Some (digest 32 (fst c) (snd c));
  EVP_DigestInit := Some [];
  EVP_DigestUpdate c m := Some (c ++ m);
  EVP_DigestFinal c := Some (digest 16 [] c);
  PKCS5_PBKDF2_HMAC password salt rounds len :=
    Some (le_bytes (Z.to_nat len) (fold_bytes (password ++ salt) + rounds))
  |}.

Lemma lxor_byte_range a b : 0 <= Z.lxor (b2z a) (b2z b) < 256.
Proof.
  pose proof (b2z_range a); pose proof (b2z_range b).
  assert (0 <= Z.lxor (b2z a) (b2z b)) as Hnn by (apply Z.lxor_nonneg; lia).
  split; [done|]. destruct (Z.eq_dec (Z.lxor (b2z a) (b2z b)) 0) as [->|Hn]; [lia|].
  apply (Z.log2_lt_pow2 _ 8); [lia|].
  eapply Z.le_lt_trans; [apply Z.log2_lxor; lia|].
  assert (forall x, 0 <= x < 256 -> Z.log2 x < 8) as Hl.
  { intros x Hx. destruct (Z.eq_dec x 0) as [->|]; [cbn; lia|]. apply Z.log2_lt_pow2; lia. }
  pose proof (Hl (b2z a) ltac:(lia)); pose proof (Hl (b2z b) ltac:(lia)). lia.
Qed.

Lemma xor1_involutive k b : xor1 k (xor1 k b) = b.
Proof.
  unfold xor1. rewrite b2z_z2b, Z.mod_small by apply lxor_byte_range.
  rewrite <-Z.lxor_assoc, Z.lxor_nilpotent, Z.lxor_0_l. apply z2b_b2z.
Qed.

Lemma xor1_list k (m : bytes) : xor1 k <$> (xor1 k <$> m) = m.
Proof. induction m as [|b m IH]; [done|]. simpl. f_equal; [apply xor1_involutive|exact IH]. Qed.

Lemma unpad_pad m : unpad (m ++ pad (zlen m)) = Some m.
Proof.
  unfold unpad, pad. set (p := 16 - zlen m mod 16).
  assert (1 <= p <= 16) as Hp by (unfold p; pose proof (Z.mod_pos_bound (zlen m) 16); lia).
  assert (last (m ++ replicate (Z.to_nat p) (z2b p)) = Some (z2b p)) as ->.
  { replace (Z.to_nat p) with (S (Z.to_nat p - 1))%nat by lia.
    rewrite replicate_S_end, app_assoc. apply last_snoc. }
  rewrite b2z_z2b, (Z.mod_small p) by lia.
  rewrite zlen_app, zlen_replicate, Z2Nat.id by lia.
  pose proof (zlen_nonneg m).
  assert ((zlen m + p) mod 16 = 0) as -> by (unfold p; Z.div_mod_to_equations; lia).
  destruct (Z.leb_spec 1 p), (Z.leb_spec p 16), (Z.leb_spec p (zlen m + p)); try lia. cbn.
  f_equal. apply ztake_app_exact. lia.
Qed.

#[global] Program Instance spec : EVPSpec := {|
  encrypt key iv m := xor1 (keybyte key iv) <$> (m ++ pad (zlen m));
  decrypt key iv m := unpad (xor1 (keybyte key iv) <$> m);
  enc_rest c m := xor1 (fst c) <$> (m ++ pad (snd c + zlen m));
  dec_rest c m := unpad (xor1 (fst c) <$> (snd c ++ m));
  hmac key m := digest 32 key m;
  hmac_rest c m := digest 32 (fst c) (snd c ++ m);
  md5 m := digest 16 [] m;
  md5_rest c m := digest 16 [] (c ++ m)
  |}.
Next Obligation. intros. eexists. split; [reflexivity|]. done. Qed.
Next Obligation.
  intros [k n] m. eexists _, _. split; [reflexivity|]. intros m'. simpl.
  rewrite <-app_assoc, fmap_app, zlen_app. by rewrite Z.add_assoc.
Qed.
Next Obligation. intros [k n]. simpl. by rewrite Z.add_0_r. Qed.
Next Obligation. intros. eexists. split; [reflexivity|]. done. Qed.
Next Obligation.
  intros [k l] m. eexists _, _. split; [reflexivity|]. intros m'. simpl.
  rewrite <-app_assoc. by destruct (unpad _).
Qed.
Next Obligation. intros [k l]. simpl. rewrite app_nil_r. by destruct (unpad _). Qed.
Next Obligation. intros. simpl. by rewrite xor1_list, unpad_pad. Qed.
Next Obligation.
  intros. simpl. rewrite zlen_length, length_fmap, <-zlen_length, zlen_app. unfold pad.
  rewrite zlen_replicate. pose proof (Z.mod_pos_bound (zlen m) 16). rewrite Z2Nat.id by lia.
  Z.div_mod_to_equations. lia.
Qed.
Next Obligation. intros. eexists. split; [reflexivity|]. done. Qed.
Next Obligation. intros [k l] m. eexists. split; [reflexivity|]. intros. simpl. by rewrite app_assoc. Qed.
Next Obligation. intros [k l]. simpl. by rewrite app_nil_r. Qed.
Next Obligation. intros. apply zlen_le_bytes. Qed.
Next Obligation. eexists. split; [reflexivity|]. done. Qed.
Next Obligation. intros c m. eexists. split; [reflexivity|]. intros. simpl. by rewrite app_assoc. Qed.
Next Obligation. intros c. simpl. by rewrite app_nil_r. Qed.
Next Obligation. intros. apply zlen_le_bytes. Qed.
Next Obligation. intros. eexists. split; [reflexivity|]. rewrite zlen_le_bytes. lia. Qed.
End Toy.
