(* ===== verification/RollingHash.v ===== *)
(** * RollingHash.cpp: the keyed rolling hash that cuts files into blocks

    The constructor derives a table of 256 32-bit words from the key and
    computes [33 ^ windowSize]; [roll] replaces the oldest byte of the circular
    window.  [window_hash] is the polynomial the hash is meant to be. *)
From S2P Require Import Prelude Crypto.
From Stdlib Require Import ZArith Lia.

(** ** Code *)

Record RollingHash := {
  mHash : Z;                 (* uint64_t *)
  mConstant : Z;             (* uint64_t, 33 *)
  mConstantPowWinSize : Z;   (* uint64_t *)
  mWindowSize : Z;           (* int *)
  mIndex : Z;                (* int *)
  mWindow : bytes;           (* std::vector<uint8_t> *)
  mSubTable : list Z         (* ZeroedArray<uint32_t, 256> *)
}.

(** [while(u > 0) { if(u & 1) ...; base = base * base; u >>= 1; }] *)
Fixpoint pow_loop (fuel : nat) (u base acc : Z) : result Z :=
  if 0 <? u then
    match fuel with
    | O => NoFuel
    | S fuel =>
        let acc := if Z.land u 1 =? 0 then acc else uwrap 64 (base * acc) in
        pow_loop fuel (Z.shiftr u 1) (uwrap 64 (base * base)) acc
    end
  else Ret acc.

(** [(p[0] << 24) | (p[1] << 16) | (p[2] << 8) | p[3]], stored in a [uint32_t];
    [p[0] << 24] is computed in [int]. *)
Definition be_word (p0 p1 p2 p3 : byte) : Z :=
  uwrap 32 (Z.lor (Z.lor (Z.lor (swrap 32 (Z.shiftl (b2z p0) 24)) (Z.shiftl (b2z p1) 16))
                         (Z.shiftl (b2z p2) 8)) (b2z p3)).

(** The loop that fills [mSubTable] from the first 1024 bytes of [outBlock]. *)
Fixpoint fill_table (n : nat) (outBlock : bytes) : result (list Z) :=
  match n with
  | O => Ret []
  | S n =>
      match outBlock with
      | p0 :: p1 :: p2 :: p3 :: p =>
          t ← fill_table n p; Ret (be_word p0 p1 p2 p3 :: t)
      | _ => Undef
      end
  end.

(** [for(int i = 0; i < windowSize; ++i) mHash = (mHash * mConstant) + mSubTable[0];] *)
Fixpoint initial_hash (n : nat) (t0 h : Z) : Z :=
  match n with
  | O => h
  | S n => initial_hash n t0 (uwrap 64 (uwrap 64 (h * 33) + t0))
  end.

Section Construct.
Context `{EVP}.

(** The keyed substitution table. *)
Definition sub_table (key : bytes) : result (list Z) :=
  ctx ← or_throw (EVP_EncryptInit key (replicate 16 (z2b 0xAA))) EncryptionFailedException;
  '(out, ctx) ← or_throw (EVP_EncryptUpdate ctx (replicate 1024 (z2b 0x33))) EncryptionFailedException;
  fin ← or_throw (EVP_EncryptFinal ctx) EncryptionFailedException;
  fill_table 256 (out ++ fin).

(** [RollingHash::RollingHash(key, windowSize)] *)
Definition new_RollingHash (key : bytes) (windowSize : Z) : result RollingHash :=
  pw ← pow_loop 32 windowSize 33 1;
  t ← sub_table (ztake 32 key);
  t0 ← or_undef (znth 0 t);
  Ret {| mHash := initial_hash (Z.to_nat windowSize) t0 0;
         mConstant := 33;
         mConstantPowWinSize := pw;
         mWindowSize := windowSize;
         mIndex := windowSize - 1;
         mWindow := replicate (Z.to_nat windowSize) Byte.x00;
         mSubTable := t |}.
End Construct.

Definition hash (s : RollingHash) : Z := mHash s.

(** [uint64_t RollingHash::roll(uint8_t c)]; [%] by zero is undefined. *)
Definition roll (s : RollingHash) (c : byte) : result (Z * RollingHash) :=
  if mWindowSize s =? 0 then Undef else
  let index := Z.rem (mIndex s + 1) (mWindowSize s) in
  old ← or_undef (znth index (mWindow s));
  t_old ← or_undef (znth (b2z old) (mSubTable s));
  t_new ← or_undef (znth (b2z c) (mSubTable s));
  let sub := uwrap 64 (mConstantPowWinSize s * t_old) in
  let h := uwrap 64 (uwrap 64 (mHash s * mConstant s) + t_new - sub) in
  Ret (h, {| mHash := h;
             mConstant := mConstant s;
             mConstantPowWinSize := mConstantPowWinSize s;
             mWindowSize := mWindowSize s;
             mIndex := index;
             mWindow := zset index c (mWindow s);
             mSubTable := mSubTable s |}).

(** Rolling a sequence of bytes. *)
Fixpoint roll_all (s : RollingHash) (l : bytes) : result RollingHash :=
  match l with
  | [] => Ret s
  | c :: l => '(_, s) ← roll s c; roll_all s l
  end.

(** ** Reference *)

Definition tab (t : list Z) (b : byte) : Z := default 0 (znth (b2z b) t).

(** The polynomial in 33 whose coefficients are the table entries of the window. *)
Definition poly (t : list Z) (w : bytes) : Z := fold_left (fun h b => h * 33 + tab t b) w 0.
Definition window_hash (t : list Z) (w : bytes) : Z := poly t w mod 2 ^ 64.

(** The last [n] bytes of a history that starts with zeros. *)
Definition last_window (n : Z) (l : bytes) : bytes :=
  zdrop (zlen l) (replicate (Z.to_nat n) Byte.x00 ++ l).

(** The window in the order of arrival, oldest byte first. *)
Definition window (s : RollingHash) : bytes :=
  zdrop (mIndex s + 1) (mWindow s) ++ ztake (mIndex s + 1) (mWindow s).

(** The invariant of a constructed object. *)
Record wf (s : RollingHash) : Prop := {
  wf_size : 0 < mWindowSize s < 2 ^ 31;
  wf_index : 0 <= mIndex s < mWindowSize s;
  wf_window : zlen (mWindow s) = mWindowSize s;
  wf_table : zlen (mSubTable s) = 256;
  wf_constant : mConstant s = 33;
  wf_pow : mConstantPowWinSize s = (33 ^ mWindowSize s) mod 2 ^ 64;
  wf_hash : mHash s = window_hash (mSubTable s) (window s)
}.

Example roll_toy :
  (s ← new_RollingHash (str "key") 3; s ← roll_all s (str "abcd"); Ret (window s)) = Ret (str "bcd").
Proof. vm_compute. reflexivity. Qed.

(** * Properties *)

(** ** The power of the constant *)

Lemma pow_loop_spec fuel : forall u base acc,
  0 <= u < 2 ^ Z.of_nat fuel -> 0 <= acc < 2 ^ 64 ->
  pow_loop fuel u base acc = Ret ((acc * base ^ u) mod 2 ^ 64).
Proof.
  induction fuel as [|fuel IH]; intros u base acc Hu Hacc; cbn [pow_loop].
  - replace u with 0 by (simpl in Hu; lia). cbn. by rewrite Z.mul_1_r, Z.mod_small.
  - destruct (Z.ltb_spec 0 u); [|replace u with 0 by lia; by rewrite Z.pow_0_r, Z.mul_1_r, Z.mod_small].
    rewrite Nat2Z.inj_succ, Z.pow_succ_r in Hu by lia.
    change (Z.land u 1) with (Z.land u (Z.ones 1)).
    rewrite Z.land_ones, shiftr_div by lia. change (2 ^ 1) with 2.
    pose proof (Z.mod_pos_bound u 2 ltac:(lia)).
    assert (0 <= u / 2) by (apply Z.div_pos; lia).
    rewrite IH.
    + f_equal. rewrite (Z.div_mod u 2) at 3 by lia.
      rewrite Z.pow_add_r, Z.pow_mul_r by lia.
      rewrite <-Z.mul_mod_idemp_r by lia. unfold uwrap at 2.
      rewrite Z.mod_pow_l, Z.mul_mod_idemp_r, Z.pow_2_r by lia. unfold uwrap.
      destruct (Z.eqb_spec (u mod 2) 0) as [->|].
      * by rewrite Z.pow_0_r, Z.mul_1_r.
      * replace (u mod 2) with 1 by lia. rewrite Z.pow_1_r, Z.mul_mod_idemp_l by lia.
        f_equal. ring.
    + split; [apply Z.div_pos; lia|]. apply Z.div_lt_upper_bound; lia.
    + destruct (_ =? 0); [done|]. apply Z.mod_pos_bound. lia.
Qed.

(** ** The table *)

Lemma fill_table_spec n : forall out, 4 * Z.of_nat n <= zlen out ->
  exists t, fill_table n out = Ret t /\ zlen t = Z.of_nat n.
Proof.
  induction n as [|n IH]; intros out Hl; [by exists []|].
  destruct out as [|p0 [|p1 [|p2 [|p3 out]]]];
    rewrite ?zlen_cons, ?zlen_nil in Hl; [lia..|].
  destruct (IH out) as (t & Ht & Hz); [lia|].
  eexists. cbn [fill_table]. rewrite Ht. split; [done|]. rewrite zlen_cons. lia.
Qed.

Lemma tab_lookup t b : zlen t = 256 -> or_undef (znth (b2z b) t) = Ret (tab t b).
Proof.
  intros Ht. unfold tab. destruct (znth_Some (b2z b) t) as [x ->]; [|done].
  pose proof (b2z_range b). lia.
Qed.

(** ** The polynomial *)

Lemma poly_snoc t w b : poly t (w ++ [b]) = poly t w * 33 + tab t b.
Proof. unfold poly. by rewrite fold_left_app. Qed.

Lemma poly_cons t w b : poly t (b :: w) = tab t b * 33 ^ zlen w + poly t w.
Proof.
  induction w as [|c w IH] using rev_ind.
  - unfold poly. cbn. lia.
  - rewrite app_comm_cons, !poly_snoc, IH, zlen_app, zlen_cons, zlen_nil.
    rewrite Z.add_0_r, Z.pow_add_r by (try apply zlen_nonneg; lia). ring.
Qed.

Lemma initial_hash_spec t n : forall w,
  initial_hash n (tab t Byte.x00) (window_hash t w) = window_hash t (w ++ replicate n Byte.x00).
Proof.
  induction n as [|n IH]; intros w; [by rewrite app_nil_r|].
  cbn [initial_hash replicate]. rewrite (cons_middle _ w), app_assoc, <-IH. f_equal.
  unfold window_hash, uwrap. rewrite poly_snoc.
  by rewrite Z.mul_mod_idemp_l, Z.add_mod_idemp_l by lia.
Qed.

(** ** The window *)

Lemma window_roll s c :
  wf s -> exists b w, window s = b :: w /\
    znth (Z.rem (mIndex s + 1) (mWindowSize s)) (mWindow s) = Some b /\
    (forall s', mWindow s' = zset (Z.rem (mIndex s + 1) (mWindowSize s)) c (mWindow s) ->
                mIndex s' = Z.rem (mIndex s + 1) (mWindowSize s) -> window s' = w ++ [c]).
Proof.
  intros [Hsz Hi Hw _ _ _ _]. unfold window.
  destruct (Z.eq_dec (mIndex s + 1) (mWindowSize s)) as [Heq|Hne].
  - rewrite Heq, Z.rem_same by lia.
    rewrite zdrop_ge, ztake_ge by lia. cbn [app].
    destruct (mWindow s) as [|b w]; [rewrite zlen_nil in Hw; lia|].
    exists b, w. split_and!; [done..|]. intros s' -> ->.
    cbn [zset zdrop ztake]. simpl. rewrite zdrop_nonpos, ztake_nonpos by lia. done.
  - rewrite Z.rem_small by lia.
    assert (0 <= mIndex s + 1 < zlen (mWindow s)) as Hin by lia.
    destruct (znth_Some _ _ Hin) as [b Hb]. rewrite znth_lookup in Hb by lia.
    rewrite zdrop_drop, ztake_take, (drop_S _ b) by exact Hb.
    eexists b, _. split_and!; [done|by rewrite znth_lookup by lia|].
    intros s' -> ->. rewrite zset_insert, zdrop_drop, ztake_take by lia.
    replace (Z.to_nat (mIndex s + 1 + 1)) with (S (Z.to_nat (mIndex s + 1))) by lia.
    rewrite drop_insert_lt by lia.
    rewrite <-app_assoc. f_equal.
    erewrite take_S_r by (apply list_lookup_insert_eq; apply lookup_lt_Some in Hb; lia).
    by rewrite take_insert_ge by lia.
Qed.

(** One step: the object stays well formed, the oldest byte leaves the window
    and [c] enters it. *)
Lemma roll_wf s c : wf s ->
  exists s', roll s c = Ret (mHash s', s') /\ wf s' /\ mWindowSize s' = mWindowSize s /\
    mSubTable s' = mSubTable s /\ window s' = tail (window s) ++ [c].
Proof.
  intros Hwf. destruct (window_roll s c Hwf) as (b & w & Ew & Eb & Hs').
  pose proof Hwf as [Hsz Hi Hw Ht Hc Hp Hh].
  unfold roll. destruct (Z.eqb_spec (mWindowSize s) 0); [lia|].
  rewrite Eb. cbn [or_undef]. rewrite bind_of_Ret, !tab_lookup, !bind_of_Ret by done.
  match goal with |- context [Ret (_, ?x)] => exists x end. split; [reflexivity|].
  assert (zlen w = mWindowSize s - 1) as Hlw.
  { apply (f_equal zlen) in Ew. unfold window in Ew.
    rewrite zlen_app, zlen_zdrop, zlen_ztake, zlen_cons in Ew by lia. lia. }
  match goal with |- wf ?s' /\ _ => specialize (Hs' s' eq_refl eq_refl) end.
  rewrite Ew. cbn [tail]. split_and!; [|done..|exact Hs'].
  constructor; cbn [mWindowSize mIndex mWindow mSubTable mConstant mConstantPowWinSize mHash]; try done.
  - split; [apply Z.rem_nonneg; lia|]. pose proof (Z.rem_bound_pos (mIndex s + 1) (mWindowSize s)). lia.
  - by rewrite zlen_zset.
  - rewrite Hs'. rewrite Hh, Hc, Hp, Ew. unfold window_hash, uwrap.
    rewrite poly_snoc, poly_cons, Hlw.
    set (P := poly (mSubTable s) w). set (tb := tab (mSubTable s) b). set (tc := tab (mSubTable s) c).
    rewrite Z.mul_mod_idemp_l, (Z.mul_mod_idemp_l (33 ^ _)) by lia.
    rewrite <-Z.add_sub_assoc, Z.add_mod_idemp_l by lia.
    rewrite Z.add_sub_assoc, Zminus_mod_idemp_r. f_equal.
    replace (mWindowSize s) with (Z.succ (mWindowSize s - 1)) at 2 by lia.
    rewrite Z.pow_succ_r by lia. ring.
Qed.

Lemma zlen_window s : wf s -> zlen (window s) = mWindowSize s.
Proof.
  intros [Hsz Hi Hw _ _ _ _]. unfold window. rewrite zlen_app, zlen_zdrop, zlen_ztake by lia. lia.
Qed.

(** Any sequence of rolls succeeds, and the window is the end of the history. *)
Lemma roll_all_wf l : forall s, wf s ->
  exists s', roll_all s l = Ret s' /\ wf s' /\ mSubTable s' = mSubTable s /\
    window s' = zdrop (zlen l) (window s ++ l).
Proof.
  induction l as [|c l IH]; intros s Hwf; cbn [roll_all].
  - exists s. split_and!; try done. by rewrite app_nil_r, zdrop_nonpos.
  - destruct (roll_wf s c Hwf) as (s1 & -> & Hwf1 & _ & Ht & Ew). rewrite bind_of_Ret.
    destruct (IH s1 Hwf1) as (s' & E & Hwf' & Ht' & Ew'). exists s'.
    split_and!; [done..|congruence|]. rewrite Ew', Ew.
    pose proof (zlen_window s Hwf) as Hz. destruct (window s) as [|b w].
    + destruct Hwf as [[Hpos _]]. rewrite zlen_nil in Hz. lia.
    + cbn [tail]. rewrite zlen_cons, <-zdrop_zdrop, <-app_assoc by (try apply zlen_nonneg; lia).
      cbn [app zdrop]. simpl. by rewrite (zdrop_nonpos 0).
Qed.

Section Constructed.
Context `{EVPSpec}.

(** The table is the AES encryption of a constant block under the key. *)
Lemma sub_table_spec key : exists t, sub_table key = Ret t /\ zlen t = 256 /\
  fill_table 256 (encrypt key (replicate 16 (z2b 0xAA)) (replicate 1024 (z2b 0x33))) = Ret t.
Proof.
  unfold sub_table.
  destruct (encrypt_init key (replicate 16 (z2b 0xAA))) as (c & -> & Hc). cbn [or_throw]. rewrite bind_of_Ret.
  destruct (encrypt_update c (replicate 1024 (z2b 0x33))) as (out & c' & -> & Hu). cbn [or_throw].
  rewrite bind_of_Ret, encrypt_final. cbn [or_throw]. rewrite bind_of_Ret.
  rewrite <-Hu, app_nil_r, Hc.
  destruct (fill_table_spec 256 (encrypt key (replicate 16 (z2b 170)) (replicate 1024 (z2b 51))))
    as (t & Ht & Hl); [by rewrite encrypt_length, zlen_replicate|].
  eauto.
Qed.

Lemma new_RollingHash_wf key W : 0 < W < 2 ^ 31 ->
  exists s, new_RollingHash key W = Ret s /\ wf s /\ mWindowSize s = W /\
    sub_table (ztake 32 key) = Ret (mSubTable s) /\
    window s = replicate (Z.to_nat W) Byte.x00.
Proof.
  intros HW. unfold new_RollingHash.
  rewrite pow_loop_spec by (simpl; lia). rewrite bind_of_Ret.
  destruct (sub_table_spec (ztake 32 key)) as (t & -> & Hl & _). rewrite bind_of_Ret.
  rewrite (tab_lookup t Byte.x00 Hl : or_undef (znth 0 t) = _), bind_of_Ret.
  eexists. split; [reflexivity|].
  match goal with |- wf ?s /\ _ =>
    assert (window s = replicate (Z.to_nat W) Byte.x00) as Ew end.
  { unfold window; cbn [mIndex mWindow]. rewrite zdrop_ge, ztake_ge; [done|rewrite zlen_replicate; lia..]. }
  split_and!; [constructor|done..|exact Ew]; cbn [mWindowSize mIndex mWindow mSubTable mConstant mConstantPowWinSize mHash]; try lia.
  - rewrite zlen_replicate. lia.
  - by rewrite Z.mul_1_l.
  - rewrite Ew. apply (initial_hash_spec t (Z.to_nat W) []).
Qed.

(** C24: a constructed [RollingHash] accepts every sequence of bytes, and its
  hash is then the polynomial in 33, modulo [2^64], of the table entries of
  the last [W] bytes (zeros before the first byte). *)
Theorem rolling_hash_correct key W l (HW : 0 < W < 2 ^ 31) :
  exists t s0 s, sub_table (ztake 32 key) = Ret t /\
    new_RollingHash key W = Ret s0 /\ roll_all s0 l = Ret s /\
    hash s = window_hash t (last_window W l).
Proof.
  destruct (new_RollingHash_wf key W HW) as (s0 & E0 & Hwf0 & HW0 & Et & Ew0).
  destruct (roll_all_wf l s0 Hwf0) as (s & E & Hwf & Ht & Ew).
  exists (mSubTable s0), s0, s. split_and!; [done..|].
  unfold hash. rewrite (wf_hash s Hwf), Ht, Ew, Ew0. done.
Qed.

(** The hash depends only on the last [W] bytes: two histories that end
  with the same [W] bytes have the same hash, whatever came before. *)
Theorem rolling_hash_local key W l1 l2 w s0 s1 s2
    (HW : 0 < W < 2 ^ 31) (Hw : zlen w = W) (Hnew : new_RollingHash key W = Ret s0)
    (H1 : roll_all s0 (l1 ++ w) = Ret s1) (H2 : roll_all s0 (l2 ++ w) = Ret s2) :
  hash s1 = hash s2.
Proof.
  assert (forall l, last_window W (l ++ w) = w) as Hlw.
  { intros l. unfold last_window. rewrite app_assoc. apply zdrop_app_exact.
    rewrite !zlen_app, zlen_replicate. lia. }
  destruct (rolling_hash_correct key W (l1 ++ w) HW) as (t & s0' & s1' & Et & E0 & E1 & Eh1).
  destruct (rolling_hash_correct key W (l2 ++ w) HW) as (t' & s0'' & s2' & Et' & E0' & E2 & Eh2).
  simplify_eq. rewrite Hlw in Eh1, Eh2. congruence.
Qed.
End Constructed.

Lemma rolling_hash_correct_witness :
  0 < 3 < 2 ^ 31 /\ exists t s0 s, sub_table (ztake 32 (str "key")) = Ret t /\
      new_RollingHash (str "key") 3 = Ret s0 /\ roll_all s0 (str "abcd") = Ret s /\
      hash s = window_hash t (last_window 3 (str "abcd")).
Proof. split; [lia|]. apply (rolling_hash_correct (str "key") 3 (str "abcd")). lia. Defined.

Lemma rolling_hash_local_witness :
  exists s0 s1 s2, new_RollingHash (str "key") 3 = Ret s0 /\
    roll_all s0 (str "xy" ++ str "abc") = Ret s1 /\ roll_all s0 (str "" ++ str "abc") = Ret s2 /\
    hash s1 = hash s2.
Proof.
  destruct (new_RollingHash_wf (str "key") 3 ltac:(lia)) as (s0 & E0 & Hwf & _).
  destruct (roll_all_wf (str "xy" ++ str "abc") s0 Hwf) as (s1 & E1 & _).
  destruct (roll_all_wf (str "" ++ str "abc") s0 Hwf) as (s2 & E2 & _).
  exists s0, s1, s2. split; [exact E0|]. split; [exact E1|]. split; [exact E2|].
  exact (rolling_hash_local (str "key") 3 (str "xy") (str "") (str "abc") s0 s1 s2
           ltac:(lia) ltac:(reflexivity) E0 E1 E2).
Defined.
