(* ===== verification/Streams.v ===== *)
(** * InputStream.h/cpp, OutputStream.h/cpp: the stream interfaces

    A C++ abstract class is a type class over the type of the object's state.
    [InputStreamSpec] is the contract of InputStream.h: [read] waits for all the
    bytes it was asked for and returns fewer only at the end of the stream.
    The members that the base class implements ([skip], [copyTo],
    [readExpected], [readType]) are defined once here for every stream. *)
From S2P Require Import Prelude.
From Stdlib Require Import ZArith Lia.

(** ** Interfaces *)

(** [remaining] is not part of the C++ class: it bounds the number of bytes that
    the stream can still deliver and is only used as the fuel of loops that run
    until the end of a stream. *)
Class InputStream (St : Type) := {
  read : St -> Z -> result (bytes * St);
  skip : St -> Z -> result (Z * St);
  canRewind : St -> bool;
  rewind : St -> result St;
  size : St -> result Z;
  remaining : St -> nat
}.

Class OutputStream (Out : Type) := {
  write : Out -> bytes -> result Out;
  flush : Out -> result Out;
  close : Out -> result Out
}.

#[global] Hint Mode InputStream ! : typeclass_instances.
#[global] Hint Mode OutputStream ! : typeclass_instances.

(** ** Members of the base classes *)

(** [InputStream::skip], over the [read] of the derived class. *)
Fixpoint skip_loop {St} (rd : St -> Z -> result (bytes * St)) (fuel : nat) (s : St) (n skipped : Z)
  : result (Z * St) :=
  if skipped <? n then
    let nextSkip := if 8192 <? n - skipped then 8192 else n - skipped in
    '(b, s) ← rd s nextSkip;
    if zlen b =? 0 then Ret (skipped, s)
    else match fuel with
         | O => NoFuel
         | S fuel => skip_loop rd fuel s n (skipped + zlen b)
         end
  else Ret (skipped, s).

Definition default_skip {St} (rd : St -> Z -> result (bytes * St)) (rem : St -> nat) (s : St) (n : Z)
  : result (Z * St) := skip_loop rd (rem s) s n 0.

(** [InputStream::canRewind], [InputStream::rewind], [InputStream::size] *)
Definition default_canRewind {St} (s : St) : bool := false.
Definition default_rewind {St} (s : St) : result St := Throw InvalidOperationException.
Definition default_size {St} (s : St) : result Z := Ret (-1).

(** [OutputStream::flush], [OutputStream::close] *)
Definition default_flush {Out} (o : Out) : result Out := Ret o.
Definition default_close {Out} (o : Out) : result Out := Ret o.

Section Members.
Context {In Out} `{InputStream In} `{OutputStream Out}.

(** [InputStream::copyTo]; the output, which the caller keeps, is the state. *)
Fixpoint copy_loop (fuel : nat) (i : In) : io Out In :=
  '(b, i) ← lift (read i 16384);
  if 0 <? zlen b then
    match fuel with
    | O => lift NoFuel
    | S fuel => _ ← update (fun o => write o b); copy_loop fuel i
    end
  else mret i.
Definition copy_into (i : In) : io Out In := copy_loop (remaining i) i.

(** The same where nothing looks at the output after an exception. *)
Definition copyTo (i : In) (o : Out) : result (In * Out) := returned (copy_into i o).

(** [InputStream::readExpected] *)
Definition readExpected (i : In) (n : Z) : result (bytes * In) :=
  '(b, i) ← read i n;
  if zlen b =? n then Ret (b, i) else Throw ShortReadException.

(** [InputStream::readType<T>], for an unsigned [T] of [n] bytes. *)
Definition readType (n : nat) (i : In) : result (Z * In) :=
  '(b, i) ← readExpected i (Z.of_nat n);
  Ret (le_val b, i).

(** [OutputStream::writeType<T>] *)
Definition writeType (n : nat) (o : Out) (v : Z) : result Out := write o (le_bytes n v).
End Members.

(** A sequence of writes. *)
Fixpoint write_all {Out} `{OutputStream Out} (o : Out) (l : list bytes) : result Out :=
  match l with
  | [] => Ret o
  | b :: l => o ← write o b; write_all o l
  end.

(** A sequence of reads of the given sizes. *)
Fixpoint read_many {In} `{InputStream In} (i : In) (ns : list Z) : result (list bytes * In) :=
  match ns with
  | [] => Ret ([], i)
  | n :: ns => '(b, i) ← read i n; '(l, i) ← read_many i ns; Ret (b :: l, i)
  end.

(** What a sequence of reads should deliver from the bytes [l]. *)
Fixpoint slices (l : bytes) (ns : list Z) : list bytes :=
  match ns with
  | [] => []
  | n :: ns => ztake n l :: slices (zdrop n l) ns
  end.

(** Dynamic dispatch between two classes of streams. *)
#[export] Instance InputStream_sum {A B} `{InputStream A} `{InputStream B} : InputStream (A + B) := {|
  read s n := match s with
    | inl s => '(b, s) ← read s n; Ret (b, inl s)
    | inr s => '(b, s) ← read s n; Ret (b, inr s) end;
  skip s n := match s with
    | inl s => '(k, s) ← skip s n; Ret (k, inl s)
    | inr s => '(k, s) ← skip s n; Ret (k, inr s) end;
  canRewind s := match s with inl s => canRewind s | inr s => canRewind s end;
  rewind s := match s with
    | inl s => s ← rewind s; Ret (inl s)
    | inr s => s ← rewind s; Ret (inr s) end;
  size s := match s with inl s => size s | inr s => size s end;
  remaining s := match s with inl s => remaining s | inr s => remaining s end
|}.

(** ** Contracts *)

(** The attributes that no operation changes. *)
Definition same_source {St} `{InputStream St} (whole : St -> bytes) (s s' : St) : Prop :=
  whole s' = whole s /\ canRewind s' = canRewind s /\ size s' = size s.

Class InputStreamSpec (St : Type) `{InputStream St} := {
  valid : St -> Prop;
  (** the bytes not read yet *)
  contents : St -> bytes;
  (** the bytes of the stream from its beginning *)
  whole : St -> bytes;
  read_spec s n : valid s -> 0 <= n < 2 ^ 63 -> exists s', read s n = Ret (ztake n (contents s), s') /\
    valid s' /\ contents s' = zdrop n (contents s) /\ same_source whole s s';
  skip_spec s n : valid s -> 0 <= n < 2 ^ 63 -> exists k s', skip s n = Ret (k, s') /\
    valid s' /\ contents s' = zdrop n (contents s) /\ same_source whole s s';
  rewind_spec s : valid s -> canRewind s = true -> exists s', rewind s = Ret s' /\
    valid s' /\ contents s' = whole s /\ same_source whole s s';
  size_spec s : valid s -> size s = Ret (zlen (whole s)) \/ size s = Ret (-1);
  remaining_spec s : valid s -> zlen (contents s) <= Z.of_nat (remaining s)
}.

Class OutputStreamSpec (Out : Type) `{OutputStream Out} := {
  ovalid : Out -> Prop;
  (** the bytes the stream has received *)
  written : Out -> bytes;
  (** there is room for so many bytes *)
  fits : Out -> Z -> Prop;
  write_spec o b : ovalid o -> fits o (zlen b) -> exists o', write o b = Ret o' /\
    ovalid o' /\ written o' = written o ++ b /\
    (forall k, 0 <= k -> fits o (zlen b + k) -> fits o' k);
  flush_spec o : ovalid o -> exists o', flush o = Ret o' /\
    ovalid o' /\ written o' = written o /\ (forall k, fits o k -> fits o' k);
  fits_mono o a b : 0 <= a <= b -> fits o b -> fits o a
}.

(** ** Consequences of the contracts *)

Lemma same_source_refl {St} `{InputStream St} (w : St -> bytes) s : same_source w s s.
Proof. done. Qed.

Lemma same_source_trans {St} `{InputStream St} (w : St -> bytes) s1 s2 s3 :
  same_source w s1 s2 -> same_source w s2 s3 -> same_source w s1 s3.
Proof. intros (?&?&?) (?&?&?). split_and!; congruence. Qed.
#[export] Hint Resolve same_source_refl same_source_trans : nebula.

(** Opens the call to [read] (or [skip], [rewind]) of a specified stream in the goal. *)
Ltac use_read s n :=
  let s' := fresh "s" in let E := fresh "E" in let V := fresh "V" in let C := fresh "C" in
  let W := fresh "W" in
  destruct (read_spec s n) as (s' & E & V & C & W); [first [done | eauto]|lia|];
  rewrite E; cbn [mbind result_bind]; clear E.

(** The [skip] of the base class does what the contract asks, for any [read] that does. *)
Section DefaultSkip.
Context {St} (rd : St -> Z -> result (bytes * St)) (rem : St -> nat).
Context (vld : St -> Prop) (cont : St -> bytes) (same : St -> St -> Prop).
Context (Hrefl : forall s, same s s) (Htrans : forall a b c, same a b -> same b c -> same a c).
Context (Hread : forall s n, vld s -> 0 <= n < 2 ^ 63 -> exists s', rd s n = Ret (ztake n (cont s), s') /\
  vld s' /\ cont s' = zdrop n (cont s) /\ same s s').
Context (Hrem : forall s, vld s -> zlen (cont s) <= Z.of_nat (rem s)).

Lemma skip_loop_spec fuel : forall s n k,
  vld s -> 0 <= k <= n -> zlen (cont s) <= Z.of_nat fuel ->
  exists s', skip_loop rd fuel s n k = Ret (Z.min n (k + zlen (cont s)), s') /\
    vld s' /\ cont s' = zdrop (n - k) (cont s) /\ same s s'.
Proof.
  induction fuel as [|fuel IH]; intros s n k Hv Hk Hf; cbn [skip_loop];
    pose proof (zlen_nonneg (cont s)) as Hnn; (destruct (Z.ltb_spec k n) as [Hlt|];
      [|exists s; rewrite zdrop_nonpos by lia; split_and!; auto; do 2 f_equal; lia]).
  all: set (m := if 8192 <? n - k then 8192 else n - k);
    assert (0 < m <= n - k /\ m <= 8192) as Hm by (unfold m; destruct (Z.ltb_spec 8192 (n - k)); lia);
    destruct (Hread s m Hv) as (s1 & -> & V & C & W); [lia|]; cbn [mbind result_bind];
    rewrite zlen_ztake by lia; destruct (Z.eqb_spec (Z.min m (zlen (cont s))) 0) as [He|He].
  1, 3: exists s1; assert (cont s = []) as Hnil by (apply zlen_nil_inv; lia);
      rewrite C, Hnil, !zdrop_nil; split_and!; auto; do 2 f_equal; cbn; lia.
  - lia.
  - destruct (IH s1 n (k + Z.min m (zlen (cont s)))) as (s' & E & V' & C' & W').
    + done.
    + lia.
    + rewrite C, zlen_zdrop by lia. lia.
    + exists s'. rewrite E, C, C', zlen_zdrop by lia. split_and!; [|done| |eauto].
      * do 2 f_equal. lia.
      * rewrite C. destruct (Z.le_ge_cases m (zlen (cont s))).
        -- rewrite zdrop_zdrop by lia. f_equal. lia.
        -- rewrite !zdrop_ge; [done|lia|]. rewrite zlen_zdrop by lia. lia.
Qed.

Lemma default_skip_spec s n : vld s -> 0 <= n < 2 ^ 63 ->
  exists k s', default_skip rd rem s n = Ret (k, s') /\
    vld s' /\ cont s' = zdrop n (cont s) /\ same s s'.
Proof.
  intros Hv Hn. destruct (skip_loop_spec (rem s) s n 0) as (s' & E & V & C & W); auto; [lia|].
  rewrite Z.sub_0_r in C. unfold default_skip. rewrite E. eauto 8.
Qed.
End DefaultSkip.

Section Contracts.
Context {In} `{InputStreamSpec In}.

Lemma readExpected_spec (i : In) n : valid i -> 0 <= n < 2 ^ 63 -> n <= zlen (contents i) ->
  exists i', readExpected i n = Ret (ztake n (contents i), i') /\
    valid i' /\ contents i' = zdrop n (contents i) /\ same_source whole i i'.
Proof.
  intros Hv Hn Hl. unfold readExpected. use_read i n.
  rewrite zlen_ztake by lia. destruct (Z.eqb_spec (Z.min n (zlen (contents i))) n); [eauto|lia].
Qed.

(** A stream that is too short makes [readExpected] throw. *)
Lemma readExpected_short (i : In) n : valid i -> zlen (contents i) < n < 2 ^ 63 ->
  readExpected i n = Throw ShortReadException.
Proof.
  intros Hv Hn. pose proof (zlen_nonneg (contents i)). unfold readExpected. use_read i n.
  rewrite zlen_ztake by lia. destruct (Z.eqb_spec (Z.min n (zlen (contents i))) n); [lia|done].
Qed.

Lemma readType_spec (i : In) n : valid i -> (n <= 8)%nat -> Z.of_nat n <= zlen (contents i) ->
  exists i', readType n i = Ret (le_val (ztake (Z.of_nat n) (contents i)), i') /\
    valid i' /\ contents i' = zdrop (Z.of_nat n) (contents i) /\ same_source whole i i'.
Proof.
  intros Hv Hb Hn. unfold readType.
  destruct (readExpected_spec i (Z.of_nat n)) as (i' & -> & ?); [done|lia|lia|]. eauto.
Qed.

(** Reading back what [writeType] wrote. *)
Lemma readType_le (i : In) n v rest : valid i -> (n <= 8)%nat -> contents i = le_bytes n v ++ rest ->
    exists i', readType n i = Ret (v mod 256 ^ Z.of_nat n, i') /\
      valid i' /\ contents i' = rest /\ same_source whole i i'.
Proof.
    intros Hv Hn Hc. pose proof (zlen_le_bytes n v). pose proof (zlen_nonneg rest).
    destruct (readType_spec i n Hv Hn) as (i' & -> & V & C & W).
    { rewrite Hc, zlen_app. lia. }
    exists i'. rewrite Hc, zdrop_app_exact in C by lia.
    rewrite Hc, ztake_app_exact, le_val_le_bytes by lia. done.
Qed.

(** Reading back [b]. *)
Lemma readExpected_app (i : In) b rest : valid i -> zlen b < 2 ^ 63 -> contents i = b ++ rest ->
    exists i', readExpected i (zlen b) = Ret (b, i') /\ valid i' /\ contents i' = rest /\ same_source whole i i'.
Proof.
    intros Hv Hb Hc. pose proof (zlen_nonneg rest). pose proof (zlen_nonneg b).
    destruct (readExpected_spec i (zlen b)) as (i' & -> & V & C & W); [done|lia|rewrite Hc, zlen_app; lia|].
    exists i'. rewrite Hc, zdrop_app_exact in C by lia. rewrite Hc, ztake_app_exact by lia. done.
Qed.

Lemma read_many_spec ns : Forall (fun n => 0 <= n < 2 ^ 63) ns -> forall i : In, valid i ->
  exists i', read_many i ns = Ret (slices (contents i) ns, i') /\ valid i' /\ same_source whole i i'.
Proof.
  induction 1 as [|n ns Hn Hns IH]; intros i Hv; cbn [read_many slices]; [by exists i|].
  use_read i n. destruct (IH s V) as (i' & -> & V' & W'). rewrite C. cbn [mbind result_bind].
  eauto with nebula.
Qed.

(** A stream can be read to its end. *)
Lemma drained (i : In) : valid i -> exists i', valid i' /\ contents i' = [] /\ same_source whole i i'.
Proof.
  intros Hv. remember (Z.to_nat (zlen (contents i))) as fuel eqn:Ef. revert i Hv Ef.
  induction fuel as [fuel IH] using lt_wf_ind. intros i Hv Ef.
  destruct (read_spec i 16384) as (s & _ & V & C & W); [done|lia|].
  pose proof (zlen_nonneg (contents i)).
  destruct (Z.eq_dec (zlen (contents i)) 0) as [Hz|Hz].
  - exists i. split_and!; [done|by apply zlen_nil_inv|done..].
  - destruct (IH (Z.to_nat (zlen (contents s)))) with (i := s) as (i' & V' & C' & W'); auto.
    + rewrite C, zlen_zdrop by lia. lia.
    + exists i'. eauto with nebula.
Qed.

Lemma copy_loop_returned {Out} `{OutputStream Out} fuel (i : In) (o : Out) :
  returned (copy_loop fuel i o) =
    ('(b, i) ← read i 16384;
     if 0 <? zlen b then
       match fuel with
       | O => NoFuel
       | S fuel => o ← write o b; returned (copy_loop fuel i o)
       end
     else Ret (i, o)).
Proof.
  destruct fuel; cbn [copy_loop]; rewrite returned_bind, returned_lift;
    (destruct (read i 16384) as [[b i1]| | |]; [|done..]); cbn [mbind result_bind]; destruct (0 <? zlen b); try done.
  rewrite returned_bind, returned_update. by destruct (write o b).
Qed.

(** [copyTo] writes the contents of the stream, in pieces, until its end; when
  the output fails, it fails like the output. *)
Lemma copyTo_chunks {Out} `{OutputStream Out} (i : In) (o : Out) : valid i ->
  exists chunks i', concat chunks = contents i /\ valid i' /\ contents i' = [] /\
    same_source whole i i' /\ copyTo i o = (o ← write_all o chunks; Ret (i', o)).
Proof.
  intros Hv. pose proof (remaining_spec i Hv) as Hf. unfold copyTo, copy_into.
  generalize dependent (remaining i). intros fuel. revert i o Hv.
  induction fuel as [|fuel IH]; intros i o Hv Hf; rewrite copy_loop_returned;
    pose proof (zlen_nonneg (contents i)); use_read i 16384;
    rewrite zlen_ztake by lia; destruct (Z.ltb_spec 0 (Z.min 16384 (zlen (contents i)))).
  1: lia.
  1, 3: exists [], s; assert (contents i = []) as Hnil by (apply zlen_nil_inv; lia);
    rewrite C, Hnil; done.
  destruct (write o (ztake 16384 (contents i))) as [o1| | |] eqn:Ew.
  2-4: destruct (drained s V) as (i' & V' & C' & W');
    exists [ztake 16384 (contents i); zdrop 16384 (contents i)], i';
    cbn [concat write_all]; rewrite app_nil_r, ztake_zdrop, Ew; eauto 8 with nebula.
  destruct (IH s o1) as (chunks & i' & Hc & Hv' & Hn & W' & E);
    [done|rewrite C, zlen_zdrop by lia; lia|].
  exists (ztake 16384 (contents i) :: chunks), i'. cbn [concat write_all].
  rewrite Hc, C, ztake_zdrop, Ew. cbn [mbind result_bind]. rewrite E. eauto 8 with nebula.
Qed.
End Contracts.

Lemma write_all_app {Out} `{OutputStream Out} l1 : forall (o : Out) l2,
  write_all o (l1 ++ l2) = (o ← write_all o l1; write_all o l2).
Proof.
  induction l1 as [|b l1 IH]; intros o l2; [done|]. cbn [write_all app]. rewrite bind_assoc.
  destruct (write o b); [|done..]. cbn [mbind result_bind]. apply IH.
Qed.

Section OutContracts.
Context {Out} `{OutputStreamSpec Out}.

Lemma write_all_spec chunks : forall (o : Out) extra,
  ovalid o -> 0 <= extra -> fits o (zlen (concat chunks) + extra) ->
  exists o', write_all o chunks = Ret o' /\ ovalid o' /\
    written o' = written o ++ concat chunks /\ fits o' extra.
Proof.
  induction chunks as [|b chunks IH]; intros o extra Hv He Hf; cbn [write_all concat] in *.
  - exists o. by rewrite app_nil_r.
  - rewrite zlen_app, <-Z.add_assoc in Hf. pose proof (zlen_nonneg (concat chunks)).
    destruct (write_spec o b) as (o1 & -> & V & W & F); [done|eapply fits_mono; [|done]; zlen_lia|].
    rewrite bind_of_Ret. destruct (IH o1 extra) as (o' & -> & V' & W' & F'); [done..|apply F; [lia|done]|].
    exists o'. rewrite W', W, <-app_assoc. done.
Qed.

(** Copying to a stream with enough room succeeds and delivers everything. *)
Lemma copyTo_spec {In} `{InputStreamSpec In} (i : In) (o : Out) extra :
  valid i -> ovalid o -> 0 <= extra -> fits o (zlen (contents i) + extra) ->
  exists i' o', copyTo i o = Ret (i', o') /\ valid i' /\ contents i' = [] /\
    same_source whole i i' /\ ovalid o' /\ written o' = written o ++ contents i /\ fits o' extra.
Proof.
  intros Hi Ho He Hf. destruct (copyTo_chunks i o Hi) as (chunks & i' & Hc & Hv' & Hn & W & E).
  rewrite <-Hc in Hf. destruct (write_all_spec chunks o extra) as (o' & Eo & V' & W' & F'); try done.
  exists i', o'. rewrite E, Eo, <-Hc. done.
Qed.
End OutContracts.

(** The contract is preserved by dynamic dispatch. *)
#[export] Program Instance InputStreamSpec_sum {A B} `{InputStreamSpec A} `{InputStreamSpec B} :
  InputStreamSpec (A + B) := {|
  valid s := match s with inl s => valid s | inr s => valid s end;
  contents s := match s with inl s => contents s | inr s => contents s end;
  whole s := match s with inl s => whole s | inr s => whole s end
|}.
Next Obligation.
  intros A B ???? [s|s] n Hv Hn; simpl in *;
    destruct (read_spec s n Hv Hn) as (s' & -> & V & C & W); eauto 8.
Qed.
Next Obligation.
  intros A B ???? [s|s] n Hv Hn; simpl in *;
    destruct (skip_spec s n Hv Hn) as (k & s' & -> & V & C & W); eauto 8.
Qed.
Next Obligation.
  intros A B ???? [s|s] Hv Hr; simpl in *;
    destruct (rewind_spec s Hv Hr) as (s' & -> & V & C & W); eauto 8.
Qed.
Next Obligation. intros A B ???? [s|s] Hv; simpl in *; apply (size_spec _ Hv). Qed.
Next Obligation. intros A B ???? [s|s] Hv; simpl in *; by apply remaining_spec. Qed.
