(* ===== verification/MemoryStreams.v ===== *)
(** * MemoryInputStream, MemoryOutputStream: streams over a buffer

    The pointers [mStart], [mNext], [mEnd] are the buffer and the offset of
    [mNext] in it; an output buffer is the bytes written so far and its size. *)
From S2P Require Import Prelude Streams.
From Stdlib Require Import ZArith Lia.

(** ** Code *)

Record MemoryInputStream := {
  mBuffer : bytes;   (* [mStart, mEnd) *)
  mNext : Z          (* mNext - mStart *)
}.

Definition new_MemoryInputStream (buffer : bytes) : MemoryInputStream :=
  {| mBuffer := buffer; mNext := 0 |}.

Definition mis_read (s : MemoryInputStream) (size : Z) : result (bytes * MemoryInputStream) :=
  if zlen (mBuffer s) <=? mNext s then Ret ([], s)
  else
    let left := zlen (mBuffer s) - mNext s in
    let size := if left <? size then left else size in
    Ret (ztake size (zdrop (mNext s) (mBuffer s)),
         {| mBuffer := mBuffer s; mNext := mNext s + size |}).

Definition mis_skip (s : MemoryInputStream) (n : Z) : result (Z * MemoryInputStream) :=
  let next := mNext s + n in
  let next := if zlen (mBuffer s) <=? next then zlen (mBuffer s) else next in
  Ret (next - mNext s, {| mBuffer := mBuffer s; mNext := next |}).

Definition mis_rewind (s : MemoryInputStream) : result MemoryInputStream :=
  Ret {| mBuffer := mBuffer s; mNext := 0 |}.

#[export] Instance MemoryInputStream_stream : InputStream MemoryInputStream := {|
  read := mis_read;
  skip := mis_skip;
  canRewind s := true;
  rewind := mis_rewind;
  size s := Ret (zlen (mBuffer s));
  remaining s := length (mBuffer s)
|}.

Record MemoryOutputStream := {
  mCapacity : Z;    (* mEnd - mStart *)
  mData : bytes     (* [mStart, mNext) *)
}.

Definition new_MemoryOutputStream (size : Z) : MemoryOutputStream :=
  {| mCapacity := size; mData := [] |}.

Definition mos_size (s : MemoryOutputStream) : Z := zlen (mData s).

Definition mos_reset (s : MemoryOutputStream) : MemoryOutputStream :=
  {| mCapacity := mCapacity s; mData := [] |}.

Definition mos_write (s : MemoryOutputStream) (data : bytes) : result MemoryOutputStream :=
  if mCapacity s - mos_size s <? zlen data then Throw InsufficientBufferSizeException
  else Ret {| mCapacity := mCapacity s; mData := mData s ++ data |}.

#[export] Instance MemoryOutputStream_stream : OutputStream MemoryOutputStream := {|
  write := mos_write;
  flush := default_flush;
  close := default_close
|}.

(** ** Contracts *)

#[export] Program Instance MemoryInputStream_spec : InputStreamSpec MemoryInputStream := {|
  valid s := 0 <= mNext s <= zlen (mBuffer s);
  contents s := zdrop (mNext s) (mBuffer s);
  whole s := mBuffer s
|}.
Next Obligation.
  intros s n Hv Hn. cbn beta in *. cbn [read MemoryInputStream_stream]. unfold mis_read.
  destruct (Z.leb_spec (zlen (mBuffer s)) (mNext s)).
  - exists s. rewrite zdrop_ge, ztake_nil, zdrop_nil by lia. done.
  - match goal with |- context [Ret (_, ?x)] => exists x end. split; [|split; [|split; [|done]]].
    + f_equal. f_equal. destruct (Z.ltb_spec (zlen (mBuffer s) - mNext s) n); [|done].
      rewrite !ztake_ge; [done|rewrite zlen_zdrop; lia..].
    + cbn. destruct (Z.ltb_spec (zlen (mBuffer s) - mNext s) n); lia.
    + cbn. rewrite zdrop_zdrop by lia.
      destruct (Z.ltb_spec (zlen (mBuffer s) - mNext s) n); [|done]. by rewrite !zdrop_ge by lia.
Qed.
Next Obligation.
  intros s n Hv Hn. cbn beta in *. cbn [skip MemoryInputStream_stream]. unfold mis_skip.
  eexists _, _. split; [reflexivity|]. cbn [mNext mBuffer].
  destruct (Z.leb_spec (zlen (mBuffer s)) (mNext s + n)); split_and!; try done; try lia.
  - rewrite zdrop_zdrop, !zdrop_ge by lia. done.
  - by rewrite zdrop_zdrop by lia.
Qed.
Next Obligation.
  intros s Hv _. cbn beta in *. eexists. split; [reflexivity|]. cbn [mNext mBuffer].
  pose proof (zlen_nonneg (mBuffer s)). split_and!; try done; try lia. by apply zdrop_nonpos.
Qed.
Next Obligation. intros s Hv. by left. Qed.
Next Obligation.
  intros s Hv. cbn beta in *. cbn [remaining MemoryInputStream_stream]. rewrite zlen_zdrop by lia. rewrite zlen_length in *. lia.
Qed.

#[export] Program Instance MemoryOutputStream_spec : OutputStreamSpec MemoryOutputStream := {|
  ovalid s := zlen (mData s) <= mCapacity s;
  written s := mData s;
  fits s n := zlen (mData s) + n <= mCapacity s
|}.
Next Obligation.
  intros s b Hv Hf. cbn beta in *. cbn [write MemoryOutputStream_stream]. unfold mos_write, mos_size.
  destruct (Z.ltb_spec (mCapacity s - zlen (mData s)) (zlen b)); [lia|].
  eexists. split; [reflexivity|]. cbn [mData mCapacity]. rewrite zlen_app. split_and!; [lia|done|].
  intros. lia.
Qed.
Next Obligation. intros s Hv. by exists s. Qed.
Next Obligation. intros; simpl in *. lia. Qed.

Lemma new_MemoryInputStream_valid b : valid (new_MemoryInputStream b) /\
  contents (new_MemoryInputStream b) = b /\ whole (new_MemoryInputStream b) = b.
Proof.
  cbn [valid contents whole MemoryInputStream_spec new_MemoryInputStream mNext mBuffer].
  pose proof (zlen_nonneg b). split_and!; try lia; [by apply zdrop_nonpos|done].
Qed.

(** A write that does not fit changes nothing and throws. *)
Lemma mos_write_full s data : mCapacity s < zlen (mData s) + zlen data ->
  write s data = Throw InsufficientBufferSizeException.
Proof.
  intros. cbn [write MemoryOutputStream_stream]. unfold mos_write, mos_size.
  destruct (Z.ltb_spec (mCapacity s - zlen (mData s)) (zlen data)); [done|lia].
Qed.
