(* ===== verification/FileStreams.v ===== *)
(** * FileStream.cpp, TempFileStream.cpp: files and the spilling temporary stream

    [disk] is the part of the file system a stream can see: the regular files
    and the paths that cannot be opened for writing.  A [FILE *] is the name of
    the file, the position and the mode; C's stdio calls are modelled on it
    (bytes written are visible at once: the buffering of stdio is not). *)
From S2P Require Import Prelude Streams MemoryStreams.
From Stdlib Require Import ZArith Lia.

(** ** stdio *)

Record disk := { files : gmap (list Byte.byte) (list Byte.byte); locked : gset (list Byte.byte) }.

Definition empty_disk : disk := {| files := ∅; locked := ∅ |}.
Definition set_file (d : disk) (path data : bytes) : disk :=
  {| files := <[path := data]> (files d); locked := locked d |}.
Definition remove_file (d : disk) (path : bytes) : disk :=
  {| files := delete path (files d); locked := locked d |}.
Definition file_data (d : disk) (path : bytes) : bytes := default [] (files d !! path).

Inductive FileMode := FM_Read | FM_Write | FM_ReadWrite.
#[export] Instance FileMode_eq_dec : EqDecision FileMode.
Proof. solve_decision. Defined.

Record FILE := { fName : bytes; fPos : Z; fMode : FileMode }.

(** [fopen] with "rb", "wb" (which truncates) and "r+b". *)
Definition fopen (d : disk) (path : bytes) (mode : FileMode) : disk * option FILE :=
  let fp := {| fName := path; fPos := 0; fMode := mode |} in
  match mode with
  | FM_Read => (d, match files d !! path with Some _ => Some fp | None => None end)
  | FM_Write => if decide (path ∈ locked d) then (d, None) else (set_file d path [], Some fp)
  | FM_ReadWrite =>
      if decide (path ∈ locked d) then (d, None)
      else (d, match files d !! path with Some _ => Some fp | None => None end)
  end.

(** The bytes after writing [b] at offset [pos]; a gap is filled with zeros. *)
Definition overwrite (data : bytes) (pos : Z) (b : bytes) : bytes :=
  ztake pos data ++ replicate (Z.to_nat (pos - zlen data)) Byte.x00 ++ b
  ++ zdrop (pos + zlen b) data.

(** ** FileStream *)

Record FileStream := { mDisk : disk; mFp : option FILE; mPath : bytes }.

Definition new_FileStream (d : disk) : FileStream := {| mDisk := d; mFp := None; mPath := [] |}.

Definition fs_close (s : FileStream) : FileStream :=
  match mFp s with
  | Some _ => {| mDisk := mDisk s; mFp := None; mPath := [] |}
  | None => s
  end.

(** [FileStream::open] *)
Definition fs_open (s : FileStream) (path : bytes) (mode : FileMode) : bool * FileStream :=
  let s := fs_close s in
  match fopen (mDisk s) path mode with
  | (d, None) => (false, {| mDisk := d; mFp := None; mPath := mPath s |})
  | (d, Some fp) => (true, {| mDisk := d; mFp := Some fp; mPath := path |})
  end.

(** [FileStream::FileStream(path, mode)] *)
Definition open_FileStream (d : disk) (path : bytes) (mode : FileMode) : result FileStream :=
  match fs_open (new_FileStream d) path mode with
  | (true, s) => Ret s
  | (false, _) => Throw FileNotFoundException
  end.

Definition with_pos (s : FileStream) (fp : FILE) (pos : Z) : FileStream :=
  {| mDisk := mDisk s; mFp := Some {| fName := fName fp; fPos := pos; fMode := fMode fp |};
     mPath := mPath s |}.

(** stdio on a null [FILE *] is undefined. *)
Definition get_fp (s : FileStream) : result FILE := or_undef (mFp s).

Definition fs_rewind (s : FileStream) : result FileStream :=
  fp ← get_fp s; Ret (with_pos s fp 0).

Definition fs_seek (s : FileStream) (offset : Z) : result (Z * FileStream) :=
  fp ← get_fp s;
  if offset <? 0 then Throw FileIOException else Ret (offset, with_pos s fp offset).

Definition fs_read (s : FileStream) (size : Z) : result (bytes * FileStream) :=
  fp ← get_fp s;
  if decide (fMode fp = FM_Write) then
    (* fread fails: n == 0, and ferror is set unless nothing was asked for *)
    if size =? 0 then Ret ([], s) else Throw FileIOException
  else
    let b := ztake size (zdrop (fPos fp) (file_data (mDisk s) (fName fp))) in
    Ret (b, with_pos s fp (fPos fp + zlen b)).

(** [fseek(mFp, size, SEEK_CUR)] converts the [size_t] to [long]. *)
Definition fs_skip (s : FileStream) (n : Z) : result (Z * FileStream) :=
  fp ← get_fp s;
  let endPos := fPos fp + swrap 64 n in
  if endPos <? 0 then Throw FileIOException
  else Ret (endPos - fPos fp, with_pos s fp endPos).

Definition fs_write (s : FileStream) (b : bytes) : result FileStream :=
  fp ← get_fp s;
  if decide (fMode fp = FM_Read) then
    if zlen b =? 0 then Ret s else Throw FileIOException
  else
    let data := overwrite (file_data (mDisk s) (fName fp)) (fPos fp) b in
    Ret (with_pos {| mDisk := set_file (mDisk s) (fName fp) data; mFp := mFp s; mPath := mPath s |}
                  fp (fPos fp + zlen b)).

(** [boost::filesystem::file_size(mPath)] *)
Definition fs_size (s : FileStream) : result Z :=
  match files (mDisk s) !! mPath s with
  | Some data => Ret (zlen data)
  | None => Throw filesystem_error
  end.

Definition fs_flush (s : FileStream) : result FileStream := _ ← get_fp s; Ret s.

#[export] Instance FileStream_input : InputStream FileStream := {|
  read := fs_read;
  skip := fs_skip;
  canRewind s := true;
  rewind := fs_rewind;
  size := fs_size;
  remaining s := match mFp s with
    | Some fp => length (file_data (mDisk s) (fName fp))
    | None => 0%nat end
|}.

#[export] Instance FileStream_output : OutputStream FileStream := {|
  write := fs_write;
  flush := fs_flush;
  close s := Ret (fs_close s)
|}.

(** ** TempFileStream *)

Definition TEMP_BUFFER_SIZE := 4 * 1024 * 1024.

Record TempFileStream := {
  tDisk : disk;                            (* the disk while in memory *)
  tUnique : bytes;                         (* what unique_path() returns *)
  mMemStream : option MemoryOutputStream;
  mFileStream : option FileStream;
  mTmpFile : bytes
}.

Definition new_TempFileStream (d : disk) (unique : bytes) : TempFileStream := {|
  tDisk := d; tUnique := unique;
  mMemStream := Some (new_MemoryOutputStream TEMP_BUFFER_SIZE);
  mFileStream := None; mTmpFile := [] |}.

(** The first statement of [write]: to the buffer, or spill the buffer to a file. *)
Definition tfs_write_mem (s : TempFileStream) (data : bytes) : result TempFileStream :=
  match mMemStream s with
  | Some m =>
      if TEMP_BUFFER_SIZE <? uwrap 64 (mos_size m + zlen data) then
        fs ← open_FileStream (tDisk s) (tUnique s) FM_Write;
        fs ← fs_write fs (mData m);
        Ret {| tDisk := tDisk s; tUnique := tUnique s; mMemStream := None;
               mFileStream := Some fs; mTmpFile := tUnique s |}
      else
        m ← mos_write m data;
        Ret {| tDisk := tDisk s; tUnique := tUnique s; mMemStream := Some m;
               mFileStream := mFileStream s; mTmpFile := mTmpFile s |}
  | None => Ret s
  end.

(** [TempFileStream::write] *)
Definition tfs_write (s : TempFileStream) (data : bytes) : result TempFileStream :=
  s ← tfs_write_mem s data;
  match mFileStream s, mMemStream s with
  | Some fs, _ =>
      fs ← fs_write fs data;
      Ret {| tDisk := tDisk s; tUnique := tUnique s; mMemStream := mMemStream s;
             mFileStream := Some fs; mTmpFile := mTmpFile s |}
  | None, None => Throw FileIOException
  | None, Some _ => Ret s
  end.

#[export] Instance TempFileStream_stream : OutputStream TempFileStream := {|
  write := tfs_write;
  flush := default_flush;
  close := default_close
|}.

(** [TempFileStream::inputStream]; a null pointer is [None].  In file mode the
    file is closed, and opened again for reading. *)
Definition inputStream (s : TempFileStream)
  : result (option (MemoryInputStream + FileStream) * TempFileStream) :=
  match mMemStream s, mFileStream s with
  | Some m, _ => Ret (Some (inl (new_MemoryInputStream (mData m))), s)
  | None, Some fs =>
      let fs := fs_close fs in
      i ← open_FileStream (mDisk fs) (mTmpFile s) FM_Read;
      Ret (Some (inr i), {| tDisk := tDisk s; tUnique := tUnique s; mMemStream := None;
                            mFileStream := Some fs; mTmpFile := mTmpFile s |})
  | None, None => Ret (None, s)
  end.

(** The sizes passed to [fwrite] by the loop that shreds [len] bytes. *)
Fixpoint shred (fuel : nat) (len : Z) : list Z :=
  if 0 <? len then
    match fuel with
    | O => []
    | S fuel => (if 4096 <? len then 4096 else len) :: shred fuel (len - 4096)
    end
  else [].

(** [TempFileStream::~TempFileStream]: the file is overwritten with random bytes
    ([noise] is what [arc4random_buf] yields) and removed; the disk afterwards. *)
Definition destroy (noise : bytes) (s : TempFileStream) : result disk :=
  match mFileStream s with
  | None => Ret (tDisk s)
  | Some fs =>
      let d := mDisk (fs_close fs) in
      match files d !! mTmpFile s with
      | None => Throw filesystem_error
      | Some data =>
          let n := zlen data in
          let d := if decide (mTmpFile s ∈ locked d) then d
                   else set_file d (mTmpFile s)
                          (overwrite data 0 (ztake (foldr Z.add 0 (shred (Z.to_nat n) n)) noise)) in
          Ret (remove_file d (mTmpFile s))
      end
  end.

(** * Contracts *)

(** ** Files as streams *)

Lemma file_data_set d p b : file_data (set_file d p b) p = b.
Proof. unfold file_data, set_file; simpl. by rewrite lookup_insert_eq. Qed.

Lemma overwrite_end data b : overwrite data (zlen data) b = data ++ b.
Proof.
  unfold overwrite. pose proof (zlen_nonneg b).
  rewrite ztake_ge, Z.sub_diag, zdrop_ge, app_nil_r by lia. done.
Qed.

(** A file open for reading. *)
Definition readable (s : FileStream) : Prop :=
  exists fp, mFp s = Some fp /\ fMode fp <> FM_Write /\ 0 <= fPos fp /\ fName fp = mPath s /\
             is_Some (files (mDisk s) !! mPath s).

Definition unread (s : FileStream) : bytes :=
  match mFp s with
  | Some fp => zdrop (fPos fp) (file_data (mDisk s) (fName fp))
  | None => []
  end.

#[export] Program Instance FileStream_input_spec : InputStreamSpec FileStream := {|
  valid := readable;
  contents := unread;
  whole s := file_data (mDisk s) (mPath s)
|}.
Next Obligation.
  intros s n (fp & Efp & Hm & Hp & Hn & Hf) Hn'. cbn [read FileStream_input].
  unfold fs_read, get_fp, unread. rewrite Efp. cbn [or_undef mbind result_bind].
  rewrite decide_False by done. rewrite Hn.
  set (data := file_data (mDisk s) (mPath s)).
  exists (with_pos s fp (fPos fp + zlen (ztake n (zdrop (fPos fp) data)))).
  split; [done|]. unfold with_pos; cbn [mFp mDisk mPath fPos fName]. rewrite zlen_ztake by lia.
  pose proof (zlen_nonneg (zdrop (fPos fp) data)). split; [|split; [|done]].
  - eexists. split; [reflexivity|]. cbn. split_and!; (done || lia).
  - rewrite Hn. fold data. rewrite <-zdrop_zdrop by lia.
    destruct (Z.le_ge_cases n (zlen (zdrop (fPos fp) data))).
    + by rewrite Z.min_l.
    + rewrite Z.min_r, !zdrop_ge by lia. done.
Qed.
Next Obligation.
  intros s n (fp & Efp & Hm & Hp & Hn & Hf) Hn'. cbn [skip FileStream_input].
  unfold fs_skip, get_fp, unread. rewrite Efp. cbn [or_undef mbind result_bind].
  rewrite swrap_small by lia. destruct (Z.ltb_spec (fPos fp + n) 0); [lia|].
  eexists _, (with_pos s fp (fPos fp + n)). split; [reflexivity|].
  unfold with_pos; cbn [mFp mDisk mPath fPos fName]. split; [|split; [|done]].
  - eexists. split; [reflexivity|]. cbn. split_and!; (done || lia).
  - by rewrite zdrop_zdrop by lia.
Qed.
Next Obligation.
  intros s (fp & Efp & Hm & Hp & Hn & Hf) _. cbn [rewind FileStream_input].
  unfold fs_rewind, get_fp, unread. rewrite Efp. cbn [or_undef mbind result_bind].
  eexists. split; [reflexivity|]. unfold with_pos; cbn [mFp mDisk mPath fPos fName].
  split; [|split; [|done]].
  - eexists. split; [reflexivity|]. cbn. split_and!; (done || lia).
  - by rewrite zdrop_nonpos, Hn.
Qed.
Next Obligation.
  intros s (fp & Efp & Hm & Hp & Hn & [data Hf]). left. cbn [size FileStream_input].
  unfold fs_size, file_data. by rewrite Hf.
Qed.
Next Obligation.
  intros s (fp & Efp & Hm & Hp & Hn & Hf). cbn [remaining FileStream_input].
  unfold unread. rewrite Efp, <-zlen_length, zlen_zdrop by done.
  pose proof (zlen_nonneg (file_data (mDisk s) (fName fp))). lia.
Qed.

(** A file open for writing, positioned at its end. *)
Definition appendable (s : FileStream) : Prop :=
  exists fp, mFp s = Some fp /\ fMode fp <> FM_Read /\ fName fp = mPath s /\
             fPos fp = zlen (file_data (mDisk s) (mPath s)) /\ is_Some (files (mDisk s) !! mPath s).

Lemma fs_write_append s b : appendable s -> exists s', fs_write s b = Ret s' /\ appendable s' /\
  mPath s' = mPath s /\ mDisk s' = set_file (mDisk s) (mPath s) (file_data (mDisk s) (mPath s) ++ b).
Proof.
  intros (fp & Efp & Hm & Hn & Hp & Hf). unfold fs_write, get_fp. rewrite Efp. cbn [or_undef mbind result_bind].
  rewrite decide_False by done. rewrite Hn, Hp, overwrite_end.
  eexists. split; [reflexivity|]. unfold with_pos; cbn [mFp mDisk mPath fPos fName]. split_and!; [|done..].
  eexists. split; [reflexivity|]. cbn [mDisk mPath fMode fName fPos]. rewrite file_data_set, zlen_app.
  split_and!; try done. simpl. by rewrite lookup_insert_eq.
Qed.

#[export] Program Instance FileStream_output_spec : OutputStreamSpec FileStream := {|
  ovalid := appendable;
  written s := file_data (mDisk s) (mPath s);
  fits s n := True
|}.
Next Obligation.
  intros s b Hv _. destruct (fs_write_append s b Hv) as (s' & E & Hv' & Hp & Hd).
  exists s'. cbn [write FileStream_output]. rewrite E, Hp, Hd, file_data_set. done.
Qed.
Next Obligation.
  intros s (fp & Efp & Hr). exists s. cbn [flush FileStream_output]. unfold fs_flush, get_fp. rewrite Efp.
  split; [done|]. split; [by exists fp|done].
Qed.
Next Obligation. done. Qed.

Lemma open_write d path : path ∉ locked d ->
  exists s, open_FileStream d path FM_Write = Ret s /\ appendable s /\ mPath s = path /\
            mDisk s = set_file d path [].
Proof.
  intros Hl. unfold open_FileStream, fs_open; cbn. rewrite decide_False by done. cbn.
  eexists. split; [reflexivity|]. split_and!; try done.
  eexists. split; [reflexivity|]. cbn. rewrite file_data_set, lookup_insert_eq. done.
Qed.

Lemma open_read d path : is_Some (files d !! path) ->
  exists s, open_FileStream d path FM_Read = Ret s /\ readable s /\ mPath s = path /\ mDisk s = d /\
            contents s = file_data d path.
Proof.
  intros [data Hd]. unfold open_FileStream, fs_open; cbn. rewrite Hd. cbn.
  eexists. split; [reflexivity|]. split_and!; try done.
  - eexists. split; [reflexivity|]. cbn. rewrite Hd. done.
  - cbn. by rewrite zdrop_nonpos.
Qed.

(** ** The temporary stream *)

(** In memory, or spilled to its file; never both, never neither. *)
Inductive temp_ok (s : TempFileStream) : Prop :=
  | temp_in_memory m : mMemStream s = Some m -> mFileStream s = None ->
      mCapacity m = TEMP_BUFFER_SIZE -> zlen (mData m) <= TEMP_BUFFER_SIZE ->
      tUnique s ∉ locked (tDisk s) -> temp_ok s
  | temp_in_file fs : mMemStream s = None -> mFileStream s = Some fs -> appendable fs ->
      mPath fs = mTmpFile s -> TEMP_BUFFER_SIZE < zlen (file_data (mDisk fs) (mPath fs)) -> temp_ok s.

Definition temp_written (s : TempFileStream) : bytes :=
  match mMemStream s, mFileStream s with
  | Some m, _ => mData m
  | None, Some fs => file_data (mDisk fs) (mPath fs)
  | None, None => []
  end.

(** The disk as the stream leaves it. *)
Definition temp_disk (s : TempFileStream) : disk :=
  match mFileStream s with Some fs => mDisk fs | None => tDisk s end.

Lemma tfs_write_ok s b : temp_ok s -> zlen (temp_written s) + zlen b < 2 ^ 64 ->
  exists s', tfs_write s b = Ret s' /\ temp_ok s' /\ temp_written s' = temp_written s ++ b.
Proof.
  intros [m Em Ef Hc Hl Hu|fs Em Ef Ha Hp Hb] Hs; unfold tfs_write, tfs_write_mem, temp_written in *; rewrite Em in *.
  - pose proof (zlen_nonneg (mData m)); pose proof (zlen_nonneg b).
    unfold mos_size. rewrite uwrap_small by lia.
    destruct (Z.ltb_spec TEMP_BUFFER_SIZE (zlen (mData m) + zlen b)).
    + destruct (open_write _ _ Hu) as (f0 & -> & A0 & P0 & D0). rewrite bind_of_Ret.
      destruct (fs_write_append f0 (mData m) A0) as (f1 & -> & A1 & P1 & D1). rewrite !bind_of_Ret.
      cbn [mFileStream mMemStream].
      destruct (fs_write_append f1 b A1) as (f2 & -> & A2 & P2 & D2). rewrite bind_of_Ret.
      eexists. split; [reflexivity|]. cbn [mMemStream mFileStream]. split.
      * eapply temp_in_file; [done..|cbn; congruence|].
        rewrite D2, P2, file_data_set, D1, P1, file_data_set, D0, P0, file_data_set. zlen_lia.
      * rewrite D2, P2, file_data_set, D1, P1, file_data_set, D0, P0, file_data_set. done.
    + unfold mos_write, mos_size. destruct (Z.ltb_spec (mCapacity m - zlen (mData m)) (zlen b)); [lia|].
      cbn [mbind result_bind mFileStream mMemStream]. rewrite Ef.
      eexists. split; [reflexivity|]. cbn. split; [|done].
      eapply temp_in_memory; [reflexivity|reflexivity|exact Hc| |exact Hu]. cbn [mData]. rewrite zlen_app. lia.
  - cbn [mbind result_bind]. rewrite Ef.
    destruct (fs_write_append fs b Ha) as (f1 & -> & A1 & P1 & D1). rewrite bind_of_Ret.
    eexists. split; [reflexivity|]. cbn [mMemStream mFileStream]. rewrite Em. split.
    + eapply temp_in_file; [done..|cbn; congruence|]. rewrite D1, P1, file_data_set. zlen_lia.
    + by rewrite D1, P1, file_data_set.
Qed.

#[export] Program Instance TempFileStream_spec : OutputStreamSpec TempFileStream := {|
  ovalid := temp_ok;
  written := temp_written;
  fits s n := zlen (temp_written s) + n < 2 ^ 64
|}.
Next Obligation.
  intros s b Hv Hf. destruct (tfs_write_ok s b Hv Hf) as (s' & E & V & W).
  exists s'. split_and!; try done. intros k Hk Hfk. rewrite W, zlen_app. lia.
Qed.
Next Obligation. intros s Hv. by exists s. Qed.
Next Obligation. intros; simpl in *. lia. Qed.

Lemma new_TempFileStream_ok d u : u ∉ locked d -> temp_ok (new_TempFileStream d u) /\
  written (new_TempFileStream d u) = [].
Proof. intros. split; [|done]. eapply temp_in_memory; simpl; eauto. done. Qed.

(** What was written can be read, from the start, and again after a rewind. *)
Lemma inputStream_spec s : temp_ok s ->
  exists i s', inputStream s = Ret (Some i, s') /\ valid i /\ contents i = temp_written s /\
    whole i = temp_written s /\ canRewind i = true /\ size i = Ret (zlen (temp_written s)).
Proof.
  intros [m Em Ef Hc Hl Hu|fs Em Ef Ha Hp Hb]; unfold inputStream, temp_written; rewrite Em.
  - destruct (new_MemoryInputStream_valid (mData m)) as (V & C & W).
    eexists _, _. split; [reflexivity|]. done.
  - rewrite Ef. destruct Ha as (fp & Efp & _ & _ & _ & Hex). unfold fs_close. rewrite Efp. cbn [mDisk].
    rewrite Hp in *. destruct (open_read (mDisk fs) (mTmpFile s) Hex) as (i & -> & V & P & D & C).
    cbn [mbind result_bind]. eexists _, _. split; [reflexivity|]. cbn [valid contents whole InputStreamSpec_sum FileStream_input_spec canRewind size InputStream_sum FileStream_input] in *.
    rewrite C, P, D. split_and!; try done. unfold fs_size. rewrite P, D. unfold file_data.
    destruct Hex as [data ->]. done.
Qed.

(** ** Properties of the component *)

(** C28: whatever is written to a [TempFileStream], in whatever pieces, is read
    back from its input stream, which can be rewound and knows its size; the
    data goes to the temporary file exactly when it is larger than 4 MiB. *)
Theorem temp_stream_roundtrip d u chunks
    (Hu : u ∉ locked d) (Hlen : zlen (concat chunks) < 2 ^ 64) :
  exists s i s', write_all (new_TempFileStream d u) chunks = Ret s /\
    inputStream s = Ret (Some i, s') /\
    valid i /\ contents i = concat chunks /\ whole i = concat chunks /\
    canRewind i = true /\ size i = Ret (zlen (concat chunks)) /\
    (mFileStream s = None <-> zlen (concat chunks) <= TEMP_BUFFER_SIZE).
Proof.
  destruct (new_TempFileStream_ok d u Hu) as [Hok Hw].
  destruct (write_all_spec chunks (new_TempFileStream d u) 0) as (s & E & V & W & _).
  - done.
  - done.
  - simpl. lia.
  - rewrite Hw in W. cbn [app] in W. destruct (inputStream_spec s V) as (i & s' & Ei & Hi).
    cbn [written TempFileStream_spec] in W. rewrite W in Hi. exists s, i, s'.
    split; [exact E|]. split; [exact Ei|]. destruct Hi as (? & ? & ? & ? & ?). split_and!; try done.
    unfold temp_written in W. destruct V as [m Em Ef Hc Hl _|fs Em Ef _ _ Hb]; rewrite Em in W.
    + rewrite <-W, Ef. done.
    + rewrite Ef in W. rewrite <-W, Ef. split; [done|lia].
Qed.

(** The states of a [TempFileStream] under any sequence of its methods. *)
Inductive temp_reach (d : disk) (u : bytes) : TempFileStream -> Prop :=
  | reach_new : temp_reach d u (new_TempFileStream d u)
  | reach_write s b s' : temp_reach d u s -> tfs_write s b = Ret s' -> temp_reach d u s'
  | reach_input s i s' : temp_reach d u s -> inputStream s = Ret (i, s') -> temp_reach d u s'.

(** One of the two streams is there, and the file, when it is open, is open for writing. *)
Definition temp_inv (s : TempFileStream) : Prop :=
  match mMemStream s, mFileStream s with
  | Some _, None => True
  | None, Some fs => forall fp, mFp fs = Some fp -> fMode fp = FM_Write
  | _, _ => False
  end.

Lemma fs_write_mode fs b fs' : fs_write fs b = Ret fs' ->
  (forall fp, mFp fs = Some fp -> fMode fp = FM_Write) ->
  forall fp, mFp fs' = Some fp -> fMode fp = FM_Write.
Proof.
  unfold fs_write, get_fp. destruct (mFp fs) as [fp|] eqn:Efp; [|done]. cbn [or_undef mbind result_bind].
  intros E Hm. specialize (Hm fp eq_refl). rewrite decide_False in E by congruence.
  injection E as <-. unfold with_pos. cbn. intros fp' [= <-]. done.
Qed.

Lemma open_write_mode d p fs : open_FileStream d p FM_Write = Ret fs ->
  forall fp, mFp fs = Some fp -> fMode fp = FM_Write.
Proof.
  unfold open_FileStream, fs_open. cbn. destruct (decide _); [done|]. cbn. intros [= <-] fp [= <-]. done.
Qed.

Lemma temp_inv_write s b s' : temp_inv s -> tfs_write s b = Ret s' -> temp_inv s'.
Proof.
  unfold temp_inv, tfs_write, tfs_write_mem. intros Hi E.
  destruct (mMemStream s) as [m|] eqn:Em, (mFileStream s) as [fs|] eqn:Ef; try done.
  - destruct (_ <? _).
    + inv_ret. cbn in *. inv_ret. cbn. eapply fs_write_mode; [eassumption|].
      eapply fs_write_mode; [eassumption|]. by eapply open_write_mode.
    + inv_ret. cbn in *. inv_ret. done.
  - cbn in E. rewrite Ef in E. inv_ret. cbn. rewrite ?Em. by eapply fs_write_mode.
Qed.

Lemma temp_inv_input s i s' : temp_inv s -> inputStream s = Ret (i, s') -> temp_inv s'.
Proof.
  unfold temp_inv, inputStream. intros Hi E.
  destruct (mMemStream s) as [m|] eqn:Em, (mFileStream s) as [fs|] eqn:Ef; try done.
  - injection E as <- <-. by rewrite Em, Ef.
  - inv_ret. cbn. unfold fs_close. destruct (mFp fs) eqn:Efp; cbn; [done|]. by rewrite Efp.
Qed.

Lemma temp_reach_inv d u s : temp_reach d u s -> temp_inv s.
Proof. induction 1; [done|by eapply temp_inv_write|by eapply temp_inv_input]. Qed.

(** The guard "cannot write after the input stream has been obtained" never
    fires: in no reachable state does [write] throw [FileIOException].  After
    [inputStream] a stream in memory accepts further writes, and a stream that
    was spilled writes through a null [FILE *]. *)
Theorem temp_write_guard_unreachable d u s (Hr : temp_reach d u s) :
  (forall b, tfs_write s b <> Throw FileIOException) /\
  (forall i s' b, inputStream s = Ret (i, s') ->
     (mMemStream s = None -> tfs_write s' b = Undef) /\
     (forall m, mMemStream s = Some m -> s' = s)).
Proof.
  pose proof (temp_reach_inv d u s Hr) as Hi. unfold temp_inv in Hi. split.
  - intros b. unfold tfs_write, tfs_write_mem.
    assert (forall fs b, (forall fp, mFp fs = Some fp -> fMode fp = FM_Write) ->
              fs_write fs b <> Throw FileIOException) as Hw.
    { intros fs b' Hm. unfold fs_write, get_fp. destruct (mFp fs) as [fp|]; [|done].
      cbn. specialize (Hm fp eq_refl). by rewrite decide_False by congruence. }
    destruct (mMemStream s) as [m|] eqn:Em, (mFileStream s) as [fs|] eqn:Ef; try done.
    + destruct (_ <? _).
      * intros E. apply bind_Throw in E as [E|(s1 & E1 & E)].
        -- apply bind_Throw in E as [E|(f0 & E0 & E)].
           ++ unfold open_FileStream, fs_open in E. cbn in E. by destruct (decide _).
           ++ apply bind_Throw in E as [E|(f1 & E1 & E)]; [|done].
              eapply Hw, E. by eapply open_write_mode.
        -- inv_ret. cbn in E. apply bind_Throw in E as [E|(f2 & E2 & E)]; [|done].
           eapply Hw, E. eapply fs_write_mode; [eassumption|]. by eapply open_write_mode.
      * unfold mos_write. destruct (_ <? _); [done|]. cbn. by rewrite ?Ef.
    + cbn. rewrite Ef. intros E. apply bind_Throw in E as [E|(f2 & E2 & E)]; [|done]. by eapply Hw, E.
  - intros i s' b E. unfold inputStream in E.
    destruct (mMemStream s) as [m|] eqn:Em, (mFileStream s) as [fs|] eqn:Ef; try done.
    + injection E as <- <-. done.
    + split; [|done]. intros _. inv_ret. unfold tfs_write, tfs_write_mem. cbn.
      unfold fs_close. destruct (mFp fs) eqn:Efp; unfold fs_write, get_fp; cbn; by rewrite ?Efp.
Qed.

(** [destroy] removes the temporary file and nothing else. *)
Lemma destroy_removes noise s : temp_ok s -> exists d', destroy noise s = Ret d' /\
  (mFileStream s = None -> d' = tDisk s) /\
  (forall fs, mFileStream s = Some fs -> files d' = delete (mTmpFile s) (files (mDisk fs))).
Proof.
  intros [m Em Ef Hc Hl Hu|fs Em Ef Ha Hp Hb]; unfold destroy; rewrite Ef; [by eexists|].
  destruct Ha as (fp & Efp & _ & _ & _ & Hex). unfold fs_close. rewrite Efp; cbn. rewrite Hp in Hex.
  destruct Hex as [data Hd]. rewrite Hd. eexists. split; [reflexivity|]. split; [done|].
  intros fs' [= <-]. destruct (decide _); cbn; [done|]. by rewrite delete_insert_eq.
Qed.

(** The shredding loop covers the file. *)
Lemma shred_total fuel : forall len, 0 <= len <= Z.of_nat fuel -> foldr Z.add 0 (shred fuel len) = len.
Proof.
  induction fuel as [|fuel IH]; intros len Hl; cbn [shred]; (destruct (Z.ltb_spec 0 len); [|simpl; lia]); [lia|].
  simpl. destruct (Z.ltb_spec 4096 len).
  - rewrite IH; lia.
  - destruct fuel; cbn [shred]; (destruct (Z.ltb_spec 0 (len - 4096)); [lia|simpl; lia]).
Qed.

Definition witness_disk : disk := {| files := ∅; locked := {[str "ro"]} |}.

Lemma temp_stream_roundtrip_witness :
  str "tmp" ∉ locked witness_disk /\ exists s i s',
    write_all (new_TempFileStream witness_disk (str "tmp")) [str "ab"; str "cd"] = Ret s /\
    inputStream s = Ret (Some i, s') /\ contents i = str "abcd".
Proof.
  assert (str "tmp" ∉ locked witness_disk) as Hu by (vm_compute; intros H; inversion H).
  split; [exact Hu|].
  destruct (temp_stream_roundtrip witness_disk (str "tmp") [str "ab"; str "cd"] Hu ltac:(reflexivity))
    as (s & i & s' & E & Ei & _ & C & _).
  exists s, i, s'. split; [exact E|]. split; [exact Ei|exact C].
Defined.

Lemma temp_write_guard_unreachable_witness :
  exists s, tfs_write (new_TempFileStream witness_disk (str "tmp")) (str "ab") = Ret s /\
    (forall b, tfs_write s b <> Throw FileIOException).
Proof.
  destruct (tfs_write (new_TempFileStream witness_disk (str "tmp")) (str "ab")) as [s| | |] eqn:E.
  2-4: vm_compute in E; discriminate E.
  exists s. split; [reflexivity|].
  refine (proj1 (temp_write_guard_unreachable witness_disk (str "tmp") s _)).
  eapply reach_write; [apply reach_new|exact E].
Defined.
