(* ===== verification/Zeroed.v ===== *)
(** * ZeroedAllocator.h, ZeroedArray.h, ZeroedString.h: memory that is scrubbed

    The containers of secrets clear their memory with [explicit_bzero] when they
    give it back; [Repository] and [TempFileStream] do the same with the buffers
    of their keys and data.  Here the memory is explicit: the byte at every
    address and the blocks that are in use.  [scrubbed_memory] says that what is
    found later in memory that is not in use does not depend on the data;
    [table_left] that this fails for a [ZeroedArray] of more than bytes, such as
    the table of a [RollingHash].  A [ZeroedString] is [std::basic_string] over
    the allocator; what the library keeps in the string object itself, without
    the allocator, is not seen here. *)
From S2P Require Import Prelude Crypto RollingHash FileStreams.
From Stdlib Require Import ZArith Lia.

(** ** Memory *)

(** What a block of memory was given out for. *)
Inductive owner :=
  | Elements (size n : Z)   (* ZeroedAllocator<T>::allocate(n), size = sizeof(T) *)
  | Array (size Size : Z)   (* ZeroedArray<T, Size>, size = sizeof(T) *)
  | KeyBuffer               (* a key of a Repository *)
  | StreamBuffer.           (* mBuffer of a TempFileStream *)

#[export] Instance owner_eq_dec : EqDecision owner.
Proof. solve_decision. Defined.

(** Its length; [n * sizeof(T)] is computed in [size_t]. *)
Definition extent (o : owner) : Z :=
  match o with
  | Elements size n => u64 (n * size)
  | Array size Size => Size * size
  | KeyBuffer => EVP_MAX_KEY_LENGTH
  | StreamBuffer => TEMP_BUFFER_SIZE
  end.

Record memory := {
  byte_at : Z -> Byte.byte;
  blocks : gmap Z owner        (* the blocks in use, by their address *)
}.

(** The address [a] is in a block of [o] at [p]. *)
Definition within (p : Z) (o : owner) (a : Z) : Prop := p <= a < p + extent o.
Definition live (h : memory) (a : Z) : Prop := exists p o, blocks h !! p = Some o /\ within p o a.

(** Where the runtime puts a new block; it does not look at the data. *)
Class Placement := { place : gmap Z owner -> owner -> option Z }.

Class PlacementSpec `{Placement} := place_spec bl o p : place bl o = Some p ->
  0 < p /\ bl !! p = None /\ forall q o', bl !! q = Some o' -> q + extent o' <= p \/ p + extent o <= q.

Section Code.
Context `{Placement}.

Definition new_block (o : owner) : io memory (option Z) := fun h =>
  match place (blocks h) o with
  | Some p => (Ret (Some p), {| byte_at := byte_at h; blocks := <[p := o]> (blocks h) |})
  | None => (Ret None, h)
  end.

Definition operator_new (o : owner) : io memory Z :=
  p ← new_block o;
  match p with Some p => mret p | None => throw bad_alloc end.

Definition malloc (o : owner) : io memory Z := p ← new_block o; mret (default 0 p).

(** Storage of a variable or a member. *)
Definition storage (o : owner) : io memory Z :=
  p ← new_block o;
  match p with Some p => mret p | None => lift Undef end.

(** The end of a block: [operator delete], [free] (never of NULL here, which
    was written to before), the end of a variable. *)
Definition end_block (o : owner) (p : Z) : io memory unit := update (fun h =>
  if bool_decide (blocks h !! p = Some o) then Ret {| byte_at := byte_at h; blocks := delete p (blocks h) |} else Undef).

(** [memcpy(p + off, data, size)] *)
Definition write_bytes (o : owner) (p off : Z) (data : bytes) : io memory unit := update (fun h =>
  if bool_decide (blocks h !! p = Some o) && (0 <=? off) && (off + zlen data <=? extent o) then
    Ret {| byte_at a := if p + off <=? a then default (byte_at h a) (znth (a - (p + off)) data) else byte_at h a;
           blocks := blocks h |}
  else Undef).

Definition explicit_bzero (o : owner) (p n : Z) : io memory unit := update (fun h =>
  if bool_decide (blocks h !! p = Some o) && (0 <=? n) && (n <=? extent o) then
    Ret {| byte_at a := if (p <=? a) && (a <? p + n) then Byte.x00 else byte_at h a; blocks := blocks h |}
  else Undef).

(** The [n] bytes at [p]. *)
Definition peek (h : memory) (p n : Z) : bytes := (fun i => byte_at h (p + Z.of_nat i)) <$> seq 0 (Z.to_nat n).

(** ** ZeroedAllocator *)

Definition allocate (size n : Z) : io memory Z := operator_new (Elements size n).

Definition deallocate (size p n : Z) : io memory unit :=
  _ ← explicit_bzero (Elements size n) p (u64 (n * size));
  end_block (Elements size n) p.

(** ** ZeroedArray *)

Definition ZeroedArray_new (size Size : Z) : io memory Z := storage (Array size Size).

(** [explicit_bzero(mBuffer, Size)] *)
Definition ZeroedArray_delete (size Size p : Z) : io memory unit :=
  _ ← explicit_bzero (Array size Size) p Size;
  end_block (Array size Size) p.

(** [array[n] = x], with the bytes of [x]. *)
Definition ZeroedArray_set (size Size p n : Z) (x : bytes) : io memory unit :=
  if (0 <=? n) && (n <? Size) then write_bytes (Array size Size) p (n * size) x else lift Undef.

(** [array[n]] *)
Definition ZeroedArray_get (size Size p n : Z) : io memory bytes := fun h =>
  if bool_decide (blocks h !! p = Some (Array size Size)) && (0 <=? n) && (n <? Size)
  then (Ret (peek h (p + n * size) size), h) else (Undef, h).

(** ** The buffers of Repository and TempFileStream *)

Record KeyBuffers := { pEncKey : Z; pMacKey : Z; pHashKey : Z; pRollKey : Z }.

Definition new_KeyBuffers : io memory KeyBuffers :=
  enc ← malloc KeyBuffer;
  mac ← malloc KeyBuffer;
  hash ← malloc KeyBuffer;
  roll ← malloc KeyBuffer;
  mret {| pEncKey := enc; pMacKey := mac; pHashKey := hash; pRollKey := roll |}.

Definition delete_KeyBuffers (k : KeyBuffers) : io memory unit :=
  _ ← explicit_bzero KeyBuffer (pEncKey k) EVP_MAX_KEY_LENGTH;
  _ ← explicit_bzero KeyBuffer (pMacKey k) EVP_MAX_KEY_LENGTH;
  _ ← explicit_bzero KeyBuffer (pHashKey k) EVP_MAX_KEY_LENGTH;
  _ ← explicit_bzero KeyBuffer (pRollKey k) EVP_MAX_KEY_LENGTH;
  _ ← end_block KeyBuffer (pMacKey k);
  _ ← end_block KeyBuffer (pEncKey k);
  _ ← end_block KeyBuffer (pHashKey k);
  end_block KeyBuffer (pRollKey k).

Definition new_StreamBuffer : io memory Z := malloc StreamBuffer.

Definition delete_StreamBuffer (p : Z) : io memory unit :=
  _ ← explicit_bzero StreamBuffer p TEMP_BUFFER_SIZE;
  end_block StreamBuffer p.

(** ** What the program does with them *)

Inductive memory_call :=
  | Allocate (size n : Z)
  | Deallocate (size p n : Z)
  | NewArray (size Size : Z)
  | SetArray (size Size p n : Z) (x : bytes)
  | DeleteArray (size Size p : Z)
  | NewKeys
  | DeleteKeys (k : KeyBuffers)
  | NewBuffer
  | DeleteBuffer (p : Z)
  | Store (o : owner) (p off : Z) (data : bytes).

Definition do_call (c : memory_call) : io memory unit :=
  match c with
  | Allocate size n => _ ← allocate size n; mret tt
  | Deallocate size p n => deallocate size p n
  | NewArray size Size => _ ← ZeroedArray_new size Size; mret tt
  | SetArray size Size p n x => ZeroedArray_set size Size p n x
  | DeleteArray size Size p => ZeroedArray_delete size Size p
  | NewKeys => _ ← new_KeyBuffers; mret tt
  | DeleteKeys k => delete_KeyBuffers k
  | NewBuffer => _ ← new_StreamBuffer; mret tt
  | DeleteBuffer p => delete_StreamBuffer p
  | Store o p off data => write_bytes o p off data
  end.

Fixpoint do_calls (l : list memory_call) : io memory unit :=
  match l with
  | [] => mret tt
  | c :: l => _ ← do_call c; do_calls l
  end.
End Code.

(** ** Two memories that differ in the data of their blocks *)

Section Alike.
Context `{PlacementSpec} (residue : Z -> Byte.byte -> Prop) (Hzero : forall a, residue a Byte.x00).

(** Outside of the blocks, and in those of [C], which were scrubbed, the
    memories are equal, and their bytes are a [residue]. *)
Definition settled (C : gset Z) (h : memory) (a : Z) : Prop :=
  forall p o, blocks h !! p = Some o -> p ∉ C -> ~ within p o a.

Record alike (C : gset Z) (h1 h2 : memory) : Prop := {
  al_blocks : blocks h1 = blocks h2;
  al_bytes a : settled C h1 a -> byte_at h1 a = byte_at h2 a /\ residue a (byte_at h1 a)
}.

(** The calls end alike, and the memories are alike after a result; an
    exception leaves the memories alike too. *)
Definition agree {A} (C C' : gset Z) (m1 m2 : io memory A) : Prop := forall h1 h2, alike C h1 h2 ->
  match m1 h1 with
  | (Ret a, h1') => exists h2', m2 h2 = (Ret a, h2') /\ alike C' h1' h2'
  | (Throw e, h1') => exists h2', m2 h2 = (Throw e, h2') /\ alike ∅ h1' h2'
  | (x, _) => fst (m2 h2) = x
  end.

Lemma agree_ret {A} (a : A) C : agree C C (mret a) (mret a).
Proof. intros h1 h2 Hh. by exists h2. Qed.

Lemma agree_undef {A} C C' : agree (A := A) C C' (lift Undef) (lift Undef).
Proof. by intros h1 h2 _. Qed.

Lemma agree_throw {A} e : agree (A := A) ∅ ∅ (throw e) (throw e).
Proof. intros h1 h2 Hh. by exists h2. Qed.

Lemma agree_bind {A B} C C1 C2 (m1 m2 : io memory A) (f1 f2 : A -> io memory B) : agree C C1 m1 m2 ->
  (forall a, agree C1 C2 (f1 a) (f2 a)) -> agree C C2 (m1 ≫= f1) (m2 ≫= f2).
Proof.
  intros Hm Hf h1 h2 Hh. specialize (Hm h1 h2 Hh). unfold mbind, io_bind.
  destruct (m1 h1) as [[a|e| |] h1'].
  - destruct Hm as (h2' & -> & Hh'). exact (Hf a h1' h2' Hh').
  - destruct Hm as (h2' & -> & Hh'). by exists h2'.
  - destruct (m2 h2) as [[] ?]; cbn in *; by rewrite ?Hm.
  - destruct (m2 h2) as [[] ?]; cbn in *; by rewrite ?Hm.
Qed.

Lemma agree_new_block o : agree ∅ ∅ (new_block o) (new_block o).
Proof.
  intros h1 h2 [Eb Ha]. unfold new_block. rewrite <-Eb. destruct (place (blocks h1) o) as [p|] eqn:Ep; [|by exists h2].
  destruct (place_spec _ _ _ Ep) as (_ & Hnew & _). eexists. split; [done|]. split; cbn; [done|].
  intros a Hs. apply Ha. intros q o' Hq Hc. apply (Hs q o'); [|done]. cbn. rewrite lookup_insert_ne; [done|]. by intros ->; rewrite Hnew in Hq.
Qed.

(** A change of the bytes. *)
Lemma agree_update C C' f1 f2 : (forall h1 h2, alike C h1 h2 ->
    match f1 h1 with Ret h1' => exists h2', f2 h2 = Ret h2' /\ alike C' h1' h2' | Throw _ => False | x => f2 h2 = x end) ->
  agree C C' (update f1) (update f2).
Proof.
  intros Hf h1 h2 Hh. specialize (Hf h1 h2 Hh). unfold update. destruct (f1 h1) as [h1'|e| |]; [|done|by rewrite Hf..].
  destruct Hf as (h2' & -> & Hh'). by exists h2'.
Qed.

Lemma agree_write o p off d1 d2 : zlen d1 = zlen d2 -> agree ∅ ∅ (write_bytes o p off d1) (write_bytes o p off d2).
Proof.
  intros El. apply agree_update. intros h1 h2 [Eb Ha]. rewrite <-Eb, <-El.
  destruct (_ && _ && _) eqn:Hc; [|done]. apply andb_true_iff in Hc as [[Hp Ho]%andb_true_iff He].
  apply bool_decide_eq_true in Hp. apply Z.leb_le in Ho, He. eexists. split; [done|]. split; [done|]. cbn. intros a Hs.
  destruct (Ha a Hs) as [Ea Hr]. pose proof (Hs p o Hp ltac:(set_solver)) as Hout. unfold within in Hout.
  destruct (Z.leb_spec (p + off) a); [|done]. rewrite !znth_None by lia. done.
Qed.

Lemma agree_bzero C o p n : n = extent o -> agree C ({[p]} ∪ C) (explicit_bzero o p n) (explicit_bzero o p n).
Proof.
  intros ->. apply agree_update. intros h1 h2 [Eb Ha]. rewrite <-Eb. destruct (_ && _ && _) eqn:Hc; [|done].
  apply andb_true_iff in Hc as [[Hp _]%andb_true_iff _]. apply bool_decide_eq_true in Hp.
  eexists. split; [done|]. split; [done|]. cbn. intros a Hs.
  destruct (Z.leb_spec p a), (Z.ltb_spec a (p + extent o)); cbn; try (split; [done|apply Hzero]);
    (apply Ha; intros q o' Hq Hn; destruct (decide (q = p)) as [->|];
      [rewrite Hp in Hq; injection Hq as <-; unfold within; lia|apply (Hs q o' Hq); set_solver]).
Qed.

Lemma agree_end C o p : p ∈ C -> agree C C (end_block o p) (end_block o p).
Proof.
  intros HC. apply agree_update. intros h1 h2 [Eb Ha]. rewrite <-Eb. case_bool_decide; [|done].
  eexists. split; [done|]. split; cbn; [done|]. intros a Hs. apply Ha. intros q o' Hq Hn.
  apply (Hs q o'); [|done]. cbn. rewrite lookup_delete_ne; [done|]. by intros ->.
Qed.

(** Less is known. *)
Lemma alike_weaken C h1 h2 : alike C h1 h2 -> alike ∅ h1 h2.
Proof. intros [Eb Ha]. split; [done|]. intros a Hs. apply Ha. intros p o Hp _. apply (Hs p o Hp). set_solver. Qed.

Lemma agree_weaken {A} C C' (m1 m2 : io memory A) : agree C C' m1 m2 -> agree C ∅ m1 m2.
Proof.
  intros Hm h1 h2 Hh. specialize (Hm h1 h2 Hh). destruct (m1 h1) as [[a|e| |] h1']; try done.
  destruct Hm as (h2' & E & Hh'). exists h2'. split; [done|]. by eapply alike_weaken.
Qed.

(** Scrubbing the whole block and giving it back. *)
Lemma agree_scrub o p n : n = extent o ->
  agree ∅ ∅ (_ ← explicit_bzero o p n; end_block o p) (_ ← explicit_bzero o p n; end_block o p).
Proof.
  intros E. eapply agree_weaken, agree_bind; [by apply agree_bzero|]. intros _. apply agree_end. set_solver.
Qed.

Lemma agree_malloc o : agree ∅ ∅ (malloc o) (malloc o).
Proof. eapply agree_bind; [apply agree_new_block|]. intros. apply agree_ret. Qed.

Lemma agree_KeyBuffers k : agree ∅ ∅ (delete_KeyBuffers k) (delete_KeyBuffers k).
Proof.
  unfold delete_KeyBuffers. eapply agree_weaken.
  do 4 (eapply agree_bind; [by apply agree_bzero|]; intros _).
  do 3 (eapply agree_bind; [apply agree_end; set_solver|]; intros _). apply agree_end. set_solver.
Qed.

(** ** Programs *)

(** They do the same, with other data. *)
Inductive same_shape : memory_call -> memory_call -> Prop :=
  | same_call c : same_shape c c
  | same_set size Size p n x y : zlen x = zlen y -> same_shape (SetArray size Size p n x) (SetArray size Size p n y)
  | same_store o p off x y : zlen x = zlen y -> same_shape (Store o p off x) (Store o p off y).

(** An array of bytes, if it is an array that ends. *)
Definition scrubs (c : memory_call) : bool :=
  match c with DeleteArray size _ _ => size =? 1 | _ => true end.

Hint Resolve agree_ret agree_undef agree_throw agree_new_block agree_malloc agree_KeyBuffers : agree.

Lemma agree_do_call c1 c2 : same_shape c1 c2 -> scrubs c1 = true -> agree ∅ ∅ (do_call c1) (do_call c2).
Proof.
  intros [c|size Size p n x y El|o p off x y El] Hc; [|cbn; unfold ZeroedArray_set; case_match; [by apply agree_write|apply agree_undef]
    |by apply agree_write].
  destruct c; cbn [do_call scrubs] in *.
  - eapply agree_bind; [eapply agree_bind; [apply agree_new_block|intros []; eauto with agree]|eauto with agree].
  - by apply agree_scrub.
  - eapply agree_bind; [eapply agree_bind; [apply agree_new_block|intros []; eauto with agree]|eauto with agree].
  - unfold ZeroedArray_set. case_match; [by apply agree_write|apply agree_undef].
  - apply Z.eqb_eq in Hc as ->. apply agree_scrub. cbn. lia.
  - eapply agree_bind; [repeat (eapply agree_bind; [apply agree_malloc|intros ?])|]; eauto with agree.
  - apply agree_KeyBuffers.
  - eapply agree_bind; [apply agree_malloc|eauto with agree].
  - by apply agree_scrub.
  - by apply agree_write.
Qed.

Lemma agree_do_calls l1 l2 : Forall2 same_shape l1 l2 -> Forall (fun c => scrubs c = true) l1 ->
  agree ∅ ∅ (do_calls l1) (do_calls l2).
Proof.
  induction 1 as [|c1 c2 l1 l2 Hc _ IH]; intros Hs; cbn [do_calls]; [apply agree_ret|].
  apply Forall_cons in Hs as [Hs1 Hs]. eapply agree_bind; [by apply agree_do_call|]. intros _. by apply IH.
Qed.
End Alike.

(** ** Blocks *)

(** Blocks do not overlap. *)
Definition memory_ok (h : memory) : Prop := forall p q o o', blocks h !! p = Some o -> blocks h !! q = Some o' ->
  p <> q -> p + extent o <= q \/ q + extent o' <= p.

Lemma length_peek h p n : length (peek h p n) = Z.to_nat n.
Proof. unfold peek. by rewrite length_fmap, length_seq. Qed.

Lemma lookup_peek h p n i : (i < Z.to_nat n)%nat -> peek h p n !! i = Some (byte_at h (p + Z.of_nat i)).
Proof. intros Hi. unfold peek. by rewrite list_lookup_fmap, lookup_seq_lt by done. Qed.

Lemma peek_ext h h' p n : (forall a, p <= a < p + n -> byte_at h' a = byte_at h a) -> peek h' p n = peek h p n.
Proof.
  intros Ha. unfold peek. apply list_fmap_ext. intros i x Hx. apply lookup_seq in Hx as [-> Hx]. apply Ha. lia.
Qed.

(** The bytes of another block. *)
Lemma apart h p o q o' a : memory_ok h -> blocks h !! p = Some o -> blocks h !! q = Some o' -> p <> q ->
  within p o a -> ~ within q o' a.
Proof. intros Hok Hp Hq Hne. specialize (Hok p q o o' Hp Hq Hne). unfold within. lia. Qed.

(** Writing changes the bytes it says. *)
Lemma write_bytes_spec h o p off data : blocks h !! p = Some o -> 0 <= off -> off + zlen data <= extent o ->
  exists h', write_bytes o p off data h = (Ret tt, h') /\ blocks h' = blocks h /\ peek h' (p + off) (zlen data) = data /\
    forall a, ~ p + off <= a < p + off + zlen data -> byte_at h' a = byte_at h a.
Proof.
  intros Hp Ho He. unfold write_bytes, update. rewrite bool_decide_eq_true_2, !(proj2 (Z.leb_le _ _)) by done. cbn [andb].
  eexists. split; [done|]. split; [done|]. split.
  - apply list_eq. intros i. destruct (decide (i < length data)%nat) as [Hi|Hi].
    + rewrite zlen_length, lookup_peek by lia. cbn [byte_at]. rewrite (proj2 (Z.leb_le _ _)) by lia.
      replace (p + off + Z.of_nat i - (p + off)) with (Z.of_nat i) by lia. rewrite znth_lookup, Nat2Z.id by lia.
      by destruct (lookup_lt_is_Some_2 data i Hi) as [x ->].
    + rewrite (lookup_ge_None_2 data) by lia. apply lookup_ge_None. rewrite length_peek, zlen_length. lia.
  - intros a Ha. cbn [byte_at]. destruct (Z.leb_spec (p + off) a); [|done]. rewrite znth_None by lia. done.
Qed.

(** [array[n] = x] and [array[n]]. *)
Lemma array_set_get h size Size p n x : 0 < size -> zlen x = size -> 0 <= n < Size ->
  blocks h !! p = Some (Array size Size) -> memory_ok h ->
  exists h', ZeroedArray_set size Size p n x h = (Ret tt, h') /\ memory_ok h' /\
    ZeroedArray_get size Size p n h' = (Ret x, h') /\
    (forall m, m <> n -> fst (ZeroedArray_get size Size p m h') = fst (ZeroedArray_get size Size p m h)) /\
    forall q o, blocks h !! q = Some o -> q <> p -> peek h' q (extent o) = peek h q (extent o).
Proof.
  intros Hs Hx Hn Hp Hok. assert (n * size + size <= Size * size) as Hin by nia.
  destruct (write_bytes_spec h (Array size Size) p (n * size) x Hp ltac:(nia)) as (h' & E & Eb & Hpeek & Hout); [cbn; lia|].
  exists h'. unfold ZeroedArray_set. rewrite (proj2 (Z.leb_le 0 n)), (proj2 (Z.ltb_lt n Size)) by lia. cbn [andb].
  split; [done|]. split; [unfold memory_ok; by rewrite Eb|]. unfold ZeroedArray_get. rewrite Eb. split; [|split].
  - rewrite bool_decide_eq_true_2 by done. rewrite (proj2 (Z.leb_le 0 n)), (proj2 (Z.ltb_lt n Size)) by lia. cbn [andb].
    rewrite Hx in Hpeek. by rewrite Hpeek.
  - intros m Hm. destruct (_ && _ && _) eqn:Hc; [|done]. cbn [fst]. f_equal. apply peek_ext. intros a Ha. apply Hout. nia.
  - intros q o Hq Hne. apply peek_ext. intros a Ha. apply Hout. intros Hin'.
    apply (apart h q o p (Array size Size) a Hok Hq Hp Hne); unfold within; cbn [extent]; lia.
Qed.

(** No call makes blocks overlap. *)
Definition keeps_ok {A} (m : io memory A) : Prop := forall h, memory_ok h -> memory_ok (snd (m h)).

Lemma keeps_ok_bind {A B} (m : io memory A) (f : A -> io memory B) : keeps_ok m -> (forall a, keeps_ok (f a)) ->
  keeps_ok (m ≫= f).
Proof.
  intros Hm Hf h Hok. specialize (Hm h Hok). unfold mbind, io_bind.
  destruct (m h) as [[a|e| |] h1]; cbn [snd] in *; [by apply Hf|done..].
Qed.

Lemma keeps_ok_pure {A} (x : result A) : keeps_ok (lift x).
Proof. by intros h. Qed.

Lemma keeps_ok_ret {A} (a : A) : keeps_ok (mret a).
Proof. by intros h. Qed.

Lemma keeps_ok_throw {A} e : keeps_ok (throw (A := A) e).
Proof. by intros h. Qed.

Lemma keeps_ok_new `{PlacementSpec} o : keeps_ok (new_block o).
Proof.
  intros h Hok. unfold new_block. destruct (place (blocks h) o) as [p|] eqn:Ep; [|done].
  destruct (place_spec _ _ _ Ep) as (_ & Hn & Hap). intros q1 q2 o1 o2. cbn [snd blocks].
  rewrite !lookup_insert_Some. intros [[<- <-]|[N1 H1]] [[<- <-]|[N2 H2]] Hne; [done| | |].
  - destruct (Hap _ _ H2); [right|left]; lia.
  - destruct (Hap _ _ H1); [left|right]; lia.
  - by apply (Hok q1 q2 o1 o2).
Qed.

Lemma keeps_ok_end o p : keeps_ok (end_block o p).
Proof.
  intros h Hok. unfold end_block, update. case_bool_decide; [|done]. intros q1 q2 o1 o2. cbn [snd blocks].
  intros [_ H1]%lookup_delete_Some [_ H2]%lookup_delete_Some. by apply (Hok q1 q2 o1 o2).
Qed.

Lemma keeps_ok_write o p off data : keeps_ok (write_bytes o p off data).
Proof. intros h Hok. unfold write_bytes, update. by destruct (_ && _ && _). Qed.

Lemma keeps_ok_bzero o p n : keeps_ok (explicit_bzero o p n).
Proof. intros h Hok. unfold explicit_bzero, update. by destruct (_ && _ && _). Qed.

Hint Resolve keeps_ok_bind keeps_ok_ret keeps_ok_pure keeps_ok_throw keeps_ok_new keeps_ok_end keeps_ok_write keeps_ok_bzero : keeps_ok.

Lemma do_calls_ok `{PlacementSpec} l : keeps_ok (do_calls l).
Proof.
  assert (forall o, keeps_ok (malloc o)) as Hm by (intros; unfold malloc; eauto with keeps_ok).
  assert (forall c, keeps_ok (do_call c)) as Hc.
  { intros []; cbn [do_call]; unfold allocate, ZeroedArray_new, operator_new, storage, deallocate, ZeroedArray_delete,
      ZeroedArray_set, new_KeyBuffers, delete_KeyBuffers, new_StreamBuffer, delete_StreamBuffer;
      repeat (apply keeps_ok_bind; [|intros]); try case_match; eauto with keeps_ok. }
  induction l as [|c l IH]; cbn [do_calls]; [apply keeps_ok_ret|]. by apply keeps_ok_bind; [|intros].
Qed.

(** * Properties *)

Lemma settled_live h a : settled ∅ h a <-> ~ live h a.
Proof.
  unfold settled, live. split; [intros Hs (p & o & Hp & Hw); apply (Hs p o Hp); [set_solver|done]|].
  intros Hl p o Hp _ Hw. apply Hl. by exists p, o.
Qed.

(** C23: two runs of the program that make the same calls with different data of
    the same lengths, on memories that differ at most in the blocks that are in
    use, end in the same way (also with the same exception).  Afterwards every
    byte that is in no block is the same in both, so it does not depend on the
    data; and it is zero, or was never in a block and is what it was at the
    start.  The containers are those of an allocator for elements of any size,
    with [n * sizeof(T)] in [size_t], the keys of a repository, the buffer of a
    temporary stream, and arrays, of which those that end have elements of one
    byte. *)
Theorem scrubbed_memory `{PlacementSpec} l1 l2 h1 h2 (Hshape : Forall2 same_shape l1 l2)
    (Hscrubs : Forall (fun c => scrubs c = true) l1) (Hblocks : blocks h1 = blocks h2)
    (Hdead : forall a, ~ live h1 a -> byte_at h1 a = byte_at h2 a) :
  let '(x1, h1') := do_calls l1 h1 in
  let '(x2, h2') := do_calls l2 h2 in
  x1 = x2 /\
  (x1 = Ret tt \/ (exists e, x1 = Throw e) ->
    blocks h1' = blocks h2' /\
    forall a, ~ live h1' a -> byte_at h1' a = byte_at h2' a /\
      (byte_at h1' a = Byte.x00 \/ ~ live h1 a /\ byte_at h1' a = byte_at h1 a)).
Proof.
  set (residue a b := b = Byte.x00 \/ ~ live h1 a /\ b = byte_at h1 a).
  assert (alike residue ∅ h1 h2) as Hal.
  { split; [done|]. intros a Hs%settled_live. split; [by apply Hdead|by right]. }
  pose proof (agree_do_calls residue (fun a => or_introl eq_refl) l1 l2 Hshape Hscrubs h1 h2 Hal) as R.
  destruct (do_calls l1 h1) as [[[]|e| |] h1'].
  - destruct R as (h2' & -> & [Eb Ha]). split; [done|]. intros _. split; [done|]. intros a Hl%settled_live. by apply Ha.
  - destruct R as (h2' & -> & [Eb Ha]). split; [done|]. intros _. split; [done|]. intros a Hl%settled_live. by apply Ha.
  - destruct (do_calls l2 h2) as [x2 h2']. cbn in R. split; [done|]. intros [?|[? ?]]; done.
  - destruct (do_calls l2 h2) as [x2 h2']. cbn in R. split; [done|]. intros [?|[? ?]]; done.
Qed.

(** The bytes of the table of a [RollingHash]. *)
Definition table_bytes (h : RollingHash) : bytes := concat (le_bytes 4 <$> mSubTable h).

(** The destructor of a [ZeroedArray<uint32_t, 256>] clears 256 of its 1024
    bytes: the words from the 65th on stay in memory that is not in use. *)
Lemma table_left (r : RollingHash) h p : blocks h !! p = Some (Array 4 256) -> memory_ok h ->
  peek h p 1024 = table_bytes r ->
  exists h', ZeroedArray_delete 4 256 p h = (Ret tt, h') /\ (forall a, p <= a < p + 1024 -> ~ live h' a) /\
    peek h' p 1024 = replicate 256 Byte.x00 ++ zdrop 256 (table_bytes r).
Proof.
  intros Hp Hok Hpeek. unfold ZeroedArray_delete.
  set (h1 := {| byte_at a := if (p <=? a) && (a <? p + 256) then Byte.x00 else byte_at h a; blocks := blocks h |}).
  assert (explicit_bzero (Array 4 256) p 256 h = (Ret tt, h1)) as E1
    by (unfold explicit_bzero, update; by rewrite bool_decide_eq_true_2).
  rewrite (io_bind_Ret _ _ _ _ _ E1). unfold end_block, update. rewrite bool_decide_eq_true_2 by done.
  eexists. split; [done|]. split.
  - intros a Ha (q & o & Hq & Hw). cbn [blocks h1] in Hq. apply lookup_delete_Some in Hq as [Hne Hq].
    by apply (apart h p (Array 4 256) q o a Hok Hp Hq Hne).
  - rewrite <-Hpeek. apply list_eq. intros i. destruct (decide (i < 1024)%nat) as [Hi|Hi].
    + rewrite lookup_peek by lia. cbn [byte_at h1]. destruct (decide (i < 256)%nat).
      * rewrite lookup_app_l by (rewrite length_replicate; lia). rewrite lookup_replicate_2 by lia.
        rewrite (proj2 (Z.leb_le _ _)), (proj2 (Z.ltb_lt _ _)) by lia. done.
      * rewrite lookup_app_r by (rewrite length_replicate; lia). rewrite length_replicate, zdrop_drop, lookup_drop.
        rewrite lookup_peek by lia. rewrite (proj2 (Z.ltb_ge _ _)) by lia. rewrite andb_false_r. do 2 f_equal. lia.
    + rewrite !lookup_ge_None_2; [done| |].
      * rewrite length_app, length_replicate, zdrop_drop, length_drop, length_peek. lia.
      * rewrite length_peek. lia.
Qed.

(** ** A placement, and two runs *)

Module Bump.
(** Above all blocks. *)
Definition above (l : list (Z * owner)) : Z := foldr (fun e m => Z.max m (Z.max (e.1 + 1) (e.1 + extent e.2))) 1 l.

#[export] Instance Bump : Placement := {| place bl _ := Some (above (map_to_list bl)) |}.

Lemma above_spec l : 0 < above l /\ forall e, e ∈ l -> e.1 < above l /\ e.1 + extent e.2 <= above l.
Proof.
  unfold above. induction l as [|e l [IH1 IH2]]; cbn [foldr]; [split; [lia|by intros e ?%elem_of_nil]|].
  split; [lia|]. intros e' [->|Hin]%elem_of_cons; [lia|]. specialize (IH2 e' Hin). lia.
Qed.

#[export] Instance Bump_spec : PlacementSpec.
Proof.
  intros bl o p E. injection E as <-. destruct (above_spec (map_to_list bl)) as [Hp Hl]. split; [done|]. split.
  - destruct (bl !! above (map_to_list bl)) as [o'|] eqn:Hb; [|done]. apply elem_of_map_to_list in Hb.
    destruct (Hl _ Hb) as [Hlt _]. cbn [fst] in Hlt. lia.
  - intros q o' Hq. left. apply elem_of_map_to_list in Hq. apply (Hl _ Hq).
Qed.

Definition start : memory := {| byte_at _ := Byte.xff; blocks := ∅ |}.

(** Four elements of two bytes and an array of 4 bytes, with a secret in each. *)
Definition calls (secret key : bytes) : list memory_call :=
  [Allocate 2 4; Store (Elements 2 4) 1 1 secret; NewArray 1 4; SetArray 1 4 9 2 key;
   Deallocate 2 1 4; NewArray 1 4; DeleteArray 1 4 9].
End Bump.
Import Bump.

Lemma scrubbed_memory_witness :
  exists h1 h2, do_calls (calls (str "secret") (str "k")) start = (Ret tt, h1) /\
    do_calls (calls (str "hidden") (str "x")) start = (Ret tt, h2) /\
    ~ live h1 5 /\ byte_at h1 5 = byte_at h2 5.
Proof.
  assert (Forall2 same_shape (calls (str "secret") (str "k")) (calls (str "hidden") (str "x"))) as Hshape
    by (repeat constructor).
  pose proof (scrubbed_memory _ _ start start Hshape ltac:(by repeat constructor) eq_refl (fun a _ => eq_refl)) as R.
  destruct (do_calls (calls (str "secret") (str "k")) start) as [x1 h1] eqn:E1.
  destruct (do_calls (calls (str "hidden") (str "x")) start) as [x2 h2] eqn:E2. destruct R as [<- R].
  assert (x1 = Ret tt) as -> by (apply (f_equal fst) in E1; vm_compute in E1; by rewrite <-E1).
  assert (~ live h1 5) as Hl.
  { intros (p & o & Hp & Hw). apply (f_equal (fun x => map_to_list (blocks x.2))) in E1.
    apply elem_of_map_to_list in Hp. cbn [snd] in E1. rewrite <-E1 in Hp. vm_compute in Hp.
    apply list_elem_of_singleton in Hp. injection Hp as -> ->. unfold within in Hw. cbn in Hw. lia. }
  destruct (R ltac:(by left)) as [_ Hd]. exists h1, h2. split; [done|]. split; [done|]. split; [done|].
  exact (proj1 (Hd 5 Hl)).
Defined.
