(* ===== verification/CompositeStreams.v ===== *)
(** * BufferedInputStream, InputRangeStream, MultiInputStream

    Streams built from other streams.  Each is defined over an arbitrary class
    of underlying streams and satisfies the contract of InputStream.h whenever
    the underlying streams do. *)
From S2P Require Import Prelude Streams MemoryStreams.
From Stdlib Require Import ZArith Lia.

(** ** BufferedInputStream *)

Section Buffered.
Context {In} `{InputStream In}.

(** [mNext] is the part [mNext, mNext + mBytesInBuffer) of the buffer. *)
Record BufferedInputStream := { bStream : In; bNext : bytes }.

Definition new_BufferedInputStream (s : In) : BufferedInputStream := {| bStream := s; bNext := [] |}.

(** [bool reload()] *)
Definition reload (s : BufferedInputStream) : result (bool * BufferedInputStream) :=
  s ← (if zlen (bNext s) =? 0 then
         '(b, i) ← read (bStream s) 8192; Ret {| bStream := i; bNext := b |}
       else Ret s);
  Ret (negb (zlen (bNext s) =? 0), s).

Definition readByte (s : BufferedInputStream) : result (byte * BufferedInputStream) :=
  s ← (if zlen (bNext s) =? 0 then '(_, s) ← reload s; Ret s else Ret s);
  match bNext s with
  | b :: next => Ret (b, {| bStream := bStream s; bNext := next |})
  | [] => Ret (Byte.x00, s)
  end.

Definition isEof (s : BufferedInputStream) : result (bool * BufferedInputStream) :=
  '(more, s) ← reload s; Ret (negb more, s).

(** [while(size >= mBytesInBuffer) { ... }], with the bytes copied so far. *)
Fixpoint buffered_loop (fuel : nat) (s : BufferedInputStream) (want : Z) (out : bytes)
  : result (bytes * BufferedInputStream) :=
  if zlen (bNext s) <=? want then
    match fuel with
    | O => NoFuel
    | S fuel =>
        let out := out ++ bNext s in
        let want := want - zlen (bNext s) in
        '(more, s) ← reload {| bStream := bStream s; bNext := [] |};
        if (more : bool) then buffered_loop fuel s want out else Ret (out, s)
    end
  else Ret (out ++ ztake want (bNext s), {| bStream := bStream s; bNext := zdrop want (bNext s) |}).

Definition bis_remaining (s : BufferedInputStream) : nat := length (bNext s) + remaining (bStream s).

Definition bis_read (s : BufferedInputStream) (size : Z) : result (bytes * BufferedInputStream) :=
  buffered_loop (S (remaining (bStream s))) s size [].

#[global] Instance BufferedInputStream_stream : InputStream BufferedInputStream := {|
  read := bis_read;
  skip := default_skip bis_read bis_remaining;
  canRewind := default_canRewind;
  rewind := default_rewind;
  size s := Streams.size (bStream s);
  remaining := bis_remaining
  |}.
End Buffered.
Arguments BufferedInputStream In : clear implicits.

(** ** InputRangeStream *)

Section Range.
Context {In} `{InputStream In}.

Record InputRangeStream := { rStream : In; mOffset : Z; mEndOffset : Z; mPosition : Z }.

(** The constructor positions the stream; [long] offsets. *)
Definition new_InputRangeStream (s : In) (offset len : Z) : result InputRangeStream :=
  '(_, s) ← skip s (uwrap 64 offset);
  Ret {| rStream := s; mOffset := offset; mEndOffset := swrap 64 (offset + len); mPosition := offset |}.

(** [mPosition + size >= mEndOffset] is computed in [size_t]. *)
Definition irs_read (s : InputRangeStream) (size : Z) : result (bytes * InputRangeStream) :=
  let past := uwrap 64 (mEndOffset s) <=? uwrap 64 (mPosition s + size) in
  let size := if past then uwrap 64 (mEndOffset s - mPosition s) else size in
  if past && (size =? 0) then Ret ([], s)
  else
    '(b, i) ← read (rStream s) size;
    Ret (b, {| rStream := i; mOffset := mOffset s; mEndOffset := mEndOffset s;
               mPosition := mPosition s + zlen b |}).

Definition irs_rewind (s : InputRangeStream) : result InputRangeStream :=
  if canRewind (rStream s) then
    i ← rewind (rStream s);
    '(_, i) ← skip i (uwrap 64 (mOffset s));
    Ret {| rStream := i; mOffset := mOffset s; mEndOffset := mEndOffset s; mPosition := mOffset s |}
  else Ret s.

Definition irs_remaining (s : InputRangeStream) : nat := remaining (rStream s).

#[global] Instance InputRangeStream_stream : InputStream InputRangeStream := {|
  read := irs_read;
  skip := default_skip irs_read irs_remaining;
  canRewind s := canRewind (rStream s);
  rewind := irs_rewind;
  size s := Ret (mEndOffset s - mOffset s);
  remaining := irs_remaining
  |}.
End Range.
Arguments InputRangeStream In : clear implicits.

(** ** MultiInputStream *)

Section Multi.
Context {In} `{InputStream In}.

(** [mCurStream] is the index of the iterator. *)
Record MultiInputStream := { mStreamList : list In; mCurStream : nat }.

Definition new_MultiInputStream (l : list In) : MultiInputStream :=
  {| mStreamList := l; mCurStream := 0 |}.

(** The loop of [read]: [want] bytes are still to be read. *)
Fixpoint multi_loop (fuel : nat) (s : MultiInputStream) (want : Z) (out : bytes)
  : result (bytes * MultiInputStream) :=
  if 0 <? want then
    match fuel with
    | O => NoFuel
    | S fuel =>
        cur ← or_undef (mStreamList s !! mCurStream s);
        '(b, cur) ← read cur want;
        let l := <[mCurStream s := cur]> (mStreamList s) in
        if zlen b =? 0 then
          let next := S (mCurStream s) in
          if (next =? length l)%nat then Ret (out, {| mStreamList := l; mCurStream := next |})
          else multi_loop fuel {| mStreamList := l; mCurStream := next |} want out
        else multi_loop fuel {| mStreamList := l; mCurStream := mCurStream s |} (want - zlen b) (out ++ b)
    end
  else Ret (out, s).

Definition mis_remaining (s : MultiInputStream) : nat := sum_list_with remaining (mStreamList s).

Definition multi_read (s : MultiInputStream) (size : Z) : result (bytes * MultiInputStream) :=
  if (mCurStream s =? length (mStreamList s))%nat then Ret ([], s)
  else multi_loop (S (length (mStreamList s) + mis_remaining s)) s size [].

(** [-1] as soon as one of the sizes is not known. *)
Fixpoint multi_size (l : list In) (total : Z) : result Z :=
  match l with
  | [] => Ret total
  | s :: l => n ← Streams.size s; if n <? 0 then Ret (-1) else multi_size l (swrap 64 (total + n))
  end.

Definition multi_canRewind (s : MultiInputStream) : bool := forallb canRewind (mStreamList s).

Fixpoint rewind_list (l : list In) : result (list In) :=
  match l with
  | [] => Ret []
  | s :: l => s ← rewind s; l ← rewind_list l; Ret (s :: l)
  end.

Definition multi_rewind (s : MultiInputStream) : result MultiInputStream :=
  if multi_canRewind s then
    l ← rewind_list (mStreamList s); Ret {| mStreamList := l; mCurStream := 0 |}
  else Ret s.

#[global] Instance MultiInputStream_stream : InputStream MultiInputStream := {|
  read := multi_read;
  skip := default_skip multi_read mis_remaining;
  canRewind := multi_canRewind;
  rewind := multi_rewind;
  size s := multi_size (mStreamList s) 0;
  remaining := mis_remaining
  |}.
End Multi.
Arguments MultiInputStream In : clear implicits.

(** * Contracts *)

Section BufferedSpec.
Context {In} `{InputStreamSpec In}.

Definition buf_contents (s : BufferedInputStream In) : bytes := bNext s ++ contents (bStream s).

Lemma reload_empty (i : In) : valid i -> exists i', 
  reload {| bStream := i; bNext := [] |} =
    Ret (negb (zlen (ztake 8192 (contents i)) =? 0), {| bStream := i'; bNext := ztake 8192 (contents i) |}) /\
  valid i' /\ contents i' = zdrop 8192 (contents i) /\ same_source whole i i'.
Proof.
  intros Hv. unfold reload. cbn [bNext bStream zlen Z.eqb].
  destruct (read_spec i 8192) as (i' & E & V & C & W); [done|lia|].
  exists i'. rewrite E. done.
Qed.

Lemma buffered_loop_spec fuel : forall (s : BufferedInputStream In) want out,
  valid (bStream s) -> 0 <= want -> zlen (contents (bStream s)) < Z.of_nat fuel ->
  exists s', buffered_loop fuel s want out = Ret (out ++ ztake want (buf_contents s), s') /\
    valid (bStream s') /\ buf_contents s' = zdrop want (buf_contents s) /\
    same_source whole (bStream s) (bStream s').
Proof.
  induction fuel as [|fuel IH]; intros s want out Hv Hw Hf.
  { pose proof (zlen_nonneg (contents (bStream s))). lia. }
  cbn [buffered_loop]. destruct (Z.leb_spec (zlen (bNext s)) want) as [Hle|Hgt].
  - destruct (reload_empty (bStream s) Hv) as (i & -> & V & C & W). cbn [mbind result_bind].
    pose proof (zlen_nonneg (contents (bStream s))). pose proof (zlen_nonneg (bNext s)).
    unfold buf_contents at 1 3. rewrite ztake_app, zdrop_app, (ztake_ge want), (zdrop_ge want) by lia.
    rewrite zlen_ztake by lia.
    destruct (Z.eqb_spec (Z.min 8192 (zlen (contents (bStream s)))) 0) as [Hz|Hz]; cbn [negb].
    + assert (contents (bStream s) = []) as Hnil by (apply zlen_nil_inv; lia).
      eexists. split; [rewrite Hnil, ztake_nil, app_nil_r; reflexivity|].
      cbn [bStream bNext]. unfold buf_contents; cbn [bStream bNext]. rewrite C, Hnil. done.
    + destruct (IH {| bStream := i; bNext := ztake 8192 (contents (bStream s)) |}
                   (want - zlen (bNext s)) (out ++ bNext s)) as (s' & E & V' & C' & W').
      * done.
      * lia.
      * cbn. rewrite C, zlen_zdrop by lia. lia.
      * exists s'. unfold buf_contents in E, C'; cbn [bStream bNext] in E, C'.
        rewrite C, ztake_zdrop in E, C'. rewrite E, <-app_assoc.
        split; [done|]. split; [done|]. split; [exact C'|eauto with nebula].
  - eexists. split.
    + unfold buf_contents. rewrite ztake_app, (ztake_nonpos _ (contents _)), app_nil_r by lia. reflexivity.
    + cbn [bStream bNext]. unfold buf_contents; cbn [bStream bNext].
      rewrite zdrop_app, (zdrop_nonpos (want - _)) by lia. done.
Qed.

Lemma bis_read_spec (s : BufferedInputStream In) n : valid (bStream s) -> 0 <= n < 2 ^ 63 ->
  exists s', bis_read s n = Ret (ztake n (buf_contents s), s') /\ valid (bStream s') /\
    buf_contents s' = zdrop n (buf_contents s) /\ same_source (fun s => whole (bStream s)) s s'.
Proof.
  intros Hv Hn. pose proof (remaining_spec (bStream s) Hv).
  destruct (buffered_loop_spec (S (remaining (bStream s))) s n []) as (s' & E & V & C & W1 & W2 & W3);
    [done|lia|lia|].
  exists s'. unfold bis_read. by rewrite E.
Qed.

Lemma bis_remaining_spec (s : BufferedInputStream In) : valid (bStream s) ->
  zlen (buf_contents s) <= Z.of_nat (bis_remaining s).
Proof.
  intros Hv. unfold bis_remaining, buf_contents. rewrite zlen_app, zlen_length.
  pose proof (remaining_spec (bStream s) Hv). lia.
Qed.

#[global] Program Instance BufferedInputStream_spec : InputStreamSpec (BufferedInputStream In) := {|
  valid s := valid (bStream s);
  contents := buf_contents;
  whole s := whole (bStream s)
  |}.
Next Obligation.
  intros s n Hv Hn. by apply bis_read_spec.
Qed.
Next Obligation.
  intros s n Hv Hn. cbn beta in *. cbn [skip BufferedInputStream_stream].
  eapply (default_skip_spec bis_read bis_remaining (fun s => valid (bStream s)) buf_contents);
    eauto using bis_read_spec, bis_remaining_spec with nebula.
Qed.
Next Obligation. intros s Hv [=]. Qed.
Next Obligation. intros s Hv. cbn [size BufferedInputStream_stream]. by apply size_spec. Qed.
Next Obligation. intros s Hv. by apply bis_remaining_spec. Qed.

(** The byte interface used by [uploadFile]: [isEof] says whether the contents
  are empty and [readByte] takes the first byte, or returns 0 at the end. *)
Lemma isEof_spec (s : BufferedInputStream In) : valid s ->
  exists s', isEof s = Ret (match contents s with [] => true | _ => false end, s') /\
    valid s' /\ contents s' = contents s /\ same_source whole s s' /\
    (contents s <> [] -> bNext s' <> []).
Proof.
  intros Hv. unfold isEof, reload. destruct (Z.eqb_spec (zlen (bNext s)) 0) as [Hz|Hz].
  - cbn [contents BufferedInputStream_spec] in *. unfold buf_contents.
    rewrite (zlen_nil_inv _ Hz). cbn [app].
    destruct (read_spec (bStream s) 8192) as (i & -> & V & C & W); [done|lia|]. cbn [mbind result_bind bNext].
    eexists. split; [do 2 f_equal; rewrite negb_involutive, zlen_ztake by lia|].
    { destruct (contents (bStream s)) as [|b l]; [done|]. rewrite zlen_cons.
      pose proof (zlen_nonneg l). destruct (Z.eqb_spec (Z.min 8192 (1 + zlen l)) 0); [lia|done]. }
    unfold valid, same_source, buf_contents; cbn. rewrite C, ztake_zdrop.
    split_and!; try done; try apply W. by destruct (contents (bStream s)).
  - exists s. cbn [mbind result_bind]. split_and!; try done.
    + destruct (Z.eqb_spec (zlen (bNext s)) 0); [done|]. cbn. unfold buf_contents.
      by destruct (bNext s).
    + intros _ Hn. by rewrite Hn in Hz.
Qed.

Lemma readByte_spec (s : BufferedInputStream In) b l : valid s -> bNext s <> [] -> contents s = b :: l ->
  exists s', readByte s = Ret (b, s') /\ valid s' /\ contents s' = l /\ same_source whole s s'.
Proof.
  intros Hv Hn Hc. unfold readByte. destruct (bNext s) as [|b' next] eqn:En; [done|].
  pose proof (zlen_nonneg next). rewrite zlen_cons.
  destruct (Z.eqb_spec (1 + zlen next) 0); [lia|]. cbn [mbind result_bind]. rewrite En.
  cbn in Hc. unfold buf_contents in Hc. rewrite En in Hc. injection Hc as -> <-.
  eexists. split; [reflexivity|]. done.
Qed.
End BufferedSpec.

Section RangeSpec.
Context {In} `{InputStreamSpec In}.

(** The range may end after the source does; it knows its size when it does not. *)
Definition range_open (s : InputRangeStream In) : Prop :=
  valid (rStream s) /\ 0 <= mOffset s <= mPosition s /\ mPosition s <= mEndOffset s < 2 ^ 63.

Definition range_ok (s : InputRangeStream In) : Prop :=
  range_open s /\ mEndOffset s <= zlen (whole (rStream s)).

Definition range_contents (s : InputRangeStream In) : bytes :=
  ztake (mEndOffset s - mPosition s) (contents (rStream s)).

Definition range_whole (s : InputRangeStream In) : bytes :=
  ztake (mEndOffset s - mOffset s) (zdrop (mOffset s) (whole (rStream s))).

(** What the operations keep of a range. *)
Definition same_range (s s' : InputRangeStream In) : Prop :=
  mEndOffset s' = mEndOffset s /\ whole (rStream s') = whole (rStream s).

Lemma range_ok_same s s' : range_open s' -> same_range s s' -> range_ok s -> range_ok s'.
Proof. intros Ho [E W] [_ He]. split; [done|]. by rewrite E, W. Qed.

Lemma irs_read_open (s : InputRangeStream In) n : range_open s -> 0 <= n < 2 ^ 63 ->
  exists s', irs_read s n = Ret (ztake n (range_contents s), s') /\ range_open s' /\
    range_contents s' = zdrop n (range_contents s) /\ same_source range_whole s s' /\ same_range s s'.
Proof.
  intros (Hv & Ho & Hp) Hn. unfold irs_read, range_contents.
  rewrite !(uwrap_small 64) by lia. pose proof (zlen_nonneg (contents (rStream s))) as Hc.
  remember (mEndOffset s - mPosition s) as left eqn:Hleft. set (C := contents (rStream s)) in *.
  assert (forall m, 0 <= m <= left -> exists s',
    ('(b, i) ← read (rStream s) m;
     Ret (b, {| rStream := i; mOffset := mOffset s; mEndOffset := mEndOffset s;
                mPosition := mPosition s + zlen b |})) = Ret (ztake m C, s') /\
    mPosition s' = mPosition s + zlen (ztake m C) /\ contents (rStream s') = zdrop m C /\
    range_open s' /\ same_source range_whole s s' /\ mEndOffset s' = mEndOffset s /\
    whole (rStream s') = whole (rStream s)) as Hread.
  { intros m Hm. destruct (read_spec (rStream s) m) as (i & -> & V & C' & W); [done|lia|].
    cbn [mbind result_bind]. eexists. split; [reflexivity|].
    unfold range_open, same_source, range_whole; cbn.
    destruct W as (W1 & W2 & W3). rewrite W1, W2. fold C. rewrite !zlen_ztake by lia.
    split_and!; done || lia. }
  destruct (Z.leb_spec (mEndOffset s) (mPosition s + n)) as [Hpast|Hin]; cbn [andb].
  - destruct (Z.eqb_spec left 0) as [Hz|Hz].
    + exists s. rewrite Hz, (ztake_nonpos 0), ztake_nil, zdrop_nil by lia. split; [done|].
      split; [done|split; [|done]]. by rewrite <-Hleft, Hz, ztake_nonpos by lia.
    + destruct (Hread left) as (s' & -> & Hpos & Hcont & Hok & W & Hend & Hwh); [lia|].
      exists s'. rewrite (ztake_ge n) by (rewrite zlen_ztake; lia).
      split; [done|]. split; [done|]. split; [|done].
      unfold range_contents. rewrite Hpos, Hcont, Hend, zlen_ztake by lia.
      rewrite (zdrop_ge n) by (rewrite zlen_ztake; lia).
      destruct (Z.le_ge_cases left (zlen C)).
      * apply ztake_nonpos. lia.
      * by rewrite zdrop_ge by lia.
  - destruct (Hread n) as (s' & -> & Hpos & Hcont & Hok & W & Hend & Hwh); [lia|].
    exists s'. rewrite ztake_ztake by lia. split; [done|]. split; [done|]. split; [|done].
    unfold range_contents. rewrite Hpos, Hcont, Hend, zlen_ztake, zdrop_ztake by lia.
    destruct (Z.le_ge_cases n (zlen C)).
    + f_equal. lia.
    + by rewrite zdrop_ge by lia.
Qed.

Lemma irs_remaining_spec (s : InputRangeStream In) : range_open s ->
  zlen (range_contents s) <= Z.of_nat (irs_remaining s).
Proof.
  intros (Hv & Ho & Hp). unfold range_contents, irs_remaining.
  pose proof (remaining_spec (rStream s) Hv). rewrite zlen_ztake by lia. lia.
Qed.

Lemma irs_skip_open (s : InputRangeStream In) n : range_open s -> 0 <= n < 2 ^ 63 ->
  exists k s', default_skip irs_read irs_remaining s n = Ret (k, s') /\ range_open s' /\
    range_contents s' = zdrop n (range_contents s) /\ same_source range_whole s s' /\ same_range s s'.
Proof.
  intros Hv Hn.
  apply (default_skip_spec irs_read irs_remaining range_open range_contents
    (fun a b => same_source range_whole a b /\ same_range a b)); auto using irs_read_open, irs_remaining_spec.
  - intros a. split; [apply same_source_refl|done].
  - intros a b c [W1 [R1 R2]] [W2 [R3 R4]]. split; [by eapply same_source_trans|]. split; congruence.
Qed.

Lemma irs_rewind_open (s : InputRangeStream In) : range_open s -> canRewind s = true ->
  exists s', irs_rewind s = Ret s' /\ range_open s' /\
    range_contents s' = range_whole s /\ same_source range_whole s s' /\ same_range s s'.
Proof.
  intros (Hv & Ho & Hp) Hr. cbn [canRewind InputRangeStream_stream] in *.
  unfold irs_rewind. rewrite Hr.
  destruct (rewind_spec (rStream s) Hv Hr) as (i & -> & V & C & W). cbn [mbind result_bind].
  rewrite uwrap_small by lia.
  destruct (skip_spec i (mOffset s)) as (k & i' & -> & V' & C' & W'); [done|lia|]. cbn [mbind result_bind].
  destruct (same_source_trans _ _ _ _ W W') as (W1 & W2 & W3).
  eexists. split; [reflexivity|]. unfold range_open, same_range, range_contents, same_source, range_whole; cbn.
  rewrite W1, C', C. split_and!; done || lia.
Qed.

#[global] Program Instance InputRangeStream_spec : InputStreamSpec (InputRangeStream In) := {|
  valid := range_ok;
  contents := range_contents;
  whole := range_whole
  |}.
Next Obligation.
  intros s n Hv Hn. destruct (irs_read_open s n (proj1 Hv) Hn) as (s' & E & V & C & W & R).
  exists s'. split; [exact E|]. split; [by apply (range_ok_same s)|done].
Qed.
Next Obligation.
  intros s n Hv Hn. destruct (irs_skip_open s n (proj1 Hv) Hn) as (k & s' & E & V & C & W & R).
  exists k, s'. split; [exact E|]. split; [by apply (range_ok_same s)|done].
Qed.
Next Obligation.
  intros s Hv Hr. destruct (irs_rewind_open s (proj1 Hv) Hr) as (s' & E & V & C & W & R).
  exists s'. split; [exact E|]. split; [by apply (range_ok_same s)|done].
Qed.
Next Obligation.
  intros s [(Hv & Ho & Hp) He]. left. cbn [size InputRangeStream_stream]. unfold range_whole.
  rewrite zlen_ztake, zlen_zdrop by lia. f_equal. lia.
Qed.
Next Obligation. intros s Hv. by apply irs_remaining_spec, Hv. Qed.

(** The operations but [size], which is wrong when the source ends before the
    range: the rest of the contract holds then, too. *)
Definition unsized_range : InputStream (InputRangeStream In) := {|
  read := irs_read;
  skip := default_skip irs_read irs_remaining;
  canRewind s := canRewind (rStream s);
  rewind := irs_rewind;
  size s := Ret (-1);
  remaining := irs_remaining
  |}.

Program Definition unsized_range_spec : @InputStreamSpec (InputRangeStream In) unsized_range := {|
  valid := range_open;
  contents := range_contents;
  whole := range_whole
  |}.
Next Obligation.
  intros s n Hv Hn. destruct (irs_read_open s n Hv Hn) as (s' & E & V & C & (W1 & W2 & W3) & R).
  exists s'. by split_and!.
Qed.
Next Obligation.
  intros s n Hv Hn. destruct (irs_skip_open s n Hv Hn) as (k & s' & E & V & C & (W1 & W2 & W3) & R).
  exists k, s'. by split_and!.
Qed.
Next Obligation.
  intros s Hv Hr. destruct (irs_rewind_open s Hv Hr) as (s' & E & V & C & (W1 & W2 & W3) & R).
  exists s'. by split_and!.
Qed.
Next Obligation. intros s _. by right. Qed.
Next Obligation. intros s Hv. by apply irs_remaining_spec. Qed.

(** The constructor positions an unread stream at the start of the range. *)
Lemma new_range_open (i : In) off len :
  valid i -> contents i = whole i -> 0 <= off -> 0 <= len -> off + len < 2 ^ 63 ->
  exists s, new_InputRangeStream i off len = Ret s /\ range_open s /\
    range_contents s = ztake len (zdrop off (whole i)) /\ range_whole s = ztake len (zdrop off (whole i)) /\
    canRewind s = canRewind i /\ mEndOffset s = off + len /\ whole (rStream s) = whole i.
Proof.
  intros Hv Hc Ho Hl Hb. unfold new_InputRangeStream. rewrite uwrap_small, swrap_small by lia.
  destruct (skip_spec i off) as (k & i' & -> & V & C & (W1 & W2 & W3)); [done|lia|].
  cbn [mbind result_bind]. eexists. split; [reflexivity|].
  cbn [canRewind InputRangeStream_stream]. unfold range_open, range_contents, range_whole; cbn.
  rewrite C, W1, Hc. replace (off + len - off) with len by lia. split_and!; done || lia.
Qed.

Lemma new_InputRangeStream_spec (i : In) off len :
  valid i -> contents i = whole i -> 0 <= off -> 0 <= len -> off + len <= zlen (whole i) ->
  off + len < 2 ^ 63 ->
  exists s, new_InputRangeStream i off len = Ret s /\ valid s /\
    contents s = ztake len (zdrop off (whole i)) /\ whole s = ztake len (zdrop off (whole i)) /\
    canRewind s = canRewind i.
Proof.
  intros Hv Hc Ho Hl Hw Hb. destruct (new_range_open i off len Hv Hc Ho Hl Hb) as (s & E & V & C & W & R & Ee & Ew).
  exists s. split; [exact E|]. split; [|done]. split; [done|]. by rewrite Ee, Ew.
Qed.
End RangeSpec.

Section MultiSpec.
Context {In} `{InputStreamSpec In}.

Definition concat_with (f : In -> bytes) (l : list In) : bytes := concat (f <$> l).

Lemma concat_with_cons f x l : concat_with f (x :: l) = f x ++ concat_with f l.
Proof. done. Qed.

Definition multi_ok (s : MultiInputStream In) : Prop :=
  Forall valid (mStreamList s) /\ (mCurStream s <= length (mStreamList s))%nat /\
  zlen (concat_with whole (mStreamList s)) < 2 ^ 63.

Definition multi_contents (s : MultiInputStream In) : bytes :=
  concat_with contents (drop (mCurStream s) (mStreamList s)).

Definition multi_whole (s : MultiInputStream In) : bytes := concat_with whole (mStreamList s).

(** Updating a stream of the list by one that reads the same source. *)
Lemma multi_update l n (s s' : In) : l !! n = Some s -> same_source whole s s' ->
  concat_with whole (<[n := s']> l) = concat_with whole l /\
  forallb canRewind (<[n := s']> l) = forallb canRewind l /\
  forall t, multi_size (<[n := s']> l) t = multi_size l t.
Proof.
  revert n. induction l as [|x l IH]; intros [|n] Hl (W1 & W2 & W3); simplify_eq/=.
  - rewrite !concat_with_cons, W1, W2. split_and!; try done. intros t. by rewrite W3.
  - destruct (IH n Hl) as (E1 & E2 & E3); [done|]. rewrite !concat_with_cons, E1, E2.
    split_and!; try done. intros t. destruct (Streams.size x) as [k| | |]; simpl; [|done..].
    destruct (k <? 0); [done|]. apply E3.
Qed.

Lemma multi_ok_update (s : MultiInputStream In) cur cur' k :
  multi_ok s -> mStreamList s !! mCurStream s = Some cur -> valid cur' -> same_source whole cur cur' ->
  (k <= length (mStreamList s))%nat ->
  let s' := {| mStreamList := <[mCurStream s := cur']> (mStreamList s); mCurStream := k |} in
  multi_ok s' /\ same_source multi_whole s s'.
Proof.
  intros (Hv & Hc & Hz) Hl Hv' W Hk s'. destruct (multi_update _ _ _ _ Hl W) as (E1 & E2 & E3).
  split.
  - split_and!; cbn [mStreamList mCurStream s'].
    + apply Forall_insert; done.
    + by rewrite length_insert.
    + by rewrite E1.
  - unfold same_source, multi_whole, s'; cbn [mStreamList]. rewrite E1. split; [done|].
    cbn [canRewind size MultiInputStream_stream]. unfold multi_canRewind; cbn [mStreamList].
    by rewrite E2, E3.
Qed.

Lemma multi_contents_cur (s : MultiInputStream In) cur : mStreamList s !! mCurStream s = Some cur ->
  multi_contents s = contents cur ++ concat_with contents (drop (S (mCurStream s)) (mStreamList s)).
Proof. intros Hl. unfold multi_contents, concat_with. by erewrite drop_S. Qed.

Lemma multi_loop_spec fuel : forall (s : MultiInputStream In) want out,
  multi_ok s -> (mCurStream s < length (mStreamList s))%nat -> 0 <= want < 2 ^ 63 ->
  Z.of_nat (length (mStreamList s) - mCurStream s) + zlen (multi_contents s) <= Z.of_nat fuel ->
  exists s', multi_loop fuel s want out = Ret (out ++ ztake want (multi_contents s), s') /\
    multi_ok s' /\ multi_contents s' = zdrop want (multi_contents s) /\ same_source multi_whole s s'.
Proof.
  induction fuel as [|fuel IH]; intros s want out Hok Hcur Hw Hf.
  { pose proof (zlen_nonneg (multi_contents s)). lia. }
  cbn [multi_loop]. destruct (Z.ltb_spec 0 want) as [Hpos|Hz].
  2: { exists s. rewrite ztake_nonpos, zdrop_nonpos, app_nil_r by lia. done. }
  destruct (lookup_lt_is_Some_2 _ _ Hcur) as [cur Hl]. rewrite Hl. cbn [or_undef mbind result_bind].
  assert (valid cur) as Hvc by (destruct Hok as [Hv _]; by eapply Forall_lookup_1 in Hv).
  destruct (read_spec cur want) as (cur' & -> & V & C & W); [done|lia|]. cbn [mbind result_bind].
  rewrite (multi_contents_cur s cur Hl) in *.
  pose proof (zlen_nonneg (contents cur)). rewrite zlen_app in Hf.
  set (rest := concat_with contents (drop (S (mCurStream s)) (mStreamList s))) in *.
  pose proof (zlen_nonneg rest).
  rewrite zlen_ztake by lia. destruct (Z.eqb_spec (Z.min want (zlen (contents cur))) 0) as [He|He].
  - assert (contents cur = []) as Hnil by (apply zlen_nil_inv; lia). rewrite Hnil in *. cbn [app zlen] in *.
    rewrite length_insert.
    destruct (multi_ok_update s cur cur' (S (mCurStream s)) Hok Hl V W) as [Hok' W']; [lia|].
    set (s1 := {| mStreamList := <[mCurStream s:=cur']> (mStreamList s); mCurStream := S (mCurStream s) |}) in *.
    assert (multi_contents s1 = rest) as Hc1.
    { unfold multi_contents, s1, rest; cbn [mStreamList mCurStream]. by rewrite drop_insert_lt by lia. }
    destruct (Nat.eqb_spec (S (mCurStream s)) (length (mStreamList s))) as [Hend|Hmore].
    + assert (rest = []) as Hr by (unfold rest; by rewrite Hend, drop_all).
      exists s1. rewrite Hc1, Hr, app_nil_r. done.
    + destruct (IH s1 want out) as (s' & E & Hok'' & C' & W''); [done|..].
      * cbn. rewrite length_insert. lia.
      * lia.
      * rewrite Hc1. unfold s1; cbn [mStreamList mCurStream]. rewrite length_insert. lia.
      * rewrite Hc1 in E, C'. exists s'. rewrite E. eauto with nebula.
  - destruct (multi_ok_update s cur cur' (mCurStream s) Hok Hl V W) as [Hok' W']; [lia|].
    set (s1 := {| mStreamList := <[mCurStream s:=cur']> (mStreamList s); mCurStream := mCurStream s |}) in *.
    assert (multi_contents s1 = zdrop want (contents cur) ++ rest) as Hc1.
    { rewrite (multi_contents_cur s1 cur').
      - rewrite C. unfold s1, rest; cbn [mStreamList mCurStream]. by rewrite drop_insert_lt by lia.
      - unfold s1; cbn [mStreamList mCurStream]. by apply list_lookup_insert_eq. }
    remember (Z.min want (zlen (contents cur))) as m eqn:Em.
    destruct (IH s1 (want - m) (out ++ ztake want (contents cur))) as (s' & E & Hok'' & C' & W''); [done|..].
    + cbn. rewrite length_insert. lia.
    + lia.
    + rewrite Hc1, zlen_app, zlen_zdrop by lia. unfold s1; cbn [mStreamList mCurStream]. rewrite length_insert. lia.
    + exists s'. rewrite E, <-app_assoc, Hc1. rewrite Hc1 in C'.
      assert (zdrop want (contents cur ++ rest) = zdrop (want - m) (zdrop want (contents cur) ++ rest) /\
              ztake want (contents cur ++ rest) =
                ztake want (contents cur) ++ ztake (want - m) (zdrop want (contents cur) ++ rest)) as [-> ->].
      { rewrite zdrop_app, ztake_app by lia. destruct (Z.le_ge_cases want (zlen (contents cur))).
        - replace (want - m) with 0 by lia. rewrite (ztake_nonpos 0), (zdrop_nonpos 0), (ztake_nonpos (want - _)), (zdrop_nonpos (want - _)) by lia. done.
        - rewrite (zdrop_ge want (contents cur)) by lia. cbn [app]. replace m with (zlen (contents cur)) by lia. done. }
      eauto with nebula.
Qed.
Lemma multi_remaining_spec (s : MultiInputStream In) : multi_ok s ->
  zlen (multi_contents s) <= Z.of_nat (mis_remaining s).
Proof.
  intros (Hv & _ & _). unfold multi_contents, mis_remaining, concat_with.
  generalize (mCurStream s). induction (mStreamList s) as [|x l IH]; intros n.
  - by destruct n.
  - apply Forall_cons in Hv as [Hx Hv]. pose proof (remaining_spec x Hx). cbn [sum_list_with].
    destruct n as [|n]; cbn [drop fmap list_fmap concat].
    + specialize (IH Hv 0%nat). rewrite drop_0 in IH. rewrite zlen_app. lia.
    + specialize (IH Hv n). lia.
Qed.

Lemma multi_read_spec (s : MultiInputStream In) n : multi_ok s -> 0 <= n < 2 ^ 63 ->
  exists s', multi_read s n = Ret (ztake n (multi_contents s), s') /\ multi_ok s' /\
    multi_contents s' = zdrop n (multi_contents s) /\ same_source multi_whole s s'.
Proof.
  intros Hok Hn. pose proof Hok as (Hv & Hc & Hz). unfold multi_read.
  destruct (Nat.eqb_spec (mCurStream s) (length (mStreamList s))) as [He|Hne].
  - exists s. unfold multi_contents. rewrite He, drop_all. done.
  - destruct (multi_loop_spec (S (length (mStreamList s) + mis_remaining s)) s n []) as (s' & E & R);
      [done|lia|done| |by exists s'].
    pose proof (multi_remaining_spec s Hok). lia.
Qed.

Lemma multi_size_spec l : Forall valid l -> forall t, 0 <= t -> t + zlen (concat_with whole l) < 2 ^ 63 ->
  multi_size l t = Ret (t + zlen (concat_with whole l)) \/ multi_size l t = Ret (-1).
Proof.
  induction 1 as [|x l Hx Hl IH]; intros t Ht Hb; cbn [multi_size].
  - left. cbn. f_equal. lia.
  - rewrite concat_with_cons, zlen_app in *.
    pose proof (zlen_nonneg (whole x)); pose proof (zlen_nonneg (concat_with whole l)).
    destruct (size_spec x Hx) as [-> | ->]; cbn [mbind result_bind].
    + destruct (Z.ltb_spec (zlen (whole x)) 0); [lia|]. rewrite swrap_small, Z.add_assoc by lia.
      apply IH; lia.
    + by right.
Qed.

Lemma rewind_list_spec l : Forall valid l -> forallb canRewind l = true ->
  exists l', rewind_list l = Ret l' /\ Forall valid l' /\ length l' = length l /\
    concat_with contents l' = concat_with whole l /\ concat_with whole l' = concat_with whole l /\
    forallb canRewind l' = true /\ forall t, multi_size l' t = multi_size l t.
Proof.
  induction 1 as [|x l Hx Hl IH]; intros Hr; cbn [rewind_list forallb] in *; [by exists []|].
  apply andb_true_iff in Hr as [Hrx Hr]. destruct (IH Hr) as (l' & -> & V & L & C & W & R & Z').
  destruct (rewind_spec x Hx Hrx) as (x' & -> & V' & C' & W1 & W2 & W3). cbn [mbind result_bind].
  exists (x' :: l'). rewrite !concat_with_cons, C', C, W1, W. cbn [forallb length]. rewrite W2, R, L.
  split_and!; try done; [by constructor|by rewrite Hrx|].
  intros t. cbn [multi_size]. rewrite W3. destruct (Streams.size x) as [k| | |]; simpl; [|done..].
  destruct (k <? 0); [done|]. apply Z'.
Qed.

#[global] Program Instance MultiInputStream_spec : InputStreamSpec (MultiInputStream In) := {|
  valid := multi_ok;
  contents := multi_contents;
  whole := multi_whole
  |}.
Next Obligation. intros s n Hv Hn. by apply multi_read_spec. Qed.
Next Obligation.
  intros s n Hv Hn. cbn [skip MultiInputStream_stream].
  eapply (default_skip_spec multi_read mis_remaining multi_ok multi_contents);
    eauto using multi_read_spec, multi_remaining_spec with nebula.
Qed.
Next Obligation.
  intros s (Hv & Hc & Hz) Hr. cbn [rewind canRewind MultiInputStream_stream] in *. unfold multi_rewind.
  rewrite Hr. destruct (rewind_list_spec _ Hv Hr) as (l' & -> & V & L & C & W & R & Z').
  cbn [mbind result_bind]. eexists. split; [reflexivity|]. unfold multi_ok, same_source, multi_whole, multi_contents; cbn.
  unfold concat_with in *. rewrite drop_0, W, Z', R, Hr. split_and!; done || lia.
Qed.
Next Obligation.
  intros s (Hv & Hc & Hz). cbn [size MultiInputStream_stream].
  apply (multi_size_spec _ Hv 0); [lia|]. by rewrite Z.add_0_l.
Qed.
Next Obligation. intros s Hv. by apply multi_remaining_spec. Qed.

Lemma new_MultiInputStream_spec l : Forall valid l -> zlen (concat_with whole l) < 2 ^ 63 ->
  valid (new_MultiInputStream l) /\ contents (new_MultiInputStream l) = concat_with contents l /\
  whole (new_MultiInputStream l) = concat_with whole l.
Proof.
  intros Hv Hz. cbn [valid contents whole MultiInputStream_spec].
  unfold multi_ok, multi_contents, new_MultiInputStream; cbn. rewrite drop_0. split_and!; done || lia.
Qed.

(** The size is known when the sizes of all parts are. *)
Lemma multi_size_known l : Forall valid l -> Forall (fun s => size s = Ret (zlen (whole s))) l ->
  forall t, 0 <= t -> t + zlen (concat_with whole l) < 2 ^ 63 ->
  multi_size l t = Ret (t + zlen (concat_with whole l)).
Proof.
  intros Hv. induction 1 as [|x l Hs Hl IH]; intros t Ht Hb; cbn [multi_size].
  - cbn. f_equal. lia.
  - apply Forall_cons in Hv as [Hx Hv]. rewrite concat_with_cons, zlen_app in *.
    pose proof (zlen_nonneg (whole x)); pose proof (zlen_nonneg (concat_with whole l)).
    rewrite Hs. cbn [mbind result_bind].
    destruct (Z.ltb_spec (zlen (whole x)) 0); [lia|]. rewrite swrap_small, Z.add_assoc by lia.
    apply IH; [done|lia|lia].
Qed.
End MultiSpec.

(** ** Properties of the components *)

Section Properties.
Context {In} `{InputStreamSpec In}.

(** [readExpected] on any stream that keeps the contract either delivers
  exactly the bytes asked for, or throws [ShortReadException]. *)
Theorem readExpected_exact (i : In) n (Hv : valid i) (Hn : 0 <= n < 2 ^ 63) :
  if n <=? zlen (contents i) then
    exists i', readExpected i n = Ret (ztake n (contents i), i') /\ valid i' /\
               contents i' = zdrop n (contents i)
  else readExpected i n = Throw ShortReadException.
Proof.
  destruct (Z.leb_spec n (zlen (contents i))).
  - destruct (readExpected_spec i n) as (i' & E & V & C & _); eauto.
  - apply readExpected_short; [done|lia].
Qed.

(** C29: putting a [BufferedInputStream] in front of a stream changes nothing
  for a reader: every sequence of reads delivers the same bytes. *)
Theorem buffered_transparent (i : In) ns (Hv : valid i) (Hn : Forall (fun n => 0 <= n < 2 ^ 63) ns) :
  exists out i' b', read_many i ns = Ret (out, i') /\
    read_many (new_BufferedInputStream i) ns = Ret (out, b').
Proof.
  destruct (read_many_spec ns Hn i Hv) as (i' & E & _).
  assert (valid (new_BufferedInputStream i)) as Hvb by exact Hv.
  destruct (read_many_spec ns Hn (new_BufferedInputStream i) Hvb) as (b' & E' & _).
  exists (slices (contents i) ns), i', b'. done.
Qed.

Lemma read_many_unsized ns : forall s : InputRangeStream In, @read_many _ unsized_range s ns = read_many s ns.
Proof.
  induction ns as [|n ns IH]; intros s; [done|]. cbn [read_many].
  change (@read _ unsized_range s n) with (read s n).
  destruct (read s n) as [[b s1]| | |]; [|done..]. cbn [mbind result_bind]. by rewrite IH.
Qed.

(** C30: an [InputRangeStream] delivers exactly the bytes [off, off + len) of
  its source, those that there are, in any sequence of reads and never beyond
  them; its size is [len], also when the source is shorter, and rewinding it
  starts the range again. *)
Theorem range_stream_correct (i : In) off len ns
    (Hv : valid i) (Hc : contents i = whole i) (Ho : 0 <= off) (Hl : 0 <= len) (Hb : off + len < 2 ^ 63)
    (Hn : Forall (fun n => 0 <= n < 2 ^ 63) ns) :
  exists s s', new_InputRangeStream i off len = Ret s /\
    read_many s ns = Ret (slices (ztake len (zdrop off (whole i))) ns, s') /\
    size s = Ret len /\
    (canRewind i = true -> exists s'', rewind s' = Ret s'' /\ range_open s'' /\
       contents s'' = ztake len (zdrop off (whole i))).
Proof.
  destruct (new_range_open i off len Hv Hc Ho Hl Hb) as (s & E & V & C & W & R & _).
  destruct (@read_many_spec _ unsized_range unsized_range_spec ns Hn s V) as (s' & E' & V' & W1 & W2 & W3).
  rewrite read_many_unsized in E'. cbn [contents valid whole canRewind unsized_range unsized_range_spec] in *.
  exists s, s'. rewrite <-C. split_and!; try done.
  - revert E. unfold new_InputRangeStream. intros E. inv_ret. cbn. rewrite (swrap_small 64) by lia. f_equal. lia.
  - intros Hr. rewrite <-R in Hr. destruct (irs_rewind_open s' V' (eq_trans W2 Hr)) as (s'' & Er & V'' & C'' & _).
    exists s''. split; [done|]. split; [done|]. cbn [contents InputRangeStream_spec]. congruence.
Qed.

(** C31: a [MultiInputStream] delivers the concatenation of its streams, in any
  sequence of reads; when all of them can be rewound it can, and then delivers
  everything again; when all sizes are known its size is their sum. *)
Theorem multi_stream_concat (l : list In) ns
    (Hv : Forall valid l) (Hc : Forall (fun i => contents i = whole i) l)
    (Hb : zlen (concat_with whole l) < 2 ^ 63) (Hn : Forall (fun n => 0 <= n < 2 ^ 63) ns) :
  exists s', read_many (new_MultiInputStream l) ns = Ret (slices (concat_with whole l) ns, s') /\
    (forallb canRewind l = true -> exists s'', rewind s' = Ret s'' /\ valid s'' /\
       contents s'' = concat_with whole l) /\
    (Forall (fun i => size i = Ret (zlen (whole i))) l ->
       size (new_MultiInputStream l) = Ret (zlen (concat_with whole l))).
Proof.
  destruct (new_MultiInputStream_spec l Hv Hb) as (V & C & W).
  assert (concat_with contents l = concat_with whole l) as Ecw.
  { clear -Hc. induction Hc as [|x l Hx Hl IH]; [done|]. by rewrite !concat_with_cons, Hx, IH. }
  destruct (read_many_spec ns Hn (new_MultiInputStream l) V) as (s' & E & V' & W1 & W2 & W3).
  rewrite C, Ecw in E. exists s'. split; [done|]. split.
  - intros Hr. assert (canRewind s' = true) as Hr' by (rewrite W2; exact Hr).
    destruct (rewind_spec s' V' Hr') as (s'' & Er & V'' & C'' & _).
    exists s''. split; [done|]. split; [done|]. congruence.
  - intros Hs. cbn [size MultiInputStream_stream new_MultiInputStream mStreamList].
    apply (multi_size_known l Hv Hs 0); [lia|]. by rewrite Z.add_0_l.
Qed.

(** [copyTo] into a buffer delivers the whole stream when it fits, and
  otherwise throws [InsufficientBufferSizeException]. *)
Theorem copyTo_memory (i : In) (o : MemoryOutputStream) (Hv : valid i) (Ho : ovalid o) :
  if zlen (written o) + zlen (contents i) <=? mCapacity o then
    exists i' o', copyTo i o = Ret (i', o') /\ contents i' = [] /\ written o' = written o ++ contents i
  else copyTo i o = Throw InsufficientBufferSizeException.
Proof.
  destruct (Z.leb_spec (zlen (written o) + zlen (contents i)) (mCapacity o)) as [Hle|Hgt].
  - destruct (copyTo_spec i o 0) as (i' & o' & E & _ & C & _ & _ & W & _); try done.
    + cbn in *. lia.
    + exists i', o'. done.
  - destruct (copyTo_chunks i o Hv) as (chunks & i' & Hcat & _ & _ & _ & ->).
    rewrite <-Hcat in Hgt. clear Hcat. revert o Ho Hgt.
    induction chunks as [|b chunks IH]; intros o Ho Hgt; cbn in Hgt, Ho.
    + rewrite Z.add_0_r in Hgt. lia.
    + cbn [write_all]. rewrite zlen_app in Hgt.
      destruct (Z.le_gt_cases (zlen (mData o) + zlen b) (mCapacity o)) as [Hfit|Hfull].
      * assert (ovalid o) as Ho' by exact Ho. assert (fits o (zlen b)) as Hfit' by exact Hfit.
        destruct (write_spec o b Ho' Hfit') as (o1 & Eo & V1 & W1 & _).
        rewrite Eo, bind_assoc, bind_of_Ret. apply IH; [done|].
        revert Eo. cbn [write MemoryOutputStream_stream]. unfold mos_write.
        destruct (_ <? _); [done|]. intros [= <-]. cbn. rewrite zlen_app. lia.
      * by rewrite mos_write_full.
Qed.
End Properties.

Lemma readExpected_exact_witness :
  exists i', readExpected (new_MemoryInputStream (str "abc")) 2 = Ret (str "ab", i') /\ valid i' /\
             contents i' = str "c".
Proof.
  destruct (new_MemoryInputStream_valid (str "abc")) as (V & C & W).
  exact (readExpected_exact (new_MemoryInputStream (str "abc")) 2 V ltac:(lia)).
Defined.

Lemma buffered_transparent_witness :
  exists out i' b', read_many (new_MemoryInputStream (str "abc")) [2; 2] = Ret (out, i') /\
    read_many (new_BufferedInputStream (new_MemoryInputStream (str "abc"))) [2; 2] = Ret (out, b').
Proof.
  destruct (new_MemoryInputStream_valid (str "abc")) as (V & C & W).
  apply (buffered_transparent (new_MemoryInputStream (str "abc")) [2; 2] V).
  repeat constructor; lia.
Defined.

Lemma range_stream_correct_witness :
  exists s s', new_InputRangeStream (new_MemoryInputStream (str "abcdef")) 2 3 = Ret s /\
    read_many s [2; 9] = Ret ([str "cd"; str "e"], s') /\ size s = Ret 3.
Proof.
  destruct (new_MemoryInputStream_valid (str "abcdef")) as (V & C & W).
  assert (Forall (fun n => 0 <= n < 2 ^ 63) [2; 9]) as Hn by (repeat constructor; lia).
  destruct (range_stream_correct (new_MemoryInputStream (str "abcdef")) 2 3 [2; 9] V eq_refl
              ltac:(lia) ltac:(lia) ltac:(cbn; lia) Hn) as (s & s' & E & R & S & _).
  exists s, s'. split; [exact E|]. split; [exact R|exact S].
Defined.

Lemma multi_stream_concat_witness :
  exists s', read_many (new_MultiInputStream [new_MemoryInputStream (str "abc"); new_MemoryInputStream (str "de")]) [4; 4]
    = Ret ([str "abcd"; str "e"], s').
Proof.
  destruct (multi_stream_concat [new_MemoryInputStream (str "abc"); new_MemoryInputStream (str "de")] [4; 4])
    as (s' & E & _).
  - repeat constructor; vm_compute; congruence.
  - repeat constructor.
  - vm_compute. reflexivity.
  - repeat constructor; lia.
  - exists s'. exact E.
Defined.

Lemma copyTo_memory_witness :
  copyTo (new_MemoryInputStream (str "abcdef")) (new_MemoryOutputStream 5) = Throw InsufficientBufferSizeException.
Proof.
  destruct (new_MemoryInputStream_valid (str "abcdef")) as (V & C & W).
  exact (copyTo_memory (new_MemoryInputStream (str "abcdef")) (new_MemoryOutputStream 5) V ltac:(cbn; lia)).
Defined.
