(* ===== verification/CryptoStreams.v ===== *)
(** * EncryptedOutputStream.cpp, DecryptedInputStream.cpp

    The cipher streams, over any underlying stream and any library [EVP].  The
    random initialisation vector is an argument. *)
From S2P Require Import Prelude Crypto Streams MemoryStreams.
From Stdlib Require Import ZArith Lia.

(** ** EncryptedOutputStream *)

Section Encrypted.
Context `{EVP} {Out} `{OutputStream Out}.

Record EncryptedOutputStream := { eStream : Out; eCtx : EncCtx }.

Definition new_EncryptedOutputStream (stream : Out) (key iv : bytes) : result EncryptedOutputStream :=
  ctx ← or_throw (EVP_EncryptInit key iv) EncryptionFailedException;
  stream ← write stream (ztake EVP_MAX_IV_LENGTH iv);
  Ret {| eStream := stream; eCtx := ctx |}.

(** [while(size > 0)]: at most 4096 bytes are encrypted at a time. *)
Fixpoint encrypted_loop (fuel : nat) (s : EncryptedOutputStream) (data : bytes)
  : result EncryptedOutputStream :=
  if 0 <? zlen data then
    match fuel with
    | O => NoFuel
    | S fuel =>
        let bufSize := if 4096 <? zlen data then 4096 else zlen data in
        '(enc, ctx) ← or_throw (EVP_EncryptUpdate (eCtx s) (ztake bufSize data))
                               EncryptionFailedException;
        stream ← write (eStream s) enc;
        encrypted_loop fuel {| eStream := stream; eCtx := ctx |} (zdrop bufSize data)
    end
  else Ret s.

Definition eos_write (s : EncryptedOutputStream) (data : bytes) : result EncryptedOutputStream :=
  encrypted_loop (length data) s data.

Definition eos_flush (s : EncryptedOutputStream) : result EncryptedOutputStream :=
  stream ← flush (eStream s); Ret {| eStream := stream; eCtx := eCtx s |}.

Definition eos_close (s : EncryptedOutputStream) : result EncryptedOutputStream :=
  pad ← or_throw (EVP_EncryptFinal (eCtx s)) EncryptionFailedException;
  stream ← write (eStream s) pad;
  stream ← flush stream;
  Ret {| eStream := stream; eCtx := eCtx s |}.

#[global] Instance EncryptedOutputStream_stream : OutputStream EncryptedOutputStream := {|
  write := eos_write;
  flush := eos_flush;
  close := eos_close
|}.
End Encrypted.
Arguments EncryptedOutputStream {_} Out.

(** ** DecryptedInputStream *)

Section Decrypted.
Context `{EVP} {In} `{InputStream In}.

(** [dNext] is [mBufferPtr, mBufferPtr + mBytesInBuffer).  [dBound] is not in
    the code: it bounds what the stream can still deliver. *)
Record DecryptedInputStream := {
  dStream : In; dCtx : DecCtx; dNext : bytes; mDone : bool; dBound : nat
}.

Definition new_DecryptedInputStream (stream : In) (key : bytes) : result DecryptedInputStream :=
  '(iv, stream) ← read stream EVP_MAX_IV_LENGTH;
  if negb (zlen iv =? EVP_MAX_IV_LENGTH) then Throw EncryptionFailedException
  else
    ctx ← or_throw (EVP_DecryptInit key iv) EncryptionFailedException;
    Ret {| dStream := stream; dCtx := ctx; dNext := []; mDone := false; dBound := remaining stream |}.

(** [while(size > mBytesInBuffer)], with the bytes copied so far. *)
Fixpoint decrypted_loop (fuel : nat) (s : DecryptedInputStream) (want : Z) (out : bytes)
  : result (bytes * DecryptedInputStream) :=
  if zlen (dNext s) <? want then
    match fuel with
    | O => NoFuel
    | S fuel =>
        let want := want - zlen (dNext s) in
        let out := out ++ dNext s in
        '(buffer, stream) ← read (dStream s) 4096;
        if zlen buffer =? 0 then
          if negb (mDone s) then
            '(last, ctx) ← or_throw (EVP_DecryptFinal (dCtx s)) EncryptionFailedException;
            decrypted_loop fuel {| dStream := stream; dCtx := ctx; dNext := last; mDone := true;
                                   dBound := dBound s |} want out
          else Ret (out, {| dStream := stream; dCtx := dCtx s; dNext := []; mDone := true;
                            dBound := dBound s |})
        else
          '(dec, ctx) ← or_throw (EVP_DecryptUpdate (dCtx s) buffer) EncryptionFailedException;
          decrypted_loop fuel {| dStream := stream; dCtx := ctx; dNext := dec; mDone := mDone s;
                                 dBound := dBound s |} want out
    end
  else Ret (out ++ ztake want (dNext s),
            {| dStream := dStream s; dCtx := dCtx s; dNext := zdrop want (dNext s);
               mDone := mDone s; dBound := dBound s |}).

Definition dis_read (s : DecryptedInputStream) (size : Z) : result (bytes * DecryptedInputStream) :=
  decrypted_loop (2 + remaining (dStream s)) s size [].

#[global] Instance DecryptedInputStream_stream : InputStream DecryptedInputStream := {|
  read := dis_read;
  skip := default_skip dis_read dBound;
  canRewind := default_canRewind;
  rewind := default_rewind;
  size := default_size;
  remaining := dBound
|}.
End Decrypted.
Arguments DecryptedInputStream {_} In.

(** * Contracts *)

Section EncryptedSpec.
Context `{EVPSpec} {Out} `{OutputStreamSpec Out}.

(** The stream can take the plaintext [m] and then be closed. *)
Definition enc_ok (s : EncryptedOutputStream Out) (m : bytes) : Prop :=
  ovalid (eStream s) /\ fits (eStream s) (zlen (enc_rest (eCtx s) m)).

(** What the underlying stream will have received once [m] is written and the
    stream closed. *)
Definition enc_total (s : EncryptedOutputStream Out) (m : bytes) : bytes :=
  written (eStream s) ++ enc_rest (eCtx s) m.

Lemma new_encrypted_spec (o : Out) key iv m :
  ovalid o -> zlen iv = EVP_MAX_IV_LENGTH -> fits o (zlen iv + zlen (encrypt key iv m)) ->
  exists s, new_EncryptedOutputStream o key iv = Ret s /\ enc_ok s m /\
    enc_total s m = written o ++ iv ++ encrypt key iv m.
Proof.
  intros Ho Hiv Hf. unfold new_EncryptedOutputStream.
  destruct (encrypt_init key iv) as (c & -> & Hc). cbn [or_throw]. rewrite bind_of_Ret.
  rewrite ztake_ge by lia.
  destruct (write_spec o iv Ho) as (o' & -> & V & W & F).
  { eapply fits_mono; [|exact Hf]. zlen_lia. }
  rewrite bind_of_Ret. eexists. split; [reflexivity|]. unfold enc_ok, enc_total; cbn [eStream eCtx].
  rewrite Hc, W, <-app_assoc. split; [|done]. split; [done|]. apply F; [apply zlen_nonneg|done].
Qed.

(** One piece: encrypting [b] moves its ciphertext to the underlying stream. *)
Lemma enc_piece (s : EncryptedOutputStream Out) b m : enc_ok s (b ++ m) ->
  exists enc ctx stream, EVP_EncryptUpdate (eCtx s) b = Some (enc, ctx) /\
    write (eStream s) enc = Ret stream /\
    let s' := {| eStream := stream; eCtx := ctx |} in
    enc_ok s' m /\ enc_total s' m = enc_total s (b ++ m).
Proof.
  intros [Ho Hf]. destruct (encrypt_update (eCtx s) b) as (enc & ctx & E & Hc).
  rewrite Hc, zlen_app in Hf. pose proof (zlen_nonneg (enc_rest ctx m)). pose proof (zlen_nonneg enc).
  destruct (write_spec (eStream s) enc Ho) as (o' & Ew & V & W & F).
  { eapply fits_mono; [|exact Hf]. lia. }
  exists enc, ctx, o'. split; [done|]. split; [done|]. unfold enc_ok, enc_total; cbn [eStream eCtx].
  rewrite Hc, W, <-app_assoc. split; [|done]. split; [done|]. by apply F.
Qed.

Lemma encrypted_loop_spec fuel : forall (s : EncryptedOutputStream Out) b m,
  zlen b <= Z.of_nat fuel -> enc_ok s (b ++ m) ->
  exists s', encrypted_loop fuel s b = Ret s' /\ enc_ok s' m /\ enc_total s' m = enc_total s (b ++ m).
Proof.
  induction fuel as [|fuel IH]; intros s b m Hl Ho; cbn [encrypted_loop];
    (destruct (Z.ltb_spec 0 (zlen b)) as [Hp|Hz];
      [|assert (b = []) as -> by (apply zlen_nil_inv; pose proof (zlen_nonneg b); lia); by exists s]).
  - lia.
  - remember (if 4096 <? zlen b then 4096 else zlen b) as k eqn:Ek.
    assert (0 < k <= zlen b) as Hk by (destruct (Z.ltb_spec 4096 (zlen b)); lia).
    rewrite <-(ztake_zdrop k b), <-app_assoc in Ho.
    destruct (enc_piece s (ztake k b) _ Ho) as (enc & ctx & o' & -> & Ew & V & T).
    cbn [or_throw mbind result_bind]. rewrite Ew. cbn [mbind result_bind].
    destruct (IH {| eStream := o'; eCtx := ctx |} (zdrop k b) m) as (s' & -> & V' & T'); [rewrite zlen_zdrop by lia; lia|exact V|].
    exists s'. split; [done|]. split; [done|]. by rewrite T', T, app_assoc, ztake_zdrop.
Qed.

Lemma eos_write_spec (s : EncryptedOutputStream Out) b m : enc_ok s (b ++ m) ->
  exists s', write s b = Ret s' /\ enc_ok s' m /\ enc_total s' m = enc_total s (b ++ m).
Proof. intros Ho. apply encrypted_loop_spec; [|done]. rewrite zlen_length. lia. Qed.

Lemma eos_write_all_spec chunks : forall (s : EncryptedOutputStream Out) m,
  enc_ok s (concat chunks ++ m) ->
  exists s', write_all s chunks = Ret s' /\ enc_ok s' m /\ enc_total s' m = enc_total s (concat chunks ++ m).
Proof.
  induction chunks as [|b chunks IH]; intros s m Ho; cbn [write_all concat] in *; [by exists s|].
  rewrite <-app_assoc in *. destruct (eos_write_spec s b _ Ho) as (s1 & -> & V & T). rewrite bind_of_Ret.
  destruct (IH s1 m V) as (s' & -> & V' & T'). exists s'. by rewrite T', T.
Qed.

Lemma eos_close_spec (s : EncryptedOutputStream Out) : enc_ok s [] ->
  exists s', close s = Ret s' /\ ovalid (eStream s') /\ written (eStream s') = enc_total s [].
Proof.
  intros [Ho Hf]. cbn [close EncryptedOutputStream_stream]. unfold eos_close. rewrite encrypt_final.
  cbn [or_throw]. rewrite bind_of_Ret.
  destruct (write_spec (eStream s) _ Ho Hf) as (o1 & -> & V1 & W1 & _). rewrite bind_of_Ret.
  destruct (flush_spec o1 V1) as (o2 & -> & V2 & W2 & _). rewrite bind_of_Ret.
  eexists. split; [reflexivity|]. cbn. split; [done|]. by rewrite W2, W1.
Qed.
End EncryptedSpec.

Section DecryptedSpec.
Context `{EVPSpec} {In} `{InputStreamSpec In}.

(** What the cipher still delivers for the ciphertext that is left. *)
Definition dec_left (s : DecryptedInputStream In) : option bytes :=
  if mDone s then Some [] else dec_rest (dCtx s) (contents (dStream s)).

Definition dec_contents (s : DecryptedInputStream In) : bytes := dNext s ++ default [] (dec_left s).

(** The rest of the ciphertext decrypts. *)
Definition dec_ok (s : DecryptedInputStream In) : Prop :=
  valid (dStream s) /\ is_Some (dec_left s) /\ (mDone s = true -> contents (dStream s) = []) /\
  zlen (dec_contents s) <= Z.of_nat (dBound s).

(** Without the bound on the bytes: what one turn of the loop preserves. *)
Definition dec_good (s : DecryptedInputStream In) : Prop :=
  valid (dStream s) /\ is_Some (dec_left s) /\ (mDone s = true -> contents (dStream s) = []).

(** Turns of the loop that are left. *)
Definition dec_turns (s : DecryptedInputStream In) : Z :=
  zlen (contents (dStream s)) + (if mDone s then 0 else 1).

Lemma decrypted_loop_spec fuel : forall (s : DecryptedInputStream In) want out,
  dec_good s -> 0 <= want -> dec_turns s < Z.of_nat fuel ->
  exists s', decrypted_loop fuel s want out = Ret (out ++ ztake want (dec_contents s), s') /\
    dec_good s' /\ dec_contents s' = zdrop want (dec_contents s) /\
    same_source whole (dStream s) (dStream s') /\ dBound s' = dBound s.
Proof.
  induction fuel as [|fuel IH]; intros s want out (Hv & [rest Hr] & Hd) Hw Hf.
  { unfold dec_turns in Hf. pose proof (zlen_nonneg (contents (dStream s))). destruct (mDone s); lia. }
  cbn [decrypted_loop]. destruct (Z.ltb_spec (zlen (dNext s)) want) as [Hlt|Hge].
  2: { exists {| dStream := dStream s; dCtx := dCtx s; dNext := zdrop want (dNext s);
                 mDone := mDone s; dBound := dBound s |}. split; [|split; [|split; [|done]]].
       - unfold dec_contents. rewrite ztake_app, (ztake_nonpos (want - _)), app_nil_r by lia. reflexivity.
       - unfold dec_good, dec_left in *; cbn. eauto.
       - unfold dec_contents. rewrite zdrop_app, (zdrop_nonpos (want - _)) by lia. done. }
  use_read (dStream s) 4096. pose proof (zlen_nonneg (dNext s)).
  rename s0 into stream. pose proof (zlen_nonneg (contents (dStream s))).
  assert (dec_contents s = dNext s ++ rest) as -> by (unfold dec_contents; by rewrite Hr).
  assert (ztake want (dNext s ++ rest) = dNext s ++ ztake (want - zlen (dNext s)) rest /\
          zdrop want (dNext s ++ rest) = zdrop (want - zlen (dNext s)) rest) as [-> ->].
  { rewrite ztake_app, zdrop_app, (ztake_ge want), (zdrop_ge want) by lia. done. }
  remember (want - zlen (dNext s)) as want' eqn:Ew. rewrite app_assoc.
  rewrite zlen_ztake by lia. destruct (Z.eqb_spec (Z.min 4096 (zlen (contents (dStream s)))) 0) as [Hz|Hz].
  - assert (contents (dStream s) = []) as Hnil by (apply zlen_nil_inv; lia).
    rewrite Hnil, zdrop_nil in C. unfold dec_left in Hr. destruct (mDone s) eqn:Edone; cbn [negb].
    + injection Hr as <-. rewrite ztake_nil, zdrop_nil, app_nil_r.
      eexists. split; [reflexivity|]. unfold dec_good, dec_left; cbn. eauto 8.
    + rewrite Hnil in Hr. pose proof (decrypt_final (dCtx s)) as Hfin. rewrite Hr in Hfin.
      destruct (EVP_DecryptFinal (dCtx s)) as [[lastb ctx]|]; [|done]. injection Hfin as Hfin. simpl in Hfin. subst lastb.
      cbn [or_throw mbind result_bind].
      match goal with |- context [decrypted_loop fuel ?x _ _] => destruct (IH x want' (out ++ dNext s))
        as (s' & E & G & C' & W' & B) end.
      * unfold dec_good, dec_left; cbn. eauto.
      * lia.
      * unfold dec_turns in *; cbn. rewrite Edone, Hnil in Hf. rewrite C. cbn in *. lia.
      * exists s'. unfold dec_contents, dec_left in E, C'; cbn in E, C'. rewrite app_nil_r in E, C'.
        rewrite E. split; [done|]. split; [done|]. split; [done|]. split; [|done]. cbn in W'. eauto with nebula.
  - assert (mDone s = false) as Edone.
    { destruct (mDone s); [|done]. rewrite Hd in Hz by done. cbn in Hz. lia. }
    unfold dec_left in Hr. rewrite Edone in *.
    rewrite <-(ztake_zdrop 4096 (contents (dStream s))) in Hr.
    destruct (decrypt_update (dCtx s) (ztake 4096 (contents (dStream s)))) as (dec & ctx & -> & Hu).
    rewrite Hu in Hr. apply fmap_Some in Hr as (rest' & Hr & ->). cbn [or_throw mbind result_bind].
    match goal with |- context [decrypted_loop fuel ?x _ _] => destruct (IH x want' (out ++ dNext s))
      as (s' & E & G & C' & W' & B) end.
    + unfold dec_good, dec_left; cbn. rewrite C, Hr. split_and!; eauto. done.
    + lia.
    + unfold dec_turns in *; cbn. rewrite Edone in Hf. rewrite C, zlen_zdrop by lia. lia.
    + exists s'. unfold dec_contents, dec_left in E, C'; cbn in E, C'. rewrite C, Hr in E, C'.
      rewrite E. split; [done|]. split; [done|]. split; [exact C'|]. split; [|done].
      cbn in W'. eauto with nebula.
Qed.

Lemma dis_read_spec (s : DecryptedInputStream In) n : dec_ok s -> 0 <= n < 2 ^ 63 ->
  exists s', dis_read s n = Ret (ztake n (dec_contents s), s') /\ dec_ok s' /\
    dec_contents s' = zdrop n (dec_contents s) /\ same_source (fun s => whole (dStream s)) s s'.
Proof.
  intros (Hv & Hr & Hd & Hb) Hn. unfold dis_read.
  destruct (decrypted_loop_spec (2 + remaining (dStream s)) s n []) as (s' & E & (V & R & D) & C & W & B).
  - done.
  - lia.
  - unfold dec_turns. pose proof (remaining_spec (dStream s) Hv). destruct (mDone s); lia.
  - exists s'. split; [exact E|]. split.
    + split_and!; try done. rewrite C, B, zlen_zdrop by lia. pose proof (zlen_nonneg (dec_contents s)). lia.
    + split; [done|]. split; [apply W|done].
Qed.

(** The stream cannot be rewound, so [whole] only has to be constant. *)
#[global] Program Instance DecryptedInputStream_spec : InputStreamSpec (DecryptedInputStream In) := {|
  valid := dec_ok;
  contents := dec_contents;
  whole s := whole (dStream s)
|}.
Next Obligation. intros s n Hv Hn. by apply dis_read_spec. Qed.
Next Obligation.
  intros s n Hv Hn. cbn [skip DecryptedInputStream_stream].
  eapply (default_skip_spec dis_read dBound dec_ok dec_contents); eauto using dis_read_spec with nebula.
  intros s' (? & ? & ? & ?). done.
Qed.
Next Obligation. done. Qed.
Next Obligation. intros s Hv. by right. Qed.
Next Obligation. intros s (? & ? & ? & ?). done. Qed.

Lemma new_decrypted_spec (i : In) key iv ct m : valid i -> zlen iv = EVP_MAX_IV_LENGTH ->
  contents i = iv ++ ct -> decrypt key iv ct = Some m ->
  zlen m <= zlen ct ->
  exists s, new_DecryptedInputStream i key = Ret s /\ valid s /\ contents s = m.
Proof.
  intros Hv Hiv Hc Hdec Hlen. unfold new_DecryptedInputStream.
  assert (0 <= EVP_MAX_IV_LENGTH < 2 ^ 63) as H16 by done.
  use_read i EVP_MAX_IV_LENGTH.
  rewrite Hc, ztake_app_exact by done. rewrite Hc, zdrop_app_exact in C by done.
  rewrite Hiv. cbn [Z.eqb negb].
  destruct (decrypt_init key iv) as (c & -> & Hd). cbn [or_throw]. rewrite bind_of_Ret.
  eexists. split; [reflexivity|]. cbn [valid contents DecryptedInputStream_spec].
  unfold dec_ok, dec_contents, dec_left; cbn. rewrite C, Hd, Hdec. cbn.
  pose proof (remaining_spec s V) as Hrem. rewrite C in Hrem. split_and!; try done. lia.
Qed.
End DecryptedSpec.

(** ** Properties of the components *)

Section Properties.
Context `{EVPSpec}.

Lemma encrypt_grows key iv m : zlen m <= zlen (encrypt key iv m).
Proof. rewrite encrypt_length. pose proof (zlen_nonneg m). Z.div_mod_to_equations. lia. Qed.

(** Whatever is written to an [EncryptedOutputStream], in whatever pieces,
    leaves the initialisation vector and the encryption of the whole message on
    the underlying stream; and a [DecryptedInputStream] over those bytes, read
    in whatever pieces, delivers the message. *)
Theorem cipher_streams_roundtrip {Out} `{OutputStreamSpec Out} (o : Out) key iv chunks ns
    (Ho : ovalid o) (Hiv : zlen iv = EVP_MAX_IV_LENGTH)
    (Hf : fits o (zlen iv + zlen (encrypt key iv (concat chunks))))
    (Hn : Forall (fun n => 0 <= n < 2 ^ 63) ns) :
  exists s s1 s2, new_EncryptedOutputStream o key iv = Ret s /\
    write_all s chunks = Ret s1 /\ close s1 = Ret s2 /\
    written (eStream s2) = written o ++ iv ++ encrypt key iv (concat chunks) /\
    forall In (HI : InputStream In) (HS : InputStreamSpec In) (i : In),
      valid i -> contents i = iv ++ encrypt key iv (concat chunks) ->
      exists d d', new_DecryptedInputStream i key = Ret d /\
        read_many d ns = Ret (slices (concat chunks) ns, d').
Proof.
  destruct (new_encrypted_spec o key iv (concat chunks) Ho Hiv Hf) as (s & E & V & T).
  rewrite <-(app_nil_r (concat chunks)) in V, T.
  destruct (eos_write_all_spec chunks s [] V) as (s1 & E1 & V1 & T1).
  destruct (eos_close_spec s1 V1) as (s2 & E2 & _ & W).
  exists s, s1, s2. split; [done|]. split; [done|]. split; [done|]. split.
  - by rewrite W, T1, T, app_nil_r.
  - intros In HI HS i Hv Hc.
    destruct (new_decrypted_spec i key iv _ (concat chunks) Hv Hiv Hc) as (d & Ed & Vd & Cd).
    { apply decrypt_encrypt. } { apply encrypt_grows. }
    destruct (read_many_spec ns Hn d Vd) as (d' & Er & _). rewrite Cd in Er. eauto.
Qed.
End Properties.

Lemma cipher_streams_roundtrip_witness :
  let iv := replicate 16 Byte.x07 in
  exists s s1 s2, new_EncryptedOutputStream (new_MemoryOutputStream 64) (str "key") iv = Ret s /\
    write_all s [str "hello "; str "world"] = Ret s1 /\ close s1 = Ret s2 /\
    zlen (written (eStream s2)) = 32.
Proof.
  intros iv. assert (zlen iv = EVP_MAX_IV_LENGTH) as Hiv by reflexivity.
  assert (ovalid (new_MemoryOutputStream 64)) as Ho by (cbn; lia).
  assert (fits (new_MemoryOutputStream 64) (zlen iv +
    zlen (encrypt (str "key") iv (concat [str "hello "; str "world"])))) as Hf by (vm_compute; discriminate).
  assert (Forall (fun n => 0 <= n < 2 ^ 63) [16]) as Hn by (repeat constructor; lia).
  destruct (cipher_streams_roundtrip (new_MemoryOutputStream 64) (str "key") iv
              [str "hello "; str "world"] [16] Ho Hiv Hf Hn) as (s & s1 & s2 & E & E1 & E2 & W & _).
  exists s, s1, s2. split; [exact E|]. split; [exact E1|]. split; [exact E2|].
  rewrite W. vm_compute. reflexivity.
Defined.
