(* ===== verification/Lzma.v ===== *)
(** * LZMAUtils.cpp, LZMAInputStream.cpp

    The LZMA2 encoder and decoder are not modelled: the class [LZMA] is the part
    of their interface that the code calls, and [LZMASpec] what it relies on.
    [Plain] is a concrete instance of both, which stores the data.  The encoder
    calls back: the interfaces of its C header are classes here, and the adapters
    of LZMAUtils.cpp their instances. *)
From S2P Require Import Prelude Streams MemoryStreams.
From Stdlib Require Import ZArith Lia.

Inductive ELzmaStatus :=
  | LZMA_STATUS_NOT_SPECIFIED
  | LZMA_STATUS_FINISHED_WITH_MARK
  | LZMA_STATUS_NOT_FINISHED
  | LZMA_STATUS_NEEDS_MORE_INPUT
  | LZMA_STATUS_MAYBE_FINISHED_WITHOUT_MARK.

(** Result codes; the code only asks whether one is [SZ_OK]. *)
Inductive SRes := SZ_OK | SZ_ERROR (code : Z).
#[export] Instance SRes_eq_dec : EqDecision SRes.
Proof. solve_decision. Defined.

(** The callbacks of 7zTypes.h: [Read] fills a buffer of the size it is given,
    [Write] returns the number of bytes it took; an exception of the C++ code in
    them passes through the encoder.  [sremaining] is not in the code: it bounds
    the number of reads. *)
Class ISeqInStream (I : Type) := {
  Read : I -> Z -> result (SRes * bytes * I);
  sremaining : I -> nat
}.
Class ISeqOutStream (O : Type) := { Write : O -> bytes -> result (Z * O) }.
Definition ICompressProgress : Type := Z -> Z -> result SRes.

(** What the encoder relies on when it reads. *)
Class ISeqInStreamSpec (I : Type) `{ISeqInStream I} := {
  svalid : I -> Prop;
  scontents : I -> bytes;
  Read_spec i n : svalid i -> 0 <= n < 2 ^ 63 ->
    exists i', Read i n = Ret (SZ_OK, ztake n (scontents i), i') /\ svalid i' /\ scontents i' = zdrop n (scontents i);
  sremaining_spec i : svalid i -> zlen (scontents i) <= Z.of_nat (sremaining i)
}.

(** Writing pieces; the encoder fails when one is not taken whole. *)
Fixpoint write_pieces {O} `{ISeqOutStream O} (o : O) (l : list bytes) : result (SRes * O) :=
  match l with
  | [] => Ret (SZ_OK, o)
  | b :: l =>
      '(n, o) ← Write o b;
      if n =? zlen b then write_pieces o l else Ret (SZ_ERROR 9, o)
  end.

(** [None] is a result code other than [SZ_OK]. *)
Class LZMA := {
  Lzma2Dec : Type;
  Lzma2Enc_SetProps : option byte;        (* level 9, end mark; then Lzma2Enc_WriteProperties *)
  Lzma2Enc_Encode : forall {I O} {HI : ISeqInStream I} {HO : ISeqOutStream O},
    O -> I -> ICompressProgress -> result (SRes * O * I);
  Lzma2Dec_Allocate : byte -> option Lzma2Dec;
  (* decoder, size of the output buffer, input: output, input consumed, status *)
  Lzma2Dec_DecodeToBuf : Lzma2Dec -> Z -> bytes -> option (bytes * Z * ELzmaStatus * Lzma2Dec)
}.

(** The statuses after which [LZMAInputStream::read] returns. *)
Definition finished (st : ELzmaStatus) : bool :=
  match st with
  | LZMA_STATUS_FINISHED_WITH_MARK | LZMA_STATUS_MAYBE_FINISHED_WITHOUT_MARK => true
  | _ => false
  end.

Class LZMASpec `{LZMA} := {
  lzma_encode : bytes -> bytes;
  (** what the decoder still delivers for the rest of an encoded stream *)
  dec_pending : Lzma2Dec -> bytes -> option bytes;
  setprops_ok : is_Some Lzma2Enc_SetProps;
  (** the encoder reads its input to the end, and writes the encoded stream in pieces *)
  encode_chunks {I O} `{ISeqInStreamSpec I} `{ISeqOutStream O} (i : I) (o : O) progress :
    svalid i -> (forall a b, progress a b = Ret SZ_OK) ->
    exists chunks i', concat chunks = lzma_encode (scontents i) /\ svalid i' /\
      Lzma2Enc_Encode o i progress = ('(st, o) ← write_pieces o chunks; Ret (st, o, i'));
  allocate_spec prop : Lzma2Enc_SetProps = Some prop ->
    exists d, Lzma2Dec_Allocate prop = Some d /\ forall m, dec_pending d (lzma_encode m) = Some m;
  (** a call makes progress, delivers a prefix of what is pending, and reports
      the end of the stream only there *)
  decode_spec d n c rest o : 0 < n -> c <> [] -> dec_pending d (c ++ rest) = Some o ->
    exists out k st d' o', Lzma2Dec_DecodeToBuf d n c = Some (out, k, st, d') /\
      zlen out <= n /\ 0 <= k <= zlen c /\ o = out ++ o' /\
      dec_pending d' (zdrop k c ++ rest) = Some o' /\
      (finished st = true -> o' = []) /\ (out = [] -> k = 0 -> finished st = true);
  (** the end mark is the last thing to be read *)
  dec_end d o : dec_pending d [] = Some o -> o = []
}.

(** ** Code *)

(** *** The adapters *)

Record LzmaOutputStream (Out : Type) := { loStream : Out }.
Arguments Build_LzmaOutputStream {Out} _.
Arguments loStream {Out} _.

(** [LzmaOutputStream::write] *)
Definition lzmaWrite {Out} `{OutputStream Out} (s : LzmaOutputStream Out) (buf : bytes)
  : result (Z * LzmaOutputStream Out) :=
  o ← write (loStream s) buf;
  Ret (zlen buf, Build_LzmaOutputStream o).

#[export] Instance LzmaOutputStream_seq {Out} `{OutputStream Out} : ISeqOutStream (LzmaOutputStream Out) :=
  {| Write := lzmaWrite |}.

Record LzmaInputStream (In : Type) := { liStream : In }.
Arguments Build_LzmaInputStream {In} _.
Arguments liStream {In} _.

(** [LzmaInputStream::read] *)
Definition lzmaRead {In} `{InputStream In} (s : LzmaInputStream In) (size : Z) : result (SRes * bytes * LzmaInputStream In) :=
  '(buf, i) ← read (liStream s) size;
  Ret (SZ_OK, buf, Build_LzmaInputStream i).

#[export] Instance LzmaInputStream_seq {In} `{InputStream In} : ISeqInStream (LzmaInputStream In) :=
  {| Read := lzmaRead; sremaining s := remaining (liStream s) |}.

(** [LZMAProgress::progress]; an empty std::function is [None]. *)
Definition lzmaProgress (mProgress : option (Z -> Z -> result unit)) : ICompressProgress := fun inSize outSize =>
  match mProgress with
  | Some progress => _ ← progress inSize outSize; Ret SZ_OK
  | None => Ret SZ_OK
  end.

Section Code.
Context `{LZMA}.

(** [LZMAUtils::compress] *)
Definition compress {In Out} `{InputStream In} `{OutputStream Out} (inStream : In) (outStream : Out)
    (progress : option (Z -> Z -> result unit)) : result (In * Out) :=
  prop ← or_throw Lzma2Enc_SetProps LZMAException;
  outStream ← write outStream [prop];
  '(res, out, i) ← Lzma2Enc_Encode (Build_LzmaOutputStream outStream) (Build_LzmaInputStream inStream) (lzmaProgress progress);
  if bool_decide (res = SZ_OK) then Ret (liStream i, loStream out) else Throw LZMAException.

Context {In} `{InputStream In}.

Definition INPUT_BUFFER_SIZE := 16384.

(** [lNext] is [mBufferPtr, mBufferPtr + mBytesInBuffer).  [lBound] is not in
    the code: it bounds what the stream can still deliver. *)
Record LZMAInputStream := { lStream : In; mDec : Lzma2Dec; lNext : bytes; lBound : nat }.

Definition new_LZMAInputStream (bound : nat) (stream : In) : result LZMAInputStream :=
  '(b, stream) ← read stream 1;
  match b with
  | [prop] =>
      dec ← or_throw (Lzma2Dec_Allocate prop) LZMAException;
      Ret {| lStream := stream; mDec := dec; lNext := []; lBound := bound |}
  | _ => Throw LZMAException
  end.

(** [if(mBytesInBuffer == 0) { ... }] *)
Definition refill (s : LZMAInputStream) : result LZMAInputStream :=
  if zlen (lNext s) =? 0 then
    '(b, stream) ← read (lStream s) INPUT_BUFFER_SIZE;
    Ret {| lStream := stream; mDec := mDec s; lNext := b; lBound := lBound s |}
  else Ret s.

(** [while(bytesDecoded < size)], with the bytes decoded so far. *)
Fixpoint lzma_loop (fuel : nat) (s : LZMAInputStream) (size : Z) (out : bytes)
  : result (bytes * LZMAInputStream) :=
  if zlen out <? size then
    s ← refill s;
    if zlen (lNext s) =? 0 then Ret (out, s)
    else
      match fuel with
      | O => NoFuel
      | S fuel =>
          '(b, inSize, status, dec) ←
            or_throw (Lzma2Dec_DecodeToBuf (mDec s) (size - zlen out) (lNext s)) LZMAException;
          let s := {| lStream := lStream s; mDec := dec; lNext := zdrop inSize (lNext s);
                      lBound := lBound s |} in
          if finished status then Ret (out ++ b, s) else lzma_loop fuel s size (out ++ b)
      end
  else Ret (out, s).

Definition lis_read (s : LZMAInputStream) (size : Z) : result (bytes * LZMAInputStream) :=
  lzma_loop (lBound s + length (lNext s) + remaining (lStream s)) s size [].

#[global] Instance LZMAInputStream_stream : InputStream LZMAInputStream := {|
  read := lis_read;
  skip := default_skip lis_read lBound;
  canRewind := default_canRewind;
  rewind := default_rewind;
  size := default_size;
  remaining := lBound
|}.
End Code.
Arguments LZMAInputStream {_} In.

(** ** A concrete library *)

Module Plain.
(** Copies in pieces, and reports the progress after each. *)
Fixpoint encode {I O} `{ISeqInStream I} `{ISeqOutStream O} (fuel : nat) (o : O) (i : I) (progress : ICompressProgress)
  : result (SRes * O * I) :=
  '(st, b, i) ← Read i 8192;
  match st with
  | SZ_OK =>
      if zlen b =? 0 then Ret (SZ_OK, o, i)
      else
        match fuel with
        | O => NoFuel
        | S fuel =>
            '(n, o) ← Write o b;
            if n =? zlen b then
              st ← progress (zlen b) n;
              match st with SZ_OK => encode fuel o i progress | e => Ret (e, o, i) end
            else Ret (SZ_ERROR 9, o, i)
        end
  | e => Ret (e, o, i)
  end.

Lemma encode_spec {I O} `{ISeqInStreamSpec I} `{ISeqOutStream O} progress (Hp : forall a b, progress a b = Ret SZ_OK) fuel :
  forall (i : I) (o : O), svalid i -> zlen (scontents i) <= Z.of_nat fuel ->
  exists chunks i', concat chunks = scontents i /\ svalid i' /\
    encode fuel o i progress = ('(st, o) ← write_pieces o chunks; Ret (st, o, i')).
Proof.
  induction fuel as [|fuel IH]; intros i o Hv Hf; cbn [encode];
    destruct (Read_spec i 8192 Hv ltac:(lia)) as (i1 & -> & V1 & C1); rewrite bind_of_Ret;
    pose proof (zlen_nonneg (scontents i)); rewrite zlen_ztake by lia;
    (destruct (Z.eqb_spec (Z.min 8192 (zlen (scontents i))) 0) as [Hz|Hz];
      [assert (scontents i = []) as -> by (apply zlen_nil_inv; lia); by exists [], i1|]); [lia|].
  destruct (Write o (ztake 8192 (scontents i))) as [[n o1]| e | |] eqn:E;
    try (destruct (IH i1 o) as (chunks & i' & Hc & V & _); [done|rewrite C1, zlen_zdrop by lia; lia|];
      exists (ztake 8192 (scontents i) :: chunks), i'; cbn [concat write_pieces]; rewrite Hc, C1, ztake_zdrop, E; done).
  destruct (IH i1 o1) as (chunks & i' & Hc & V & E'); [done|rewrite C1, zlen_zdrop by lia; lia|].
  rewrite bind_of_Ret. destruct (Z.eqb_spec n (Z.min 8192 (zlen (scontents i)))) as [Hn|Hn].
  - exists (ztake 8192 (scontents i) :: chunks), i'. cbn [concat write_pieces]. rewrite Hc, C1, ztake_zdrop, E, bind_of_Ret.
    split; [done|]. split; [done|]. rewrite zlen_ztake, Hn, Z.eqb_refl, Hp, bind_of_Ret by lia. exact E'.
  - exists (ztake 8192 (scontents i) :: [zdrop 8192 (scontents i)]), i1. cbn [concat write_pieces].
    rewrite app_nil_r, ztake_zdrop, E, bind_of_Ret, zlen_ztake by lia. split; [done|]. split; [done|].
    destruct (Z.eqb_spec n (Z.min 8192 (zlen (scontents i)))); [done|]. by rewrite bind_of_Ret.
Qed.

#[global] Instance lzma : LZMA := {|
  Lzma2Dec := unit;
  Lzma2Enc_SetProps := Some Byte.x18;
  Lzma2Enc_Encode I O _ _ o i progress := encode (sremaining i) o i progress;
  Lzma2Dec_Allocate prop := Some tt;
  Lzma2Dec_DecodeToBuf d n c :=
    Some (ztake n c, zlen (ztake n c), LZMA_STATUS_NEEDS_MORE_INPUT, tt)
|}.

#[global] Program Instance spec : LZMASpec := {|
  lzma_encode m := m;
  dec_pending d m := Some m
|}.
Next Obligation. by eexists. Qed.
Next Obligation.
  intros I O HI HS HO i o progress Hv Hp. by apply (encode_spec progress Hp), sremaining_spec.
Qed.
Next Obligation. intros. by exists tt. Qed.
Next Obligation.
  intros d n c rest o Hn Hc [= <-]. pose proof (zlen_nonneg c).
  exists (ztake n c), (zlen (ztake n c)), LZMA_STATUS_NEEDS_MORE_INPUT, tt, (zdrop n c ++ rest).
  rewrite zlen_ztake by lia. split; [cbn; by rewrite zlen_ztake by lia|].
  assert (zdrop (Z.min n (zlen c)) c = zdrop n c) as ->.
  { destruct (Z.le_ge_cases n (zlen c)); [by rewrite Z.min_l|]. by rewrite !zdrop_ge by lia. }
  split_and!; try done; try lia. { by rewrite app_assoc, ztake_zdrop. }
  intros _ Hz. assert (zlen c = 0) as Hz' by lia. by apply zlen_nil_inv in Hz'.
Qed.
Next Obligation. naive_solver. Qed.
End Plain.

(** * Contracts *)

Section Spec.
Context `{LZMASpec} {In} `{InputStreamSpec In}.

Definition lzma_left (s : LZMAInputStream In) : option bytes :=
  dec_pending (mDec s) (lNext s ++ contents (lStream s)).

Definition lzma_contents (s : LZMAInputStream In) : bytes := default [] (lzma_left s).

(** The rest of the encoded stream decodes, to no more than [lBound] bytes. *)
Definition lzma_ok (s : LZMAInputStream In) : Prop :=
  valid (lStream s) /\ is_Some (lzma_left s) /\ zlen (lzma_contents s) <= Z.of_nat (lBound s).

Definition lzma_good (s : LZMAInputStream In) : Prop := valid (lStream s) /\ is_Some (lzma_left s).

(** Every turn of the loop consumes encoded bytes or delivers decoded ones. *)
Definition lzma_turns (s : LZMAInputStream In) : Z :=
  zlen (lzma_contents s) + zlen (lNext s) + zlen (contents (lStream s)).

(** Refilling an empty buffer changes nothing that is observable. *)
Lemma lzma_refill (s : LZMAInputStream In) o : valid (lStream s) -> lzma_left s = Some o ->
  exists s', refill s = Ret s' /\
    valid (lStream s') /\ lzma_left s' = Some o /\ lBound s' = lBound s /\
    zlen (lNext s') + zlen (contents (lStream s')) = zlen (lNext s) + zlen (contents (lStream s)) /\
    same_source whole (lStream s) (lStream s') /\
    (lNext s' = [] -> lNext s' ++ contents (lStream s') = []).
Proof.
  intros Hv Hl. unfold refill. destruct (Z.eqb_spec (zlen (lNext s)) 0) as [Hz|Hz].
  - apply zlen_nil_inv in Hz. unfold lzma_left in Hl. rewrite Hz in *.
    assert (0 <= INPUT_BUFFER_SIZE < 2 ^ 63) as Hr by done.
    use_read (lStream s) INPUT_BUFFER_SIZE. pose proof (zlen_nonneg (contents (lStream s))).
    eexists. split; [reflexivity|]. unfold lzma_left; cbn [lStream mDec lNext lBound].
    rewrite C, ztake_zdrop, <-zlen_app, ztake_zdrop. split_and!; try done.
    intros Hn. apply (f_equal zlen) in Hn. rewrite zlen_ztake in Hn by done. cbn in Hn.
    apply zlen_nil_inv. unfold INPUT_BUFFER_SIZE in *. lia.
  - exists s. split_and!; try done. intros Hn. by rewrite Hn in Hz.
Qed.

(** With nothing in the buffer after refilling it, the stream is at its end. *)
Lemma lzma_at_end (s s1 : LZMAInputStream In) o size out : valid (lStream s1) ->
  lzma_left s1 = Some o -> zlen (lNext s1) = 0 -> (lNext s1 = [] -> lNext s1 ++ contents (lStream s1) = []) ->
  lBound s1 = lBound s -> same_source whole (lStream s) (lStream s1) ->
  exists s', Ret (out, s1) = Ret (out ++ ztake (size - zlen out) o, s') /\
    lzma_good s' /\ lzma_contents s' = zdrop (size - zlen out) o /\
    same_source whole (lStream s) (lStream s') /\ lBound s' = lBound s.
Proof.
  intros V L Hz Hn B W. apply zlen_nil_inv in Hz. pose proof L as L'. unfold lzma_left in L'.
  rewrite (Hn Hz) in L'. apply dec_end in L' as ->. exists s1.
  rewrite ztake_nil, zdrop_nil, app_nil_r. unfold lzma_good, lzma_contents, is_Some. rewrite L. eauto 10.
Qed.

Lemma lzma_loop_spec fuel : forall (s : LZMAInputStream In) size out,
  lzma_good s -> lzma_turns s <= Z.of_nat fuel ->
  exists s', lzma_loop fuel s size out = Ret (out ++ ztake (size - zlen out) (lzma_contents s), s') /\
    lzma_good s' /\ lzma_contents s' = zdrop (size - zlen out) (lzma_contents s) /\
    same_source whole (lStream s) (lStream s') /\ lBound s' = lBound s.
Proof.
  induction fuel as [|fuel IH]; intros s size out (Hv & [o Hl]) Hf; cbn [lzma_loop];
    destruct (lzma_refill s o Hv Hl) as (s1 & Er & V1 & L1 & B1 & Z1 & W1 & N1);
    assert (lzma_contents s1 = o /\ lzma_contents s = o) as [Ec1 Ec]
      by (unfold lzma_contents; by rewrite L1, Hl);
    unfold lzma_turns in Hf; rewrite Ec in Hf |- *;
    (destruct (Z.ltb_spec (zlen out) size) as [Hlt|];
      [|exists s; rewrite ztake_nonpos, zdrop_nonpos, app_nil_r by lia; by unfold lzma_good, is_Some; rewrite Hl; split_and!; eauto]);
    rewrite Er; cbn [mbind result_bind];
    (destruct (Z.eqb_spec (zlen (lNext s1)) 0) as [Hz|Hz]; [by apply lzma_at_end|]).
  - pose proof (zlen_nonneg o). pose proof (zlen_nonneg (contents (lStream s1))).
    pose proof (zlen_nonneg (lNext s1)). lia.
  - assert (lNext s1 <> []) as Hne by (intros Hn; by rewrite Hn in Hz).
    destruct (decode_spec (mDec s1) (size - zlen out) (lNext s1) _ o ltac:(lia) Hne L1)
      as (b & k & st & d & o' & -> & Hb & Hk & -> & Hp & Hfin & Hprog).
    cbn [or_throw mbind result_bind].
    set (s2 := {| lStream := lStream s1; mDec := d; lNext := zdrop k (lNext s1); lBound := lBound s1 |}).
    assert (lzma_left s2 = Some o') as L2 by exact Hp.
    assert (lzma_contents s2 = o') as Ec2 by (unfold lzma_contents; by rewrite L2).
    rewrite ztake_app, zdrop_app, (ztake_ge _ b), (zdrop_ge _ b), app_assoc by lia. cbn [app].
    destruct (finished st).
    + rewrite Hfin in * by done. exists s2. rewrite ztake_nil, zdrop_nil, app_nil_r.
      unfold lzma_good, is_Some. rewrite L2. split_and!; eauto.
    + pose proof (zlen_nonneg b). pose proof (zlen_nonneg (lNext s1)).
      assert (0 < zlen b + k) as Hpos.
      { destruct (Z.eq_dec (zlen b) 0) as [Eb|]; [|lia]. apply zlen_nil_inv in Eb.
        destruct (Z.eq_dec k 0) as [Ek|]; [|lia]. by discriminate (Hprog Eb Ek). }
      destruct (IH s2 size (out ++ b)) as (s' & E & G & C & W & B).
      * split; [done|by eexists].
      * unfold lzma_turns. rewrite Ec2. rewrite zlen_app in Hf. unfold s2; cbn [lNext lStream].
        rewrite zlen_zdrop by lia. lia.
      * exists s'. rewrite Ec2, zlen_app in E, C. rewrite E, Z.sub_add_distr in *.
        split; [done|]. split; [done|]. split; [done|]. split; [eauto with nebula|].
        rewrite B. exact B1.
Qed.

Lemma lis_read_spec (s : LZMAInputStream In) n : lzma_ok s -> 0 <= n < 2 ^ 63 ->
  exists s', lis_read s n = Ret (ztake n (lzma_contents s), s') /\ lzma_ok s' /\
    lzma_contents s' = zdrop n (lzma_contents s) /\ same_source (fun s => whole (lStream s)) s s'.
Proof.
  intros (Hv & Hl & Hb) Hn. unfold lis_read.
  destruct (lzma_loop_spec (lBound s + length (lNext s) + remaining (lStream s)) s n [])
    as (s' & E & (V & L) & C & W & B).
  - done.
  - unfold lzma_turns. pose proof (remaining_spec (lStream s) Hv). rewrite (zlen_length (lNext s)). lia.
  - cbn [zlen app] in E, C. rewrite Z.sub_0_r in E, C. exists s'. split; [exact E|]. split.
    + split_and!; try done. rewrite C, B, zlen_zdrop by lia. pose proof (zlen_nonneg (lzma_contents s)). lia.
    + split; [done|]. split; [apply W|done].
Qed.

(** The stream cannot be rewound, so [whole] only has to be constant. *)
#[global] Program Instance LZMAInputStream_spec : InputStreamSpec (LZMAInputStream In) := {|
  valid := lzma_ok;
  contents := lzma_contents;
  whole s := whole (lStream s)
|}.
Next Obligation. intros s n Hv Hn. by apply lis_read_spec. Qed.
Next Obligation.
  intros s n Hv Hn. cbn [skip LZMAInputStream_stream].
  eapply (default_skip_spec lis_read lBound lzma_ok lzma_contents); eauto using lis_read_spec with nebula.
  intros s' (? & ? & ?). done.
Qed.
Next Obligation. done. Qed.
Next Obligation. intros s Hv. by right. Qed.
Next Obligation. intros s (? & ? & ?). done. Qed.

(** The bytes that [compress] produces for the message [m]. *)
Definition compressed (m : bytes) : bytes := default Byte.x00 Lzma2Enc_SetProps :: lzma_encode m.

Lemma new_lzma_spec bound (i : In) m : valid i -> contents i = compressed m ->
  zlen m <= Z.of_nat bound ->
  exists s, new_LZMAInputStream bound i = Ret s /\ valid s /\ contents s = m.
Proof.
  intros Hv Hc Hb. unfold new_LZMAInputStream. use_read i 1.
  destruct setprops_ok as [prop Hp]. unfold compressed in Hc. rewrite Hp in Hc. cbn [default] in Hc.
  assert (ztake 1 (contents i) = [prop]) as -> by (rewrite Hc; by destruct (lzma_encode m)).
  destruct (allocate_spec prop Hp) as (d & -> & Hd). cbn [or_throw mbind result_bind].
  eexists. split; [reflexivity|]. cbn [valid contents LZMAInputStream_spec].
  assert (contents s = lzma_encode m) as Hs.
  { rewrite C, Hc. cbn. apply zdrop_nonpos. lia. }
  unfold lzma_ok, lzma_contents, lzma_left; cbn. rewrite Hs, Hd. done.
Qed.
End Spec.

(** The adapters keep the contracts of the callbacks. *)
#[export] Program Instance LzmaInputStream_spec {In} `{InputStreamSpec In} : ISeqInStreamSpec (LzmaInputStream In) := {|
  svalid s := valid (liStream s);
  scontents s := contents (liStream s)
|}.
Next Obligation.
  intros In HI HS s n Hv Hn. destruct (read_spec (liStream s) n Hv Hn) as (i' & E & V & C & _).
  exists (Build_LzmaInputStream i'). cbn [Read LzmaInputStream_seq]. unfold lzmaRead. by rewrite E.
Qed.
Next Obligation. intros In HI HS s Hv. by apply remaining_spec. Qed.

Lemma write_pieces_all {Out} `{OutputStream Out} l : forall o : Out,
  write_pieces (Build_LzmaOutputStream o) l = (o ← write_all o l; Ret (SZ_OK, Build_LzmaOutputStream o)).
Proof.
  induction l as [|b l IH]; intros o; [done|]. cbn [write_pieces write_all Write LzmaOutputStream_seq]. unfold lzmaWrite.
  cbn [loStream]. destruct (write o b) as [o1| | |]; [|done..]. rewrite !bind_of_Ret, Z.eqb_refl. apply IH.
Qed.

Lemma lzmaProgress_ok progress : (forall f, progress = Some f -> forall a b, f a b = Ret tt) ->
  forall a b, lzmaProgress progress a b = Ret SZ_OK.
Proof. intros Hp a b. unfold lzmaProgress. destruct progress as [f|]; [|done]. by rewrite (Hp f eq_refl). Qed.

(** [compress] writes the compressed message, in pieces. *)
Lemma compress_chunks `{LZMASpec} {In Out} `{InputStreamSpec In} `{OutputStream Out} (i : In) (o : Out) progress :
  valid i -> (forall f, progress = Some f -> forall a b, f a b = Ret tt) ->
  exists chunks i', concat chunks = compressed (contents i) /\ valid i' /\
    compress i o progress = (o ← write_all o chunks; Ret (i', o)).
Proof.
  intros Hv Hf. pose proof (lzmaProgress_ok progress Hf) as Hp. unfold compress, compressed. destruct setprops_ok as [prop ->]. cbn [or_throw].
  rewrite bind_of_Ret.
  assert (forall o1 : Out, exists chunks i', concat chunks = lzma_encode (contents i) /\ valid i' /\
    Lzma2Enc_Encode (Build_LzmaOutputStream o1) (Build_LzmaInputStream i) (lzmaProgress progress) =
      (o ← write_all o1 chunks; Ret (SZ_OK, Build_LzmaOutputStream o, Build_LzmaInputStream i'))) as Henc.
  { intros o1. assert (svalid (Build_LzmaInputStream i)) as Hs by exact Hv.
    destruct (encode_chunks (Build_LzmaInputStream i) (Build_LzmaOutputStream o1) _ Hs Hp)
      as (chunks & [i'] & Hc & Hv' & E). exists chunks, i'. split; [exact Hc|]. split; [exact Hv'|].
    rewrite E, write_pieces_all, bind_assoc. by destruct (write_all o1 chunks). }
  destruct (write o [prop]) as [o1| | |] eqn:E.
  - destruct (Henc o1) as (chunks & i' & Hc & Hv' & E').
    exists ([prop] :: chunks), i'. split; [cbn; by rewrite Hc|]. split; [done|].
    rewrite bind_of_Ret, E'. cbn [write_all]. rewrite E, bind_of_Ret, bind_assoc.
    by destruct (write_all o1 chunks).
  - destruct (Henc o) as (chunks & i' & Hc & Hv' & _).
    exists ([prop] :: chunks), i'. split; [cbn; by rewrite Hc|]. cbn [write_all]. by rewrite E.
  - destruct (Henc o) as (chunks & i' & Hc & Hv' & _).
    exists ([prop] :: chunks), i'. split; [cbn; by rewrite Hc|]. cbn [write_all]. by rewrite E.
  - destruct (Henc o) as (chunks & i' & Hc & Hv' & _).
    exists ([prop] :: chunks), i'. split; [cbn; by rewrite Hc|]. cbn [write_all]. by rewrite E.
Qed.

(** ** Properties of the component *)

(** What [LZMAUtils::compress] writes is read back by an [LZMAInputStream]:
    for any message and any sequence of reads the reader returns, and the
    slices are those of the message, however the encoder and the decoder cut
    their buffers. *)
Theorem lzma_roundtrip `{LZMASpec} {In Out In'} `{InputStreamSpec In} `{OutputStreamSpec Out}
    `{InputStreamSpec In'} (i : In) (o : Out) (r : In') progress bound ns
    (Hp : forall f, progress = Some f -> forall a b, f a b = Ret tt)
    (Hi : valid i) (Ho : ovalid o) (Hf : fits o (zlen (compressed (contents i))))
    (Hr : valid r) (Hc : contents r = compressed (contents i))
    (Hb : zlen (contents i) <= Z.of_nat bound) (Hn : Forall (fun n => 0 <= n < 2 ^ 63) ns) :
  (exists i' o', compress i o progress = Ret (i', o') /\ written o' = written o ++ compressed (contents i)) /\
  exists d d', new_LZMAInputStream bound r = Ret d /\
    read_many d ns = Ret (slices (contents i) ns, d').
Proof.
  split.
  - destruct (compress_chunks i o progress Hi Hp) as (chunks & i' & Ec & _ & E). rewrite <-Ec in *.
    destruct (write_all_spec chunks o 0) as (o' & Eo & _ & W & _); [done|done|by rewrite Z.add_0_r|].
    exists i', o'. by rewrite E, Eo.
  - destruct (new_lzma_spec bound r (contents i) Hr Hc Hb) as (d & Ed & Vd & Cd).
    destruct (read_many_spec ns Hn d Vd) as (d' & Er & _). rewrite Cd in Er. eauto.
Qed.

Lemma lzma_roundtrip_witness :
  exists d d', new_LZMAInputStream 3 (new_MemoryInputStream (Byte.x18 :: str "abc")) = Ret d /\
    read_many d [2; 2] = Ret ([str "ab"; str "c"], d').
Proof.
  destruct (new_MemoryInputStream_valid (str "abc")) as (V & C & _).
  destruct (new_MemoryInputStream_valid (Byte.x18 :: str "abc")) as (V' & C' & _).
  assert (ovalid (new_MemoryOutputStream 9)) as Ho by (cbn; lia).
  assert (Forall (fun n => 0 <= n < 2 ^ 63) [2; 2]) as Hn by (repeat constructor; lia).
  assert (fits (new_MemoryOutputStream 9) (zlen (compressed (contents (new_MemoryInputStream (str "abc"))))))
    as Hf by (vm_compute; discriminate).
  assert (contents (new_MemoryInputStream (Byte.x18 :: str "abc")) =
    compressed (contents (new_MemoryInputStream (str "abc")))) as Hc by reflexivity.
  assert (zlen (contents (new_MemoryInputStream (str "abc"))) <= Z.of_nat 3) as Hb by (vm_compute; discriminate).
  destruct (lzma_roundtrip (new_MemoryInputStream (str "abc")) (new_MemoryOutputStream 9)
              (new_MemoryInputStream (Byte.x18 :: str "abc")) None 3 [2; 2]
              ltac:(discriminate) V Ho Hf V' Hc Hb Hn) as [_ D].
  exact D.
Defined.
