(* ===== verification/StreamUtils.v ===== *)
(** * StreamUtils.cpp: objects as they are stored

    An object is HMAC (32 bytes), initialisation vector (16 bytes), ciphertext;
    the HMAC covers the two others.  The temporary file name and the
    initialisation vector, which the code draws at random, are arguments. *)
From S2P Require Import Prelude Crypto Streams MemoryStreams FileStreams CompositeStreams CryptoStreams Lzma.
From Stdlib Require Import ZArith Lia.

(** CompressionType.h *)
Inductive CompressionType := NoCompression | LZMA2.

(** The [uint8_t] of the enumeration. *)
Definition compression_code (c : CompressionType) : Z :=
  match c with NoCompression => 0 | LZMA2 => 1 end.
(** A [uint8_t] of a file, converted by [static_cast]. *)
Definition compression_of (z : Z) : option CompressionType :=
  if z =? 0 then Some NoCompression else if z =? 1 then Some LZMA2 else None.

Section Code.
Context `{EVP} `{LZMA}.

Section Hmac.
Context {In} `{InputStream In}.

(** [while((n = stream.read(buffer, sizeof(buffer))) > 0) HMAC_Update(...)] *)
Fixpoint hmac_loop (fuel : nat) (hctx : HmacCtx) (i : In)
  : result (HmacCtx * In) :=
  '(buffer, i) ← read i 8192;
  if 0 <? zlen buffer then
    match fuel with
    | O => NoFuel
    | S fuel =>
        hctx ← or_throw (HMAC_Update hctx buffer) EncryptionFailedException;
        hmac_loop fuel hctx i
    end
  else Ret (hctx, i).

(** The HMAC of the rest of a stream: [HMAC_Init], the loop and [HMAC_Final]. *)
Definition stream_hmac (macKey : bytes) (i : In) : result (bytes * In) :=
  hctx ← or_throw (HMAC_Init (ztake SHA256_DIGEST_LENGTH macKey)) EncryptionFailedException;
  '(hctx, i) ← hmac_loop (remaining i) hctx i;
  hmac ← or_throw (HMAC_Final hctx) EncryptionFailedException;
  Ret (hmac, i).
End Hmac.

(** [EncryptedHMACStream]: its members forward to the stream over the HMAC and
    the encrypted data. *)
Definition EncryptedHMACStream : Type :=
  MultiInputStream (MemoryInputStream + (MemoryInputStream + FileStream)).

Definition new_EncryptedHMACStream (hmac : bytes) (encStream : MemoryInputStream + FileStream)
  : EncryptedHMACStream :=
  new_MultiInputStream [inl (new_MemoryInputStream hmac); inr encStream].

(** The [switch(compressType)] of [compressEncryptHMAC]. *)
Definition copy_payload {In Out} `{InputStream In} `{OutputStream Out}
    (compressType : option CompressionType) (inStream : In) (encStream : Out) : result (In * Out) :=
  match compressType with
  | Some NoCompression => copyTo inStream encStream
  | Some LZMA2 => compress inStream encStream None
  | None => Throw InvalidArgumentException
  end.

(** [StreamUtils::compressEncryptHMAC]; [None] is an unknown compression type.
    The temporary stream, which the result keeps alive, is returned with it. *)
Definition compressEncryptHMAC {In} `{InputStream In} (compressType : option CompressionType)
    (encKey macKey : bytes) (inStream : In) (d : disk) (unique iv : bytes)
  : result (EncryptedHMACStream * TempFileStream * In) :=
  let tmpStream := new_TempFileStream d unique in
  encStream ← new_EncryptedOutputStream tmpStream encKey iv;
  '(inStream, encStream) ← copy_payload compressType inStream encStream;
  encStream ← close encStream;
  '(encryptedStream, tmpStream) ← inputStream (eStream encStream);
  encryptedStream ← or_undef encryptedStream;
  '(hmac, encryptedStream) ← stream_hmac macKey encryptedStream;
  encryptedStream ← rewind encryptedStream;
  Ret (new_EncryptedHMACStream hmac encryptedStream, tmpStream, inStream).

(** The [switch(compressType)] of [decompressDecryptHMAC]; [bound] bounds the
    decompressed size. *)
Definition decompress_payload {In Out} `{InputStream In} `{OutputStream Out} (bound : nat)
    (compressType : option CompressionType) (encKey : bytes) (inStream : In) : io Out In :=
  match compressType with
  | Some NoCompression =>
      decStream ← lift (new_DecryptedInputStream inStream encKey);
      decStream ← copy_into decStream;
      mret (dStream decStream)
  | Some LZMA2 =>
      decStream ← lift (new_DecryptedInputStream inStream encKey);
      lzStream ← lift (new_LZMAInputStream bound decStream);
      lzStream ← copy_into lzStream;
      mret (dStream (lStream lzStream))
  | None => throw InvalidArgumentException
  end.

(** [StreamUtils::decompressDecryptHMAC]; the output, which the caller keeps, is
    the state. *)
Definition decompress_into {In Out} `{InputStream In} `{OutputStream Out} (bound : nat)
    (compressType : option CompressionType) (encKey macKey : bytes) (inStream : In) : io Out In :=
  if negb (canRewind inStream) then throw InvalidArgumentException
  else
    '(hmac1, inStream) ← lift (readExpected inStream SHA256_DIGEST_LENGTH);
    '(hmac2, inStream) ← lift (stream_hmac macKey inStream);
    if negb (bool_decide (hmac1 = hmac2)) then throw VerificationFailedException
    else
      inStream ← lift (rewind inStream);
      '(_, inStream) ← lift (readExpected inStream SHA256_DIGEST_LENGTH);
      decompress_payload bound compressType encKey inStream.

(** The same where nothing looks at the output after an exception. *)
Definition decompressDecryptHMAC {In Out} `{InputStream In} `{OutputStream Out} (bound : nat)
    (compressType : option CompressionType) (encKey macKey : bytes) (inStream : In) (outStream : Out)
  : result (In * Out) :=
  returned (decompress_into bound compressType encKey macKey inStream outStream).
End Code.

(** * Specification *)

Section Spec.
Context `{EVPSpec} `{LZMASpec}.

(** What is encrypted for the contents [m]. *)
Definition payload (c : CompressionType) (m : bytes) : bytes :=
  match c with NoCompression => m | LZMA2 => compressed m end.

(** An object, from its encrypted part. *)
Definition sealed (macKey body : bytes) : bytes :=
  hmac (ztake SHA256_DIGEST_LENGTH macKey) body ++ body.

Definition object_body (c : CompressionType) (encKey iv m : bytes) : bytes :=
  iv ++ encrypt encKey iv (payload c m).

Definition object_bytes (c : CompressionType) (encKey macKey iv m : bytes) : bytes :=
  sealed macKey (object_body c encKey iv m).

Lemma hmac_loop_spec {In} `{InputStreamSpec In} fuel : forall (i : In) c,
  valid i -> zlen (contents i) <= Z.of_nat fuel ->
  exists c' i', hmac_loop fuel c i = Ret (c', i') /\ hmac_rest c' [] = hmac_rest c (contents i) /\
    valid i' /\ contents i' = [] /\ same_source whole i i'.
Proof.
  induction fuel as [|fuel IH]; intros i c Hv Hf; cbn [hmac_loop]; use_read i 8192;
    pose proof (zlen_nonneg (contents i)); rewrite zlen_ztake by lia;
    (destruct (Z.ltb_spec 0 (Z.min 8192 (zlen (contents i)))) as [Hp|Hz];
      [|assert (contents i = []) as Hnil by (apply zlen_nil_inv; lia); rewrite Hnil in *;
        exists c, s; eauto 8]).
  - lia.
  - destruct (hmac_update c (ztake 8192 (contents i))) as (c1 & -> & Hu). cbn [or_throw mbind result_bind].
    destruct (IH s c1 V) as (c' & i' & -> & Hr & V' & C' & W'); [rewrite C, zlen_zdrop by lia; lia|].
    exists c', i'. rewrite Hr, C, <-Hu, ztake_zdrop. eauto 8 with nebula.
Qed.

Lemma stream_hmac_spec {In} `{InputStreamSpec In} (i : In) macKey : valid i ->
  exists i', stream_hmac macKey i = Ret (hmac (ztake SHA256_DIGEST_LENGTH macKey) (contents i), i') /\
    valid i' /\ contents i' = [] /\ same_source whole i i'.
Proof.
  intros Hv. unfold stream_hmac. destruct (hmac_init (ztake SHA256_DIGEST_LENGTH macKey)) as (c & -> & Hc).
  cbn [or_throw mbind result_bind].
  destruct (hmac_loop_spec (remaining i) i c Hv) as (c' & i' & -> & Hr & R); [by apply remaining_spec|].
  cbn [mbind result_bind]. rewrite hmac_final, Hr, Hc. by exists i'.
Qed.

(** Either way of compressing hands the payload to the output, in pieces. *)
Lemma payload_chunks {In Out} `{InputStreamSpec In} `{OutputStream Out} (c : CompressionType) (i : In) (o : Out) :
  valid i -> exists chunks i', concat chunks = payload c (contents i) /\ valid i' /\
    copy_payload (Some c) i o = (o ← write_all o chunks; Ret (i', o)).
Proof.
  intros Hv. destruct c.
  - destruct (copyTo_chunks i o Hv) as (chunks & i' & ? & ? & _ & _ & ?). eauto.
  - by apply (compress_chunks i o None Hv).
Qed.
End Spec.

Section Contracts.
Context `{EVPSpec} `{LZMASpec}.

Lemma zlen_sealed macKey body : zlen (sealed macKey body) = SHA256_DIGEST_LENGTH + zlen body.
Proof. unfold sealed. by rewrite zlen_app, hmac_length. Qed.

Lemma sealed_parts macKey body :
  ztake SHA256_DIGEST_LENGTH (sealed macKey body) = hmac (ztake SHA256_DIGEST_LENGTH macKey) body /\
  zdrop SHA256_DIGEST_LENGTH (sealed macKey body) = body.
Proof. unfold sealed. by rewrite ztake_app_exact, zdrop_app_exact by (by rewrite hmac_length). Qed.

(** The stream that uploads an object delivers the object. *)
Lemma new_EncryptedHMACStream_spec (tag : bytes) (e : MemoryInputStream + FileStream) :
  valid e -> contents e = whole e -> canRewind e = true -> size e = Ret (zlen (whole e)) ->
  zlen tag + zlen (whole e) < 2 ^ 63 ->
  let s := new_EncryptedHMACStream tag e in
  valid s /\ contents s = tag ++ whole e /\ whole s = tag ++ whole e /\ canRewind s = true /\
  size s = Ret (zlen (tag ++ whole e)).
Proof.
  intros Hv Hc Hr Hs Hb s. destruct (new_MemoryInputStream_valid tag) as (Vt & Ct & Wt).
  set (l := [inl (new_MemoryInputStream tag); inr e] : list (MemoryInputStream + (MemoryInputStream + FileStream))).
  assert (concat_with whole l = tag ++ whole e) as Ew.
  { unfold concat_with, l. cbn [fmap list_fmap concat]. by rewrite app_nil_r. }
  assert (concat_with contents l = tag ++ whole e) as Ec.
  { unfold concat_with, l. cbn [fmap list_fmap concat]. rewrite app_nil_r.
    cbn [contents InputStreamSpec_sum] in *. by rewrite Hc, Ct. }
  assert (Forall valid l) as Vl by (apply Forall_cons; split; [exact Vt|apply Forall_singleton; exact Hv]).
  rewrite <-zlen_app, <-Ew in Hb.
  destruct (new_MultiInputStream_spec l Vl Hb) as (V & C & W).
  split_and!; [exact V|by rewrite <-Ec|by rewrite <-Ew| |].
  - cbn [canRewind MultiInputStream_stream]. unfold multi_canRewind. cbn [forallb mStreamList s new_EncryptedHMACStream new_MultiInputStream].
    cbn [canRewind InputStream_sum] in *. by rewrite Hr.
  - cbn [size MultiInputStream_stream s new_EncryptedHMACStream new_MultiInputStream mStreamList].
    rewrite <-Ew. apply (multi_size_known l Vl); [|lia|lia].
    apply Forall_cons; split; [done|apply Forall_singleton; exact Hs].
Qed.

Lemma compressEncryptHMAC_spec {In} `{InputStreamSpec In} c encKey macKey (i : In) d u iv :
  valid i -> u ∉ locked d -> zlen iv = EVP_MAX_IV_LENGTH ->
  zlen (object_bytes c encKey macKey iv (contents i)) < 2 ^ 63 ->
  exists s t i', compressEncryptHMAC (Some c) encKey macKey i d u iv = Ret (s, t, i') /\
    valid i' /\ valid s /\ contents s = object_bytes c encKey macKey iv (contents i) /\
    whole s = object_bytes c encKey macKey iv (contents i) /\ canRewind s = true /\
    size s = Ret (zlen (object_bytes c encKey macKey iv (contents i))).
Proof.
  intros Hv Hu Hiv Hb. unfold compressEncryptHMAC.
  unfold object_bytes in Hb. rewrite zlen_sealed in Hb. change SHA256_DIGEST_LENGTH with 32 in Hb.
  destruct (new_TempFileStream_ok d u Hu) as [Vt Wt]. change (ovalid (new_TempFileStream d u)) in Vt.
  destruct (new_encrypted_spec (new_TempFileStream d u) encKey iv (payload c (contents i)) Vt Hiv)
    as (e & -> & Ve & Te).
  { cbn [fits TempFileStream_spec]. cbn [written TempFileStream_spec] in Wt. rewrite Wt.
    unfold object_body in Hb. rewrite zlen_app in Hb. cbn. lia. }
  rewrite bind_of_Ret. destruct (payload_chunks c i e Hv) as (chunks & i' & Hc & Vi & ->).
  assert (payload c (contents i) = concat chunks ++ []) as Hp by (by rewrite app_nil_r).
  rewrite Hp in Ve, Te.
  destruct (eos_write_all_spec chunks e [] Ve) as (e1 & -> & V1 & T1). rewrite !bind_of_Ret.
  destruct (eos_close_spec e1 V1) as (e2 & -> & V2 & W2). rewrite bind_of_Ret.
  rewrite T1, Te, <-Hp, Wt in W2. cbn [app written TempFileStream_spec] in W2.
  destruct (inputStream_spec _ V2) as (r & t & -> & Vr & Cr & Wr & Rr & Sr).
  cbn [mbind result_bind or_undef].
  destruct (stream_hmac_spec r macKey Vr) as (r1 & -> & Vr1 & Cr1 & Sr1). cbn [mbind result_bind].
  destruct Sr1 as (W1 & R1 & S1).
  destruct (rewind_spec r1 Vr1) as (r2 & -> & Vr2 & Cr2 & (W2' & R2 & S2)); [congruence|].
  cbn [mbind result_bind]. rewrite W2 in *. fold (object_body c encKey iv (contents i)) in *.
  eexists _, t, i'. split; [reflexivity|]. split; [done|].
  assert (whole r2 = object_body c encKey iv (contents i)) as Wf by congruence.
  rewrite Cr.
  destruct (new_EncryptedHMACStream_spec (hmac (ztake SHA256_DIGEST_LENGTH macKey)
              (object_body c encKey iv (contents i))) r2) as (A1 & A2 & A3 & A4 & A5); try congruence.
  - rewrite hmac_length, Wf. change SHA256_DIGEST_LENGTH with 32. lia.
  - rewrite Wf in *. done.
Qed.

(** The checks before the decryption: they pass exactly on a sealed object, and
    leave the stream after the HMAC; until then nothing is written. *)
Lemma decompress_checked {In Out} `{InputStreamSpec In} `{OutputStream Out} bound c encKey macKey
    (i : In) (o : Out) : valid i -> canRewind i = true -> contents i = whole i ->
  (zlen (whole i) < SHA256_DIGEST_LENGTH ->
    decompress_into bound c encKey macKey i o = (Throw ShortReadException, o)) /\
  (SHA256_DIGEST_LENGTH <= zlen (whole i) -> whole i <> sealed macKey (zdrop SHA256_DIGEST_LENGTH (whole i)) ->
    decompress_into bound c encKey macKey i o = (Throw VerificationFailedException, o)) /\
  (forall body, whole i = sealed macKey body -> exists i', valid i' /\ contents i' = body /\
    same_source whole i i' /\
    decompress_into bound c encKey macKey i o = decompress_payload bound c encKey i' o).
Proof.
  intros Hv Hr Hc. unfold decompress_into. rewrite Hr. cbn [negb].
  assert (0 <= SHA256_DIGEST_LENGTH < 2 ^ 63) as Hs by done. split_and!.
  - intros Hl. rewrite readExpected_short; [done..|]. rewrite Hc. lia.
  - intros Hl Hne. destruct (readExpected_spec i SHA256_DIGEST_LENGTH Hv Hs) as (i1 & -> & V1 & C1 & W1);
      [by rewrite Hc|]. rewrite io_bind_lift.
    destruct (stream_hmac_spec i1 macKey V1) as (i2 & -> & _). rewrite io_bind_lift.
    rewrite bool_decide_eq_false_2; [done|]. intros E. apply Hne. unfold sealed.
    rewrite <-Hc, <-C1, <-E, C1. by rewrite ztake_zdrop.
  - intros body Hb. destruct (sealed_parts macKey body) as [E1 E2]. rewrite <-Hb, <-Hc in E1, E2.
    assert (SHA256_DIGEST_LENGTH <= zlen (whole i)) as Hle.
    { rewrite Hb, zlen_sealed. pose proof (zlen_nonneg body). lia. }
    destruct (readExpected_spec i SHA256_DIGEST_LENGTH Hv Hs) as (i1 & -> & V1 & C1 & W1);
      [by rewrite Hc|]. rewrite io_bind_lift, E2 in *.
    destruct (stream_hmac_spec i1 macKey V1) as (i2 & -> & V2 & C2 & W2). rewrite io_bind_lift.
    rewrite E1, C1, bool_decide_eq_true_2 by done. cbn [negb].
    destruct (same_source_trans _ _ _ _ W1 W2) as (W12 & R12 & S12).
    destruct (rewind_spec i2 V2) as (i3 & -> & V3 & C3 & W3); [congruence|]. rewrite io_bind_lift.
    destruct (readExpected_spec i3 SHA256_DIGEST_LENGTH V3 Hs) as (i4 & -> & V4 & C4 & W4).
    { rewrite C3, W12. done. }
    rewrite io_bind_lift. exists i4. split; [done|]. split; [|split; [|done]].
    + by rewrite C4, C3, W12, <-Hc.
    + eapply same_source_trans; [|exact W4]. eapply same_source_trans; [|exact W3]. done.
Qed.

(** Opening an object gives back what was sealed in it. *)
Lemma decompress_into_spec {In Out} `{InputStreamSpec In} `{OutputStreamSpec Out}
    bound c encKey macKey iv m extra (i : In) (o : Out) :
  valid i -> canRewind i = true -> contents i = whole i ->
  whole i = object_bytes c encKey macKey iv m -> zlen iv = EVP_MAX_IV_LENGTH ->
  zlen m <= Z.of_nat bound -> ovalid o -> 0 <= extra -> fits o (zlen m + extra) ->
  exists i' o', decompress_into bound (Some c) encKey macKey i o = (Ret i', o') /\
    ovalid o' /\ written o' = written o ++ m /\ fits o' extra.
Proof.
  intros Hv Hr Hc Hw Hiv Hb Ho He Hf.
  destruct (decompress_checked bound (Some c) encKey macKey i o Hv Hr Hc) as (_ & _ & Hok).
  destruct (Hok (object_body c encKey iv m) Hw) as (i1 & V1 & C1 & W1 & ->). unfold decompress_payload.
  destruct (new_decrypted_spec i1 encKey iv _ (payload c m) V1 Hiv C1 (decrypt_encrypt _ _ _) (encrypt_grows _ _ _))
    as (dec & -> & Vd & Cd).
  destruct c; rewrite io_bind_lift; cbn [payload] in *.
  - destruct (copyTo_spec dec o extra Vd Ho He) as (d' & o' & E & _ & _ & _ & Vo & Wo & Fo); [by rewrite Cd|].
    apply returned_Ret in E. rewrite (io_bind_Ret _ _ _ _ _ E). eexists _, o'. rewrite Wo, Cd. done.
  - destruct (new_lzma_spec bound dec m Vd Cd Hb) as (lz & -> & Vl & Cl). rewrite io_bind_lift.
    destruct (copyTo_spec lz o extra Vl Ho He) as (l' & o' & E & _ & _ & _ & Vo & Wo & Fo); [by rewrite Cl|].
    apply returned_Ret in E. rewrite (io_bind_Ret _ _ _ _ _ E). eexists _, o'. rewrite Wo, Cl. done.
Qed.

Lemma decompressDecryptHMAC_spec {In Out} `{InputStreamSpec In} `{OutputStreamSpec Out}
    bound c encKey macKey iv m extra (i : In) (o : Out) :
  valid i -> canRewind i = true -> contents i = whole i ->
  whole i = object_bytes c encKey macKey iv m -> zlen iv = EVP_MAX_IV_LENGTH ->
  zlen m <= Z.of_nat bound -> ovalid o -> 0 <= extra -> fits o (zlen m + extra) ->
  exists i' o', decompressDecryptHMAC bound (Some c) encKey macKey i o = Ret (i', o') /\
    ovalid o' /\ written o' = written o ++ m /\ fits o' extra.
Proof.
  intros. destruct (decompress_into_spec bound c encKey macKey iv m extra i o) as (i' & o' & E & R); try done.
  exists i', o'. unfold decompressDecryptHMAC. by rewrite E.
Qed.
End Contracts.

(** ** Properties of the component *)

Section Properties.
Context `{EVPSpec} `{LZMASpec}.

(** C12: an object made by [compressEncryptHMAC], stored and read back through
    any rewindable stream, is opened by [decompressDecryptHMAC] with the same
    keys to exactly the bytes it was made from, for both compression types; the
    stream to store knows its size and can be rewound, so that it can be sent
    again. *)
Theorem object_roundtrip {In In' Out} `{InputStreamSpec In} `{InputStreamSpec In'} `{OutputStreamSpec Out}
    c encKey macKey (i : In) d u iv (o : Out) bound
    (Hi : valid i) (Hu : u ∉ locked d) (Hiv : zlen iv = EVP_MAX_IV_LENGTH)
    (Hlen : zlen (object_bytes c encKey macKey iv (contents i)) < 2 ^ 63)
    (Hbound : zlen (contents i) <= Z.of_nat bound) (Ho : ovalid o) (Hfit : fits o (zlen (contents i))) :
  exists s t i1, compressEncryptHMAC (Some c) encKey macKey i d u iv = Ret (s, t, i1) /\
    valid s /\ canRewind s = true /\ size s = Ret (zlen (contents s)) /\
    forall r : In', valid r -> canRewind r = true -> contents r = whole r -> whole r = contents s ->
      exists r' o', decompressDecryptHMAC bound (Some c) encKey macKey r o = Ret (r', o') /\
        written o' = written o ++ contents i.
Proof.
  destruct (compressEncryptHMAC_spec c encKey macKey i d u iv Hi Hu Hiv Hlen)
    as (s & t & i1 & E & V1 & Vs & Cs & Ws & Rs & Ss).
  exists s, t, i1. rewrite Cs. split_and!; try done. intros r Vr Rr Cr Wr.
  destruct (decompressDecryptHMAC_spec bound c encKey macKey iv (contents i) 0 r o) as (r' & o' & Er & _ & Wo & _);
    try done; [by rewrite Z.add_0_r|]. eauto.
Qed.

(** C11: authenticity comes first: on a rewindable stream, [decompressDecryptHMAC]
    throws [ShortReadException] on fewer than 32 bytes and
    [VerificationFailedException] when the first 32 bytes are not the HMAC of the
    others under the key, and in both cases the output is as it was; so it
    succeeds, or writes anything, only on authentic objects.  A stream that
    cannot be rewound is refused. *)
Theorem tampering_detected {In Out} `{InputStreamSpec In} `{OutputStream Out} bound c encKey macKey
    (i : In) (o : Out) (Hi : valid i) (Hc : contents i = whole i) :
  (canRewind i = false -> decompress_into bound c encKey macKey i o = (Throw InvalidArgumentException, o)) /\
  (canRewind i = true -> zlen (whole i) < 32 ->
     decompress_into bound c encKey macKey i o = (Throw ShortReadException, o)) /\
  (canRewind i = true -> 32 <= zlen (whole i) ->
     ztake 32 (whole i) <> hmac (ztake 32 macKey) (zdrop 32 (whole i)) ->
     decompress_into bound c encKey macKey i o = (Throw VerificationFailedException, o)) /\
  (forall r o', decompress_into bound c encKey macKey i o = (r, o') ->
     o' = o /\ (exists e, r = Throw e) \/ ztake 32 (whole i) = hmac (ztake 32 macKey) (zdrop 32 (whole i))).
Proof.
  destruct (canRewind i) eqn:Hr.
  2: { split_and!; try done; unfold decompress_into; rewrite Hr; [done|]. intros r o' E. injection E as <- <-. eauto. }
  destruct (decompress_checked bound c encKey macKey i o Hi Hr Hc) as (Hshort & Hbad & Hok).
  assert (ztake 32 (whole i) <> hmac (ztake 32 macKey) (zdrop 32 (whole i)) ->
          whole i <> sealed macKey (zdrop SHA256_DIGEST_LENGTH (whole i))) as Hne.
  { intros Hne E. apply Hne. rewrite E at 1. apply sealed_parts. }
  split_and!; try done; auto. intros r o' Er.
  destruct (Z.lt_ge_cases (zlen (whole i)) SHA256_DIGEST_LENGTH) as [Hl|Hl].
  - rewrite Hshort in Er by done. injection Er as <- <-. eauto.
  - destruct (decide (ztake 32 (whole i) = hmac (ztake 32 macKey) (zdrop 32 (whole i)))); [by right|].
    rewrite Hbad in Er; auto. injection Er as <- <-. eauto.
Qed.
End Properties.

Lemma object_roundtrip_witness :
  exists s t i1,
    compressEncryptHMAC (Some LZMA2) (str "key") (str "mac") (new_MemoryInputStream (str "hello"))
      witness_disk (str "tmp") (replicate 16 Byte.x01) = Ret (s, t, i1) /\
    exists r' o', decompressDecryptHMAC 5 (Some LZMA2) (str "key") (str "mac")
      (new_MemoryInputStream (contents s)) (new_MemoryOutputStream 5) = Ret (r', o') /\
      written o' = str "hello".
Proof.
  destruct (new_MemoryInputStream_valid (str "hello")) as (V & C & _).
  assert (str "tmp" ∉ locked witness_disk) as Hu by (vm_compute; intros X; inversion X).
  assert (zlen (replicate 16 Byte.x01) = EVP_MAX_IV_LENGTH) as Hiv by reflexivity.
  assert (zlen (object_bytes LZMA2 (str "key") (str "mac") (replicate 16 Byte.x01)
    (contents (new_MemoryInputStream (str "hello")))) < 2 ^ 63) as Hl by (vm_compute; reflexivity).
  assert (zlen (contents (new_MemoryInputStream (str "hello"))) <= Z.of_nat 5) as Hb by (vm_compute; discriminate).
  assert (ovalid (new_MemoryOutputStream 5)) as Ho by (cbn; lia).
  assert (fits (new_MemoryOutputStream 5) (zlen (contents (new_MemoryInputStream (str "hello"))))) as Hf
    by (vm_compute; discriminate).
  destruct (object_roundtrip (In' := MemoryInputStream) LZMA2 (str "key") (str "mac") (new_MemoryInputStream (str "hello"))
              witness_disk (str "tmp") (replicate 16 Byte.x01) (new_MemoryOutputStream 5) 5 V Hu Hiv Hl Hb Ho Hf)
    as (s & t & i1 & E & _ & _ & _ & R).
  destruct (new_MemoryInputStream_valid (contents s)) as (V' & C' & W').
  exists s, t, i1. split; [exact E|]. exact (R _ V' eq_refl C' W').
Defined.

Lemma tampering_detected_witness :
  decompress_into 5 (Some NoCompression) (str "key") (str "mac")
    (new_MemoryInputStream (replicate 40 Byte.x00)) (new_MemoryOutputStream 5) =
    (Throw VerificationFailedException, new_MemoryOutputStream 5).
Proof.
  destruct (new_MemoryInputStream_valid (replicate 40 Byte.x00)) as (V & C & W).
  destruct (tampering_detected 5 (Some NoCompression) (str "key") (str "mac")
    (new_MemoryInputStream (replicate 40 Byte.x00)) (new_MemoryOutputStream 5) V eq_refl) as (_ & _ & T & _).
  apply T; [reflexivity|vm_compute; discriminate|vm_compute; discriminate].
Defined.
