(* ===== verification/StdMap.v ===== *)
(** * std::map<std::string, T>

    The ordered map of the C++ library, as the list of its elements in the order
    of iteration; [sorted] is its representation invariant.  Strings are
    compared byte by byte, as [char_traits<char>] does. *)
From S2P Require Import Prelude.
From Stdlib Require Import ZArith Lia Sorting.Sorted.

Fixpoint bytes_cmp (a b : bytes) : comparison :=
  match a, b with
  | [], [] => Eq
  | [], _ :: _ => Lt
  | _ :: _, [] => Gt
  | x :: a, y :: b => match b2z x ?= b2z y with Eq => bytes_cmp a b | c => c end
  end.

Section Map.
Context {V : Type}.

Definition smap : Type := list (bytes * V).

(** [find] *)
Fixpoint map_find (k : bytes) (m : smap) : option V :=
  match m with
  | [] => None
  | (k', v) :: m => match bytes_cmp k k' with Eq => Some v | _ => map_find k m end
  end.

(** [m[k] = v] *)
Fixpoint map_assign (k : bytes) (v : V) (m : smap) : smap :=
  match m with
  | [] => [(k, v)]
  | (k', v') :: m' =>
      match bytes_cmp k k' with
      | Lt => (k, v) :: m
      | Eq => (k', v) :: m'
      | Gt => (k', v') :: map_assign k v m'
      end
  end.

(** [insert]: an element that is there is kept. *)
Definition map_insert_new (k : bytes) (v : V) (m : smap) : smap :=
  match map_find k m with
  | Some _ => m
  | None => map_assign k v m
  end.

(** [erase(find(k))] *)
Fixpoint map_erase (k : bytes) (m : smap) : smap :=
  match m with
  | [] => []
  | (k', v') :: m => match bytes_cmp k k' with Eq => m | _ => (k', v') :: map_erase k m end
  end.

(** The elements from [lower_bound(k)] on. *)
Fixpoint map_lower_bound (k : bytes) (m : smap) : smap :=
  match m with
  | [] => []
  | (k', v') :: m' => match bytes_cmp k' k with Lt => map_lower_bound k m' | _ => m end
  end.
End Map.
Arguments smap V : clear implicits.

(** ** The order *)

Definition bytes_lt (a b : bytes) : Prop := bytes_cmp a b = Lt.

Lemma bytes_cmp_refl a : bytes_cmp a a = Eq.
Proof. induction a as [|x a IH]; [done|]. simpl. by rewrite Z.compare_refl. Qed.

Lemma bytes_cmp_eq a : forall b, bytes_cmp a b = Eq <-> a = b.
Proof.
  induction a as [|x a IH]; intros [|y b]; simpl; try done.
  destruct (Z.compare_spec (b2z x) (b2z y)) as [E|E|E].
  - rewrite IH. apply b2z_inj in E as ->. split; [by intros ->|by intros [= ->]].
  - split; [done|]. intros [= -> ->]. lia.
  - split; [done|]. intros [= -> ->]. lia.
Qed.

Lemma bytes_cmp_antisym a : forall b, bytes_cmp b a = CompOpp (bytes_cmp a b).
Proof.
  induction a as [|x a IH]; intros [|y b]; simpl; try done.
  rewrite (Z.compare_antisym (b2z x) (b2z y)). destruct (b2z x ?= b2z y); simpl; auto.
Qed.

Lemma bytes_lt_trans a : forall b c, bytes_lt a b -> bytes_lt b c -> bytes_lt a c.
Proof.
  unfold bytes_lt. induction a as [|x a IH]; intros [|y b] [|z c]; simpl; try done.
  destruct (Z.compare_spec (b2z x) (b2z y)), (Z.compare_spec (b2z y) (b2z z)); try done.
  - intros. assert (b2z x = b2z z) as -> by congruence. rewrite Z.compare_refl. eauto.
  - intros. assert (b2z x < b2z z) as L by lia. apply Z.compare_lt_iff in L. by rewrite L.
  - intros. assert (b2z x < b2z z) as L by lia. apply Z.compare_lt_iff in L. by rewrite L.
  - intros. assert (b2z x < b2z z) as L by lia. apply Z.compare_lt_iff in L. by rewrite L.
Qed.

Lemma bytes_lt_irrefl a : ~ bytes_lt a a.
Proof. unfold bytes_lt. by rewrite bytes_cmp_refl. Qed.

Lemma bytes_cmp_gt a b : bytes_cmp a b = Gt <-> bytes_lt b a.
Proof. unfold bytes_lt. rewrite (bytes_cmp_antisym a b). by destruct (bytes_cmp a b). Qed.

(** Three cases for the comparison of two keys. *)
Ltac cmp_cases a b :=
  let E := fresh "E" in
  destruct (bytes_cmp a b) eqn:E;
  [apply bytes_cmp_eq in E; try subst| |apply bytes_cmp_gt in E].

(** ** The invariant *)

Definition key_lt {V} (a b : bytes * V) : Prop := bytes_lt a.1 b.1.
Definition sorted {V} (m : smap V) : Prop := StronglySorted key_lt m.

Section Spec.
Context {V : Type}.
Implicit Types (m : smap V) (k : bytes) (v : V).

Lemma sorted_cons k v m : sorted ((k, v) :: m) <-> sorted m /\ Forall (fun e => bytes_lt k e.1) m.
Proof.
  unfold sorted. split.
  - intros H. apply StronglySorted_inv in H as [H1 H2]. done.
  - intros [H1 H2]. by constructor.
Qed.

Lemma find_above k m : Forall (fun e => bytes_lt k e.1) m -> map_find k m = None.
Proof.
  induction 1 as [|[k' v'] m Hk Hm IH]; [done|]. simpl in *. unfold bytes_lt in Hk. by rewrite Hk.
Qed.

Lemma find_In m k v : sorted m -> map_find k m = Some v <-> (k, v) ∈ m.
Proof.
  induction m as [|[k' v'] m IH]; intros Hs; simpl.
  - split; [done|]. intros H; inversion H.
  - apply sorted_cons in Hs as [Hs Hf]. rewrite elem_of_cons, <-IH by done. cmp_cases k k'.
    + rewrite (find_above k' m Hf). split; [intros [= ->]; by left|]. intros [[= ->]|]; done.
    + split; [by right|]. intros [[= -> ->]|]; [|done]. by rewrite bytes_cmp_refl in E.
    + split; [by right|]. intros [[= -> ->]|]; [|done]. by apply bytes_lt_irrefl in E.
Qed.

Lemma assign_Forall (P : bytes * V -> Prop) k v m : P (k, v) ->
  (forall v', P (k, v') -> P (k, v)) -> Forall P m -> Forall P (map_assign k v m).
Proof.
  intros Hp He. induction 1 as [|[k' v'] m Hk Hm IH]; simpl; [by constructor|].
  cmp_cases k k'; repeat constructor; eauto.
Qed.

Lemma assign_sorted k v m : sorted m -> sorted (map_assign k v m).
Proof.
  induction m as [|[k' v'] m IH]; intros Hs; simpl; [by repeat constructor|].
  pose proof Hs as Hs'. apply sorted_cons in Hs as [Hs Hf]. cmp_cases k k'.
  - by apply sorted_cons.
  - apply sorted_cons. split; [done|]. constructor; [done|].
    eapply Forall_impl; [exact Hf|]. intros e He. by eapply bytes_lt_trans.
  - apply sorted_cons. split; [by apply IH|]. by apply assign_Forall.
Qed.

Lemma find_assign k k' v m : sorted m ->
  map_find k' (map_assign k v m) = if decide (k' = k) then Some v else map_find k' m.
Proof.
  induction m as [|[k1 v1] m IH]; intros Hs; simpl.
  - case_decide as D; [by rewrite D, bytes_cmp_refl|]. cmp_cases k' k; done.
  - apply sorted_cons in Hs as [Hs Hf]. cmp_cases k k1; simpl.
    + case_decide as D; [by rewrite D, bytes_cmp_refl|]. cmp_cases k' k1; done.
    + case_decide as D; [by rewrite D, bytes_cmp_refl|]. cmp_cases k' k; done.
    + rewrite IH by done. case_decide as D; [|done]. subst. apply bytes_cmp_gt in E. by rewrite E.
Qed.

(** A key above all others goes to the end. *)
Lemma assign_last k v m : Forall (fun e => bytes_lt e.1 k) m -> map_assign k v m = m ++ [(k, v)].
Proof.
  induction 1 as [|[k' v'] m Hk Hm IH]; [done|]. simpl in *. apply bytes_cmp_gt in Hk.
  by rewrite Hk, IH.
Qed.

Lemma sorted_app_last k v m1 m2 : sorted (m1 ++ (k, v) :: m2) -> Forall (fun e => bytes_lt e.1 k) m1.
Proof.
  induction m1 as [|[k' v'] m1 IH]; intros Hs; [constructor|].
  cbn in Hs. apply sorted_cons in Hs as [Hs Hf]. constructor; [|by apply IH].
  apply Forall_app in Hf as [_ Hf]. by apply Forall_cons in Hf as [Hf _].
Qed.

Lemma sorted_app_lt m1 m2 (a b : bytes * V) : sorted (m1 ++ m2) -> a ∈ m1 -> b ∈ m2 -> bytes_lt a.1 b.1.
Proof.
  induction m1 as [|[k v] m1 IH]; intros Hs Ha Hb; [by apply not_elem_of_nil in Ha|].
  cbn in Hs. apply sorted_cons in Hs as [Hs Hf]. apply elem_of_cons in Ha as [->|Ha]; [|by apply IH].
  rewrite Forall_forall in Hf. apply Hf, elem_of_app. by right.
Qed.

(** Assigning the elements of a map in their order rebuilds it. *)
Lemma assign_rebuild m2 : forall m1, sorted (m1 ++ m2) ->
  foldl (fun m e => map_assign e.1 e.2 m) m1 m2 = m1 ++ m2.
Proof.
  induction m2 as [|[k v] m2 IH]; intros m1 Hs; simpl; [by rewrite app_nil_r|].
  rewrite assign_last by (by eapply sorted_app_last).
  rewrite IH, <-app_assoc; [done|]. by rewrite <-app_assoc.
Qed.

Lemma insert_new_sorted k v m : sorted m -> sorted (map_insert_new k v m).
Proof. intros. unfold map_insert_new. destruct (map_find k m); [done|]. by apply assign_sorted. Qed.

Lemma find_insert_new k k' v m : sorted m ->
  map_find k' (map_insert_new k v m) =
    if decide (k' = k) then Some (default v (map_find k m)) else map_find k' m.
Proof.
  intros Hs. unfold map_insert_new. destruct (map_find k m) as [w|] eqn:E.
  - case_decide; [by subst|done].
  - by rewrite find_assign.
Qed.

Lemma insert_new_Forall (P : bytes * V -> Prop) k v m : P (k, v) -> Forall P m ->
  Forall P (map_insert_new k v m).
Proof. intros. unfold map_insert_new. destruct (map_find k m); [done|]. by apply assign_Forall. Qed.

Lemma zlen_assign k v m : zlen (map_assign k v m) <= zlen m + 1.
Proof.
  induction m as [|[k' v'] m IH]; [cbn; lia|]. cbn [map_assign].
  destruct (bytes_cmp k k'); rewrite ?zlen_cons in *; lia.
Qed.

Lemma zlen_insert_new k v m : zlen (map_insert_new k v m) <= zlen m + 1.
Proof. unfold map_insert_new. destruct (map_find k m); [lia|apply zlen_assign]. Qed.

Lemma zlen_erase k m : zlen (map_erase k m) <= zlen m.
Proof.
  induction m as [|[k' v'] m IH]; [done|]. cbn [map_erase].
  destruct (bytes_cmp k k'); rewrite ?zlen_cons in *; lia.
Qed.

Lemma erase_Forall (P : bytes * V -> Prop) k m : Forall P m -> Forall P (map_erase k m).
Proof.
  induction 1 as [|[k' v'] m Hk Hm IH]; simpl; [constructor|]. cmp_cases k k'; auto.
Qed.

Lemma erase_sorted k m : sorted m -> sorted (map_erase k m).
Proof.
  induction m as [|[k' v'] m IH]; intros Hs; simpl; [constructor|].
  apply sorted_cons in Hs as [Hs Hf].
  cmp_cases k k'; [done|..]; apply sorted_cons; split; auto; by apply erase_Forall.
Qed.

Lemma find_erase k k' m : sorted m ->
  map_find k' (map_erase k m) = if decide (k' = k) then None else map_find k' m.
Proof.
  induction m as [|[k1 v1] m IH]; intros Hs; simpl; [by case_decide|].
  apply sorted_cons in Hs as [Hs Hf]. cmp_cases k k1; simpl.
  - case_decide as D; [subst; by apply find_above|]. cmp_cases k' k1; done.
  - rewrite IH by done. case_decide as D; [subst; by rewrite E|]. done.
  - rewrite IH by done. case_decide as D; [subst; apply bytes_cmp_gt in E; by rewrite E|]. done.
Qed.

Lemma lower_bound_spec k m : sorted m ->
  exists m0, m = m0 ++ map_lower_bound k m /\ Forall (fun e => bytes_lt e.1 k) m0 /\
    Forall (fun e => ~ bytes_lt e.1 k) (map_lower_bound k m).
Proof.
  induction m as [|[k1 v1] m IH]; intros Hs; simpl; [by exists []|].
  pose proof Hs as Hs'. apply sorted_cons in Hs as [Hs Hf]. destruct (bytes_cmp k1 k) eqn:E.
  - exists []. apply bytes_cmp_eq in E. subst. split; [done|]. split; [done|].
    constructor; [apply bytes_lt_irrefl|]. eapply Forall_impl; [exact Hf|].
    intros e He He'. exact (bytes_lt_irrefl k (bytes_lt_trans _ _ _ He He')).
  - destruct (IH Hs) as (m0 & Hm & H0 & H1). exists ((k1, v1) :: m0). cbn. rewrite <-Hm. auto.
  - exists []. apply bytes_cmp_gt in E. split; [done|]. split; [done|]. constructor.
    + intros He. exact (bytes_lt_irrefl k (bytes_lt_trans _ _ _ E He)).
    + eapply Forall_impl; [exact Hf|]. intros e He He'.
      exact (bytes_lt_irrefl k (bytes_lt_trans _ _ _ E (bytes_lt_trans _ _ _ He He'))).
Qed.

(** Two sorted maps with the same elements are the same. *)
Lemma sorted_ext m1 : forall m2, sorted m1 -> sorted m2 ->
  (forall k, map_find k m1 = map_find k m2) -> m1 = m2.
Proof.
  induction m1 as [|[k1 v1] m1 IH]; intros [|[k2 v2] m2] H1 H2 Hf; [done| | |].
  - specialize (Hf k2). simpl in Hf. by rewrite bytes_cmp_refl in Hf.
  - specialize (Hf k1). simpl in Hf. by rewrite bytes_cmp_refl in Hf.
  - apply sorted_cons in H1 as [H1 F1], H2 as [H2 F2].
    assert (k1 = k2 /\ v1 = v2) as [-> ->].
    { pose proof (Hf k1) as E1. pose proof (Hf k2) as E2. simpl in E1, E2. rewrite bytes_cmp_refl in E1, E2.
      cmp_cases k1 k2.
      - by injection E1 as ->.
      - rewrite find_above in E1; [done|]. eapply Forall_impl; [exact F2|]. intros e He.
        by eapply bytes_lt_trans.
      - apply bytes_cmp_gt in E. rewrite (bytes_cmp_antisym k1 k2), E in E2. simpl in E2.
        rewrite find_above in E2; [done|]. eapply Forall_impl; [exact F1|]. intros e He.
        apply bytes_cmp_gt in E. by eapply bytes_lt_trans. }
    f_equal. apply IH; auto. intros k. specialize (Hf k). simpl in Hf. cmp_cases k k2; auto.
    by rewrite (find_above k2 m1), (find_above k2 m2).
Qed.
End Spec.
