(* ===== verification/Filesystem.v ===== *)
(** * FileInfo.cpp, and the paths of boost::filesystem

    The members of [boost::filesystem::path] that the program calls are the
    class [Paths]; [PathsSpec] is what their documentation promises for the
    paths the program is given.  [Posix] is a concrete instance. *)
From S2P Require Import Prelude.
From Stdlib Require Import ZArith Lia.

Definition slash : byte := Byte.x2f.

Class Paths := {
  filename : bytes -> bytes;
  parent_path : bytes -> bytes;
  extension : bytes -> bytes;
  path_append : bytes -> bytes -> bytes;     (* p / q *)
  relative_normal : bytes -> bytes           (* p.relative_path().lexically_normal() *)
}.

(** A relative or absolute path below a directory other than the root. *)
Definition proper_path (dir name : bytes) : Prop :=
  dir <> [] /\ last dir <> Some slash /\ name <> [] /\ slash ∉ name.

Class PathsSpec `{Paths} := {
  filename_spec dir name : proper_path dir name -> filename (dir ++ slash :: name) = name;
  parent_path_spec dir name : proper_path dir name -> parent_path (dir ++ slash :: name) = dir;
  path_append_spec dir p : path_append dir (slash :: p) = dir ++ slash :: p;
  path_append_nil dir : path_append dir [] = dir;
  parent_path_nil : parent_path [] = []
}.

Module Posix.
(** Splits at the last slash. *)
Fixpoint split_last (l : bytes) : option (bytes * bytes) :=
  match l with
  | [] => None
  | b :: l =>
      match split_last l with
      | Some (d, n) => Some (b :: d, n)
      | None => if decide (b = slash) then Some ([], l) else None
      end
  end.

Fixpoint from_dot (l : bytes) : bytes :=
  match l with
  | [] => []
  | b :: l' => match from_dot l' with [] => if decide (b = Byte.x2e) then l else [] | r => r end
  end.

Definition name_of (l : bytes) : bytes :=
  match split_last l with Some (_, n) => n | None => l end.
#[global] Instance paths : Paths := {|
  filename := name_of;
  parent_path l := match split_last l with
    | Some ([], _) => [slash] | Some (d, _) => d | None => [] end;
  extension l := from_dot (name_of l);
  path_append d p := match p with
    | b :: _ => if bool_decide (b = slash \/ d = [] \/ last d = Some slash) then d ++ p else d ++ slash :: p
    | [] => d end;
  relative_normal l := match l with b :: l' => if decide (b = slash) then l' else l | [] => [] end
|}.

Lemma split_last_None l : slash ∉ l -> split_last l = None.
Proof.
  induction l as [|b l IH]; intros Hn; [done|]. apply not_elem_of_cons in Hn as [Hb Hl]. simpl.
  rewrite IH by done. by rewrite decide_False.
Qed.

Lemma split_last_spec d n : slash ∉ n -> split_last (d ++ slash :: n) = Some (d, n).
Proof.
  intros Hn. induction d as [|b d IH]; simpl; [|by rewrite IH].
  by rewrite split_last_None.
Qed.

#[global] Program Instance spec : PathsSpec.
Next Obligation. intros d n (Hd & Hl & Hn & Hs). simpl. unfold name_of. by rewrite split_last_spec. Qed.
Next Obligation. intros d n (Hd & Hl & Hn & Hs). simpl. rewrite split_last_spec by done. by destruct d. Qed.
Next Obligation. done. Qed.
Next Obligation. done. Qed.
Next Obligation. done. Qed.
End Posix.

(** ** path::lexically_relative of boost *)

(** The names between the slashes; [cur] is what was read of the current one. *)
Fixpoint split_names (cur l : bytes) : list bytes :=
  match l with
  | [] => if decide (cur = []) then [] else [cur]
  | b :: l =>
      if decide (b = slash) then (if decide (cur = []) then [] else [cur]) ++ split_names [] l
      else split_names (cur ++ [b]) l
  end.

(** The elements of a path, from [begin()] to [end()]: the root directory, the
    names, and a dot for a slash at the end.  (Paths that begin with two slashes
    have a root name; they are left out.) *)
Definition path_elements (p : bytes) : list bytes :=
  (if decide (head p = Some slash) then [[slash]] else []) ++ split_names [] p ++
  (if decide (last p = Some slash /\ split_names [] p <> []) then [str "."] else []).

(** [detail::mismatch]: what is left of both after the elements they share. *)
Fixpoint mismatch (l1 l2 : list bytes) : list bytes * list bytes :=
  match l1, l2 with
  | x :: l1', y :: l2' => if decide (x = y) then mismatch l1' l2' else (l1, l2)
  | _, _ => (l1, l2)
  end.

(** [tmp /= x], of an element. *)
Definition append_element (tmp x : bytes) : bytes :=
  if decide (tmp = [] \/ last tmp = Some slash \/ head x = Some slash) then tmp ++ x else tmp ++ slash :: x.
Definition join_names (l : list bytes) : bytes := foldl append_element [] l.

(** [path::lexically_relative]; paths that share no element give the empty path. *)
Definition lexically_relative (p base : bytes) : bytes :=
  let (rp, rb) := mismatch (path_elements p) (path_elements base) in
  if decide (length rp = length (path_elements p) /\ length rb = length (path_elements base)) then []
  else
    match rp, rb with
    | [], [] => str "."
    | _, _ => join_names (replicate (length rb) (str "..") ++ rp)
    end.

(** A path from a directory: names, each once separated. *)
Definition normal_rest (rest : bytes) : Prop :=
  rest <> [] /\ last rest <> Some slash /\ join_names (split_names [] rest) = rest.

Lemma split_names_app l r : forall cur, split_names cur (l ++ slash :: r) = split_names cur l ++ split_names [] r.
Proof.
  induction l as [|b l IH]; intros cur; cbn [split_names app].
  - rewrite decide_True by done. done.
  - case_decide; [by rewrite IH, app_assoc|apply IH].
Qed.

Lemma split_names_nonempty l : forall cur, l <> [] -> last l <> Some slash -> split_names cur l <> [].
Proof.
  induction l as [|b l IH]; intros cur Hne Hl; [done|]. cbn [split_names]. destruct l as [|c l].
  - cbn in Hl. rewrite decide_False by congruence. cbn [split_names]. rewrite decide_False by (by destruct cur). done.
  - case_decide; [|by apply IH]. intros E. apply app_eq_nil in E as [_ E]. by apply (IH []) in E.
Qed.

Lemma mismatch_app l1 l2 : mismatch (l1 ++ l2) l1 = (l2, []).
Proof. induction l1 as [|x l1 IH]; cbn [mismatch app]; [by destruct l2|]. by rewrite decide_True. Qed.

(** The path of something below a directory, from the directory. *)
Lemma lexically_relative_below base rest : base <> [] -> last base <> Some slash -> normal_rest rest ->
  lexically_relative (base ++ slash :: rest) base = rest.
Proof.
  intros Hb Hl (Hr & Hlr & Hj). pose proof (split_names_nonempty base [] Hb Hl) as Hne.
  pose proof (split_names_nonempty rest [] Hr Hlr) as Hner.
  unfold lexically_relative, path_elements. rewrite split_names_app.
  assert (head (base ++ slash :: rest) = head base) as -> by (by destruct base).
  assert (last (base ++ slash :: rest) = last rest) as ->.
  { rewrite last_app, last_cons. destruct (last rest) eqn:E; [done|]. apply last_None in E. done. }
  rewrite (decide_False (P := last rest = _ /\ _)), (decide_False (P := last base = _ /\ _)) by (by intros []).
  rewrite !app_nil_r, app_assoc, mismatch_app. cbn [length replicate app].
  rewrite decide_False; [|rewrite !length_app; intros [E _]; destruct (split_names [] base); [done|cbn in E; lia]].
  destruct (split_names [] rest); [done|exact Hj].
Qed.

(** Without a directory there is nothing to share. *)
Lemma lexically_relative_nil p : lexically_relative p [] = [].
Proof.
  unfold lexically_relative. change (path_elements []) with (@nil bytes).
  assert (mismatch (path_elements p) [] = (path_elements p, [])) as -> by (by destruct (path_elements p)).
  by rewrite decide_True.
Qed.

(** ** FileInfo *)

Inductive FileType :=
  | FileNotFound
  | RegularFile
  | Directory
  | CharacterDevice
  | BlockDevice
  | Fifo
  | SymbolicLink
  | Socket.
#[export] Instance FileType_eq_dec : EqDecision FileType.
Proof. solve_decision. Defined.

Definition FileType_code (t : FileType) : Z :=
  match t with
  | FileNotFound => 0 | RegularFile => 1 | Directory => 2 | CharacterDevice => 3
  | BlockDevice => 4 | Fifo => 5 | SymbolicLink => 6 | Socket => 7
  end.

(** [struct stat], with the names that [getpwuid] and [getgrgid] find. *)
Record stat := {
  st_mode : Z; st_uid : Z; st_gid : Z; st_size : Z; st_mtime : Z;
  pw_name : option (list Byte.byte); gr_name : option (list Byte.byte)
}.

Definition S_IFMT := 61440.  (* 0170000 *)

Record FileInfo := {
  mType : FileType; mMode : Z; mUid : Z; mGid : Z; mExtension : bytes;
  mUserName : bytes; mGroupName : bytes; mLength : Z; mLastModifyTime : Z
}.

(** The [switch(st.st_mode & S_IFMT)]. *)
Definition type_of_mode (mode : Z) : FileType :=
  let fmt := Z.land mode S_IFMT in
  if fmt =? 32768 then RegularFile             (* S_IFREG *)
  else if fmt =? 16384 then Directory          (* S_IFDIR *)
  else if fmt =? 40960 then SymbolicLink       (* S_IFLNK *)
  else if fmt =? 24576 then BlockDevice        (* S_IFBLK *)
  else if fmt =? 8192 then CharacterDevice     (* S_IFCHR *)
  else if fmt =? 4096 then Fifo                (* S_IFIFO *)
  else if fmt =? 49152 then Socket             (* S_IFSOCK *)
  else FileNotFound.

(** [FileInfo::FileInfo], from the result of [stat(path, &st)].  When [stat]
    fails the numeric members are left uninitialised; they are 0 here, and
    [exists_] tells the two cases apart. *)
Definition new_FileInfo `{Paths} (path : bytes) (st : option stat) : FileInfo :=
  match st with
  | None => {| mType := FileNotFound; mMode := 0; mUid := 0; mGid := 0; mExtension := extension path;
               mUserName := []; mGroupName := []; mLength := 0; mLastModifyTime := 0 |}
  | Some st =>
      {| mType := type_of_mode (st_mode st); mMode := Z.land (st_mode st) 4095;
         mUid := st_uid st; mGid := st_gid st; mExtension := extension path;
         mUserName := default [] (pw_name st); mGroupName := default [] (gr_name st);
         mLength := uwrap 64 (st_size st); mLastModifyTime := st_mtime st |}
  end.

Definition exists_ (f : FileInfo) : bool := negb (bool_decide (mType f = FileNotFound)).

(** The mode of a regular file is its permissions. *)
Lemma mode_range `{Paths} path st : 0 <= mMode (new_FileInfo path st) < 4096.
Proof.
  destruct st as [st|]; simpl; [|lia].
  change 4095 with (Z.ones 12). rewrite Z.land_ones by lia. apply Z.mod_pos_bound. lia.
Qed.
