(* ===== verification/Snapshot.v ===== *)
(** * Snapshot.cpp: the catalogue of a backup

    A snapshot holds a table of NUL-terminated strings in one buffer, the object
    identifiers, and the file entries by path.  The recursive mutex of the class
    is not modelled: every method holds it from beginning to end.  C strings
    are byte lists without NUL. *)
From S2P Require Import Prelude Crypto Streams MemoryStreams StreamUtils StdMap Filesystem.
From Stdlib Require Import ZArith Lia.

Record FileEntry := {
  nameIndex : Z; pathIndex : Z; userIndex : Z; groupIndex : Z; mode : Z; compression : Z;
  fsize : Z; mtime : Z; ftype : Z; rollingHashBits : Z; objectCount : Z; fmd5 : bytes;
  offset : Z; packLength : Z; objectIdIndex : Z
}.

Record Snapshot := {
  mStringTable : smap Z;
  mStringBuffer : bytes;
  mObjectIDs : list bytes;
  mFiles : smap FileEntry
}.

Definition new_Snapshot : Snapshot :=
  {| mStringTable := []; mStringBuffer := []; mObjectIDs := []; mFiles := [] |}.

(** The string that starts at the beginning of a buffer; [None] when it has no
    terminator, where [strlen] would run out of the buffer. *)
Fixpoint cstring (l : bytes) : option bytes :=
  match l with
  | [] => None
  | b :: l => if decide (b = Byte.x00) then Some [] else (b ::.) <$> cstring l
  end.

(** [std::vector::resize] *)
Definition vec_resize (n : Z) (l : bytes) : bytes :=
  ztake n l ++ replicate (Z.to_nat (n - zlen l)) Byte.x00.

(** [Snapshot::insertStringTable]; the index is an [int]. *)
Definition insertStringTable (s : Snapshot) (str : bytes) : result (Z * Snapshot) :=
  match map_find str (mStringTable s) with
  | Some idx => Ret (idx, s)
  | None =>
      let n := zlen str + 1 in
      let idx := swrap 32 (zlen (mStringBuffer s)) in
      let newSize := Z.land (uwrap 64 (idx + n + 3)) (Z.lnot 3) in
      if 2 ^ 63 <=? newSize then Throw length_error
      else
        let buffer := vec_resize newSize (mStringBuffer s) in
        let buffer := ztake idx buffer ++ (str ++ [Byte.x00]) ++ zdrop (idx + n) buffer in
        Ret (idx, {| mStringTable := map_assign str idx (mStringTable s);
                     mStringBuffer := buffer; mObjectIDs := mObjectIDs s; mFiles := mFiles s |})
  end.

(** [Snapshot::addObjectIds] *)
Definition addObjectIds (s : Snapshot) (objectIds : list bytes) : Z * Snapshot :=
  (swrap 32 (zlen (mObjectIDs s)),
   {| mStringTable := mStringTable s; mStringBuffer := mStringBuffer s;
      mObjectIDs := mObjectIDs s ++ objectIds; mFiles := mFiles s |}).

(** [Snapshot::addFileEntry]; [objectIds] has [objectCount] elements. *)
Definition addFileEntry `{Paths} (s : Snapshot) (path user group : bytes) (type : FileType)
    (md : Z) (comp : CompressionType) (sz mt bits : Z) (digest : bytes)
    (off packLen : Z) (objectIds : list bytes) : result Snapshot :=
  if 65535 <? zlen objectIds then Throw InvalidArgumentException
  else
    '(name, s) ← insertStringTable s (filename path);
    '(parent, s) ← insertStringTable s (parent_path path);
    '(user, s) ← insertStringTable s user;
    '(group, s) ← insertStringTable s group;
    let '(ids, s) := addObjectIds s objectIds in
    let fe := {| nameIndex := uwrap 32 name; pathIndex := uwrap 32 parent; userIndex := uwrap 32 user;
                 groupIndex := uwrap 32 group; mode := md; compression := compression_code comp;
                 fsize := sz; mtime := mt; ftype := FileType_code type; rollingHashBits := bits;
                 objectCount := uwrap 16 (zlen objectIds); fmd5 := ztake MD5_DIGEST_LENGTH digest;
                 offset := off; packLength := packLen; objectIdIndex := uwrap 32 ids |} in
    Ret {| mStringTable := mStringTable s; mStringBuffer := mStringBuffer s;
           mObjectIDs := mObjectIDs s; mFiles := map_insert_new path fe (mFiles s) |}.

(** [Snapshot::getFileEntry] *)
Definition getFileEntry (s : Snapshot) (path : bytes) : option FileEntry := map_find path (mFiles s).

(** [Snapshot::deleteFileEntry] *)
Definition deleteFileEntry (s : Snapshot) (path : bytes) : Snapshot :=
  {| mStringTable := mStringTable s; mStringBuffer := mStringBuffer s;
     mObjectIDs := mObjectIDs s; mFiles := map_erase path (mFiles s) |}.

(** [Snapshot::indexToString], and the C string behind the pointer. *)
Definition indexToString (s : Snapshot) (n : Z) : result bytes :=
  let n := swrap 32 n in
  if (n <? 0) || (zlen (mStringBuffer s) <=? n) then Throw IndexOutOfBoundException
  else or_undef (cstring (zdrop n (mStringBuffer s))).

(** [Snapshot::indexToObjectID], and the identifier behind the pointer. *)
Definition indexToObjectID (s : Snapshot) (n : Z) : result bytes :=
  let n := swrap 32 n in
  if (n <? 0) || (zlen (mObjectIDs s) <=? n) then Throw IndexOutOfBoundException
  else or_undef (znth n (mObjectIDs s)).

(** [indexToString(pathIndex) + "/" + indexToString(nameIndex)] *)
Definition entry_path (s : Snapshot) (fe : FileEntry) : result bytes :=
  dir ← indexToString s (pathIndex fe);
  name ← indexToString s (nameIndex fe);
  Ret (dir ++ slash :: name).

(** [Snapshot::forEachFileEntry(callback)]: the entries passed to the callback. *)
Definition forEachFileEntry (s : Snapshot) : list FileEntry := (mFiles s).*2.

(** [while(!searchPath.empty() && searchPath.back() == '/') searchPath.pop_back();] *)
Definition strip_slashes (path : bytes) : bytes :=
  reverse ((fix strip l := match l with
    | b :: l' => if decide (b = slash) then strip l' else l
    | [] => [] end) (reverse path)).

(** The two tests that end the loop of [forEachFileEntry(subpath, callback)]. *)
Definition under_path (searchPath filePath : bytes) : bool :=
  bool_decide (ztake (zlen searchPath) filePath = searchPath) &&
  (bool_decide (searchPath = []) ||
   match znth (zlen searchPath) filePath with
   | None => true
   | Some b => bool_decide (b = slash)
   end).

Fixpoint visit_from (s : Snapshot) (searchPath : bytes) (m : smap FileEntry) : result (list FileEntry) :=
  match m with
  | [] => Ret []
  | (_, fe) :: m =>
      filePath ← entry_path s fe;
      if under_path searchPath filePath then l ← visit_from s searchPath m; Ret (fe :: l) else Ret []
  end.

(** [Snapshot::forEachFileEntry(subpath, callback)] *)
Definition forEachFileEntry_in (s : Snapshot) (subpath : bytes) : result (list FileEntry) :=
  let searchPath := strip_slashes subpath in
  visit_from s searchPath (map_lower_bound searchPath (mFiles s)).

(** ** Saving *)

(** The writes for one entry: [writeType] of every member, in the order of the code. *)
Definition entry_writes (fe : FileEntry) : list bytes := [
  le_bytes 4 (nameIndex fe); le_bytes 4 (pathIndex fe); le_bytes 4 (userIndex fe); le_bytes 4 (groupIndex fe);
  le_bytes 2 (mode fe); le_bytes 1 (compression fe); le_bytes 1 0; le_bytes 1 (ftype fe);
  le_bytes 1 (rollingHashBits fe); le_bytes 2 (objectCount fe); le_bytes 8 (fsize fe); le_bytes 8 (mtime fe);
  fmd5 fe; le_bytes 4 (offset fe); le_bytes 4 (packLength fe); le_bytes 4 (objectIdIndex fe)].

Fixpoint save_entries {Out} `{OutputStream Out} (o : Out) (m : smap FileEntry) : result Out :=
  match m with
  | [] => Ret o
  | (_, fe) :: m => o ← write_all o (entry_writes fe); save_entries o m
  end.

(** [Snapshot::save]; the last argument of the third write rounds the size up
    to a multiple of 4, and reads past the buffer when it is not one. *)
Definition save {Out} `{OutputStream Out} (s : Snapshot) (o : Out) : result Out :=
  let n := zlen (mStringBuffer s) in
  o ← writeType 4 o (zlen (mFiles s));
  o ← writeType 4 o ((n + 3) / 4);
  o ← writeType 4 o (zlen (mObjectIDs s));
  if negb (Z.land (n + 3) (Z.lnot 3) =? n) then Undef
  else
    o ← write o (mStringBuffer s);
    o ← write_all o (mObjectIDs s);
    save_entries o (mFiles s).

(** ** Loading *)

(** What is around the buffers of [load]: can a vector be resized to [n] bytes,
    and what is the byte after the string buffer, [None] if it cannot be read. *)
Record Heap := { can_resize : Z -> bool; after_buffer : option Byte.byte }.

(** The number of NULs at the beginning. *)
Fixpoint leading_nuls (l : bytes) : Z :=
  match l with
  | [] => 0
  | b :: l => if decide (b = Byte.x00) then 1 + leading_nuls l else 0
  end.

(** [while(!*p && p < end) ++p]: it reads [*p] before it tests [p < end], at the
    end of the buffer the byte after it.  The number of steps. *)
Fixpoint skip_nuls (after : option Byte.byte) (rest : bytes) : result Z :=
  match rest with
  | [] => _ ← or_undef after; Ret 0
  | b :: rest => if decide (b = Byte.x00) then k ← skip_nuls after rest; Ret (1 + k) else Ret 0
  end.

(** The loop that rebuilds [mStringTable]; [rest] is the buffer from offset [p]
    on. *)
Fixpoint scan_strings (after : option Byte.byte) (fuel : nat) (rest : bytes) (p : Z) (table : smap Z)
  : result (smap Z) :=
  if 0 <? zlen rest then
    match fuel with
    | O => NoFuel
    | S fuel =>
        str ← or_undef (cstring rest);
        let table := map_assign str (swrap 32 p) table in
        let rest := zdrop (zlen str + 1) rest in
        k ← skip_nuls after rest;
        scan_strings after fuel (zdrop k rest) (p + zlen str + 1 + k) table
    end
  else Ret table.

Section Load.
Context {In} `{InputStream In}.

Fixpoint load_ids (n : nat) (i : In) : result (list bytes * In) :=
  match n with
  | O => Ret ([], i)
  | S n =>
      '(id, i) ← readExpected i SHA256_DIGEST_LENGTH;
      '(ids, i) ← load_ids n i;
      Ret (id :: ids, i)
  end.

(** The members of one entry, in the order of the code. *)
Definition load_entry (i : In) : result (FileEntry * In) :=
  '(name, i) ← readType 4 i;
  '(parent, i) ← readType 4 i;
  '(user, i) ← readType 4 i;
  '(group, i) ← readType 4 i;
  '(md, i) ← readType 2 i;
  '(comp, i) ← readType 1 i;
  '(_, i) ← readType 1 i;
  '(type, i) ← readType 1 i;
  '(bits, i) ← readType 1 i;
  '(count, i) ← readType 2 i;
  '(sz, i) ← readType 8 i;
  '(mt, i) ← readType 8 i;
  '(digest, i) ← readExpected i MD5_DIGEST_LENGTH;
  '(off, i) ← readType 4 i;
  '(packLen, i) ← readType 4 i;
  '(ids, i) ← readType 4 i;
  Ret ({| nameIndex := name; pathIndex := parent; userIndex := user; groupIndex := group; mode := md;
          compression := comp; fsize := sz; mtime := swrap 64 mt; ftype := type; rollingHashBits := bits;
          objectCount := count; fmd5 := digest; offset := off; packLength := packLen;
          objectIdIndex := ids |}, i).

Fixpoint load_entries (n : nat) (s : Snapshot) (i : In) : result (Snapshot * In) :=
  match n with
  | O => Ret (s, i)
  | S n =>
      '(fe, i) ← load_entry i;
      path ← entry_path s fe;
      load_entries n {| mStringTable := mStringTable s; mStringBuffer := mStringBuffer s;
                        mObjectIDs := mObjectIDs s; mFiles := map_assign path fe (mFiles s) |} i
  end.

(** [Snapshot::load]; the table and the files of [s] are not cleared.  (The code
    takes the address of the first element of the buffer also when it is empty,
    and then does not use it.) *)
Definition load_in (hp : Heap) (s : Snapshot) (i : In) : result (Snapshot * In) :=
  '(numFiles, i) ← readType 4 i;
  '(strings, i) ← readType 4 i;
  '(numObjects, i) ← readType 4 i;
  let stringTableSize := uwrap 32 (strings * 4) in
  if negb (can_resize hp stringTableSize) then Throw bad_alloc
  else
    '(buffer, i) ← readExpected i stringTableSize;
    table ← scan_strings (after_buffer hp) (length buffer) buffer 0 (mStringTable s);
    if negb (can_resize hp (numObjects * SHA256_DIGEST_LENGTH)) then Throw bad_alloc
    else
      '(ids, i) ← load_ids (Z.to_nat numObjects) i;
      load_entries (Z.to_nat numFiles)
        {| mStringTable := table; mStringBuffer := buffer; mObjectIDs := ids; mFiles := mFiles s |} i.

(** With enough memory, and a byte that can be read after the buffer, of which the
    value does not matter; this is what the callers of [load] use. *)
Definition large_heap : Heap := {| can_resize _ := true; after_buffer := Some Byte.x00 |}.
Definition load : Snapshot -> In -> result (Snapshot * In) := load_in large_heap.
End Load.

(** * Invariant *)

(** A string table: whole words, and every string in it is terminated. *)
Definition buffer_ok (l : bytes) : Prop :=
  zlen l mod 4 = 0 /\ zlen l < 2 ^ 31 /\ (l = [] \/ last l = Some Byte.x00).

(** [idx] is the offset of the string [str]. *)
Definition string_at (l : bytes) (idx : Z) (str : bytes) : Prop :=
  0 <= idx < zlen l /\ cstring (zdrop idx l) = Some str.

Definition table_ok (l : bytes) (t : smap Z) : Prop :=
  sorted t /\ Forall (fun e => string_at l e.2 e.1) t.

(** The members have their widths and the indices are in range. *)
Record entry_ok (s : Snapshot) (fe : FileEntry) : Prop := {
  ok_name : 0 <= nameIndex fe < zlen (mStringBuffer s);
  ok_path : 0 <= pathIndex fe < zlen (mStringBuffer s);
  ok_user : 0 <= userIndex fe < zlen (mStringBuffer s);
  ok_group : 0 <= groupIndex fe < zlen (mStringBuffer s);
  ok_mode : 0 <= mode fe < 2 ^ 16;
  ok_comp : 0 <= compression fe < 2 ^ 8;
  ok_fsize : 0 <= fsize fe < 2 ^ 64;
  ok_mtime : - 2 ^ 63 <= mtime fe < 2 ^ 63;
  ok_type : 0 <= ftype fe < 2 ^ 8;
  ok_bits : 0 <= rollingHashBits fe < 2 ^ 8;
  ok_count : 0 <= objectCount fe < 2 ^ 16;
  ok_md5 : zlen (fmd5 fe) = MD5_DIGEST_LENGTH;
  ok_offset : 0 <= offset fe < 2 ^ 32;
  ok_pack : 0 <= packLength fe < 2 ^ 32;
  ok_ids : 0 <= objectIdIndex fe /\ objectIdIndex fe + objectCount fe <= zlen (mObjectIDs s)
}.

Record snapshot_ok (s : Snapshot) : Prop := {
  ok_buffer : buffer_ok (mStringBuffer s);
  ok_table : table_ok (mStringBuffer s) (mStringTable s);
  ok_objects : Forall (fun id => zlen id = SHA256_DIGEST_LENGTH) (mObjectIDs s);
  ok_nobjects : zlen (mObjectIDs s) < 2 ^ 31;
  ok_sorted : sorted (mFiles s);
  ok_nfiles : zlen (mFiles s) < 2 ^ 32;
  ok_entries : Forall (fun e => entry_ok s e.2) (mFiles s)
}.

(** What was added to a snapshot: the bytes of strings, the identifiers and the files. *)
Record grown (s s' : Snapshot) (strings ids files : Z) : Prop := {
  gr_strings : zlen (mStringBuffer s') <= zlen (mStringBuffer s) + strings;
  gr_ids : zlen (mObjectIDs s') <= zlen (mObjectIDs s) + ids;
  gr_files : zlen (mFiles s') <= zlen (mFiles s) + files
}.

(** Every entry is filed under the path it describes. *)
Definition keyed (s : Snapshot) : Prop :=
  Forall (fun e => entry_path s e.2 = Ret e.1) (mFiles s).

Definition no_nul (l : bytes) : Prop := Byte.x00 ∉ l.

(** ** Strings *)

Lemma cstring_app str l : no_nul str -> cstring (str ++ Byte.x00 :: l) = Some str.
Proof.
  induction str as [|b str IH]; intros Hn; simpl; [done|].
  apply not_elem_of_cons in Hn as [Hb Hn]. rewrite IH by done. by rewrite decide_False.
Qed.

Lemma cstring_prefix l str k : cstring l = Some str -> cstring (l ++ k) = Some str.
Proof.
  revert str. induction l as [|b l IH]; intros str; simpl; [done|].
  destruct (decide _); [done|]. destruct (cstring l) as [r|]; [|done]. simpl. intros [= <-].
  by rewrite (IH r).
Qed.

Lemma cstring_split l str : cstring l = Some str -> exists l', l = str ++ Byte.x00 :: l' /\ no_nul str.
Proof.
  revert str. induction l as [|b l IH]; intros str; simpl; [done|].
  destruct (decide (b = Byte.x00)) as [->|Hb].
  - intros [= <-]. exists l. split; [done|]. by apply not_elem_of_nil.
  - destruct (cstring l) as [r|]; [|done]. simpl. intros [= <-].
    destruct (IH r eq_refl) as (l' & -> & Hn). exists l'. split; [done|].
    by apply not_elem_of_cons.
Qed.

Lemma cstring_terminated l : l <> [] -> last l = Some Byte.x00 -> is_Some (cstring l).
Proof.
  induction l as [|b l IH]; intros Hne Hl; simpl; [done|]. destruct (decide _); [by eexists|].
  destruct l as [|b' l]; [simpl in Hl; congruence|]. destruct IH as [str E]; [done|done|].
  rewrite E. by eexists.
Qed.

Lemma zdrop_last {A} n (l : list A) x : zdrop n l <> [] -> last l = Some x -> last (zdrop n l) = Some x.
Proof.
  intros Hn Hl. rewrite <-(ztake_zdrop n l) in Hl. rewrite last_app in Hl.
  destruct (last (zdrop n l)) eqn:E; [done|]. by apply last_None in E.
Qed.

Lemma string_at_app l k idx str : string_at l idx str -> string_at (l ++ k) idx str.
Proof.
  intros [Hi Hc]. split; [rewrite zlen_app; pose proof (zlen_nonneg k); lia|].
  rewrite zdrop_app by lia. by apply cstring_prefix.
Qed.

(** Every offset inside a table is that of some string. *)
Lemma buffer_string l idx : buffer_ok l -> 0 <= idx < zlen l -> exists str, string_at l idx str /\ no_nul str.
Proof.
  intros (_ & _ & Hl) Hi. assert (zdrop idx l <> []) as Hne.
  { intros E. apply (f_equal zlen) in E. rewrite zlen_zdrop in E by lia. simpl in E. lia. }
  destruct Hl as [->|Hl]; [simpl in Hi; lia|].
  destruct (cstring_terminated (zdrop idx l) Hne) as [str E]; [by apply zdrop_last|].
  exists str. destruct (cstring_split _ _ E) as (? & _ & Hn). done.
Qed.

Lemma indexToString_ok s idx str : buffer_ok (mStringBuffer s) -> string_at (mStringBuffer s) idx str ->
  indexToString s idx = Ret str.
Proof.
  intros (_ & Hs & _) [Hi Hc]. unfold indexToString. rewrite swrap_small by lia.
  destruct (Z.ltb_spec idx 0), (Z.leb_spec (zlen (mStringBuffer s)) idx); try lia. simpl. by rewrite Hc.
Qed.

(** ** Interning *)

Lemma land_not3 n : 0 <= n -> Z.land n (Z.lnot 3) = n / 4 * 4.
Proof.
  intros Hn. change 3 with (Z.ones 2). rewrite <-Z.ldiff_land.
  rewrite Z.ldiff_ones_r by lia. rewrite Z.shiftl_mul_pow2, Z.shiftr_div_pow2 by lia. done.
Qed.

(** The part of a state that only grows. *)
Definition extends (s s' : Snapshot) : Prop :=
  (exists k, mStringBuffer s' = mStringBuffer s ++ k) /\ mObjectIDs s' = mObjectIDs s /\ mFiles s' = mFiles s.

Lemma extends_refl s : extends s s.
Proof. split; [exists []; by rewrite app_nil_r|done]. Qed.
Lemma extends_trans a b c : extends a b -> extends b c -> extends a c.
Proof.
  intros ([k Hk] & E1 & E2) ([k' Hk'] & E3 & E4). split; [exists (k ++ k')|by split; congruence].
  by rewrite Hk', Hk, app_assoc.
Qed.

Lemma entry_ok_extends s s' fe : (exists k, mStringBuffer s' = mStringBuffer s ++ k) ->
  (exists k, mObjectIDs s' = mObjectIDs s ++ k) -> entry_ok s fe -> entry_ok s' fe.
Proof.
  intros [k Hk] [k' Hk'] []. pose proof (zlen_nonneg k). pose proof (zlen_nonneg k').
  constructor; rewrite ?Hk, ?Hk', ?zlen_app; try done; lia.
Qed.

Lemma insertStringTable_spec s str : snapshot_ok s -> no_nul str ->
  zlen (mStringBuffer s) + zlen str + 4 < 2 ^ 31 ->
  exists idx s', insertStringTable s str = Ret (idx, s') /\ snapshot_ok s' /\ extends s s' /\
    string_at (mStringBuffer s') idx str /\
    zlen (mStringBuffer s') <= zlen (mStringBuffer s) + zlen str + 4.
Proof.
  intros Hok Hn Hb. pose proof Hok as Hok'. unfold insertStringTable. destruct Hok as [Hbuf [Hts Ht] ? ? ? ? ?].
  pose proof (zlen_nonneg str). pose proof (zlen_nonneg (mStringBuffer s)).
  destruct (map_find str (mStringTable s)) as [idx|] eqn:Ef.
  - exists idx, s. apply find_In in Ef; [|done].
    rewrite Forall_forall in Ht. specialize (Ht _ Ef).
    split; [done|]. split; [done|]. split; [apply extends_refl|]. split; [exact Ht|lia].
  - rewrite swrap_small, uwrap_small, land_not3 by lia.
    set (B := mStringBuffer s) in *. set (n' := (zlen B + (zlen str + 1) + 3) / 4 * 4).
    assert (n' mod 4 = 0 /\ zlen B + zlen str + 1 <= n' <= zlen B + zlen str + 4) as [Hmod Hn'].
    { unfold n'. rewrite Z.mod_mul by lia. Z.div_mod_to_equations. lia. }
    destruct (Z.leb_spec (2 ^ 63) n'); [lia|].
    assert (ztake (zlen B) (vec_resize n' B) = B) as ->.
    { unfold vec_resize. rewrite (ztake_ge n') by lia. by apply ztake_app_exact. }
    assert (zdrop (zlen B + (zlen str + 1)) (vec_resize n' B) =
            replicate (Z.to_nat (n' - (zlen B + zlen str + 1))) Byte.x00) as ->.
    { unfold vec_resize. rewrite (ztake_ge n'), zdrop_app, zdrop_ge by lia. cbn [app].
      rewrite zdrop_drop, drop_replicate. f_equal. lia. }
    set (K := (str ++ [Byte.x00]) ++ replicate _ _).
    assert (zlen (B ++ K) = n') as HK.
    { unfold K. rewrite !zlen_app, zlen_replicate. simpl. lia. }
    assert (buffer_ok (B ++ K)) as HB.
    { split; [by rewrite HK|]. split; [lia|]. right. unfold K. rewrite !last_app.
      destruct (last (replicate _ _)) eqn:E; [|done].
      apply last_Some_elem_of, elem_of_replicate in E as [-> _]. done. }
    assert (string_at (B ++ K) (zlen B) str) as Hat.
    { split; [lia|]. rewrite zdrop_app_exact by done. unfold K. rewrite <-app_assoc. by apply cstring_app. }
    eexists _, _. split; [reflexivity|]. split; [|split; [|split]].
    + constructor; cbn [mStringBuffer mStringTable mObjectIDs mFiles]; try done.
      * split; [by apply assign_sorted|]. apply assign_Forall; [exact Hat|done|].
        eapply Forall_impl; [exact Ht|]. intros e. apply string_at_app.
      * eapply Forall_impl; [eassumption|]. intros e. apply entry_ok_extends; [by exists K|by exists []; rewrite app_nil_r].
    + split; [by exists K|done].
    + exact Hat.
    + cbn [mStringBuffer]. lia.
Qed.

(** Looking up a string is not affected by interning others. *)
Lemma indexToString_Ret s idx : buffer_ok (mStringBuffer s) -> 0 <= idx < zlen (mStringBuffer s) ->
  exists str, indexToString s idx = Ret str /\ string_at (mStringBuffer s) idx str.
Proof.
  intros Hb Hi. destruct (buffer_string _ idx Hb Hi) as (str & Hat & _).
  exists str. split; [by apply indexToString_ok|done].
Qed.

Lemma indexToString_extends s s' idx : buffer_ok (mStringBuffer s) -> buffer_ok (mStringBuffer s') ->
  (exists k, mStringBuffer s' = mStringBuffer s ++ k) -> 0 <= idx < zlen (mStringBuffer s) ->
  indexToString s' idx = indexToString s idx.
Proof.
  intros Hb Hb' [k Hk] Hi. destruct (indexToString_Ret s idx Hb Hi) as (str & -> & Hat).
  apply indexToString_ok; [done|]. rewrite Hk. by apply string_at_app.
Qed.

Lemma entry_path_extends s s' fe : buffer_ok (mStringBuffer s) -> buffer_ok (mStringBuffer s') ->
  (exists k, mStringBuffer s' = mStringBuffer s ++ k) -> entry_ok s fe -> entry_path s' fe = entry_path s fe.
Proof.
  intros Hb Hb' Hk Hf. unfold entry_path.
  rewrite !(indexToString_extends s s') by (try done; apply Hf). done.
Qed.

Lemma keyed_extends s s' : snapshot_ok s -> buffer_ok (mStringBuffer s') ->
  (exists k, mStringBuffer s' = mStringBuffer s ++ k) -> keyed s ->
  Forall (fun e => entry_path s' e.2 = Ret e.1) (mFiles s).
Proof.
  intros Hok Hb' Hk Hkey. unfold keyed in *. rewrite Forall_forall in *. intros e He.
  rewrite (entry_path_extends s); try done; [auto|apply Hok|].
  destruct Hok as [_ _ _ _ _ _ He']. rewrite Forall_forall in He'. by apply He'.
Qed.

(** The strings that an entry refers to, and its objects. *)
Record describes (s : Snapshot) (fe : FileEntry) (name parent user group : bytes) (ids : list bytes) : Prop := {
  d_name : indexToString s (nameIndex fe) = Ret name;
  d_path : indexToString s (pathIndex fe) = Ret parent;
  d_user : indexToString s (userIndex fe) = Ret user;
  d_group : indexToString s (groupIndex fe) = Ret group;
  d_count : objectCount fe = zlen ids;
  d_ids : ztake (zlen ids) (zdrop (objectIdIndex fe) (mObjectIDs s)) = ids
}.

Section Add.
Context `{Paths}.

(** The path is the one that [load] puts together from its two parts. *)
Definition splits (path : bytes) : Prop := parent_path path ++ slash :: filename path = path.

(** A new entry of such a path keeps [keyed]. *)
Lemma keyed_insert s s' path fe user group ids : snapshot_ok s -> snapshot_ok s' -> keyed s -> splits path ->
  (exists k, mStringBuffer s' = mStringBuffer s ++ k) -> mFiles s' = map_insert_new path fe (mFiles s) ->
  describes s' fe (filename path) (parent_path path) user group ids -> keyed s'.
Proof.
  intros Hok Hok' Hkey Hsp Hk Hf [Dn Dp _ _ _ _]. unfold keyed. rewrite Hf. apply insert_new_Forall.
  - unfold entry_path. cbn [fst snd]. rewrite Dp, bind_of_Ret, Dn, bind_of_Ret. by rewrite Hsp.
  - apply keyed_extends; try done. apply Hok'.
Qed.

(** The arguments have the types of their declarations, and there is room. *)
Record add_args (s : Snapshot) (path user group : bytes) (md sz mt bits : Z) (digest : bytes)
    (off packLen : Z) (ids : list bytes) : Prop := {
  a_name : no_nul (filename path); a_parent : no_nul (parent_path path);
  a_user : no_nul user; a_group : no_nul group;
  a_room : zlen (mStringBuffer s) + zlen (filename path) + zlen (parent_path path) + zlen user + zlen group
           + 16 < 2 ^ 31;
  a_mode : 0 <= md < 2 ^ 16; a_size : 0 <= sz < 2 ^ 64; a_mtime : - 2 ^ 63 <= mt < 2 ^ 63;
  a_bits : 0 <= bits < 2 ^ 8; a_md5 : MD5_DIGEST_LENGTH <= zlen digest;
  a_offset : 0 <= off < 2 ^ 32; a_pack : 0 <= packLen < 2 ^ 32;
  a_ids : Forall (fun id => zlen id = SHA256_DIGEST_LENGTH) ids;
  a_nids : zlen (mObjectIDs s) + zlen ids < 2 ^ 31; a_nfiles : zlen (mFiles s) + 1 < 2 ^ 32
}.

Lemma FileType_code_range t : 0 <= FileType_code t < 2 ^ 8.
Proof. by destruct t. Qed.
Lemma compression_code_range c : 0 <= compression_code c < 2 ^ 8.
Proof. by destruct c. Qed.

(** Adding with too many objects throws and changes nothing. *)
Lemma addFileEntry_too_many s path user group type md comp sz mt bits digest off packLen ids :
  65535 < zlen ids ->
  addFileEntry s path user group type md comp sz mt bits digest off packLen ids
    = Throw InvalidArgumentException.
Proof. intros Hl. unfold addFileEntry. apply Z.ltb_lt in Hl. by rewrite Hl. Qed.

Lemma addFileEntry_spec s path user group type md comp sz mt bits digest off packLen ids :
  snapshot_ok s -> add_args s path user group md sz mt bits digest off packLen ids -> zlen ids <= 65535 ->
  exists s' fe, addFileEntry s path user group type md comp sz mt bits digest off packLen ids = Ret s' /\
    snapshot_ok s' /\ mFiles s' = map_insert_new path fe (mFiles s) /\
    (exists k, mStringBuffer s' = mStringBuffer s ++ k) /\ mObjectIDs s' = mObjectIDs s ++ ids /\
    describes s' fe (filename path) (parent_path path) user group ids /\
    fsize fe = sz /\ fmd5 fe = ztake MD5_DIGEST_LENGTH digest /\ compression fe = compression_code comp /\
    offset fe = off /\ packLength fe = packLen /\ ftype fe = FileType_code type /\ mode fe = md /\ mtime fe = mt /\
    rollingHashBits fe = bits /\
    zlen (mStringBuffer s') <= zlen (mStringBuffer s) + zlen (filename path) + zlen (parent_path path) + zlen user
                               + zlen group + 16.
Proof.
  intros Hok [] Hids. unfold addFileEntry. destruct (Z.ltb_spec 65535 (zlen ids)); [lia|].
  pose proof (zlen_nonneg (filename path)). pose proof (zlen_nonneg (parent_path path)).
  pose proof (zlen_nonneg user). pose proof (zlen_nonneg group). pose proof (zlen_nonneg ids).
  pose proof (zlen_nonneg (mObjectIDs s)).
  destruct (insertStringTable_spec s (filename path)) as (i1 & s1 & -> & O1 & X1 & A1 & L1); [done|done|lia|].
  rewrite bind_of_Ret.
  destruct (insertStringTable_spec s1 (parent_path path)) as (i2 & s2 & -> & O2 & X2 & A2 & L2); [done|done|lia|].
  rewrite bind_of_Ret.
  destruct (insertStringTable_spec s2 user) as (i3 & s3 & -> & O3 & X3 & A3 & L3); [done|done|lia|].
  rewrite bind_of_Ret.
  destruct (insertStringTable_spec s3 group) as (i4 & s4 & -> & O4 & X4 & A4 & L4); [done|done|lia|].
  rewrite bind_of_Ret. cbn [addObjectIds].
  pose proof (extends_trans _ _ _ X3 X4) as X34. pose proof (extends_trans _ _ _ X2 X34) as X24.
  pose proof (extends_trans _ _ _ X1 X24) as (Xb & Xi & Xf).
  destruct X24 as ([k2 E2] & _), X34 as ([k3 E3] & _), X4 as ([k4 E4] & _).
  assert (string_at (mStringBuffer s4) i1 (filename path)) as B1 by (rewrite E2; by apply string_at_app).
  assert (string_at (mStringBuffer s4) i2 (parent_path path)) as B2 by (rewrite E3; by apply string_at_app).
  assert (string_at (mStringBuffer s4) i3 user) as B3 by (rewrite E4; by apply string_at_app).
  destruct O4 as [Hbuf Htab Hobj Hnobj Hsort Hnf Hent]. rewrite Xi, Xf in *.
  pose proof Hbuf as (_ & Hlt & _).
  assert (forall i str, string_at (mStringBuffer s4) i str -> uwrap 32 i = i) as U.
  { intros i str [? _]. apply uwrap_small. lia. }
  rewrite (U i1 _ B1), (U i2 _ B2), (U i3 _ B3), (U i4 _ A4), (uwrap_small 16), (swrap_small 32), (uwrap_small 32) by lia.
  eexists _, _. split; [reflexivity|]. cbn [mStringBuffer mObjectIDs mFiles]. split; [|split; [reflexivity|]].
  - constructor; cbn [mStringBuffer mStringTable mObjectIDs mFiles]; try done.
    + by apply Forall_app.
    + rewrite zlen_app. lia.
    + by apply insert_new_sorted.
    + match goal with |- zlen (map_insert_new ?k ?v ?m) < _ => pose proof (zlen_insert_new k v m) end. lia.
    + apply insert_new_Forall.
      * destruct B1 as [? _], B2 as [? _], B3 as [? _], A4 as [? _].
        constructor; cbn; try done; try lia.
        -- apply compression_code_range.
        -- apply FileType_code_range.
        -- rewrite zlen_ztake by done. unfold MD5_DIGEST_LENGTH in *. lia.
        -- rewrite zlen_app. lia.
      * eapply Forall_impl; [exact Hent|]. intros e.
        apply entry_ok_extends; [exists []; by rewrite app_nil_r|rewrite Xi; by exists ids].
  - split; [done|]. split; [done|]. split; [|do 9 (split; [done|]); lia].
    constructor; cbn [nameIndex pathIndex userIndex groupIndex objectCount objectIdIndex mObjectIDs]; try done.
    1-4: by apply indexToString_ok.
    rewrite zdrop_app_exact by done. by apply ztake_ge.
Qed.
End Add.

Lemma deleteFileEntry_ok s path : snapshot_ok s -> snapshot_ok (deleteFileEntry s path).
Proof.
  intros []. unfold deleteFileEntry. constructor; cbn [mStringBuffer mStringTable mObjectIDs mFiles]; try done.
  - by apply erase_sorted.
  - pose proof (zlen_erase path (mFiles s)). lia.
  - apply erase_Forall. eapply Forall_impl; [eassumption|]. intros e [].
    by constructor; cbn.
Qed.

Lemma new_Snapshot_ok : snapshot_ok new_Snapshot.
Proof. constructor; simpl; try done; try constructor; try done; [split; [done|by left]|constructor]. Qed.

(** * The file format *)

Definition entry_bytes (fe : FileEntry) : bytes := concat (entry_writes fe).

Definition snapshot_bytes (s : Snapshot) : bytes :=
  le_bytes 4 (zlen (mFiles s)) ++ le_bytes 4 (zlen (mStringBuffer s) / 4) ++ le_bytes 4 (zlen (mObjectIDs s)) ++
  mStringBuffer s ++ concat (mObjectIDs s) ++ concat ((fun e => entry_bytes e.2) <$> mFiles s).

(** The size of a saved snapshot. *)
Lemma zlen_concat_const {A} (f : A -> bytes) k (l : list A) : Forall (fun x => zlen (f x) = k) l ->
  zlen (concat (f <$> l)) = k * zlen l.
Proof.
  induction 1 as [|x l Hx _ IH]; cbn [fmap list_fmap concat]; [cbn; lia|].
  rewrite zlen_app, zlen_cons, Hx. fold (f <$> l). rewrite IH. lia.
Qed.

Lemma zlen_snapshot_bytes s : snapshot_ok s ->
  zlen (snapshot_bytes s) = 12 + zlen (mStringBuffer s) + 32 * zlen (mObjectIDs s) + 68 * zlen (mFiles s).
Proof.
  intros Hok. unfold snapshot_bytes. rewrite !zlen_app, !zlen_le_bytes.
  assert (zlen (concat (mObjectIDs s)) = 32 * zlen (mObjectIDs s)) as ->.
  { rewrite <-(list_fmap_id (mObjectIDs s)) at 1. apply zlen_concat_const, Hok. }
  rewrite (zlen_concat_const _ 68); [change (Z.of_nat 4) with 4; lia|].
  eapply Forall_impl; [apply (ok_entries _ Hok)|]. intros e He. unfold entry_bytes, entry_writes. cbn [concat].
  rewrite !zlen_app, !zlen_le_bytes, (ok_md5 _ _ He). reflexivity.
Qed.

Lemma save_entries_chunks {Out} `{OutputStream Out} m : forall o : Out,
  save_entries o m = write_all o (concat ((fun e => entry_writes e.2) <$> m)).
Proof.
  induction m as [|[k fe] m IH]; intros o; [done|]. cbn [save_entries fmap list_fmap concat].
  rewrite write_all_app. cbn [snd]. destruct (write_all o (entry_writes fe)); [|done..].
  cbn [mbind result_bind]. apply IH.
Qed.

(** [save] writes the format above, in pieces. *)
Lemma save_chunks {Out} `{OutputStream Out} s (o : Out) : snapshot_ok s ->
  exists chunks, concat chunks = snapshot_bytes s /\ save s o = write_all o chunks.
Proof.
  intros [(Hmod & Hlt & _) _ _ _ _ _ _]. pose proof (zlen_nonneg (mStringBuffer s)).
  exists ([le_bytes 4 (zlen (mFiles s)); le_bytes 4 ((zlen (mStringBuffer s) + 3) / 4);
           le_bytes 4 (zlen (mObjectIDs s)); mStringBuffer s] ++ mObjectIDs s ++
          concat ((fun e => entry_writes e.2) <$> mFiles s)).
  assert ((zlen (mStringBuffer s) + 3) / 4 = zlen (mStringBuffer s) / 4) as Hdiv.
  { Z.div_mod_to_equations. lia. }
  split.
  - rewrite Hdiv. cbn [app concat]. rewrite concat_app. unfold snapshot_bytes, entry_bytes. do 5 f_equal.
    induction (mFiles s) as [|e m IH]; [done|]. cbn [fmap list_fmap concat]. by rewrite concat_app, IH.
  - unfold save. rewrite land_not3 by lia.
    replace ((zlen (mStringBuffer s) + 3) / 4 * 4) with (zlen (mStringBuffer s)) by (Z.div_mod_to_equations; lia).
    rewrite Z.eqb_refl. cbn [negb app write_all]. unfold writeType.
    destruct (write o _) as [o1| | |]; [|done..]. cbn [mbind result_bind].
    destruct (write o1 _) as [o2| | |]; [|done..]. cbn [mbind result_bind].
    destruct (write o2 _) as [o3| | |]; [|done..]. cbn [mbind result_bind].
    destruct (write o3 _) as [o4| | |]; [|done..]. cbn [mbind result_bind].
    rewrite write_all_app. destruct (write_all o4 _) as [o5| | |]; [|done..]. cbn [mbind result_bind].
    apply save_entries_chunks.
Qed.

(** ** Rebuilding the string table *)

Lemma leading_nuls_range l : 0 <= leading_nuls l <= zlen l.
Proof. induction l as [|b l IH]; simpl; [lia|]. case_decide; pose proof (zlen_nonneg l); lia. Qed.

Lemma skip_nuls_readable b l : skip_nuls (Some b) l = Ret (leading_nuls l).
Proof. induction l as [|c l IH]; cbn [skip_nuls leading_nuls]; [done|]. case_decide; [|done]. by rewrite IH. Qed.

(** It stops before the end, or reads the byte after it. *)
Lemma skip_nuls_cases after l : skip_nuls after l = Ret (leading_nuls l) /\ (after = None -> zdrop (leading_nuls l) l <> []) \/
  after = None /\ skip_nuls after l = Undef.
Proof.
  destruct after as [b|]; [left; split; [apply skip_nuls_readable|done]|].
  induction l as [|c l IH]; cbn [skip_nuls leading_nuls]; [by right|]. case_decide; [|by left].
  pose proof (leading_nuls_range l). destruct IH as [[-> Hn]|[_ ->]]; [left|by right]. split; [done|].
  intros _. rewrite zdrop_drop. replace (Z.to_nat (1 + leading_nuls l)) with (S (Z.to_nat (leading_nuls l))) by lia.
  cbn [drop]. rewrite <-zdrop_drop. by apply Hn.
Qed.

Lemma scan_strings_spec b l fuel : forall p t, buffer_ok l -> 0 <= p <= zlen l ->
  zlen l - p <= Z.of_nat fuel -> table_ok l t ->
  exists t', scan_strings (Some b) fuel (zdrop p l) p t = Ret t' /\ table_ok l t'.
Proof.
  induction fuel as [|fuel IH]; intros p t Hl Hp Hf Ht; cbn [scan_strings]; rewrite zlen_zdrop by lia;
    (destruct (Z.ltb_spec 0 (Z.max 0 (zlen l - p))); [|by exists t]); [lia|].
  destruct (buffer_string l p Hl) as (str & [_ Hc] & _); [lia|]. rewrite Hc. cbn [or_undef mbind result_bind].
  destruct (cstring_split _ _ Hc) as (rest & Erest & _).
  assert (zlen str + 1 <= zlen l - p) as Hle.
  { apply (f_equal zlen) in Erest. rewrite zlen_zdrop, zlen_app, zlen_cons in Erest by lia.
    pose proof (zlen_nonneg rest). lia. }
  pose proof (zlen_nonneg str). pose proof Hl as (_ & Hlt & _). rewrite swrap_small by lia.
  rewrite skip_nuls_readable. cbn [mbind result_bind]. rewrite (zdrop_zdrop (zlen str + 1) p) by lia.
  pose proof (leading_nuls_range (zdrop (p + (zlen str + 1)) l)) as Hk. rewrite zlen_zdrop in Hk by lia.
  rewrite zdrop_zdrop by lia. rewrite !Z.add_assoc in *.
  apply IH; try done; try lia.
  destruct Ht as [Hs Hf']. split; [by apply assign_sorted|].
  assert (string_at l p str) as Hat by (split; [lia|exact Hc]). by apply assign_Forall.
Qed.

(** ** Reading the format *)

Section LoadSpec.
Context {In} `{InputStreamSpec In}.

Lemma load_ids_spec ids : forall (i : In) rest, valid i ->
  Forall (fun id => zlen id = SHA256_DIGEST_LENGTH) ids -> contents i = concat ids ++ rest ->
  exists i', load_ids (length ids) i = Ret (ids, i') /\ valid i' /\ contents i' = rest.
Proof.
  induction ids as [|id ids IH]; intros i rest Hv Hl Hc; cbn [load_ids length concat] in *; [by exists i|].
  apply Forall_cons in Hl as [Hid Hl]. rewrite <-app_assoc in Hc.
  destruct (readExpected_app i id (concat ids ++ rest) Hv) as (i1 & E & V1 & C1 & _); [by rewrite Hid|done|].
  rewrite Hid in E. rewrite E. cbn [mbind result_bind].
  destruct (IH i1 rest V1 Hl C1) as (i' & -> & R). cbn [mbind result_bind]. by exists i'.
Qed.

(** Reads the next member of an entry. *)
Ltac read_member Hc :=
  match type of Hc with
  | contents ?i = le_bytes ?n ?v ++ ?rest =>
      let i' := fresh "i" in let E := fresh "E" in let V := fresh "V" in let C := fresh "C" in
      destruct (readType_le i n v rest) as (i' & E & V & C & _); [assumption|lia|exact Hc|];
      rewrite E; cbn [mbind result_bind]; clear E Hc; rename C into Hc
  end.

Lemma load_entry_spec s fe (i : In) rest : valid i -> entry_ok s fe -> snapshot_ok s ->
  contents i = entry_bytes fe ++ rest ->
  exists i', load_entry i = Ret (fe, i') /\ valid i' /\ contents i' = rest.
Proof.
  intros Hv Hfe [(_ & Hlt & _) _ _ Hn _ _ _] Hc. unfold load_entry.
  pose proof (ok_md5 _ _ Hfe) as Hmd. destruct Hfe.
  unfold entry_bytes, entry_writes in Hc. cbn [concat] in Hc. rewrite app_nil_r, <-!app_assoc in Hc.
  do 12 read_member Hc.
  match type of Hc with contents ?i = _ ++ ?r =>
    destruct (readExpected_app i (fmd5 fe) r) as (i13 & E & V13 & C13 & _);
      [assumption|by rewrite Hmd|exact Hc|] end.
  rewrite Hmd in E. rewrite E. cbn [mbind result_bind]. clear Hc. do 3 read_member C13.
  eexists. split; [|split; [eassumption|exact C13]].
  assert (swrap 64 (mtime fe mod 256 ^ Z.of_nat 8) = mtime fe) as ->.
  { unfold swrap. change (256 ^ Z.of_nat 8) with (2 ^ 64). rewrite Zplus_mod_idemp_l.
    rewrite Z.mod_small by lia. lia. }
  rewrite !Z.mod_small by lia. by destruct fe.
Qed.

Lemma load_entries_spec s m : snapshot_ok s -> forall (i : In) rest s0, valid i ->
  Forall (fun e => entry_ok s e.2) m -> Forall (fun e => entry_path s e.2 = Ret e.1) m ->
  mStringBuffer s0 = mStringBuffer s ->
  contents i = concat ((fun e => entry_bytes e.2) <$> m) ++ rest ->
  exists i', load_entries (length m) s0 i =
    Ret ({| mStringTable := mStringTable s0; mStringBuffer := mStringBuffer s0; mObjectIDs := mObjectIDs s0;
            mFiles := foldl (fun m e => map_assign e.1 e.2 m) (mFiles s0) m |}, i') /\
    valid i' /\ contents i' = rest.
Proof.
  intros Hok. induction m as [|[k fe] m IH]; intros i rest s0 Hv He Hk Hs Hc; cbn [load_entries length].
  - exists i. by destruct s0.
  - apply Forall_cons in He as [Hfe He], Hk as [Hkfe Hk]. cbn [fmap list_fmap concat] in Hc.
    rewrite <-app_assoc in Hc. cbn [fst snd] in *.
    destruct (load_entry_spec s fe i _ Hv Hfe Hok Hc) as (i1 & -> & V1 & C1). cbn [mbind result_bind].
    assert (entry_path s0 fe = Ret k) as ->.
    { rewrite <-Hkfe. unfold entry_path, indexToString. by rewrite Hs. }
    cbn [mbind result_bind].
    match goal with |- context [load_entries _ ?x _] => destruct (IH i1 rest x V1 He Hk Hs C1)
      as (i' & -> & R) end.
    by exists i'.
Qed.

(** *** Any bytes *)

(** [m] consumes [k] bytes of a stream that has them, and throws if it has not. *)
Definition parses {A} (m : In -> result (A * In)) (k : Z) : Prop := forall i, valid i ->
  match m i with
  | Ret (_, i') => valid i' /\ k <= zlen (contents i) /\ contents i' = zdrop k (contents i)
  | Throw e => e = ShortReadException /\ zlen (contents i) < k
  | _ => False
  end.

Lemma parses_ret {A} (a : A) : parses (fun i => Ret (a, i)) 0.
Proof. intros i Hi. split; [done|]. split; [apply zlen_nonneg|]. by rewrite zdrop_nonpos. Qed.

Lemma parses_bind {A B} k1 k2 (m : In -> result (A * In)) (f : A -> In -> result (B * In)) : 0 <= k1 -> 0 <= k2 ->
  parses m k1 -> (forall a, parses (f a) k2) -> parses (fun i => '(a, i) ← m i; f a i) (k1 + k2).
Proof.
  intros H1 H2 Hm Hf i Hi. specialize (Hm i Hi). destruct (m i) as [[a i1]|e| |]; cbn [mbind result_bind]; [|split; [tauto|lia]|done..].
  destruct Hm as (V1 & L1 & C1). specialize (Hf a i1 V1). rewrite C1, zlen_zdrop in Hf by lia.
  destruct (f a i1) as [[b i2]|e| |]; [|split; [tauto|lia]|done..].
  destruct Hf as (V2 & L2 & C2). split; [done|]. split; [lia|]. by rewrite C2, zdrop_zdrop by lia.
Qed.

Lemma parses_readExpected n : 0 <= n < 2 ^ 63 -> parses (fun i => readExpected i n) n.
Proof.
  intros Hn i Hi. destruct (Z.le_gt_cases n (zlen (contents i))) as [Hl|Hl].
  - destruct (readExpected_spec i n Hi Hn Hl) as (i' & -> & V & C & _). by split.
  - by rewrite readExpected_short by (done || lia).
Qed.

Lemma parses_readType n : (n <= 8)%nat -> parses (readType n) (Z.of_nat n).
Proof.
  intros Hn. rewrite <-(Z.add_0_r (Z.of_nat n)). apply parses_bind; [lia|lia|apply parses_readExpected; lia|].
  intros b. apply parses_ret.
Qed.

(** The next member, of [n] bytes. *)
Ltac parse_member n :=
  match goal with |- parses _ ?k =>
    let k' := eval cbv in (k - n) in change k with (n + k');
    apply (parses_bind n k'); [done|done| |intros ?]
  end.

Lemma parses_load_entry : parses load_entry 68.
Proof.
  unfold load_entry.
  do 4 (parse_member 4; [by apply (parses_readType 4); lia|]). parse_member 2; [by apply (parses_readType 2); lia|].
  do 4 (parse_member 1; [by apply (parses_readType 1); lia|]). parse_member 2; [by apply (parses_readType 2); lia|].
  do 2 (parse_member 8; [by apply (parses_readType 8); lia|]). parse_member 16; [by apply parses_readExpected|].
  do 3 (parse_member 4; [by apply (parses_readType 4); lia|]). apply parses_ret.
Qed.

(** The bytes that were read. *)
Lemma readExpected_any n (i : In) : 0 <= n < 2 ^ 63 -> valid i ->
  match readExpected i n with
  | Ret (b, i') => b = ztake n (contents i) /\ valid i' /\ n <= zlen (contents i) /\ contents i' = zdrop n (contents i)
  | Throw e => e = ShortReadException
  | _ => False
  end.
Proof.
  intros Hn Hi. destruct (Z.le_gt_cases n (zlen (contents i))) as [Hl|Hl].
  - by destruct (readExpected_spec i n Hi Hn Hl) as (i' & -> & V & C & _).
  - by rewrite readExpected_short by (done || lia).
Qed.

Lemma readType_any n (i : In) : (n <= 8)%nat -> valid i ->
  match readType n i with
  | Ret (v, i') => v = le_val (ztake (Z.of_nat n) (contents i)) /\ valid i' /\ Z.of_nat n <= zlen (contents i) /\
      contents i' = zdrop (Z.of_nat n) (contents i)
  | Throw e => e = ShortReadException
  | _ => False
  end.
Proof.
  intros Hn Hi. pose proof (readExpected_any (Z.of_nat n) i ltac:(lia) Hi) as R. unfold readType.
  destruct (readExpected i (Z.of_nat n)) as [[b i']|e| |]; [|done..]. by destruct R as [-> R].
Qed.

Lemma parses_load_ids n : parses (load_ids n) (Z.of_nat n * SHA256_DIGEST_LENGTH).
Proof.
  induction n as [|n IH]; [apply parses_ret|]. cbn [load_ids].
  replace (Z.of_nat (S n) * SHA256_DIGEST_LENGTH) with (SHA256_DIGEST_LENGTH + (Z.of_nat n * SHA256_DIGEST_LENGTH + 0))
    by (unfold SHA256_DIGEST_LENGTH; lia).
  apply parses_bind; [done|unfold SHA256_DIGEST_LENGTH; lia|by apply parses_readExpected|]. intros id.
  apply parses_bind; [unfold SHA256_DIGEST_LENGTH; lia|done|done|]. intros ids. apply parses_ret.
Qed.

Lemma length_load_ids n : forall (i : In) ids i', load_ids n i = Ret (ids, i') -> length ids = n.
Proof.
  induction n as [|n IH]; intros i ids i' E; cbn [load_ids] in E; [by injection E as <- <-|].
  apply bind_Ret in E as ([id i1] & _ & E). apply bind_Ret in E as ([ids1 i2] & E1 & E). injection E as <- <-.
  cbn [length]. f_equal. by eapply IH.
Qed.

(** A string table whose last string ends. *)
Definition terminated (l : bytes) : Prop := l = [] \/ last l = Some Byte.x00.

Lemma terminated_zdrop l n : terminated l -> zdrop n l <> [] -> is_Some (cstring (zdrop n l)).
Proof.
  intros [->|Hl] Hn; [by rewrite zdrop_nil in Hn|]. apply cstring_terminated; [done|]. by apply zdrop_last.
Qed.

Lemma entry_path_any s fe : match entry_path s fe with
  | Ret _ => True
  | Throw e => e = IndexOutOfBoundException
  | Undef => ~ terminated (mStringBuffer s)
  | NoFuel => False
  end.
Proof.
  assert (forall n, match indexToString s n with Ret _ => True | Throw e => e = IndexOutOfBoundException
    | Undef => ~ terminated (mStringBuffer s) | NoFuel => False end) as Hi.
  { intros n. unfold indexToString. destruct (Z.ltb_spec (swrap 32 n) 0); [done|].
    destruct (Z.leb_spec (zlen (mStringBuffer s)) (swrap 32 n)); [done|]. cbn [orb].
    destruct (cstring _) eqn:Ec; [done|]. intros Ht. destruct (terminated_zdrop _ (swrap 32 n) Ht) as [str Es]; [|congruence].
    intros E. apply (f_equal zlen) in E. rewrite zlen_zdrop in E by lia. cbn in E. lia. }
  unfold entry_path. pose proof (Hi (pathIndex fe)) as H1. pose proof (Hi (nameIndex fe)) as H2.
  destruct (indexToString s (pathIndex fe)); [|done..]. cbn [mbind result_bind].
  by destruct (indexToString s (nameIndex fe)).
Qed.

(** The table of any bytes: the loop ends within its bound, and always reads the
    byte after a table that is not empty. *)
Lemma scan_strings_any after fuel : forall l p t, (length l <= fuel)%nat ->
  match scan_strings after fuel l p t with
  | Ret _ => after = None -> l = []
  | Undef => ~ terminated l \/ after = None /\ l <> []
  | _ => False
  end.
Proof.
  induction fuel as [|fuel IH]; intros l p t Hf; cbn [scan_strings];
    (destruct (Z.ltb_spec 0 (zlen l)) as [Hl|Hl0];
      [|intros _; apply zlen_nil_inv; pose proof (zlen_nonneg l); lia]); [rewrite zlen_length in Hl; lia|].
  assert (l <> []) as Hne by (intros ->; cbn in Hl; lia).
  destruct (cstring l) as [str|] eqn:Ec; cbn [or_undef mbind result_bind].
  2: { left. intros Ht. destruct (terminated_zdrop l 0 Ht) as [str Es]; rewrite zdrop_nonpos in * by lia; [done|congruence]. }
  set (l1 := zdrop (zlen str + 1) l). destruct (skip_nuls_cases after l1) as [[-> Hend]|[-> ->]]; [|by right].
  cbn [mbind result_bind]. set (l' := zdrop (leading_nuls l1) l1) in *.
  pose proof (zlen_nonneg str). pose proof (leading_nuls_range l1) as Hk.
  assert (l' = zdrop (zlen str + 1 + leading_nuls l1) l) as El by (apply zdrop_zdrop; lia).
  assert (terminated l -> terminated l') as Ht.
  { rewrite El. intros [->|Hl']; [left; by rewrite zdrop_nil|].
    destruct (decide (zdrop (zlen str + 1 + leading_nuls l1) l = [])); [by left|right; by apply zdrop_last]. }
  assert (length l' <= fuel)%nat as Hlen.
  { assert (zlen l' <= zlen l - 1); [rewrite El, zlen_zdrop by lia; lia|]. rewrite !zlen_length in *. lia. }
  specialize (IH l' (p + zlen str + 1 + leading_nuls l1) (map_assign str (swrap 32 p) t) Hlen).
  destruct (scan_strings _ _ _ _ _); [|done| |done].
  - intros Ha. exfalso. by apply (Hend Ha), IH.
  - destruct IH as [Hn|[Ha _]]; [left; by intros T; apply Hn, Ht|by right].
Qed.

(** The entries: as many as the header says, as long as there are bytes. *)
Lemma load_entries_any n : forall s (i : In), valid i ->
  match load_entries n s i with
  | Ret (s', i') => valid i' /\ 68 * Z.of_nat n <= zlen (contents i) /\ contents i' = zdrop (68 * Z.of_nat n) (contents i) /\
      mStringBuffer s' = mStringBuffer s /\ mObjectIDs s' = mObjectIDs s
  | Throw e => e = ShortReadException \/ e = IndexOutOfBoundException
  | Undef => ~ terminated (mStringBuffer s)
  | NoFuel => False
  end.
Proof.
  induction n as [|n IH]; intros s i Hi; cbn [load_entries].
  { split; [done|]. split; [apply zlen_nonneg|]. by rewrite zdrop_nonpos. }
  pose proof (parses_load_entry i Hi) as Hp.
  destruct (load_entry i) as [[fe i1]|e| |]; cbn [mbind result_bind]; [|left; tauto|done..]. destruct Hp as (V1 & L1 & C1).
  pose proof (entry_path_any s fe) as Hpath. destruct (entry_path s fe) as [path|e| |]; cbn [mbind result_bind]; [|by right|done..].
  match goal with |- context [load_entries n ?s1 i1] => specialize (IH s1 i1 V1); destruct (load_entries n s1 i1) as [[s' i']|e| |] end;
    [|done..].
  destruct IH as (V & L & C & B & O). rewrite C1, zlen_zdrop in L by lia. split; [done|]. split; [lia|]. split; [|done].
  rewrite C, C1, zdrop_zdrop by lia. f_equal. lia.
Qed.


(** ** What is loaded has the widths of its members *)

(** The members that [load] does not check. *)
Record indices_ok (s : Snapshot) (fe : FileEntry) : Prop := {
  ix_name : 0 <= nameIndex fe < zlen (mStringBuffer s);
  ix_path : 0 <= pathIndex fe < zlen (mStringBuffer s);
  ix_user : 0 <= userIndex fe < zlen (mStringBuffer s);
  ix_group : 0 <= groupIndex fe < zlen (mStringBuffer s);
  ix_ids : 0 <= objectIdIndex fe /\ objectIdIndex fe + objectCount fe <= zlen (mObjectIDs s)
}.

Lemma readExpected_length (i : In) n b i' : readExpected i n = Ret (b, i') -> zlen b = n.
Proof.
  unfold readExpected. intros E. apply bind_Ret in E as ([b1 i1] & _ & E).
  destruct (Z.eqb_spec (zlen b1) n); [|done]. by injection E as <- <-.
Qed.

Lemma readType_range n (i : In) v i' : readType n i = Ret (v, i') -> 0 <= v < 256 ^ Z.of_nat n.
Proof.
  unfold readType. intros E. apply bind_Ret in E as ([b i1] & E1 & E). injection E as <- <-.
  apply readExpected_length in E1. rewrite <-E1. apply le_val_range.
Qed.

Ltac member E Hr :=
  let v := fresh "v" in let i := fresh "i" in let E1 := fresh "E" in
  apply bind_Ret in E as ([v i] & E1 & E); pose proof (readType_range _ _ _ _ E1) as Hr.

Lemma load_entry_ok (i : In) fe i' s : load_entry i = Ret (fe, i') -> indices_ok s fe -> entry_ok s fe.
Proof.
  unfold load_entry. intros E. do 12 (let Hr := fresh "R" in member E Hr).
  apply bind_Ret in E as ([digest i13] & Ed & E). apply readExpected_length in Ed.
  do 3 (let Hr := fresh "R" in member E Hr). injection E as <- <-. intros [].
  change (256 ^ Z.of_nat 1) with (2 ^ 8) in *. change (256 ^ Z.of_nat 2) with (2 ^ 16) in *.
  change (256 ^ Z.of_nat 4) with (2 ^ 32) in *. change (256 ^ Z.of_nat 8) with (2 ^ 64) in *.
  constructor; cbn [nameIndex pathIndex userIndex groupIndex mode compression fsize mtime ftype rollingHashBits
    objectCount fmd5 offset packLength objectIdIndex] in *; try done.
  apply (swrap_range 64). done.
Qed.

Lemma load_entries_ok n : forall s0 (i : In) s' i', load_entries n s0 i = Ret (s', i') ->
  sorted (mFiles s0) -> (forall s, Forall (fun e => indices_ok s e.2 -> entry_ok s e.2) (mFiles s0)) ->
  sorted (mFiles s') /\ (forall s, Forall (fun e => indices_ok s e.2 -> entry_ok s e.2) (mFiles s')) /\
  zlen (mFiles s') <= zlen (mFiles s0) + Z.of_nat n /\ mStringTable s' = mStringTable s0.
Proof.
  induction n as [|n IH]; intros s0 i s' i' E Hs Ho; cbn [load_entries] in E; [injection E as <- <-; split_and!; [done..|lia|done]|].
  apply bind_Ret in E as ([fe i1] & E1 & E). apply bind_Ret in E as (path & _ & E). apply IH in E as (Hs' & Ho' & Hl & Ht).
  - cbn [mFiles mStringTable] in *. pose proof (zlen_assign path fe (mFiles s0)). split; [done|]. split; [done|]. split; [lia|done].
  - by apply assign_sorted.
  - intros s. pose proof (fun Hix => load_entry_ok i fe i1 s E1 Hix) as Hfe. cbn [mFiles]. by apply assign_Forall.
Qed.

Lemma load_entries_parts n : forall s0 (i : In) s' i', load_entries n s0 i = Ret (s', i') ->
  mStringBuffer s' = mStringBuffer s0 /\ mObjectIDs s' = mObjectIDs s0.
Proof.
  induction n as [|n IH]; intros s0 i s' i' E; cbn [load_entries] in E; [by injection E as <- <-|].
  apply bind_Ret in E as ([fe i1] & _ & E). apply bind_Ret in E as (path & _ & E). by apply IH in E.
Qed.

Lemma load_ids_ok n : forall (i : In) ids i', load_ids n i = Ret (ids, i') ->
  Forall (fun id => zlen id = SHA256_DIGEST_LENGTH) ids.
Proof.
  induction n as [|n IH]; intros i ids i' E; cbn [load_ids] in E; [injection E as <- <-; constructor|].
  apply bind_Ret in E as ([id i1] & E1 & E). apply bind_Ret in E as ([ids1 i2] & E2 & E). injection E as <- <-.
  constructor; [by eapply readExpected_length|by eapply IH].
Qed.

(** A table of any bytes that scans is a table of the strings in the buffer. *)
Lemma scan_strings_table after l fuel : forall p t t', buffer_ok l -> 0 <= p <= zlen l ->
  zlen l - p <= Z.of_nat fuel -> table_ok l t -> scan_strings after fuel (zdrop p l) p t = Ret t' -> table_ok l t'.
Proof.
  intros p t t' Hl Hp Hf Ht E. destruct (scan_strings_spec Byte.x00 l fuel p t Hl Hp Hf Ht) as (t2 & E2 & Ht2).
  assert (forall fuel l p t t', scan_strings after fuel l p t = Ret t' ->
    scan_strings (Some Byte.x00) fuel l p t = Ret t') as Hsame.
  { clear. induction fuel as [|fuel IH]; intros l p t t' E; cbn [scan_strings] in *; [done|].
    destruct (0 <? zlen l); [|done]. apply bind_Ret in E as (str & -> & E). cbn [mbind result_bind].
    apply bind_Ret in E as (k & Ek & E). rewrite skip_nuls_readable. cbn [mbind result_bind].
    destruct (skip_nuls_cases after (zdrop (zlen str + 1) l)) as [[E2 _]|[_ E2]]; rewrite E2 in Ek; [|done].
    injection Ek as <-. by apply IH. }
  apply Hsame in E. congruence.
Qed.

(** The parts of a load that returns. *)
Lemma load_in_inv hp s (i : In) s' i' : load_in hp s i = Ret (s', i') -> exists files strings objects buffer table ids i5,
  0 <= files < 2 ^ 32 /\ zlen buffer = uwrap 32 (strings * 4) /\
  scan_strings (after_buffer hp) (length buffer) buffer 0 (mStringTable s) = Ret table /\
  Forall (fun id => zlen id = SHA256_DIGEST_LENGTH) ids /\ zlen ids = objects /\
  load_entries (Z.to_nat files)
    {| mStringTable := table; mStringBuffer := buffer; mObjectIDs := ids; mFiles := mFiles s |} i5 = Ret (s', i').
Proof.
  unfold load_in. intros E. apply bind_Ret in E as ([files i1] & E1 & E). apply bind_Ret in E as ([strings i2] & E2 & E).
  apply bind_Ret in E as ([objects i3] & E3 & E). apply readType_range in E1, E3.
  destruct (can_resize hp _); [cbn [negb] in E|done]. apply bind_Ret in E as ([buffer i4] & E4 & E).
  apply bind_Ret in E as (table & E5 & E). destruct (can_resize hp _); [cbn [negb] in E|done].
  apply bind_Ret in E as ([ids i5] & E6 & E). exists files, strings, objects, buffer, table, ids, i5.
  split; [exact E1|]. split; [by eapply readExpected_length|]. split; [done|]. split; [by eapply load_ids_ok|].
  split; [|done]. apply length_load_ids in E6. rewrite zlen_length, E6. lia.
Qed.

(** Loading into a new snapshot gives a snapshot, if what [load] does not check
    holds. *)
Lemma load_ok hp (i : In) s' i' : load_in hp new_Snapshot i = Ret (s', i') -> terminated (mStringBuffer s') ->
  zlen (mStringBuffer s') < 2 ^ 31 -> zlen (mObjectIDs s') < 2 ^ 31 ->
  Forall (fun e => indices_ok s' e.2) (mFiles s') -> valid i -> snapshot_ok s'.
Proof.
  intros E Ht Hb Hids Hix Hv. destruct (load_in_inv hp _ i s' i' E) as (files & strings & objects & buffer & table & ids & i5 &
    Hfiles & Lb & Et & Hid & _ & Ee).
  destruct (load_entries_ok _ _ _ _ _ Ee) as (Hs & Ho & Hl & Htab); [constructor|intros; constructor|].
  destruct (load_entries_parts _ _ _ _ _ Ee) as [Hbuf Hobj]. cbn [mStringTable mStringBuffer mObjectIDs mFiles new_Snapshot] in *.
  assert (buffer_ok buffer) as Hbok.
  { rewrite Hbuf in Ht, Hb. split; [|by split].
    rewrite Lb. unfold uwrap. replace (2 ^ 32) with (4 * 2 ^ 30) by done.
    rewrite Z.mul_comm, Z.mul_mod_distr_l by done. by rewrite Z.mul_comm, Z_mod_mult. }
  constructor; rewrite ?Hbuf, ?Htab, ?Hobj in *; try done.
  - apply (scan_strings_table (after_buffer hp) buffer (length buffer) 0 []); try done.
    + pose proof (zlen_nonneg buffer). lia.
    + rewrite zlen_length. lia.
    + split; constructor.
    + by rewrite zdrop_nonpos.
  - cbn [zlen] in Hl. lia.
  - specialize (Ho s'). rewrite Forall_forall in *. intros e He. by apply (Ho e He), Hix.
Qed.

(** Loading what was saved: the same files, strings and objects. *)
Lemma load_spec s (i : In) rest : snapshot_ok s -> keyed s -> valid i ->
  contents i = snapshot_bytes s ++ rest ->
  exists i' t, load new_Snapshot i = Ret ({| mStringTable := t; mStringBuffer := mStringBuffer s;
      mObjectIDs := mObjectIDs s; mFiles := mFiles s |}, i') /\
    table_ok (mStringBuffer s) t /\ valid i' /\ contents i' = rest.
Proof.
  intros Hok Hkey Hv Hc. unfold load, load_in. pose proof Hok as [Hbuf Htab Hobj Hnobj Hsort Hnf Hent].
  pose proof Hbuf as (Hmod & Hlt & _). pose proof (zlen_nonneg (mStringBuffer s)).
  pose proof (zlen_nonneg (mFiles s)). pose proof (zlen_nonneg (mObjectIDs s)).
  unfold snapshot_bytes in Hc. rewrite <-!app_assoc in Hc. do 3 read_member Hc.
  change (256 ^ Z.of_nat 4) with (2 ^ 32). rewrite !(Z.mod_small _ (2 ^ 32)) by (Z.div_mod_to_equations; lia).
  replace (zlen (mStringBuffer s) / 4 * 4) with (zlen (mStringBuffer s)) by (Z.div_mod_to_equations; lia).
  rewrite uwrap_small by lia.
  match type of Hc with contents ?i = _ ++ ?r =>
    destruct (readExpected_app i (mStringBuffer s) r) as (j & -> & Vj & Cj & _);
      [assumption|lia|exact Hc|] end. cbn [can_resize after_buffer large_heap negb mbind result_bind].
  destruct (scan_strings_spec Byte.x00 (mStringBuffer s) (length (mStringBuffer s)) 0 [] Hbuf) as (t & Et & Ht).
  { lia. } { rewrite zlen_length. lia. } { split; constructor. }
  rewrite zdrop_nonpos in Et by lia. cbn [mStringTable new_Snapshot]. rewrite Et. cbn [mbind result_bind].
  rewrite !to_nat_zlen.
  destruct (load_ids_spec (mObjectIDs s) j _ Vj Hobj Cj) as (j1 & -> & Vj1 & Cj1). cbn [mbind result_bind].
  match goal with |- context [load_entries _ ?x _] =>
    destruct (load_entries_spec s (mFiles s) Hok j1 rest x Vj1 Hent Hkey eq_refl Cj1) as (j2 & -> & Vj2 & Cj2) end.
  exists j2, t. cbn [mStringTable mStringBuffer mObjectIDs mFiles new_Snapshot].
  rewrite (assign_rebuild (mFiles s) []) by done. done.
Qed.
End LoadSpec.

(** Another table of the same strings. *)
Lemma snapshot_ok_table s t : snapshot_ok s -> table_ok (mStringBuffer s) t ->
  snapshot_ok {| mStringTable := t; mStringBuffer := mStringBuffer s; mObjectIDs := mObjectIDs s;
                 mFiles := mFiles s |}.
Proof.
  intros [] Ht. constructor; cbn [mStringBuffer mStringTable mObjectIDs mFiles]; try done.
  eapply Forall_impl; [eassumption|]. intros e []. by constructor.
Qed.

(** ** Walking a directory *)

(** The entries of [m] up to the first one whose path is not below [search]. *)
Fixpoint leading_under (search : bytes) (m : smap FileEntry) : smap FileEntry :=
  match m with
  | [] => []
  | e :: m => if under_path search e.1 then e :: leading_under search m else []
  end.

Definition is_prefix (p k : bytes) : Prop := ztake (zlen p) k = p.

Lemma visit_from_spec s search m : Forall (fun e => entry_path s e.2 = Ret e.1) m ->
  visit_from s search m = Ret ((leading_under search m).*2).
Proof.
  induction 1 as [|[k fe] m Hk Hm IH]; [done|]. cbn [visit_from leading_under]. cbn [fst snd] in *.
  rewrite Hk. cbn [mbind result_bind]. rewrite IH. by destruct (under_path search k).
Qed.

Lemma is_prefix_cons b p k : is_prefix (b :: p) k <-> exists k', k = b :: k' /\ is_prefix p k'.
Proof.
  unfold is_prefix. pose proof (zlen_nonneg p). destruct k as [|c k]; cbn [ztake].
  - split; [done|]. intros (k' & ? & _). done.
  - rewrite zlen_cons. destruct (Z.leb_spec (1 + zlen p) 0); [lia|].
    replace (1 + zlen p - 1) with (zlen p) by lia. split.
    + intros [= -> E]. by exists k.
    + intros (k' & [= -> ->] & ->). done.
Qed.

Lemma is_prefix_nil k : is_prefix [] k.
Proof. unfold is_prefix. by apply ztake_nonpos. Qed.

(** The keys with a prefix are contiguous in the order. *)
Lemma prefix_between p : forall a b, ~ bytes_lt a p -> bytes_lt a b -> is_prefix p b -> is_prefix p a.
Proof.
  induction p as [|x p IH]; intros a b Ha Hab Hb; [apply is_prefix_nil|].
  apply is_prefix_cons in Hb as (b' & -> & Hb). apply is_prefix_cons.
  destruct a as [|y a]; [by destruct Ha|]. unfold bytes_lt in *. simpl in *.
  destruct (Z.compare_spec (b2z y) (b2z x)) as [E|E|E].
  - apply b2z_inj in E as ->. exists a. split; [done|]. by eapply IH.
  - done.
  - done.
Qed.

Lemma prefix_not_below p : forall a, is_prefix p a -> ~ bytes_lt a p.
Proof.
  induction p as [|x p IH]; intros a Ha Hlt.
  - unfold bytes_lt in Hlt. by destruct a.
  - apply is_prefix_cons in Ha as (a' & -> & Ha). unfold bytes_lt in *. simpl in Hlt.
    rewrite Z.compare_refl in Hlt. by apply (IH a' Ha).
Qed.

Lemma under_prefix search k : under_path search k = true -> is_prefix search k.
Proof. unfold under_path. intros H. apply andb_true_iff in H as [H _]. by apply bool_decide_eq_true in H. Qed.

Lemma leading_under_sound search m :
  Forall (fun e => under_path search e.1 = true /\ e ∈ m) (leading_under search m).
Proof.
  induction m as [|e m IH]; cbn [leading_under]; [constructor|].
  destruct (under_path search e.1) eqn:E; constructor.
  - split; [done|by left].
  - eapply Forall_impl; [exact IH|]. intros e' [? ?]. split; [done|by right].
Qed.

Lemma filter_none search (m : smap FileEntry) : Forall (fun e => under_path search e.1 <> true) m ->
  List.filter (fun e => under_path search e.1) m = [].
Proof. induction 1 as [|e m He Hm IH]; [done|]. cbn [List.filter]. by destruct (under_path search e.1). Qed.

Lemma leading_under_filter search m : sorted m -> Forall (fun e => ~ bytes_lt e.1 search) m ->
  Forall (fun e => is_prefix search e.1 -> under_path search e.1 = true) m ->
  leading_under search m = List.filter (fun e => under_path search e.1) m.
Proof.
  induction m as [|[k fe] m IH]; intros Hs Hge Hsib; [done|].
  apply sorted_cons in Hs as [Hs Hlt]. apply Forall_cons in Hge as [Hk Hge], Hsib as [Hksib Hsib].
  cbn [leading_under List.filter fst]. destruct (under_path search k) eqn:E.
  - f_equal. by apply IH.
  - symmetry. apply filter_none. rewrite Forall_forall in *.
    intros e He E'. apply under_prefix in E'. cbn [fst] in *. rewrite Hksib in E; [done|].
    eapply prefix_between; [exact Hk| |exact E']. by apply Hlt.
Qed.

Lemma filter_none_below search (m : smap FileEntry) : Forall (fun e => bytes_lt e.1 search) m ->
  List.filter (fun e => under_path search e.1) m = [].
Proof.
  intros H. apply filter_none. eapply Forall_impl; [exact H|]. intros e He E.
  apply under_prefix in E. by apply (prefix_not_below _ _ E).
Qed.

(** * Properties of the component *)

(** The states of a snapshot under its operations. *)
Inductive snapshot_reach `{Paths} : Snapshot -> Prop :=
  | reach_empty : snapshot_reach new_Snapshot
  | reach_add s path user group type md comp sz mt bits digest off packLen ids s' :
      snapshot_reach s -> add_args s path user group md sz mt bits digest off packLen ids ->
      addFileEntry s path user group type md comp sz mt bits digest off packLen ids = Ret s' ->
      snapshot_reach s'
  | reach_delete s path : snapshot_reach s -> snapshot_reach (deleteFileEntry s path)
  | reach_load s In (HI : InputStream In) (HS : InputStreamSpec In) (i i' : In) rest s' :
      snapshot_reach s -> keyed s -> valid i -> contents i = snapshot_bytes s ++ rest ->
      load new_Snapshot i = Ret (s', i') -> snapshot_reach s'
  | reach_load_any hp In (HI : InputStream In) (HS : InputStreamSpec In) (i i' : In) s' :
      valid i -> load_in hp new_Snapshot i = Ret (s', i') ->
      terminated (mStringBuffer s') -> zlen (mStringBuffer s') < 2 ^ 31 -> zlen (mObjectIDs s') < 2 ^ 31 ->
      Forall (fun e => indices_ok s' e.2) (mFiles s') -> snapshot_reach s'.

Section Properties.
Context `{PathsSpec}.

(** C19: loading what [save] wrote gives back the same files under the same
    paths, the same strings and the same objects, from any stream and whatever
    follows; the loaded state is well-formed again. *)
Theorem snapshot_roundtrip {In Out} `{InputStreamSpec In} `{OutputStreamSpec Out} s (o : Out) (i : In) rest
    (Hok : snapshot_ok s) (Hkey : keyed s) (Ho : ovalid o) (Hf : fits o (zlen (snapshot_bytes s)))
    (Hi : valid i) (Hc : contents i = snapshot_bytes s ++ rest) :
  (exists o', save s o = Ret o' /\ written o' = written o ++ snapshot_bytes s) /\
  exists s' i', load new_Snapshot i = Ret (s', i') /\ contents i' = rest /\ snapshot_ok s' /\ keyed s' /\
    mFiles s' = mFiles s /\ mObjectIDs s' = mObjectIDs s /\
    (forall n, indexToString s' n = indexToString s n) /\ forall path, getFileEntry s' path = getFileEntry s path.
Proof.
  split.
  - destruct (save_chunks s o Hok) as (chunks & Ec & ->). rewrite <-Ec in *.
    destruct (write_all_spec chunks o 0) as (o' & E & _ & W & _); [done|done|by rewrite Z.add_0_r|]. eauto.
  - destruct (load_spec s i rest Hok Hkey Hi Hc) as (i' & t & E & Ht & _ & Cr).
    eexists _, i'. split; [exact E|]. split; [exact Cr|]. split; [by apply snapshot_ok_table|].
    split; [exact Hkey|]. done.
Qed.

(** The bytes of the string table in a saved snapshot. *)
Definition string_table (l : bytes) : bytes :=
  ztake (uwrap 32 (le_val (ztake 4 (zdrop 4 l)) * 4)) (zdrop 12 l).

(** C20: loading from any bytes, of a stream of any kind of less than 64 GB, into
    any snapshot and on any heap, ends.  If it returns then exactly the bytes that
    the header announces were read, the string table, 32 bytes of every object and
    68 of every file, so no header makes a snapshot that is larger than the input,
    and the counters of the loops, of type [int], did not overflow.  It throws only
    because the input is too short, because an index of an entry is out of range,
    or because a vector cannot be resized to what the header says.  Its behaviour
    is undefined only for a string table that does not end with a NUL, which it
    does not check, and because it reads the byte after the table, which it does
    for every table that is not empty: it returns only if that byte can be read. *)
Theorem load_terminates {In} `{InputStreamSpec In} hp s (i : In) (Hi : valid i) (Hlen : zlen (contents i) < 2 ^ 36) :
  match load_in hp s i with
  | Ret (s', i') =>
      valid i' /\ mStringBuffer s' = string_table (contents i) /\
      zlen (mObjectIDs s') = le_val (ztake 4 (zdrop 8 (contents i))) /\
      12 + zlen (mStringBuffer s') + 32 * zlen (mObjectIDs s') + 68 * le_val (ztake 4 (contents i)) + zlen (contents i') =
        zlen (contents i) /\
      zlen (mObjectIDs s') < 2 ^ 31 /\ le_val (ztake 4 (contents i)) < 2 ^ 31 /\
      (after_buffer hp = None -> string_table (contents i) = [])
  | Throw e => e = ShortReadException \/ e = IndexOutOfBoundException \/
      e = bad_alloc /\ exists n, can_resize hp n = false
  | Undef => ~ terminated (string_table (contents i)) \/ after_buffer hp = None /\ string_table (contents i) <> []
  | NoFuel => False
  end.
Proof.
  unfold load_in, string_table. pose proof (readType_any 4 i ltac:(lia) Hi) as R1.
  destruct (readType 4 i) as [[files i1]|e| |]; cbn [mbind result_bind]; [|by left|done..]. destruct R1 as (-> & V1 & L1 & C1).
  pose proof (readType_any 4 i1 ltac:(lia) V1) as R2.
  destruct (readType 4 i1) as [[strings i2]|e| |]; cbn [mbind result_bind]; [|by left|done..]. destruct R2 as (-> & V2 & L2 & C2).
  pose proof (readType_any 4 i2 ltac:(lia) V2) as R3.
  destruct (readType 4 i2) as [[objects i3]|e| |]; cbn [mbind result_bind]; [|by left|done..]. destruct R3 as (-> & V3 & L3 & C3).
  change (Z.of_nat 4) with 4 in *. rewrite C1 in C2. rewrite C2 in C3. rewrite zdrop_zdrop in C2 by lia. rewrite C1.
  change (4 + 4) with 8 in *. rewrite zdrop_zdrop, zdrop_zdrop in C3 by lia. change (4 + (4 + 4)) with 12 in *. rewrite C2.
  rewrite C2, zlen_zdrop in L3 by lia.
  set (n := uwrap 32 _). assert (0 <= n < 2 ^ 32) as Hn by (by apply uwrap_range).
  destruct (can_resize hp n) eqn:Hrn; cbn [negb]; [|right; right; eauto].
  pose proof (readExpected_any n i3 ltac:(lia) V3) as R4.
  destruct (readExpected i3 n) as [[buffer i4]|e| |]; cbn [mbind result_bind]; [|by left|done..].
  destruct R4 as (Eb & V4 & L4 & C4). rewrite C3 in Eb, L4, C4. rewrite zlen_zdrop in L4 by lia. rewrite <-Eb.
  pose proof (scan_strings_any (after_buffer hp) (length buffer) buffer 0 (mStringTable s) ltac:(lia)) as R5.
  destruct (scan_strings _ _ _ _ _) as [table|e| |]; cbn [mbind result_bind]; [|done..].
  set (k := le_val (ztake 4 (zdrop 8 (contents i)))). pose proof (le_val_range (ztake 4 (zdrop 8 (contents i)))) as Hk. fold k in Hk.
  destruct (can_resize hp (k * SHA256_DIGEST_LENGTH)) eqn:Hrk; cbn [negb]; [|right; right; eauto].
  pose proof (parses_load_ids (Z.to_nat k) i4 V4) as R6. rewrite Z2Nat.id in R6 by lia.
  destruct (load_ids (Z.to_nat k) i4) as [[ids i5]|e| |] eqn:E6; cbn [mbind result_bind]; [|left; tauto|done..].
  destruct R6 as (V5 & L5 & C5). apply length_load_ids in E6.
  pose proof (le_val_range (ztake 4 (contents i))) as Hf.
  pose proof (load_entries_any (Z.to_nat (le_val (ztake 4 (contents i))))
    {| mStringTable := table; mStringBuffer := buffer; mObjectIDs := ids; mFiles := mFiles s |} i5 V5) as R7.
  destruct (load_entries _ _ _) as [[s' i6]|e| |]; [|tauto|by left|done]. cbn [mStringBuffer mObjectIDs] in R7.
  rewrite Z2Nat.id in R7 by lia. destruct R7 as (V6 & L6 & C6 & -> & ->).
  assert (zlen ids = k) as Hids by (rewrite zlen_length, E6; lia).
  split; [done|]. split; [done|]. split; [done|].
  rewrite C6, zlen_zdrop by lia. rewrite Hids, Eb, zlen_ztake, zlen_zdrop by lia.
  apply (f_equal zlen) in C4, C5. rewrite zlen_zdrop in C4, C5 by (unfold SHA256_DIGEST_LENGTH; lia).
  rewrite zlen_zdrop in C4 by lia. unfold SHA256_DIGEST_LENGTH in *. rewrite <-Eb.
  match goal with |- ?a = ?b /\ _ => assert (a = b) as Hsum by lia end. split; [exact Hsum|]. split; [lia|]. by split; [lia|].
Qed.

(** C21: [addFileEntry] files an entry that describes exactly its arguments:
    the four strings, the object identifiers, and the other members; every other
    path keeps its entry.  A path that is there already keeps its old entry.
    More than 65535 objects are refused. *)
Theorem addFileEntry_correct s path user group type md comp sz mt bits digest off packLen ids
    (Hok : snapshot_ok s) (Ha : add_args s path user group md sz mt bits digest off packLen ids) :
  if zlen ids <=? 65535 then
    exists s', addFileEntry s path user group type md comp sz mt bits digest off packLen ids = Ret s' /\
      snapshot_ok s' /\
      (forall path', path' <> path -> getFileEntry s' path' = getFileEntry s path') /\
      (forall old, getFileEntry s path = Some old -> getFileEntry s' path = Some old) /\
      (getFileEntry s path = None -> exists fe, getFileEntry s' path = Some fe /\
         describes s' fe (filename path) (parent_path path) user group ids /\
         fsize fe = sz /\ fmd5 fe = ztake MD5_DIGEST_LENGTH digest /\ compression fe = compression_code comp /\
         offset fe = off /\ packLength fe = packLen /\ ftype fe = FileType_code type /\ mode fe = md /\ mtime fe = mt /\
         rollingHashBits fe = bits)
  else addFileEntry s path user group type md comp sz mt bits digest off packLen ids
         = Throw InvalidArgumentException.
Proof.
  destruct (Z.leb_spec (zlen ids) 65535) as [Hl|Hl]; [|by apply addFileEntry_too_many].
  destruct (addFileEntry_spec s path user group type md comp sz mt bits digest off packLen ids Hok Ha Hl)
    as (s' & fe & E & Hok' & Hm & _ & _ & D & R1 & R2 & R3 & R4 & R5 & R6 & R7 & R8 & R9 & _).
  pose proof (ok_sorted _ Hok) as Hs. exists s'. unfold getFileEntry. rewrite Hm.
  split; [done|]. split; [done|]. split; [|split].
  - intros path' Hne. by rewrite find_insert_new, decide_False.
  - intros old Ho. by rewrite find_insert_new, decide_True, Ho.
  - intros Hn. exists fe. by rewrite find_insert_new, decide_True, Hn.
Qed.

(** C18: the invariant of the class: sorted paths, every index of every entry
    inside the string table and the object list, every string terminated.  It
    holds in the states that are reached from a new snapshot by [addFileEntry],
    with arguments in the range of their types and room for them,
    [deleteFileEntry], and [load] into a new snapshot, as [loadSnapshot] does: of
    the bytes that [save] writes of such a state, and of any other bytes of which
    the parts that [load] does not check happen to be right, the end of the
    string table and the indices.  ([load] into a snapshot with files does not
    keep it, see [load_over_files].) *)
Theorem snapshot_invariant s (Hr : snapshot_reach s) :
  snapshot_ok s /\
  forall path fe, getFileEntry s path = Some fe -> exists name parent user group,
    indexToString s (nameIndex fe) = Ret name /\ indexToString s (pathIndex fe) = Ret parent /\
    indexToString s (userIndex fe) = Ret user /\ indexToString s (groupIndex fe) = Ret group /\
    forall k, 0 <= k < objectCount fe -> exists id, indexToObjectID s (objectIdIndex fe + k) = Ret id /\
      zlen id = SHA256_DIGEST_LENGTH.
Proof.
  assert (snapshot_ok s) as Hok.
  { induction Hr as [|s path user group type md comp sz mt bits digest off packLen ids s' Hr IH Ha E|s path Hr IH|
      s In HI HS i i' rest s' Hr IH Hkey Hi Hc E|hp In HI HS i i' s' Hi E Ht Hb Hn Hix].
    - apply new_Snapshot_ok.
    - destruct (Z.le_gt_cases (zlen ids) 65535) as [Hl|Hl].
      + destruct (addFileEntry_spec s path user group type md comp sz mt bits digest off packLen ids IH Ha Hl)
          as (s1 & fe & E' & Hok & _). congruence.
      + by rewrite addFileEntry_too_many in E.
    - by apply deleteFileEntry_ok.
    - destruct (load_spec s i rest IH Hkey Hi Hc) as (i1 & t & E1 & Ht & _). rewrite E in E1. injection E1 as -> _.
      by apply snapshot_ok_table.
    - by apply (load_ok hp i s' i'). }
  split; [done|]. intros path fe Hfe. destruct Hok as [Hbuf _ Hobj Hn Hs _ Hent].
  apply find_In in Hfe; [|done]. rewrite Forall_forall in Hent. specialize (Hent _ Hfe). cbn [snd] in Hent.
  destruct Hent as [Hi1 Hi2 Hi3 Hi4 _ _ _ _ _ _ Hcount _ _ _ [Hi5 Hi6]].
  destruct (indexToString_Ret s _ Hbuf Hi1) as (n1 & E1 & _), (indexToString_Ret s _ Hbuf Hi2) as (n2 & E2 & _),
    (indexToString_Ret s _ Hbuf Hi3) as (n3 & E3 & _), (indexToString_Ret s _ Hbuf Hi4) as (n4 & E4 & _).
  exists n1, n2, n3, n4. do 4 (split; [done|]). intros k Hk.
  destruct (znth_Some (objectIdIndex fe + k) (mObjectIDs s)) as [id Eid]; [lia|].
  exists id. unfold indexToObjectID. rewrite swrap_small by lia.
  destruct (Z.ltb_spec (objectIdIndex fe + k) 0), (Z.leb_spec (zlen (mObjectIDs s)) (objectIdIndex fe + k)); try lia.
  simpl. rewrite Eid. split; [done|]. rewrite Forall_forall in Hobj. apply Hobj.
  rewrite znth_lookup in Eid by lia. by eapply list_elem_of_lookup_2.
Qed.

(** What the walk of a directory visits: of the entries that are not before the
    directory, those up to the first one that is not below it. *)
Definition visited (s : Snapshot) (search : bytes) (l : smap FileEntry) : Prop :=
  exists before after, mFiles s = before ++ l ++ after /\
    Forall (fun e => bytes_lt e.1 search) before /\
    Forall (fun e => ~ bytes_lt e.1 search /\ under_path search e.1 = true) l /\
    match after with [] => True | e :: _ => ~ bytes_lt e.1 search /\ under_path search e.1 = false end.

Lemma leading_under_split search m : exists after, m = leading_under search m ++ after /\
  match after with [] => True | e :: _ => under_path search e.1 = false end.
Proof.
  induction m as [|e m (after & Hm & Ha)]; cbn [leading_under]; [by exists []|].
  destruct (under_path search e.1) eqn:E; [|by exists (e :: m)]. exists after. cbn [app]. by rewrite <-Hm.
Qed.

Lemma forEach_subpath_spec s subpath : snapshot_ok s -> keyed s ->
  let search := strip_slashes subpath in
  exists l, forEachFileEntry_in s subpath = Ret l.*2 /\ visited s search l /\
    (Forall (fun e => is_prefix search e.1 -> under_path search e.1 = true) (mFiles s) ->
       l = List.filter (fun e => under_path search e.1) (mFiles s)).
Proof.
  intros Hok Hkey search. unfold forEachFileEntry_in. fold search. pose proof (ok_sorted _ Hok) as Hs.
  destruct (lower_bound_spec search (mFiles s) Hs) as (m0 & Hm & Hbelow & Habove).
  set (m1 := map_lower_bound search (mFiles s)) in *.
  assert (sorted m1) as Hs1.
  { clearbody m1. rewrite Hm in Hs. clear Hm Hbelow. induction m0 as [|[k v] m0 IH]; [done|].
    apply IH. by apply sorted_cons in Hs as [Hs _]. }
  unfold keyed in Hkey. rewrite Hm in Hkey. apply Forall_app in Hkey as [_ Hk1].
  exists (leading_under search m1). split; [by apply visit_from_spec|]. split.
  - destruct (leading_under_split search m1) as (after & Em & Ha). exists m0, after. rewrite Hm at 1. rewrite <-Em.
    split; [done|]. split; [done|]. rewrite Forall_forall in Habove. split.
    + apply Forall_forall. intros e He. pose proof (leading_under_sound search m1) as Hl. rewrite Forall_forall in Hl.
      destruct (Hl e He) as [? Hin]. split; [by apply Habove|done].
    + destruct after as [|e after]; [done|]. split; [|done]. apply Habove. rewrite Em. set_solver.
  - intros Hsib. rewrite Hm in Hsib. apply Forall_app in Hsib as [_ Hsib].
    rewrite Hm, List.filter_app, filter_none_below, leading_under_filter by done. done.
Qed.

(** C22: [forEachFileEntry(subpath, ...)] visits exactly this run of the entries,
    each once and in order: of those that do not sort before the directory (or
    the file) [subpath], all up to the first one that is not [subpath] or below
    it.  That is everything below [subpath] whenever no other file of the snapshot
    has [subpath] as a proper prefix of a longer name. *)
Theorem forEach_subpath s subpath (Hok : snapshot_ok s) (Hkey : keyed s) :
  let search := strip_slashes subpath in
  exists l, forEachFileEntry_in s subpath = Ret l.*2 /\ visited s search l /\
    (Forall (fun e => is_prefix search e.1 -> under_path search e.1 = true) (mFiles s) ->
       l = List.filter (fun e => under_path search e.1) (mFiles s)).
Proof. by apply forEach_subpath_spec. Qed.

Lemma bytes_lt_prefix p a b : bytes_lt (p ++ a) (p ++ b) <-> bytes_lt a b.
Proof.
  induction p as [|c p IH]; [done|]. unfold bytes_lt in *. cbn [app bytes_cmp]. by rewrite Z.compare_refl.
Qed.

(** A sibling that sorts before the contents of the directory. *)
Lemma sibling_order search b rest name : b2z b < b2z slash ->
  let sib := search ++ b :: rest in
  ~ bytes_lt sib search /\ (search <> [] -> under_path search sib = false) /\ bytes_lt sib (search ++ slash :: name).
Proof.
  intros Hb. cbn zeta. split; [|split].
  - apply prefix_not_below. unfold is_prefix. by rewrite ztake_app_exact.
  - intros Hne. unfold under_path. rewrite ztake_app_exact, bool_decide_eq_true_2 by done.
    rewrite (bool_decide_eq_false_2 (search = [])) by done. cbn [andb orb].
    rewrite znth_app_r, Z.sub_diag by lia. cbn [znth Z.eqb]. apply bool_decide_eq_false_2. by intros ->; lia.
  - apply bytes_lt_prefix. unfold bytes_lt. cbn [bytes_cmp]. by rewrite (proj2 (Z.compare_lt_iff _ _)).
Qed.

(** C40: the walk of a directory misses its files when there is a sibling file of
    which the name continues that of the directory with a character below the
    slash, such as a dot, a minus or a blank: such a name sorts between the
    directory and its contents and ends the loop.  No file of the directory is
    visited. *)
Theorem forEach_misses_files s dir b rest name fe (Hok : snapshot_ok s) (Hkey : keyed s)
    (Hdir : strip_slashes dir = dir) (Hne : dir <> []) (Hb : b2z b < b2z slash)
    (Hsib : is_Some (getFileEntry s (dir ++ b :: rest))) (Hfe : getFileEntry s (dir ++ slash :: name) = Some fe) :
  exists l, forEachFileEntry_in s dir = Ret l /\ fe ∉ l.
Proof.
  destruct (forEach_subpath_spec s dir Hok Hkey) as (l & E & (before & after & Hm & Hbef & Hl & Haft) & _).
  rewrite Hdir in *. destruct (sibling_order dir b rest name Hb) as (Hnb & Hnu & Hlt). specialize (Hnu Hne).
  exists l.*2. split; [done|]. intros ([k fe'] & -> & Hin)%list_elem_of_fmap. cbn [snd] in Hfe.
  pose proof (ok_sorted _ Hok) as Hs. apply find_In in Hfe; [|done].
  unfold keyed in Hkey. rewrite Forall_forall in Hkey.
  assert (k = dir ++ slash :: name) as ->.
  { pose proof (Hkey _ Hfe) as E1. assert ((k, fe') ∈ mFiles s) as Hin2 by (rewrite Hm; set_solver).
    pose proof (Hkey _ Hin2) as E2. cbn [fst snd] in *. congruence. }
  destruct Hsib as [fs Hsib]. apply find_In in Hsib; [|done]. rewrite Hm, !elem_of_app in Hsib.
  rewrite Forall_forall in Hbef, Hl. destruct Hsib as [Hi|[Hi|Hi]].
  - by apply Hbef in Hi.
  - apply Hl in Hi as [_ Hu]. cbn [fst] in Hu. congruence.
  - rewrite Hm, app_assoc in Hs. apply (bytes_lt_irrefl (dir ++ b :: rest)). eapply bytes_lt_trans; [exact Hlt|].
    assert ((dir ++ slash :: name, fe') ∈ before ++ l) as Hin1 by (apply elem_of_app; by right).
    exact (sorted_app_lt _ _ _ _ Hs Hin1 Hi).
Qed.

(** Loading over files: the files stay, and the strings they refer to are gone. *)
Lemma load_over_files s : mFiles s <> [] ->
  exists s' i', load s (new_MemoryInputStream (snapshot_bytes new_Snapshot)) = Ret (s', i') /\
    mFiles s' = mFiles s /\ mStringBuffer s' = [] /\ ~ snapshot_ok s'.
Proof.
  intros Hne. eexists _, _. split; [reflexivity|]. split; [done|]. split; [done|]. intros [_ _ _ _ _ _ Hent].
  cbn [mFiles] in Hent. destruct (mFiles s) as [|[k fe] m]; [done|]. apply Forall_cons in Hent as [[Hn _] _].
  cbn in Hn. lia.
Qed.
End Properties.

(** ** Witnesses *)

Definition id0 : bytes := replicate 32 Byte.x01.
Definition md0 : bytes := replicate 16 Byte.x02.

(** A snapshot of the files "/r/dir.txt" and "/r/dir/f". *)
Definition add_plain (s : Snapshot) (path : bytes) : result Snapshot :=
  addFileEntry s path (str "u") (str "g") RegularFile 420 NoCompression 3 0 18 md0 0 0 [id0].
Definition example_snapshot : Snapshot :=
  match (s ← add_plain new_Snapshot (str "/r/dir.txt"); add_plain s (str "/r/dir/f")) with
  | Ret s => s
  | _ => new_Snapshot
  end.

(** Decides the side conditions of a call on concrete arguments. *)
Ltac solve_args :=
  clear; constructor; first
    [ unfold no_nul; refine (bool_decide_unpack _ _); vm_compute; exact I
    | vm_compute; split; [discriminate|reflexivity]
    | vm_compute; reflexivity
    | vm_compute; discriminate
    | repeat constructor ].

Lemma example_args : add_args new_Snapshot (str "/r/dir.txt") (str "u") (str "g") 420 3 0 18 md0 0 0 [id0].
Proof. solve_args. Qed.

Lemma example_ok : snapshot_ok example_snapshot /\ keyed example_snapshot.
Proof.
  destruct (addFileEntry_spec new_Snapshot (str "/r/dir.txt") (str "u") (str "g") RegularFile 420 NoCompression
    3 0 18 md0 0 0 [id0] new_Snapshot_ok example_args ltac:(vm_compute; discriminate)) as (s1 & fe1 & E1 & Ok1 & _).
  assert (add_args s1 (str "/r/dir/f") (str "u") (str "g") 420 3 0 18 md0 0 0 [id0]) as A2.
  { vm_compute in E1. injection E1 as <-. solve_args. }
  destruct (addFileEntry_spec s1 (str "/r/dir/f") (str "u") (str "g") RegularFile 420 NoCompression
    3 0 18 md0 0 0 [id0] Ok1 A2 ltac:(vm_compute; discriminate)) as (s2 & fe2 & E2 & Ok2 & _).
  assert (example_snapshot = s2) as ->.
  { unfold example_snapshot, add_plain. rewrite E1. cbn [mbind result_bind]. by rewrite E2. }
  split; [done|]. vm_compute in E1. injection E1 as <-. vm_compute in E2. injection E2 as <-.
  unfold keyed. cbn [mFiles]. do 2 (apply Forall_cons; split; [vm_compute; reflexivity|]). apply Forall_nil_2.
Qed.

Lemma snapshot_roundtrip_witness :
  exists s' i', load new_Snapshot (new_MemoryInputStream (snapshot_bytes example_snapshot)) = Ret (s', i') /\
    mFiles s' = mFiles example_snapshot.
Proof.
  destruct example_ok as [Hok Hkey].
  destruct (new_MemoryInputStream_valid (snapshot_bytes example_snapshot)) as (V & C & _).
  assert (ovalid (new_MemoryOutputStream 300)) as Ho by (cbn; lia).
  assert (fits (new_MemoryOutputStream 300) (zlen (snapshot_bytes example_snapshot))) as Hf
    by (vm_compute; discriminate).
  assert (contents (new_MemoryInputStream (snapshot_bytes example_snapshot)) =
    snapshot_bytes example_snapshot ++ []) as Hc by (by rewrite app_nil_r).
  destruct (snapshot_roundtrip example_snapshot (new_MemoryOutputStream 300) _ [] Hok Hkey Ho Hf V Hc)
    as (_ & s' & i' & E & _ & _ & _ & F & _).
  exists s', i'. split; [exact E|exact F].
Defined.

Lemma addFileEntry_correct_witness :
  exists s' fe, add_plain new_Snapshot (str "/r/dir.txt") = Ret s' /\
    getFileEntry s' (str "/r/dir.txt") = Some fe /\
    describes s' fe (str "dir.txt") (str "/r") (str "u") (str "g") [id0].
Proof.
  destruct (addFileEntry_correct new_Snapshot (str "/r/dir.txt") (str "u") (str "g") RegularFile 420 NoCompression
    3 0 18 md0 0 0 [id0] new_Snapshot_ok example_args) as (s' & E & _ & _ & _ & Hnew).
  destruct (Hnew eq_refl) as (fe & F & D & _). exists s', fe. split; [exact E|]. split; [exact F|exact D].
Defined.

Lemma snapshot_invariant_witness :
  exists s', add_plain new_Snapshot (str "/r/dir.txt") = Ret s' /\ snapshot_ok s'.
Proof.
  destruct (add_plain new_Snapshot (str "/r/dir.txt")) as [s'| | |] eqn:E.
  2-4: vm_compute in E; discriminate E.
  exists s'. split; [reflexivity|].
  apply (snapshot_invariant s'). 
  refine (reach_add new_Snapshot (str "/r/dir.txt") (str "u") (str "g") RegularFile 420 NoCompression
    3 0 18 md0 0 0 [id0] s' reach_empty example_args _).
  unfold add_plain in E. exact E.
Defined.

Lemma forEach_subpath_witness :
  exists l, forEachFileEntry_in example_snapshot (str "/r/dir.txt") = Ret l.*2 /\
    visited example_snapshot (str "/r/dir.txt") l.
Proof.
  destruct example_ok as [Hok Hkey].
  destruct (forEach_subpath example_snapshot (str "/r/dir.txt") Hok Hkey) as (l & E & F & _).
  exists l. split; [exact E|exact F].
Defined.

(** The files "/r/dir.txt" and "/r/dir/f". *)
Lemma forEach_misses_files_witness :
  exists fe l, getFileEntry example_snapshot (str "/r/dir/f") = Some fe /\
    forEachFileEntry_in example_snapshot (str "/r/dir") = Ret l /\ fe ∉ l.
Proof.
  destruct example_ok as [Hok Hkey].
  destruct (getFileEntry example_snapshot (str "/r/dir/f")) as [fe|] eqn:E.
  2: vm_compute in E; discriminate E.
  destruct (forEach_misses_files example_snapshot (str "/r/dir") Byte.x2e (str "txt") (str "f") fe Hok Hkey
    eq_refl ltac:(discriminate) eq_refl ltac:(vm_compute; eexists; reflexivity) E) as (l & El & Hl).
  exists fe, l. split; [reflexivity|]. split; [exact El|exact Hl].
Defined.

(** A saved snapshot that was cut. *)
Lemma load_terminates_witness :
  exists e, load_in large_heap new_Snapshot (new_MemoryInputStream (ztake 100 (snapshot_bytes example_snapshot))) = Throw e /\
    (e = ShortReadException \/ e = IndexOutOfBoundException \/ e = bad_alloc /\ exists n, can_resize large_heap n = false).
Proof.
  pose proof (load_terminates large_heap new_Snapshot (new_MemoryInputStream (ztake 100 (snapshot_bytes example_snapshot)))
    (proj1 (new_MemoryInputStream_valid _)) ltac:(rewrite (proj1 (proj2 (new_MemoryInputStream_valid _))); vm_compute; reflexivity)) as R.
  destruct (load_in _ _ _) as [[s' i']|e| |] eqn:E.
  - exfalso. vm_compute in E. discriminate E.
  - exists e. split; [reflexivity|exact R].
  - exfalso. vm_compute in E. discriminate E.
  - destruct R.
Defined.
