(* ===== verification/DataStore.v ===== *)
(** * DataStore.h: the interface of the backends

    The operations act on the state of the backend, in the monad [io].  A progress function is the
    answers it gives; [DataStoreSpec] is the contract of the class, for object
    paths of the repository format and a progress function that never cancels. *)
From S2P Require Import Prelude Streams.
From Stdlib Require Import ZArith Lia.

(** ** The interface *)

(** ProgressFunction.h: called with the bytes done and their total; false cancels. *)
Definition ProgressFunction : Type := Z -> Z -> bool.
Definition DefaultProgressFunction : ProgressFunction := fun _ _ => true.

Class DataStore (D : Type) := {
  exist : bytes -> ProgressFunction -> io D bool;
  get {Out} {HO : OutputStream Out} : bytes -> Out -> ProgressFunction -> io D Out;
  put {In} {HI : InputStream In} : bytes -> In -> ProgressFunction -> io D In;
  (* the arguments of the callback; [None] is the null pointer *)
  list_files : bytes -> ProgressFunction -> io D (list (option bytes));
  unlink : bytes -> ProgressFunction -> io D bool
}.

(** The paths of objects: "/key", "/snapshot/<name>", "/data/<xx>/<rest>". *)
Definition slash_free (l : bytes) : Prop := Byte.x2f ∉ l.
Inductive object_path : bytes -> Prop :=
  | path_key : object_path (str "/key")
  | path_snapshot name : name <> [] -> slash_free name -> object_path (str "/snapshot/" ++ name)
  | path_data a b : zlen a = 2 -> slash_free a -> b <> [] -> slash_free b ->
      object_path (str "/data/" ++ a ++ Byte.x2f :: b).

Class DataStoreSpec (D : Type) `{DataStore D} := {
  dvalid : D -> Prop;
  (** what is stored at a path *)
  objects : D -> bytes -> option bytes;
  exist_spec d p pf : dvalid d -> object_path p ->
    exist p pf d = (Ret (bool_decide (is_Some (objects d p))), d);
  get_spec {Out} `{OutputStreamSpec Out} d p (o : Out) pf data extra :
    dvalid d -> object_path p -> objects d p = Some data ->
    ovalid o -> 0 <= extra -> fits o (zlen data + extra) -> (forall a b, pf a b = true) ->
    exists o', get p o pf d = (Ret o', d) /\ ovalid o' /\ written o' = written o ++ data /\ fits o' extra;
  get_missing {Out} `{OutputStream Out} d p (o : Out) pf :
    dvalid d -> object_path p -> objects d p = None ->
    get p o pf d = (Throw FileNotFoundException, d);
  put_spec {In} `{InputStreamSpec In} d p (i : In) pf :
    dvalid d -> object_path p -> valid i -> (forall a b, pf a b = true) ->
    exists i' d', put p i pf d = (Ret i', d') /\ dvalid d' /\
      forall q, object_path q -> objects d' q = if decide (q = p) then Some (contents i) else objects d q
}.
