(* ===== verification/FileDataStore.v ===== *)
(** * FileDataStore.cpp: objects as files below a directory

    The file system is the map from paths to contents of FileStreams.v with the
    set of its directories, and what may fail in it.  What [fwrite] has taken is
    in the file at once; the result of [fclose] is not looked at by the code. *)
From S2P Require Import Prelude Streams MemoryStreams FileStreams Filesystem DataStore.
From Stdlib Require Import ZArith Lia.

(** The errors of the file system: the paths it refuses to open, to make and to
    remove, as for want of a permission; the number of bytes of a file after which
    [fread] fails; and the number of bytes that a failing [fwrite] takes, given how
    many the file has. *)
Record Faults := {
  refused : gset (list Byte.byte);
  read_fault : bytes -> option Z;
  write_fault : bytes -> Z -> option Z
}.

Definition no_faults : Faults := {| refused := ∅; read_fault _ := None; write_fault _ _ := None |}.

Record FileDataStore := {
  mStoreDirectory : bytes; sdisk : disk; sdirs : gset (list Byte.byte); sfaults : Faults
}.

Definition with_disk (d : FileDataStore) (k : disk) : FileDataStore :=
  {| mStoreDirectory := mStoreDirectory d; sdisk := k; sdirs := sdirs d; sfaults := sfaults d |}.

Definition with_dirs (d : FileDataStore) (l : list bytes) : FileDataStore :=
  {| mStoreDirectory := mStoreDirectory d; sdisk := sdisk d; sdirs := list_to_set l ∪ sdirs d;
     sfaults := sfaults d |}.

(** The path and all the directories above it. *)
Fixpoint ancestors_from (above rest : bytes) : list bytes :=
  match rest with
  | [] => [above]
  | b :: rest => (if decide (b = slash) then [above] else []) ++ ancestors_from (above ++ [b]) rest
  end.
Definition ancestors (path : bytes) : list bytes := ancestors_from [] path.

Section Code.
Context `{Paths}.

Definition full_path (d : FileDataStore) (path : bytes) : bytes := path_append (mStoreDirectory d) path.

(** [boost::filesystem::exists] *)
Definition path_exists (d : FileDataStore) (full : bytes) : bool :=
  bool_decide (is_Some (files (sdisk d) !! full)) || bool_decide (full ∈ sdirs d).

(** [FileDataStore::exist] *)
Definition fds_exist (path : bytes) (progress : ProgressFunction) : io FileDataStore bool :=
  d ← get_state; mret (path_exists d (full_path d path)).

(** The loop of [get]: [data] is what [fread] has still to deliver. *)
Fixpoint get_loop {Out} `{OutputStream Out} (fuel : nat) (progress : ProgressFunction)
    (data : bytes) (bytesRead fileSize : Z) (stream : Out) : result Out :=
  let buffer := ztake 4096 data in
  if 0 <? zlen buffer then
    match fuel with
    | O => NoFuel
    | S fuel =>
        if negb (progress bytesRead fileSize) then Throw CancelledException
        else
          stream ← write stream buffer;
          get_loop fuel progress (zdrop 4096 data) (bytesRead + zlen buffer) fileSize stream
    end
  else Ret stream.

(** A directory of the path is a file ([ENOTDIR]). *)
Definition below_file (d : FileDataStore) (dir : bytes) : bool :=
  existsb (fun a => bool_decide (is_Some (files (sdisk d) !! a))) (ancestors dir).

(** [FileDataStore::get]: [ENOENT] is [FileNotFoundException] and every other
    error of [fopen] is [FileIOException]; [fopen] accepts a directory, of which
    [file_size] throws; a read that fails gives what it has read, and then the
    error is noticed. *)
Definition fds_get {Out} `{OutputStream Out} (path : bytes) (stream : Out) (progress : ProgressFunction)
  : io FileDataStore Out :=
  d ← get_state;
  let full := full_path d path in
  if decide (full ∈ refused (sfaults d)) then throw FileIOException
  else
    match files (sdisk d) !! full with
    | None =>
        if decide (full ∈ sdirs d) then throw filesystem_error
        else if below_file d (parent_path full) then throw FileIOException
        else throw FileNotFoundException
    | Some data =>
        match read_fault (sfaults d) full with
        | None => lift (get_loop (length data) progress data 0 (zlen data) stream)
        | Some n =>
            _ ← lift (get_loop (length data) progress (ztake n data) 0 (zlen data) stream);
            throw FileIOException
        end
    end.

(** [boost::filesystem::create_directories]: an ancestor that is a file is an
    error, and so is one that is not there and cannot be made. *)
Definition create_directories (path : bytes) : io FileDataStore unit :=
  d ← get_state;
  if below_file d path ||
     existsb (fun a => bool_decide (a ∈ refused (sfaults d)) && bool_decide (a ∉ sdirs d)) (ancestors path)
  then throw filesystem_error
  else put_state (with_dirs d (ancestors path)).

(** The loop of [put], which appends to the file [full]. *)
Fixpoint put_loop {In} `{InputStream In} (fuel : nat) (progress : ProgressFunction) (full : bytes)
    (bytesWritten fileSize : Z) (stream : In) : io FileDataStore In :=
  '(buffer, stream) ← lift (read stream 4096);
  if 0 <? zlen buffer then
    match fuel with
    | O => lift NoFuel
    | S fuel =>
        d ← get_state;
        match write_fault (sfaults d) full (zlen (file_data (sdisk d) full)) with
        | Some n =>
            _ ← put_state (with_disk d (set_file (sdisk d) full (file_data (sdisk d) full ++ ztake n buffer)));
            throw FileIOException
        | None =>
            _ ← put_state (with_disk d (set_file (sdisk d) full (file_data (sdisk d) full ++ buffer)));
            if negb (progress bytesWritten fileSize) then
              d ← get_state;
              _ ← put_state (with_disk d (remove_file (sdisk d) full));
              throw CancelledException
            else put_loop fuel progress full (bytesWritten + zlen buffer) fileSize stream
        end
    end
  else mret stream.

(** [FileDataStore::put]; [fopen] fails on a directory, in a directory that is
    not there, and on a path that is locked or refused. *)
Definition fds_put {In} `{InputStream In} (path : bytes) (stream : In) (progress : ProgressFunction)
  : io FileDataStore In :=
  d ← get_state;
  let full := full_path d path in
  _ ← (if path_exists d (parent_path full) then mret tt else create_directories (parent_path full));
  d ← get_state;
  match fopen (sdisk d) full FM_Write with
  | (_, None) => throw FileIOException
  | (k, Some _) =>
      if bool_decide (full ∈ refused (sfaults d)) || bool_decide (full ∈ sdirs d) ||
         bool_decide (parent_path full ∉ sdirs d) then throw FileIOException
      else
        _ ← put_state (with_disk d k);
        fileSize ← lift (size stream);
        put_loop (remaining stream) progress full 0 fileSize stream
  end.

(** [FileDataStore::list]: the files of the directory, then the null pointer. *)
Definition fds_list (path : bytes) (progress : ProgressFunction) : io FileDataStore (list (option bytes)) :=
  d ← get_state;
  let full := full_path d path in
  if decide (full ∈ sdirs d ∖ refused (sfaults d)) then
    mret ((Some ∘ filename <$> List.filter (fun f => bool_decide (parent_path f = full))
             (map_to_list (files (sdisk d))).*1) ++ [None])
  else throw filesystem_error.

(** [FileDataStore::unlink]; removing a directory that is not empty is an error. *)
Definition fds_unlink (path : bytes) (progress : ProgressFunction) : io FileDataStore bool :=
  d ← get_state;
  let full := full_path d path in
  if path_exists d full && bool_decide (full ∈ refused (sfaults d)) then throw filesystem_error
  else
    match files (sdisk d) !! full with
    | Some _ => _ ← put_state (with_disk d (remove_file (sdisk d) full)); mret true
    | None =>
        if decide (full ∈ sdirs d) then
          if existsb (fun f => bool_decide (parent_path f = full))
               ((map_to_list (files (sdisk d))).*1 ++ elements (sdirs d ∖ {[full]}))
          then throw filesystem_error
          else
            _ ← put_state {| mStoreDirectory := mStoreDirectory d; sdisk := sdisk d;
                             sdirs := sdirs d ∖ {[full]}; sfaults := sfaults d |};
            mret true
        else mret false
    end.

#[global] Instance FileDataStore_store : DataStore FileDataStore := {|
  exist := fds_exist;
  get _ _ := fds_get;
  put _ _ := fds_put;
  list_files := fds_list;
  unlink := fds_unlink
|}.
End Code.

(** * Contract *)

(** An object path splits into its directory and its name. *)
Lemma object_path_split p : object_path p ->
  exists dir name, p = dir ++ slash :: name /\ name <> [] /\ slash ∉ name /\ last dir <> Some slash.
Proof.
  intros [|name Hn Hs|a b Ha Hsa Hb Hsb].
  - exists [], (str "key"). split_and!; [done|discriminate| |discriminate].
    refine (bool_decide_unpack _ _). vm_compute. exact I.
  - exists (str "/snapshot"), name. split_and!; [done|done|exact Hs|discriminate].
  - exists (str "/data/" ++ a), b. split_and!; [by rewrite <-app_assoc|exact Hb|exact Hsb|].
    destruct a as [|x a]; [done|]. rewrite last_app. intros Hl.
    destruct (last (x :: a)) eqn:E; [|by apply last_None in E].
    injection Hl as ->. apply last_Some_elem_of in E. by apply Hsa.
Qed.

Lemma object_path_slash p : object_path p -> exists r, p = slash :: r.
Proof. intros [| |]; by eexists. Qed.

(** What the ancestors of a path are. *)
Lemma ancestors_from_spec rest : forall above q, q ∈ ancestors_from above rest <->
  q = above ++ rest \/ exists l r, rest = l ++ slash :: r /\ q = above ++ l.
Proof.
  induction rest as [|b rest IH]; intros above q; cbn [ancestors_from].
  - rewrite list_elem_of_singleton, app_nil_r. split; [by left|].
    intros [?|(l & r & E & _)]; [done|by destruct l].
  - rewrite elem_of_app, IH, <-app_assoc. cbn [app]. split.
    + intros [Hq|[Hq|(l & r & -> & ->)]]; [|by left|].
      * destruct (decide (b = slash)) as [->|]; [|by apply elem_of_nil in Hq].
        apply list_elem_of_singleton in Hq as ->. right. exists [], rest. by rewrite app_nil_r.
      * right. exists (b :: l), r. split; [done|]. by rewrite <-app_assoc.
    + intros [->|(l & r & E & ->)]; [by right; left|]. destruct l as [|b' l]; injection E as -> ->.
      * left. rewrite decide_True by done. rewrite app_nil_r. by apply list_elem_of_singleton.
      * right. right. exists l, r. split; [done|]. by rewrite <-app_assoc.
Qed.

(** No object path is the directory of another. *)
Lemma object_path_nested p p' r : object_path p -> object_path p' -> p' <> p ++ slash :: r.
Proof.
  intros Hp Hp' E. destruct Hp as [|n Hn Hs|a b Ha Hsa Hb Hsb];
    destruct Hp' as [|n' Hn' Hs'|a' b' Ha' Hsa' Hb' Hsb']; cbn in E; try discriminate E.
  - injection E as ->. apply Hs'. rewrite elem_of_app. right. by left.
  - injection E as E. rewrite <-app_assoc in E. cbn [app] in E.
    apply app_inj_1 in E as [<- E]; [|rewrite zlen_length in *; lia].
    injection E as ->. apply Hsb'. rewrite elem_of_app. right. by left.
Qed.

Lemma object_path_not_ancestor p p' dir d' name q : object_path p -> object_path p' ->
  p' = d' ++ slash :: name -> q ∈ ancestors (dir ++ d') -> q <> dir ++ p.
Proof.
  intros Hp Hp' -> Hq ->. apply ancestors_from_spec in Hq as [E|(l & r & E & El)]; cbn [app] in *.
  - apply app_inv_head in E as ->. by apply (object_path_nested d' _ name Hp Hp').
  - subst l. rewrite <-app_assoc in E. apply app_inv_head in E as ->.
    apply (object_path_nested p _ (r ++ slash :: name) Hp Hp'). by rewrite <-app_assoc.
Qed.

Section Spec.
Context `{PathsSpec}.

(** Nothing fails, and the directories of the objects are not files. *)
Record fds_ok (d : FileDataStore) : Prop := {
  ok_faults : sfaults d = no_faults;
  ok_dir : mStoreDirectory d <> [];
  ok_dir_slash : last (mStoreDirectory d) <> Some slash;
  ok_locked : locked (sdisk d) = ∅;
  ok_no_dir p : object_path p -> mStoreDirectory d ++ p ∉ sdirs d;
  ok_no_file p q : object_path p -> q ∈ ancestors (parent_path (mStoreDirectory d ++ p)) ->
    files (sdisk d) !! q = None
}.

Definition fds_objects (d : FileDataStore) (p : bytes) : option bytes :=
  files (sdisk d) !! (mStoreDirectory d ++ p).

Lemma full_path_object d p : object_path p -> full_path d p = mStoreDirectory d ++ p.
Proof. intros Hp. destruct (object_path_slash p Hp) as [r ->]. apply path_append_spec. Qed.

Lemma parent_object dir p : dir <> [] -> last dir <> Some slash -> object_path p ->
  exists d' name, p = d' ++ slash :: name /\ parent_path (dir ++ p) = dir ++ d'.
Proof.
  intros Hd Hl Hp. destruct (object_path_split p Hp) as (d' & name & -> & Hn & Hs & Hl').
  exists d', name. split; [done|]. rewrite app_assoc. apply parent_path_spec.
  split_and!; [by destruct dir| |done|done].
  rewrite last_app. destruct (last d'); done.
Qed.

Lemma get_loop_spec {Out} `{OutputStreamSpec Out} pf fuel : forall data n size (o : Out) extra,
  (forall a b, pf a b = true) -> zlen data <= Z.of_nat fuel -> ovalid o -> 0 <= extra ->
  fits o (zlen data + extra) ->
  exists o', get_loop fuel pf data n size o = Ret o' /\ ovalid o' /\ written o' = written o ++ data /\ fits o' extra.
Proof.
  induction fuel as [|fuel IH]; intros data n size o extra Hpf Hf Ho He Hfit; cbn [get_loop];
    pose proof (zlen_nonneg data); rewrite zlen_ztake by lia;
    (destruct (Z.ltb_spec 0 (Z.min 4096 (zlen data)));
      [|assert (data = []) as -> by (apply zlen_nil_inv; lia); exists o; by rewrite app_nil_r]); [lia|].
  rewrite Hpf. cbn [negb].
  rewrite <-(ztake_zdrop 4096 data), zlen_app, <-Z.add_assoc in Hfit.
  pose proof (zlen_nonneg (zdrop 4096 data)). pose proof (zlen_nonneg (ztake 4096 data)).
  destruct (write_spec o (ztake 4096 data) Ho) as (o1 & -> & V & W & F); [eapply fits_mono; [|exact Hfit]; lia|].
  cbn [mbind result_bind].
  destruct (IH (zdrop 4096 data) (n + Z.min 4096 (zlen data)) size o1 extra Hpf) as (o' & -> & V' & W' & F').
  - rewrite zlen_zdrop by lia. lia.
  - done.
  - done.
  - apply F; [lia|done].
  - exists o'. by rewrite W', W, <-app_assoc, ztake_zdrop.
Qed.

Lemma set_file_twice k f a b : set_file (set_file k f a) f b = set_file k f b.
Proof. unfold set_file; cbn. by rewrite insert_insert_eq. Qed.

Lemma put_loop_spec {In} `{InputStreamSpec In} pf full size fuel : forall (i : In) n d data,
  sfaults d = no_faults -> (forall a b, pf a b = true) -> valid i -> zlen (contents i) <= Z.of_nat fuel ->
  exists i', put_loop fuel pf full n size i (with_disk d (set_file (sdisk d) full data)) =
    (Ret i', with_disk d (set_file (sdisk d) full (data ++ contents i))).
Proof.
  induction fuel as [|fuel IH]; intros i n d data Hnf Hpf Hv Hf; cbn [put_loop];
    pose proof (zlen_nonneg (contents i));
    destruct (read_spec i 4096) as (i1 & E & V & C & _); [done|lia| |done|lia|]; rewrite E, io_bind_lift;
    rewrite zlen_ztake by lia;
    (destruct (Z.ltb_spec 0 (Z.min 4096 (zlen (contents i))));
      [|assert (contents i = []) as -> by (apply zlen_nil_inv; lia); exists i1; by rewrite app_nil_r]); [lia|].
  rewrite (io_bind_Ret get_state _ _ _ _ eq_refl). cbn [sfaults with_disk]. rewrite Hnf. cbn [write_fault no_faults].
  rewrite (io_bind_Ret (put_state _) _ _ _ _ eq_refl), Hpf.
  cbn [negb sdisk with_disk]. rewrite file_data_set, set_file_twice.
  change (with_disk (with_disk d ?k) ?k') with (with_disk d k').
  destruct (IH i1 (n + Z.min 4096 (zlen (contents i))) d (data ++ ztake 4096 (contents i)) Hnf Hpf V) as (i' & Ei).
  { rewrite C, zlen_zdrop by lia. lia. }
  exists i'. rewrite Ei, C, <-app_assoc, ztake_zdrop. done.
Qed.

Lemma not_below_file d p : fds_ok d -> object_path p ->
  below_file d (parent_path (mStoreDirectory d ++ p)) = false.
Proof.
  intros Hok Hp. apply not_true_iff_false. intros E. apply existsb_exists in E as (q & Hq & Hex).
  apply list_elem_of_In in Hq. rewrite (ok_no_file _ Hok p q Hp Hq) in Hex. by apply bool_decide_eq_true in Hex as [? ?].
Qed.

Lemma not_refused d l : sfaults d = no_faults ->
  existsb (fun a => bool_decide (a ∈ refused (sfaults d)) && bool_decide (a ∉ sdirs d)) l = false.
Proof.
  intros ->. induction l as [|a l IH]; [done|]. cbn [existsb]. rewrite IH.
  by rewrite bool_decide_eq_false_2 by apply not_elem_of_empty.
Qed.

(** The directory of an object is made when it is not there. *)
Lemma prepare_directory d p : fds_ok d -> object_path p ->
  exists d', (if path_exists d (parent_path (full_path d p)) then mret tt
              else create_directories (parent_path (full_path d p))) d = (Ret tt, d') /\
    fds_ok d' /\ mStoreDirectory d' = mStoreDirectory d /\ sdisk d' = sdisk d /\
    parent_path (full_path d p) ∈ sdirs d' /\ sdirs d ⊆ sdirs d'.
Proof.
  intros Hok Hp. pose proof Hok as [Hft Hd Hs Hl Hnd Hnf]. rewrite full_path_object by done.
  set (parent := parent_path (mStoreDirectory d ++ p)).
  assert (parent ∈ ancestors parent) as Hself by (apply ancestors_from_spec; by left).
  unfold path_exists. rewrite (Hnf p parent Hp Hself). cbn [orb].
  rewrite bool_decide_eq_false_2 by (by intros [? ?]). cbn [orb].
  destruct (bool_decide_reflect (parent ∈ sdirs d)) as [Hin|Hout]; [by exists d|].
  exists (with_dirs d (ancestors parent)). unfold create_directories.
  rewrite (io_bind_Ret get_state _ _ _ _ eq_refl).
  pose proof (not_below_file d p Hok Hp) as Hbf. fold parent in Hbf. rewrite Hbf. cbn [orb].
  rewrite (not_refused d _ Hft).
  split; [done|]. split; [|split; [done|split; [done|cbn; split; [set_solver|apply union_subseteq_r]]]].
  constructor; cbn [mStoreDirectory sdisk sdirs with_dirs]; try done.
  intros p' Hp' Hin. apply elem_of_union in Hin as [Hin|Hin]; [|by apply (Hnd p' Hp')].
  apply elem_of_list_to_set in Hin. destruct (parent_object _ p Hd Hs Hp) as (d' & name & -> & Epar).
  unfold parent in Hin. rewrite Epar in Hin.
  by apply (object_path_not_ancestor p' _ (mStoreDirectory d) d' name _ Hp' Hp eq_refl Hin).
Qed.

(** A new object changes nothing else. *)
Lemma fds_ok_set d p data : fds_ok d -> object_path p ->
  fds_ok (with_disk d (set_file (sdisk d) (mStoreDirectory d ++ p) data)).
Proof.
  intros [Hft Hd Hs Hl Hnd Hnf] Hp. constructor; cbn [mStoreDirectory sdisk sdirs sfaults with_disk]; try done.
  intros p' q Hp' Hq. unfold set_file; cbn [files]. rewrite lookup_insert_ne; [by apply (Hnf p')|].
  destruct (parent_object _ p' Hd Hs Hp') as (d' & name & -> & Epar). rewrite Epar in Hq.
  intros <-. by apply (object_path_not_ancestor p _ (mStoreDirectory d) d' name _ Hp Hp' eq_refl Hq).
Qed.

Lemma fds_ok_remove d p : fds_ok d -> fds_ok (with_disk d (remove_file (sdisk d) p)).
Proof.
  intros [? ? ? ? ? Hnf]. constructor; cbn; try done.
  intros p' q Hp' Hq. rewrite lookup_delete_None. right. by apply (Hnf p').
Qed.

Lemma fds_objects_set d d' p q data : mStoreDirectory d' = mStoreDirectory d ->
  files (sdisk d') = <[mStoreDirectory d ++ p := data]> (files (sdisk d)) ->
  fds_objects d' q = if decide (q = p) then Some data else fds_objects d q.
Proof.
  intros Edir Ef. unfold fds_objects. rewrite Edir, Ef. destruct (decide (q = p)) as [->|Hne]; [by rewrite lookup_insert_eq|].
  rewrite lookup_insert_ne; [done|]. intros Eq. by apply app_inv_head in Eq.
Qed.

Lemma fds_put_spec {In} `{InputStreamSpec In} d p (i : In) pf : fds_ok d -> object_path p -> valid i ->
  (forall a b, pf a b = true) ->
  exists i' d', fds_put p i pf d = (Ret i', d') /\ fds_ok d' /\ mStoreDirectory d' = mStoreDirectory d /\
    files (sdisk d') = <[mStoreDirectory d ++ p := contents i]> (files (sdisk d)) /\
    parent_path (full_path d p) ∈ sdirs d' /\ sdirs d ⊆ sdirs d'.
Proof.
  intros Hd Hp Hv Hpf. unfold fds_put.
  rewrite (io_bind_Ret get_state _ _ _ _ eq_refl).
  destruct (prepare_directory d p Hd Hp) as (d1 & E1 & Hok1 & Edir & Edisk & Hin & Hsub).
  rewrite (io_bind_Ret _ _ _ _ _ E1), (io_bind_Ret get_state _ _ _ _ eq_refl).
  rewrite full_path_object in * by done. rewrite <-Edir in *. set (full := mStoreDirectory d1 ++ p) in *.
  cbn [fopen]. rewrite decide_False by (rewrite (ok_locked _ Hok1); set_solver).
  rewrite (ok_faults _ Hok1), (bool_decide_eq_false_2 (full ∈ refused _)) by apply not_elem_of_empty.
  rewrite (bool_decide_eq_false_2 (full ∈ sdirs d1)) by (by apply Hok1). cbn [orb].
  rewrite bool_decide_eq_false_2 by (intros Hn; by apply Hn).
  rewrite (io_bind_Ret (put_state _) _ _ _ _ eq_refl).
  assert (exists n, size i = Ret n) as [n ->] by (destruct (size_spec i Hv) as [-> | ->]; eauto).
  rewrite io_bind_lift.
  destruct (put_loop_spec pf full n (remaining i) i 0 d1 [] (ok_faults _ Hok1) Hpf Hv (remaining_spec i Hv)) as (i' & E).
  exists i', (with_disk d1 (set_file (sdisk d1) full (contents i))). split; [exact E|].
  split; [by apply fds_ok_set|]. split; [done|]. cbn [sdisk with_disk set_file files sdirs]. by rewrite Edisk.
Qed.

#[global] Program Instance FileDataStore_spec : DataStoreSpec FileDataStore := {|
  dvalid := fds_ok;
  objects := fds_objects
|}.
Next Obligation.
  intros d p pf Hd Hp. cbn [exist FileDataStore_store]. unfold fds_exist, path_exists, fds_objects.
  unfold get_state, mbind, io_bind, mret, io_ret. rewrite full_path_object by done.
  rewrite (bool_decide_eq_false_2 (_ ∈ sdirs d)), orb_false_r by (by apply Hd). done.
Qed.
Next Obligation.
  intros Out HO HS d p o pf data extra Hd Hp Hob Ho He Hf Hpf. cbn [get FileDataStore_store].
  unfold fds_get, get_state, mbind, io_bind. rewrite full_path_object by done.
  rewrite (ok_faults _ Hd), decide_False by apply not_elem_of_empty. cbn [read_fault no_faults].
  unfold fds_objects in Hob. rewrite Hob.
  destruct (get_loop_spec pf (length data) data 0 (zlen data) o extra Hpf) as (o' & E & R);
    [rewrite zlen_length; lia|done..|]. exists o'. unfold lift. by rewrite E.
Qed.
Next Obligation.
  intros Out HO d p o pf Hd Hp Hob. cbn [get FileDataStore_store].
  unfold fds_get, get_state, mbind, io_bind. rewrite full_path_object by done.
  rewrite (ok_faults _ Hd), decide_False by apply not_elem_of_empty.
  unfold fds_objects in Hob. rewrite Hob, decide_False, (not_below_file _ _ Hd Hp) by (by apply Hd). done.
Qed.
Next Obligation.
  intros In HI HS d p i pf Hd Hp Hv Hpf.
  destruct (fds_put_spec d p i pf Hd Hp Hv Hpf) as (i' & d' & E & Ok & Edir & Ef & _).
  exists i', d'. split; [exact E|]. split; [exact Ok|]. intros q Hq. by apply fds_objects_set.
Qed.

(** A store over an empty directory. *)
Definition new_FileDataStore (dir : bytes) : FileDataStore :=
  {| mStoreDirectory := dir; sdisk := empty_disk; sdirs := ∅; sfaults := no_faults |}.

Lemma new_FileDataStore_ok dir : dir <> [] -> last dir <> Some slash -> dvalid (new_FileDataStore dir) /\
  forall p, objects (new_FileDataStore dir) p = None.
Proof. intros Hd Hl. split; [|done]. by constructor. Qed.
End Spec.

(** ** Properties of the component *)

Section Properties.
Context `{PathsSpec}.

(** Whatever the progress function answers, the loop of [put] completes the
    file or removes it. *)
Lemma put_loop_atomic {In} `{InputStreamSpec In} pf full size fuel : forall (i : In) n d data,
  sfaults d = no_faults -> valid i -> zlen (contents i) <= Z.of_nat fuel ->
  (exists i', put_loop fuel pf full n size i (with_disk d (set_file (sdisk d) full data)) =
    (Ret i', with_disk d (set_file (sdisk d) full (data ++ contents i)))) \/
  put_loop fuel pf full n size i (with_disk d (set_file (sdisk d) full data)) =
    (Throw CancelledException, with_disk d (remove_file (sdisk d) full)).
Proof.
  induction fuel as [|fuel IH]; intros i n d data Hnf Hv Hf; cbn [put_loop];
    pose proof (zlen_nonneg (contents i));
    destruct (read_spec i 4096) as (i1 & E & V & C & _); [done|lia| |done|lia|]; rewrite E, io_bind_lift;
    rewrite zlen_ztake by lia;
    (destruct (Z.ltb_spec 0 (Z.min 4096 (zlen (contents i))));
      [|assert (contents i = []) as -> by (apply zlen_nil_inv; lia); left; exists i1; by rewrite app_nil_r]); [lia|].
  rewrite (io_bind_Ret get_state _ _ _ _ eq_refl). cbn [sfaults with_disk]. rewrite Hnf. cbn [write_fault no_faults].
  rewrite (io_bind_Ret (put_state _) _ _ _ _ eq_refl).
  cbn [sdisk with_disk]. rewrite file_data_set, set_file_twice.
  change (with_disk (with_disk d ?k) ?k') with (with_disk d k').
  destruct (pf n size); cbn [negb].
  - destruct (IH i1 (n + Z.min 4096 (zlen (contents i))) d (data ++ ztake 4096 (contents i)) Hnf V) as [(i' & Ei)|Ei].
    { rewrite C, zlen_zdrop by lia. lia. }
    + left. exists i'. rewrite Ei, C, <-app_assoc, ztake_zdrop. done.
    + right. exact Ei.
  - right. unfold get_state, put_state, throw, mbind, io_bind, with_disk, remove_file, set_file; cbn.
    by rewrite delete_insert_eq.
Qed.

(** *** The map *)

(** Every file on the disk has a path of the kind that the store makes. *)
Definition tidy (d : FileDataStore) : Prop :=
  forall f, is_Some (files (sdisk d) !! f) -> exists dir name, f = dir ++ slash :: name /\ proper_path dir name.

(** Where the snapshots are. *)
Definition snapshot_dir (d : FileDataStore) : bytes := mStoreDirectory d ++ str "/snapshot".

Lemma object_proper d p : fds_ok d -> object_path p ->
  exists dir name, mStoreDirectory d ++ p = dir ++ slash :: name /\ proper_path dir name.
Proof.
  intros [_ Hd Hl _ _ _] Hp. destruct (object_path_split p Hp) as (d' & name & -> & Hn & Hs & Hl').
  exists (mStoreDirectory d ++ d'), name. split; [by rewrite <-app_assoc|].
  split_and!; [by destruct (mStoreDirectory d)| |done|done].
  rewrite last_app. destruct (last d'); done.
Qed.

Lemma tidy_put d d' p data : fds_ok d -> object_path p ->
  files (sdisk d') = <[mStoreDirectory d ++ p := data]> (files (sdisk d)) -> tidy d -> tidy d'.
Proof.
  intros Hd Hp Ef Ht f. rewrite Ef. destruct (decide (f = mStoreDirectory d ++ p)) as [->|Hne].
  - intros _. by apply object_proper.
  - rewrite lookup_insert_ne by done. apply Ht.
Qed.

Lemma tidy_remove d p : tidy d -> tidy (with_disk d (remove_file (sdisk d) p)).
Proof.
  intros Ht f. cbn. destruct (decide (f = p)) as [->|Hne]; [rewrite lookup_delete_eq; by intros [? ?]|].
  rewrite lookup_delete_ne by done. apply Ht.
Qed.

Lemma fds_unlink_spec d p pf : fds_ok d -> object_path p ->
  exists d', fds_unlink p pf d = (Ret (bool_decide (is_Some (fds_objects d p))), d') /\ fds_ok d' /\
    (tidy d -> tidy d') /\ forall q, fds_objects d' q = if decide (q = p) then None else fds_objects d q.
Proof.
  intros Hd Hp. unfold fds_unlink. rewrite (io_bind_Ret get_state _ _ _ _ eq_refl), full_path_object by done.
  rewrite (ok_faults _ Hd), (bool_decide_eq_false_2 (_ ∈ refused _)), andb_false_r by apply not_elem_of_empty.
  fold (fds_objects d p). destruct (fds_objects d p) as [data|] eqn:E.
  - rewrite (io_bind_Ret (put_state _) _ _ _ _ eq_refl), bool_decide_eq_true_2 by done.
    eexists. split; [reflexivity|]. split; [by apply fds_ok_remove|]. split; [by apply tidy_remove|].
    intros q. unfold fds_objects. cbn [mStoreDirectory sdisk with_disk remove_file files].
    destruct (decide (q = p)) as [->|Hne]; [by rewrite lookup_delete_eq|].
    rewrite lookup_delete_ne; [done|]. intros Eq. by apply app_inv_head in Eq.
  - rewrite decide_False by (by apply Hd). rewrite bool_decide_eq_false_2 by (by intros [? ?]).
    exists d. split; [done|]. split; [done|]. split; [done|]. intros q. by case_decide; subst.
Qed.

Lemma elem_of_names (m : gmap (list Byte.byte) (list Byte.byte)) full f :
  f ∈ List.filter (fun f => bool_decide (parent_path f = full)) (map_to_list m).*1 <->
  is_Some (m !! f) /\ parent_path f = full.
Proof.
  rewrite list_elem_of_In, filter_In, <-list_elem_of_In, bool_decide_eq_true, list_elem_of_fmap. split.
  - intros [([f' v] & -> & Hin) Hpar]. split; [|done]. apply elem_of_map_to_list in Hin. by exists v.
  - intros [[v Hv] Hpar]. split; [|done]. exists (f, v). split; [done|]. by apply elem_of_map_to_list.
Qed.

(** The listing of the snapshots: their names, each once. *)
Lemma fds_list_spec d pf : fds_ok d -> tidy d -> snapshot_dir d ∈ sdirs d ->
  exists names, fds_list (str "/snapshot") pf d = (Ret ((Some <$> names) ++ [None]), d) /\ NoDup names /\
    forall name, name ∈ names <-> name <> [] /\ slash_free name /\ is_Some (fds_objects d (str "/snapshot/" ++ name)).
Proof.
  intros Hd Ht Hdir. pose proof Hd as [Hft Hne Hl _ _ _].
  set (full := snapshot_dir d) in *. assert (full_path d (str "/snapshot") = full) as Efull by apply path_append_spec.
  assert (forall name, name <> [] -> slash ∉ name -> proper_path full name) as Hprop.
  { intros name Hn Hs. split_and!; [unfold full, snapshot_dir; by destruct (mStoreDirectory d)| |done|done].
    unfold full, snapshot_dir. rewrite last_app. cbn. discriminate. }
  assert (forall f, is_Some (files (sdisk d) !! f) -> parent_path f = full ->
    exists name, f = full ++ slash :: name /\ name <> [] /\ slash ∉ name) as Hfile.
  { intros f Hf Hpar. destruct (Ht f Hf) as (dir & name & -> & Hpp). rewrite parent_path_spec in Hpar by done.
    subst dir. exists name. by destruct Hpp as (_ & _ & ? & ?). }
  set (l := List.filter (fun f => bool_decide (parent_path f = full)) (map_to_list (files (sdisk d))).*1).
  exists (filename <$> l). split; [|split].
  - unfold fds_list. rewrite (io_bind_Ret get_state _ _ _ _ eq_refl), Efull, Hft, decide_True by (cbn; set_solver).
    unfold l. by rewrite list_fmap_compose.
  - apply NoDup_fmap_2_strong.
    + intros f g Hf Hg E. apply elem_of_names in Hf as [Hf Hfp], Hg as [Hg Hgp].
      destruct (Hfile f Hf Hfp) as (n & -> & Hn & Hs), (Hfile g Hg Hgp) as (n' & -> & Hn' & Hs').
      rewrite !filename_spec in E by (by apply Hprop). by subst.
    + apply NoDup_ListNoDup, List.NoDup_filter, NoDup_ListNoDup, NoDup_fst_map_to_list.
  - intros name. rewrite list_elem_of_fmap. unfold fds_objects. rewrite (app_assoc _ (str "/snapshot/")).
    assert (forall n, (mStoreDirectory d ++ str "/snapshot/") ++ n = full ++ slash :: n) as Ecat.
    { intros n. unfold full, snapshot_dir. by rewrite <-!app_assoc. }
    rewrite Ecat. split.
    + intros (f & -> & Hf). apply elem_of_names in Hf as [Hf Hpar].
      destruct (Hfile f Hf Hpar) as (n & -> & Hn & Hs). by rewrite filename_spec by (by apply Hprop).
    + intros (Hn & Hs & Hf). exists (full ++ slash :: name). rewrite filename_spec by (by apply Hprop).
      split; [done|]. apply elem_of_names. split; [done|]. by rewrite parent_path_spec by (by apply Hprop).
Qed.

(** An error of the file system while an object is read is reported: when it
    cannot be opened, and when [fread] fails, after what was read before. *)
Lemma fds_get_error {Out} `{OutputStreamSpec Out} d p (o : Out) n data : object_path p ->
  fds_objects d p = Some data -> ovalid o -> fits o (zlen data) -> 0 <= n ->
  (mStoreDirectory d ++ p ∈ refused (sfaults d) \/ read_fault (sfaults d) (mStoreDirectory d ++ p) = Some n) ->
  fds_get p o DefaultProgressFunction d = (Throw FileIOException, d).
Proof.
  intros Hp Hob Ho Hf Hn Hfault. unfold fds_get.
  rewrite (io_bind_Ret get_state _ _ _ _ eq_refl), full_path_object by done. fold (fds_objects d p). rewrite Hob.
  case_decide as Hr; [done|]. destruct Hfault as [Hin|Hrd]; [by destruct Hr|]. rewrite Hrd.
  pose proof (zlen_nonneg data).
  destruct (get_loop_spec DefaultProgressFunction (length data) (ztake n data) 0 (zlen data) o 0) as (o' & E & _);
    [done|rewrite zlen_ztake, <-zlen_length by lia; lia|done|lia|rewrite zlen_ztake by lia; eapply fits_mono; [|exact Hf]; lia|].
  by rewrite E.
Qed.

(** C17: a [FileDataStore] on a file system without errors is a finite map from
    object paths to contents: [exist] and [get] tell what it has at a path, and
    [get] of a path without an object throws [FileNotFoundException]; [put] sets
    the contents of its path and [unlink] removes its path, and says whether
    there was an object, and at every other path the contents stay as they were;
    [list] of the directory of the snapshots gives the name of every snapshot,
    each once, and nothing else. *)
Theorem file_store_map {In Out} `{InputStreamSpec In} `{OutputStreamSpec Out} d p
    (Hd : dvalid d) (Hp : object_path p) :
  fds_exist p DefaultProgressFunction d = (Ret (bool_decide (is_Some (objects d p))), d) /\
  (forall o : Out, ovalid o -> match objects d p with
   | Some data => fits o (zlen data) ->
       exists o', fds_get p o DefaultProgressFunction d = (Ret o', d) /\ written o' = written o ++ data
   | None => fds_get p o DefaultProgressFunction d = (Throw FileNotFoundException, d)
   end) /\
  (forall i : In, valid i -> exists i' d', fds_put p i DefaultProgressFunction d = (Ret i', d') /\ dvalid d' /\
     parent_path (full_path d p) ∈ sdirs d' /\ sdirs d ⊆ sdirs d' /\ (tidy d -> tidy d') /\
     mStoreDirectory d' = mStoreDirectory d /\
     forall q, object_path q -> objects d' q = if decide (q = p) then Some (contents i) else objects d q) /\
  (exists d', fds_unlink p DefaultProgressFunction d = (Ret (bool_decide (is_Some (objects d p))), d') /\ dvalid d' /\
     (tidy d -> tidy d') /\
     forall q, object_path q -> objects d' q = if decide (q = p) then None else objects d q) /\
  (tidy d -> snapshot_dir d ∈ sdirs d -> exists names,
     fds_list (str "/snapshot") DefaultProgressFunction d = (Ret ((Some <$> names) ++ [None]), d) /\ NoDup names /\
     forall name, name ∈ names <-> name <> [] /\ slash_free name /\ is_Some (objects d (str "/snapshot/" ++ name))).
Proof.
  split; [exact (exist_spec d p DefaultProgressFunction Hd Hp)|]. split; [|split; [|split]].
  - intros o Ho. destruct (objects d p) as [data|] eqn:E.
    + intros Hf. destruct (get_spec d p o DefaultProgressFunction data 0 Hd Hp E Ho) as (o' & Eg & _ & W & _);
        [lia|by rewrite Z.add_0_r|done|]. exists o'. split; [exact Eg|done].
    + exact (get_missing d p o DefaultProgressFunction Hd Hp E).
  - intros i Hi. destruct (fds_put_spec d p i DefaultProgressFunction Hd Hp Hi (fun _ _ => eq_refl))
      as (i' & d' & E & Ok & Edir & Ef & Hin & Hsub).
    exists i', d'. split; [exact E|]. split; [exact Ok|]. split; [exact Hin|]. split; [exact Hsub|].
    split; [by apply (tidy_put d d' p (contents i))|]. split; [exact Edir|]. intros q Hq. by apply fds_objects_set.
  - destruct (fds_unlink_spec d p DefaultProgressFunction Hd Hp) as (d' & E & Ok & Ht & Hob).
    exists d'. split; [exact E|]. split; [exact Ok|]. split; [exact Ht|]. intros q _. exact (Hob q).
  - intros Ht Hdir. exact (fds_list_spec d DefaultProgressFunction Hd Ht Hdir).
Qed.

(** C32: [put] is atomic under cancellation: whatever the progress function
    answers, either the whole contents are stored, or [CancelledException] is
    thrown and no object is left at the path (not even the one that was there
    before); the other objects are not touched. *)
Theorem put_atomic {In} `{InputStreamSpec In} d p (i : In) pf
    (Hd : dvalid d) (Hp : object_path p) (Hi : valid i) :
  exists r d', fds_put p i pf d = (r, d') /\ dvalid d' /\
    ((exists i', r = Ret i') /\ objects d' p = Some (contents i) \/
     r = Throw CancelledException /\ objects d' p = None) /\
    forall q, object_path q -> q <> p -> objects d' q = objects d q.
Proof.
  unfold fds_put. rewrite (io_bind_Ret get_state _ _ _ _ eq_refl).
  destruct (prepare_directory d p Hd Hp) as (d1 & E1 & Hok1 & Edir & Edisk & Hin & _).
  rewrite (io_bind_Ret _ _ _ _ _ E1), (io_bind_Ret get_state _ _ _ _ eq_refl).
  rewrite full_path_object in * by done. rewrite <-Edir in *.
  cbn [fopen]. rewrite decide_False by (rewrite (ok_locked _ Hok1); set_solver).
  rewrite (ok_faults _ Hok1), (bool_decide_eq_false_2 (_ ∈ refused _)) by apply not_elem_of_empty.
  rewrite (bool_decide_eq_false_2 (_ ∈ sdirs d1)) by (by apply Hok1). cbn [orb].
  rewrite bool_decide_eq_false_2 by (intros Hn; by apply Hn).
  rewrite (io_bind_Ret (put_state _) _ _ _ _ eq_refl).
  assert (exists n, size i = Ret n) as [n ->] by (destruct (size_spec i Hi) as [-> | ->]; eauto).
  rewrite io_bind_lift.
  destruct (put_loop_atomic pf (mStoreDirectory d1 ++ p) n (remaining i) i 0 d1 [] (ok_faults _ Hok1) Hi (remaining_spec i Hi))
    as [(i' & E)|E]; rewrite E; eexists _, _; (split; [reflexivity|]).
  - split; [by apply fds_ok_set|]. cbn [objects FileDataStore_spec].
    unfold fds_objects; cbn [sdisk with_disk mStoreDirectory set_file files].
    split; [left; split; [by eexists|by rewrite lookup_insert_eq]|].
    intros q Hq Hne. rewrite lookup_insert_ne by (intros Eq; by apply app_inv_head in Eq). by rewrite Edir, <-Edisk.
  - split; [|cbn [objects FileDataStore_spec];
      unfold fds_objects; cbn [sdisk with_disk mStoreDirectory remove_file files];
      split; [right; split; [done|by rewrite lookup_delete_eq]|]].
    + by apply fds_ok_remove.
    + intros q Hq Hne. rewrite lookup_delete_ne by (intros Eq; by apply app_inv_head in Eq). by rewrite Edir, <-Edisk.
Qed.
End Properties.

(** A snapshot is put into a new store, and listed. *)
Lemma file_store_map_witness :
  exists i' d' names, fds_put (str "/snapshot/s") (new_MemoryInputStream (str "abc")) DefaultProgressFunction
      (new_FileDataStore (str "store")) = (Ret i', d') /\
    fds_list (str "/snapshot") DefaultProgressFunction d' = (Ret ((Some <$> names) ++ [None]), d') /\
    str "s" ∈ names.
Proof.
  destruct (new_FileDataStore_ok (str "store")) as [Hd _]; [discriminate|discriminate|].
  destruct (new_MemoryInputStream_valid (str "abc")) as (V & C & _).
  assert (slash_free (str "s")) as Hs by (unfold slash_free; refine (bool_decide_unpack _ _); vm_compute; exact I).
  assert (object_path (str "/snapshot/s")) as Hp by (apply (path_snapshot (str "s")); [discriminate|exact Hs]).
  destruct (file_store_map (In := MemoryInputStream) (Out := MemoryOutputStream) (new_FileDataStore (str "store"))
    (str "/snapshot/s") Hd Hp) as (_ & _ & Hput & _ & _).
  destruct (Hput (new_MemoryInputStream (str "abc")) V) as (i' & d' & E & Hd' & Hin & _ & Ht & Edir & Hob).
  assert (tidy d') as Ht' by (apply Ht; intros f [? Hf]; vm_compute in Hf; discriminate Hf).
  destruct (file_store_map (In := MemoryInputStream) (Out := MemoryOutputStream) d' (str "/snapshot/s") Hd' Hp)
    as (_ & _ & _ & _ & Hlist).
  destruct Hlist as (names & El & _ & Hn); [exact Ht'|unfold snapshot_dir; rewrite Edir; exact Hin|].
  exists i', d', names. split; [exact E|]. split; [exact El|]. apply Hn. split; [discriminate|]. split; [exact Hs|].
  change (str "/snapshot/" ++ str "s") with (str "/snapshot/s"). rewrite (Hob _ Hp), decide_True by reflexivity.
  eexists. reflexivity.
Defined.

Lemma put_atomic_witness :
  exists d', fds_put (str "/key") (new_MemoryInputStream (str "abc")) (fun _ _ => false)
      (new_FileDataStore (str "store")) = (Throw CancelledException, d') /\ objects d' (str "/key") = None.
Proof.
  destruct (new_FileDataStore_ok (str "store")) as [Hd Hn]; [discriminate|discriminate|].
  destruct (new_MemoryInputStream_valid (str "abc")) as (V & C & _).
  destruct (put_atomic (new_FileDataStore (str "store")) (str "/key") (new_MemoryInputStream (str "abc"))
    (fun _ _ => false) Hd path_key V) as (r & d' & E & _ & [[(i' & ->) _]|[-> Hnone]] & _).
  - vm_compute in E. discriminate E.
  - exists d'. split; [exact E|exact Hnone].
Defined.
