(* ===== verification/SSHDataStore.v ===== *)
(** * SSHDataStore.cpp: objects on an SFTP server

    libssh is not modelled: the calls of the code are the class [SSH] over the
    state of the session and the server, and [SSHSpec] is what SFTP documents.
    The two bounds at the end of the class bound loops that the server ends. *)
From S2P Require Import Prelude Streams MemoryStreams FileStreams Filesystem DataStore.
From Stdlib Require Import ZArith Lia.

Inductive SshStatus := SSH_OK | SSH_ERROR | SSH_AGAIN.
Inductive ServerKnown :=
  | SSH_SERVER_ERROR | SSH_SERVER_NOT_KNOWN | SSH_SERVER_KNOWN_OK | SSH_SERVER_KNOWN_CHANGED
  | SSH_SERVER_FOUND_OTHER | SSH_SERVER_FILE_NOT_FOUND.
Inductive AuthStatus :=
  | SSH_AUTH_SUCCESS | SSH_AUTH_DENIED | SSH_AUTH_PARTIAL | SSH_AUTH_INFO | SSH_AUTH_AGAIN | SSH_AUTH_ERROR.
Inductive OpenFlags := O_RDONLY | O_WRONLY.

Class SSH := {
  Srv : Type;
  Handle : Type;
  Key : Type;
  ssh_options_set : Srv -> bytes -> Z -> Srv;                       (* host, port *)
  ssh_connect : Srv -> SshStatus * Srv;
  ssh_is_server_known : Srv -> ServerKnown;
  ssh_get_pubkey_hash : Srv -> option bytes;                        (* None: a negative result *)
  ssh_write_knownhost : Srv -> bool * Srv;                          (* false: a negative result *)
  ssh_userauth_password : Srv -> bytes -> bytes -> AuthStatus * Srv;
  ssh_pki_import_privkey_file : Srv -> bytes -> bytes -> option Key;
  ssh_userauth_publickey : Srv -> bytes -> Key -> AuthStatus * Srv;
  sftp_new : Srv -> bool * Srv;
  sftp_lstat : Srv -> bytes -> bool;
  sftp_open : Srv -> bytes -> OpenFlags -> option Handle * Srv;
  sftp_read : Srv -> Handle -> Z -> option bytes * Srv;             (* None: a negative result *)
  sftp_write : Srv -> Handle -> bytes -> Z * Srv;
  sftp_close : Srv -> Handle -> Srv;
  sftp_opendir : Srv -> bytes -> option Handle * Srv;
  sftp_readdir : Srv -> Handle -> option bytes * Srv;               (* None: the null pointer *)
  dir_count : Srv -> Handle -> Z;
  sftp_closedir : Srv -> Handle -> Srv;
  sftp_unlink : Srv -> bytes -> bool * Srv;
  again_left : Srv -> nat;
  handle_left : Srv -> Handle -> nat
}.

(** The session, and [mFtp], which is uninitialised until [connect] succeeds. *)
Record SSHDataStore `{SSH} := { sshPath : bytes; sftpReady : bool; server : Srv }.

Section Code.
Context `{SSH} `{Paths}.

(** [SSHDataStore::SSHDataStore]; [None] is the failure of [ssh_new]. *)
Definition new_SSHDataStore (path : bytes) (session : option Srv) : result SSHDataStore :=
  match session with
  | None => Throw InitializationException
  | Some s => Ret {| sshPath := path; sftpReady := false; server := s |}
  end.

(** ** Connecting *)

(** [Authentication] and its two classes; the function pointer [acceptHostKey]
    is uninitialised ([None]) unless the client sets it. *)
Inductive AuthMethod :=
  | PasswordAuthentication (username password : bytes)
  | PublicKeyAuthentication (username password privateKeyFile : bytes).
Record Authentication := { acceptHostKey : option (bytes -> bool); authMethod : AuthMethod }.

(** [while((authStatus = ssh_userauth_password(...)) == SSH_AUTH_AGAIN)] *)
Fixpoint auth_again (fuel : nat) (username password : bytes) (s : Srv) : result AuthStatus * Srv :=
  match ssh_userauth_password s username password with
  | (SSH_AUTH_AGAIN, s) =>
      match fuel with
      | O => (NoFuel, s)
      | S fuel => auth_again fuel username password s
      end
  | (status, s) => (Ret status, s)
  end.

(** The two [switch(authStatus)], which are the same. *)
Definition auth_result (status : AuthStatus) : result bool :=
  match status with
  | SSH_AUTH_ERROR | SSH_AUTH_PARTIAL => Throw ConnectionException
  | SSH_AUTH_DENIED => Ret false
  | SSH_AUTH_SUCCESS | SSH_AUTH_INFO | SSH_AUTH_AGAIN => Ret true
  end.

(** [PasswordAuthentication::authenticate], [PublicKeyAuthentication::authenticate];
    the result of the import is not checked, so that the key is an uninitialised
    pointer when it fails. *)
Definition authenticate (m : AuthMethod) : io Srv bool :=
  match m with
  | PasswordAuthentication username password =>
      s ← get_state;
      status ← auth_again (again_left s) username password;
      lift (auth_result status)
  | PublicKeyAuthentication username password privateKeyFile =>
      s ← get_state;
      sshKey ← lift (or_undef (ssh_pki_import_privkey_file s privateKeyFile password));
      let (status, s) := ssh_userauth_publickey s username sshKey in
      _ ← put_state s;
      lift (auth_result status)
  end.

(** [while((status = ssh_connect(mSession)) == SSH_AGAIN)] *)
Fixpoint connect_again (fuel : nat) (s : Srv) : result SshStatus * Srv :=
  match ssh_connect s with
  | (SSH_AGAIN, s) =>
      match fuel with
      | O => (NoFuel, s)
      | S fuel => connect_again fuel s
      end
  | (status, s) => (Ret status, s)
  end.

(** The [switch (state)]: it throws unless the host key is good. *)
Definition check_host_key (accept : option (bytes -> bool)) (state : ServerKnown) (hash : bytes) : io Srv unit :=
  match state with
  | SSH_SERVER_KNOWN_OK => mret tt
  | SSH_SERVER_KNOWN_CHANGED | SSH_SERVER_FOUND_OTHER | SSH_SERVER_ERROR => throw ConnectionException
  | SSH_SERVER_FILE_NOT_FOUND | SSH_SERVER_NOT_KNOWN =>
      accept ← lift (or_undef accept);
      if (accept : bytes -> bool) hash then
        s ← get_state;
        let (written, s) := ssh_write_knownhost s in
        _ ← put_state s;
        if (written : bool) then mret tt else throw ConnectionException
      else throw ConnectionException
  end.

(** [SSHDataStore::connect] up to the authentication. *)
Definition connect_host (hostname : bytes) (port : Z) (auth : Authentication) : io Srv unit :=
  s ← get_state;
  _ ← put_state (ssh_options_set s hostname port);
  s ← get_state;
  status ← connect_again (again_left s);
  match status with
  | SSH_OK =>
      s ← get_state;
      match ssh_get_pubkey_hash s with
      | None => throw ConnectionException
      | Some hash => check_host_key (acceptHostKey auth) (ssh_is_server_known s) hash
      end
  | _ => throw ConnectionException
  end.

(** An operation on the session of the data store. *)
Definition on_server {A} (m : io Srv A) : io SSHDataStore A := fun d =>
  let (a, s) := m (server d) in (a, {| sshPath := sshPath d; sftpReady := sftpReady d; server := s |}).

(** [SSHDataStore::connect] *)
Definition ssh_connect_store (hostname : bytes) (port : Z) (auth : Authentication) : io SSHDataStore bool :=
  _ ← on_server (connect_host hostname port auth);
  ok ← on_server (authenticate (authMethod auth));
  if negb (ok : bool) then mret false
  else
    d ← get_state;
    let (ready, s) := sftp_new (server d) in
    _ ← put_state {| sshPath := sshPath d; sftpReady := ready; server := s |};
    if (ready : bool) then mret true else throw ConnectionException.

(** ** Objects *)

(** [(mPath / path).c_str()], with an SFTP session that was opened. *)
Definition ssh_path (path : bytes) : io SSHDataStore bytes :=
  d ← get_state;
  if sftpReady d then mret (path_append (sshPath d) path) else lift Undef.

(** [SSHDataStore::exist] *)
Definition ssh_exist (path : bytes) (progress : ProgressFunction) : io SSHDataStore bool :=
  full ← ssh_path path;
  d ← get_state;
  mret (sftp_lstat (server d) full).

(** A body that uses a handle, which is closed however it ends. *)
Definition closing {A} (closer : Srv -> Handle -> Srv) (h : Handle) (body : io Srv A) : io Srv A :=
  fun s => let (a, s) := body s in (a, closer s h).

(** [while((n = sftp_read(...)) > 0)] *)
Fixpoint sftp_get_loop {Out} `{OutputStream Out} (fuel : nat) (progress : ProgressFunction) (h : Handle)
    (count : Z) (stream : Out) : io Srv Out :=
  s ← get_state;
  let (buffer, s) := sftp_read s h 8192 in
  _ ← put_state s;
  match buffer with
  | None | Some [] => mret stream
  | Some buffer =>
      match fuel with
      | O => lift NoFuel
      | S fuel =>
          let count := count + zlen buffer in
          if negb (progress count (-1)) then throw CancelledException
          else
            stream ← lift (write stream buffer);
            sftp_get_loop fuel progress h count stream
      end
  end.

(** [SSHDataStore::get] *)
Definition ssh_get {Out} `{OutputStream Out} (path : bytes) (stream : Out) (progress : ProgressFunction)
  : io SSHDataStore Out :=
  full ← ssh_path path;
  on_server
    (s ← get_state;
     let (fp, s) := sftp_open s full O_RDONLY in
     _ ← put_state s;
     match fp with
     | None => throw FileNotFoundException
     | Some fp => closing sftp_close fp (sftp_get_loop (handle_left s fp) progress fp 0 stream)
     end).

(** [while((n = stream.read(...)) > 0)]; the result of [sftp_write] is not used. *)
Fixpoint sftp_put_loop {In} `{InputStream In} (fuel : nat) (progress : ProgressFunction) (h : Handle)
    (count : Z) (stream : In) : io Srv In :=
  '(buffer, stream) ← lift (read stream 8192);
  if 0 <? zlen buffer then
    match fuel with
    | O => lift NoFuel
    | S fuel =>
        let count := count + zlen buffer in
        if negb (progress count (-1)) then throw CancelledException
        else
          s ← get_state;
          _ ← put_state (snd (sftp_write s h buffer));
          sftp_put_loop fuel progress h count stream
    end
  else mret stream.

(** [SSHDataStore::put] *)
Definition ssh_put {In} `{InputStream In} (path : bytes) (stream : In) (progress : ProgressFunction)
  : io SSHDataStore In :=
  full ← ssh_path path;
  on_server
    (s ← get_state;
     let (fp, s) := sftp_open s full O_WRONLY in
     _ ← put_state s;
     match fp with
     | None => throw FileNotFoundException
     | Some fp => closing sftp_close fp (sftp_put_loop (remaining stream) progress fp 0 stream)
     end).

(** [while((attributes = sftp_readdir(...)) != nullptr)]: the names of the callback. *)
Fixpoint sftp_list_loop (fuel : nat) (progress : ProgressFunction) (h : Handle) (i : Z)
  : io Srv (list (option bytes)) :=
  s ← get_state;
  let (name, s) := sftp_readdir s h in
  _ ← put_state s;
  match name with
  | None => mret []
  | Some name =>
      match fuel with
      | O => lift NoFuel
      | S fuel =>
          if negb (progress i (dir_count s h)) then throw CancelledException
          else
            names ← sftp_list_loop fuel progress h (i + 1);
            mret (Some name :: names)
      end
  end.

(** [SSHDataStore::list] *)
Definition ssh_list (path : bytes) (progress : ProgressFunction) : io SSHDataStore (list (option bytes)) :=
  full ← ssh_path path;
  on_server
    (s ← get_state;
     let (dir, s) := sftp_opendir s full in
     _ ← put_state s;
     match dir with
     | None => throw FileNotFoundException
     | Some dir => closing sftp_closedir dir (sftp_list_loop (handle_left s dir) progress dir 0)
     end).

(** [SSHDataStore::unlink] *)
Definition ssh_unlink (path : bytes) (progress : ProgressFunction) : io SSHDataStore bool :=
  full ← ssh_path path;
  on_server (s ← get_state; let (ok, s) := sftp_unlink s full in _ ← put_state s; mret ok).

#[export] Instance SSHDataStore_store : DataStore SSHDataStore := {|
  exist := ssh_exist;
  get _ _ := ssh_get;
  put _ _ := ssh_put;
  list_files := ssh_list;
  unlink := ssh_unlink
|}.
End Code.

(** * Specification *)

(** What SFTP documents of the calls, for a server where nobody else writes.
    Reads and writes may fail, as they do when the connection is lost. *)
Class SSHSpec `{SSH} := {
  (** the files of the server *)
  remote : Srv -> bytes -> option bytes;
  (** what a handle has still to deliver *)
  unread : Srv -> Handle -> bytes;
  (** the file and the position a handle writes to *)
  target : Srv -> Handle -> bytes * Z;
  open_missing s p flags : remote s p = None -> sftp_open s p flags = (None, s);
  open_read s p data : remote s p = Some data -> exists h s', sftp_open s p O_RDONLY = (Some h, s') /\
    unread s' h = data /\ remote s' = remote s;
  open_write s p data : remote s p = Some data -> exists h s', sftp_open s p O_WRONLY = (Some h, s') /\
    target s' h = (p, 0) /\ remote s' = remote s;
  read_some s h n b s' : 0 < n -> sftp_read s h n = (Some b, s') ->
    unread s h = b ++ unread s' h /\ zlen b <= n /\ (b = [] -> unread s h = []) /\ remote s' = remote s;
  read_none s h n s' : 0 < n -> sftp_read s h n = (None, s') -> remote s' = remote s;
  left_spec s h : (length (unread s h) <= handle_left s h)%nat;
  write_all s h b k s' p pos data : target s h = (p, pos) -> remote s p = Some data -> sftp_write s h b = (k, s') ->
    0 <= k -> target s' h = (p, pos + zlen b) /\ remote s' p = Some (overwrite data pos b) /\
      forall q, q <> p -> remote s' q = remote s q;
  close_remote s h : remote (sftp_close s h) = remote s
}.

Section Spec.
Context `{SSHSpec}.

(** Reads and writes do not fail. *)
Definition reads_work : Prop := forall s h n, 0 < n -> fst (sftp_read s h n) <> None.
Definition writes_work : Prop := forall s h b, 0 <= fst (sftp_write s h b).

(** The loop of [get] delivers a prefix, and all of it when the reads work. *)
Lemma sftp_get_loop_spec {Out} `{OutputStreamSpec Out} progress h fuel : forall count (o : Out) s extra,
  (forall a b, progress a b = true) -> (length (unread s h) <= fuel)%nat -> ovalid o -> 0 <= extra ->
  fits o (zlen (unread s h) + extra) ->
  exists o' s' pre rest, sftp_get_loop fuel progress h count o s = (Ret o', s') /\ remote s' = remote s /\
    unread s h = pre ++ rest /\ written o' = written o ++ pre /\ (reads_work -> rest = []).
Proof.
  assert (0 < 8192) as H8 by lia. induction fuel as [|fuel IH]; intros count o s extra Hp Hf Ho He Hfit; cbn [sftp_get_loop];
    rewrite (io_bind_Ret get_state _ _ _ _ eq_refl); destruct (sftp_read s h 8192) as [[[|b buffer]|] s1] eqn:Er;
    rewrite (io_bind_Ret (put_state s1) _ _ _ _ eq_refl).
  1,4: destruct (read_some _ _ _ _ _ H8 Er) as (_ & _ & Hnil & Hr); exists o, s1, [], (unread s h);
    rewrite app_nil_r; split_and!; auto.
  2,4: pose proof (read_none _ _ _ _ H8 Er) as Hr; exists o, s1, [], (unread s h);
    rewrite app_nil_r; split_and!; try done; intros Hw; specialize (Hw s h 8192 H8); by rewrite Er in Hw.
  - destruct (read_some _ _ _ _ _ H8 Er) as (Hu & _). rewrite Hu in Hf. cbn in Hf. lia.
  - destruct (read_some _ _ _ _ _ H8 Er) as (Hu & _ & _ & Hr). rewrite Hp. cbn [negb].
    rewrite Hu, zlen_app, <-Z.add_assoc in Hfit. pose proof (zlen_nonneg (unread s1 h)).
    destruct (write_spec o (b :: buffer) Ho) as (o1 & -> & V1 & W1 & F1).
    { eapply fits_mono; [|exact Hfit]. pose proof (zlen_nonneg (b :: buffer)). lia. }
    rewrite io_bind_lift.
    destruct (IH (count + zlen (b :: buffer)) o1 s1 extra Hp) as (o' & s' & pre & rest & E & R & U & W & Hall);
      [rewrite Hu in Hf; rewrite length_app in Hf; cbn in Hf; lia|done|done|by apply F1; [lia|]|].
    exists o', s', ((b :: buffer) ++ pre), rest. split; [exact E|]. split; [by rewrite R|].
    split; [by rewrite Hu, U, app_assoc|]. split; [by rewrite W, W1, app_assoc|done].
Qed.

Lemma ssh_get_loop_fuel {Out} `{OutputStreamSpec Out} progress h count (o : Out) s :
  (forall a b, progress a b = true) -> ovalid o -> fits o (zlen (unread s h)) ->
  exists o' s' pre rest, sftp_get_loop (handle_left s h) progress h count o s = (Ret o', s') /\
    remote s' = remote s /\ unread s h = pre ++ rest /\ written o' = written o ++ pre /\ (reads_work -> rest = []).
Proof.
  intros Hp Ho Hf. eapply (sftp_get_loop_spec progress h _ count o s 0 Hp (left_spec s h) Ho); [lia|].
  by rewrite Z.add_0_r.
Qed.

(** The loop of [put] writes from the position of the handle. *)
Lemma sftp_put_loop_spec {In} `{InputStreamSpec In} progress h p : forall fuel count (i : In) s pos data,
  (forall a b, progress a b = true) -> writes_work -> valid i -> zlen (contents i) <= Z.of_nat fuel ->
  target s h = (p, pos) -> remote s p = Some data -> 0 <= pos <= zlen data ->
  exists i' s' data', sftp_put_loop fuel progress h count i s = (Ret i', s') /\
    remote s' p = Some data' /\ (forall q, q <> p -> remote s' q = remote s q) /\
    data' = ztake pos data ++ contents i ++ zdrop (pos + zlen (contents i)) data.
Proof.
  induction fuel as [|fuel IH]; intros count i s pos data Hp Hw Hv Hf Ht Hr Hpos; cbn [sftp_put_loop];
    destruct (read_spec i 8192 Hv ltac:(lia)) as (i1 & -> & V1 & C1 & _); rewrite io_bind_lift;
    pose proof (zlen_nonneg (contents i)); rewrite zlen_ztake by lia;
    (destruct (Z.ltb_spec 0 (Z.min 8192 (zlen (contents i)))) as [Hl|Hl]; [|
      assert (contents i = []) as -> by (apply zlen_nil_inv; lia); exists i1, s, data; cbn [zlen app];
      rewrite Z.add_0_r, ztake_zdrop; done]).
  { lia. }
  rewrite Hp. cbn [negb]. rewrite (io_bind_Ret get_state _ _ _ _ eq_refl).
  set (b := ztake 8192 (contents i)) in *.
  assert (zlen b = Z.min 8192 (zlen (contents i))) as Hb by (unfold b; rewrite zlen_ztake by lia; done).
  destruct (sftp_write s h b) as [k s1] eqn:Ew. cbn [snd].
  rewrite (io_bind_Ret (put_state s1) _ _ _ _ eq_refl).
  pose proof (Hw s h b) as Hk. rewrite Ew in Hk. cbn [fst] in Hk.
  destruct (write_all _ _ _ _ _ _ _ _ Ht Hr Ew Hk) as (Ht1 & Hr1 & Hq1).
  assert (zlen (overwrite data pos b) >= pos + zlen b) as Hlen.
  { unfold overwrite. rewrite !zlen_app, zlen_ztake, zlen_replicate by lia.
    pose proof (zlen_nonneg (zdrop (pos + zlen b) data)). lia. }
  destruct (IH (count + Z.min 8192 (zlen (contents i))) i1 s1 (pos + zlen b) (overwrite data pos b) Hp Hw V1)
    as (i' & s' & data' & E & Hr' & Hq' & Hd'); [rewrite C1, zlen_zdrop by lia; lia|done|done|lia|].
  exists i', s', data'. split; [exact E|]. split; [exact Hr'|]. split; [intros q Hne; by rewrite Hq', Hq1|].
  rewrite Hd', C1. unfold overwrite.
  replace (Z.to_nat (pos - zlen data)) with 0%nat by lia. cbn [replicate app].
  assert (zlen (ztake pos data) = pos) as Hz by (rewrite zlen_ztake by lia; lia).
  set (rest := zdrop (pos + zlen b) data).
  assert (ztake (pos + zlen b) (ztake pos data ++ b ++ rest) = ztake pos data ++ b) as ->
    by (rewrite app_assoc, ztake_app_exact by (rewrite zlen_app; lia); done).
  rewrite <-app_assoc. f_equal. rewrite <-(ztake_zdrop 8192 (contents i)) at 3. fold b.
  rewrite <-app_assoc. do 2 f_equal. rewrite zlen_zdrop by lia. unfold rest.
  rewrite zdrop_app by lia. rewrite zdrop_app by lia. rewrite Hz.
  rewrite (zdrop_ge (pos + zlen b + _) (ztake pos data)) by lia. rewrite (zdrop_ge _ b) by lia. cbn [app].
  rewrite zdrop_zdrop by lia. f_equal. lia.
Qed.
End Spec.

(** ** A concrete server, which can lose its connection after the first read *)

Module ToySSH.
Record toy := { tfiles : gmap (list Byte.byte) (list Byte.byte); thandles : nat -> bytes * Z; tnext : nat; broken : bool }.
Definition set_handle (s : toy) (h : nat) (x : bytes * Z) : toy := {|
  tfiles := tfiles s; thandles k := if decide (k = h) then x else thandles s k; tnext := tnext s; broken := broken s |}.
Definition toy_unread (s : toy) (h : nat) : bytes := zdrop (snd (thandles s h)) (default [] (tfiles s !! fst (thandles s h))).

Definition toy_open (s : toy) (p : bytes) : option nat * toy :=
  match tfiles s !! p with
  | None => (None, s)
  | Some _ => (Some (tnext s), {| tfiles := tfiles s; broken := broken s; tnext := S (tnext s);
      thandles k := if decide (k = tnext s) then (p, 0) else thandles s k |})
  end.
Definition toy_read (s : toy) (h : nat) (n : Z) : option bytes * toy :=
  if broken s && (0 <? snd (thandles s h)) then (None, s)
  else
    let b := ztake (Z.min n 4) (toy_unread s h) in
    (Some b, set_handle s h (fst (thandles s h), Z.max 0 (snd (thandles s h)) + zlen b)).
Definition toy_write (s : toy) (h : nat) (b : bytes) : Z * toy :=
  let (p, pos) := thandles s h in
  let s := set_handle s h (p, pos + zlen b) in
  (zlen b, {| tfiles := <[p := overwrite (default [] (tfiles s !! p)) pos b]> (tfiles s);
              thandles := thandles s; tnext := tnext s; broken := broken s |}).

#[global] Instance ssh : SSH := {|
  Srv := toy; Handle := nat; Key := unit;
  ssh_options_set s _ _ := s;
  ssh_connect s := (SSH_OK, s);
  ssh_is_server_known _ := SSH_SERVER_NOT_KNOWN;
  ssh_get_pubkey_hash _ := Some (str "hash");
  ssh_write_knownhost s := (true, s);
  ssh_userauth_password s u p := (if decide (p = str "secret") then SSH_AUTH_SUCCESS else SSH_AUTH_DENIED, s);
  ssh_pki_import_privkey_file _ _ _ := None;
  ssh_userauth_publickey s _ _ := (SSH_AUTH_DENIED, s);
  sftp_new s := (true, s);
  sftp_lstat s p := bool_decide (is_Some (tfiles s !! p));
  sftp_open s p _ := toy_open s p;
  sftp_read := toy_read;
  sftp_write := toy_write;
  sftp_close s _ := s;
  sftp_opendir s _ := (None, s);
  sftp_readdir s _ := (None, s);
  dir_count _ _ := 0;
  sftp_closedir s _ := s;
  sftp_unlink s p := (bool_decide (is_Some (tfiles s !! p)),
    {| tfiles := delete p (tfiles s); thandles := thandles s; tnext := tnext s; broken := broken s |});
  again_left _ := 0%nat;
  handle_left s h := length (toy_unread s h)
|}.

#[global] Program Instance spec : SSHSpec := {|
  remote s p := tfiles (s : toy) !! p;
  unread := toy_unread;
  target s h := thandles (s : toy) h
|}.
Next Obligation. intros s p flags E. cbn in *. unfold toy_open. by rewrite E. Qed.
Next Obligation.
  intros s p data E. cbn in *. unfold toy_open. rewrite E. do 2 eexists. split; [reflexivity|].
  unfold toy_unread. cbn. rewrite decide_True by done. cbn. rewrite E. split; [|done]. by apply zdrop_nonpos.
Qed.
Next Obligation.
  intros s p data E. cbn in *. unfold toy_open. rewrite E. do 2 eexists. split; [reflexivity|].
  cbn. by rewrite decide_True.
Qed.
Next Obligation.
  intros s h n b s' Hn E. cbn in *. unfold toy_read in E. destruct (_ && _); [done|].
  injection E as <- <-. unfold toy_unread at 1 3 4 5. cbn. rewrite !decide_True by done. cbn [fst snd].
  set (data := default [] (tfiles s !! fst (thandles s h))). set (pos := snd (thandles s h)).
  assert (toy_unread s h = zdrop (Z.max 0 pos) data) as ->.
  { unfold toy_unread. fold pos data. destruct (Z.le_ge_cases 0 pos); [by rewrite Z.max_r|].
    rewrite Z.max_l, !zdrop_nonpos by lia. done. }
  assert (zdrop pos data = zdrop (Z.max 0 pos) data) as ->.
  { destruct (Z.le_ge_cases 0 pos); [by rewrite Z.max_r|]. rewrite Z.max_l, !zdrop_nonpos by lia. done. }
  set (u := zdrop (Z.max 0 pos) data). pose proof (zlen_nonneg u). split_and!.
  - rewrite <-(ztake_zdrop (Z.min n 4) u) at 1. f_equal.
    rewrite <-(zdrop_zdrop _ (Z.max 0 pos) data) by (try apply zlen_nonneg; lia). fold u. rewrite zlen_ztake by lia.
    destruct (Z.le_ge_cases (Z.min n 4) (zlen u)); [by rewrite (Z.min_l (Z.min n 4) (zlen u)) by lia|].
    rewrite !zdrop_ge by lia. done.
  - rewrite zlen_ztake by lia. lia.
  - intros Hb. apply (f_equal zlen) in Hb. rewrite zlen_ztake in Hb by lia. cbn in Hb.
    apply zlen_nil_inv. lia.
  - done.
Qed.
Next Obligation. intros s h n s' Hn E. cbn in *. unfold toy_read in E. destruct (_ && _); [by injection E as <-|done]. Qed.
Next Obligation. done. Qed.
Next Obligation.
  intros s h b k s' p pos data Ht Hr E Hk. cbn in *. unfold toy_write in E. rewrite Ht in E.
  injection E as <- <-. cbn. rewrite decide_True by done. split; [done|].
  rewrite lookup_insert_eq, Hr. split; [done|]. intros q Hne. by rewrite lookup_insert_ne.
Qed.
Next Obligation. done. Qed.
Definition start (b : bool) : toy := {| tfiles := {[ str "/store/key" := str "the key file" ]}; thandles _ := ([], 0);
  tnext := 0; broken := b |}.
Definition store (b : bool) : SSHDataStore := {| sshPath := str "/store"; sftpReady := true; server := start b |}.
End ToySSH.

(** * Properties *)

Section Properties.
Context `{SSHSpec} `{Paths}.

Lemma ssh_path_ready (d : SSHDataStore) path : sftpReady d = true ->
  ssh_path path d = (Ret (path_append (sshPath d) path), d).
Proof. intros E. unfold ssh_path. rewrite (io_bind_Ret get_state _ _ _ _ eq_refl). by rewrite E. Qed.

(** C33: [get] throws [FileNotFoundException] for a missing file; otherwise it
    returns normally and changes no file, having written a prefix of the file,
    which is the whole file when no read fails.  A read that fails is taken for
    the end of the file. *)
Theorem ssh_get_correct {Out} `{OutputStreamSpec Out} (d : SSHDataStore) path (o : Out) progress
    (Hready : sftpReady d = true) (Ho : ovalid o) (Hp : forall a b, progress a b = true) :
  match remote (server d) (path_append (sshPath d) path) with
  | None => ssh_get path o progress d = (Throw FileNotFoundException, d)
  | Some data => fits o (zlen data) ->
      exists o' d' pre rest, ssh_get path o progress d = (Ret o', d') /\ remote (server d') = remote (server d) /\
        data = pre ++ rest /\ written o' = written o ++ pre /\ (reads_work -> rest = [])
  end.
Proof.
  unfold ssh_get. rewrite (io_bind_Ret _ _ _ _ _ (ssh_path_ready d path Hready)). set (full := path_append (sshPath d) path).
  unfold on_server.
  rewrite (io_bind_Ret get_state _ _ _ _ eq_refl).
  destruct (remote (server d) full) as [data|] eqn:Er.
  - intros Hf. destruct (open_read _ _ _ Er) as (h & s & -> & Hu & Hr).
    rewrite (io_bind_Ret (put_state s) _ _ _ _ eq_refl). unfold closing. rewrite <-Hu in Hf.
    destruct (ssh_get_loop_fuel progress h 0 o s Hp Ho Hf) as (o' & s' & pre & rest & -> & Hr' & Hpre & Hw & Hall).
    eexists o', _, pre, rest. split; [reflexivity|]. cbn [server]. by rewrite close_remote, Hr', Hr, <-Hu.
  - rewrite (open_missing _ _ _ Er), (io_bind_Ret (put_state _) _ _ _ _ eq_refl).
    unfold throw. by destruct d.
Qed.

(** C34: [put] opens the file without creating or truncating it: an object that
    is not on the server is never stored, [FileNotFoundException] is thrown; an
    object that is there keeps the end of its old contents when the new ones are
    shorter (writes that work assumed). *)
Theorem ssh_put_correct {In} `{InputStreamSpec In} (d : SSHDataStore) path (i : In) progress
    (Hready : sftpReady d = true) (Hi : valid i) (Hp : forall a b, progress a b = true) :
  let full := path_append (sshPath d) path in
  match remote (server d) full with
  | None => ssh_put path i progress d = (Throw FileNotFoundException, d)
  | Some old => writes_work ->
      exists i' d', ssh_put path i progress d = (Ret i', d') /\
        remote (server d') full = Some (contents i ++ zdrop (zlen (contents i)) old) /\
        forall q, q <> full -> remote (server d') q = remote (server d) q
  end.
Proof.
  intros full. unfold ssh_put. rewrite (io_bind_Ret _ _ _ _ _ (ssh_path_ready d path Hready)). fold full. unfold on_server.
  rewrite (io_bind_Ret get_state _ _ _ _ eq_refl).
  destruct (remote (server d) full) as [old|] eqn:Er.
  - intros Hw. destruct (open_write _ _ _ Er) as (h & s & -> & Ht & Hr).
    rewrite (io_bind_Ret (put_state s) _ _ _ _ eq_refl). unfold closing.
    assert (remote s full = Some old) as Ers by (by rewrite Hr).
    pose proof (zlen_nonneg old).
    destruct (sftp_put_loop_spec progress h full (remaining i) 0 i s 0 old Hp Hw Hi (remaining_spec i Hi) Ht Ers)
      as (i' & s' & data & -> & Hd & Hq & ->); [lia|].
    eexists i', _. split; [reflexivity|]. cbn [server]. rewrite close_remote. rewrite ztake_nonpos, Z.add_0_l in Hd by lia.
    split; [exact Hd|].
    intros q Hne. by rewrite Hq, Hr.
  - rewrite (open_missing _ _ _ Er), (io_bind_Ret (put_state _) _ _ _ _ eq_refl).
    unfold throw. by destruct d.
Qed.

(** [connect] never sends a password or a key to a server of which the host
    key is not good: when the connection fails, the key has changed, is of
    another type, cannot be checked, or is unknown and refused by the client,
    [ConnectionException] is thrown and the state of the session is the one
    before the authentication. *)
Theorem ssh_connect_checks (d : SSHDataStore) hostname port auth status s
    (Hconn : connect_again (again_left (ssh_options_set (server d) hostname port))
               (ssh_options_set (server d) hostname port) = (Ret status, s))
    (Hbad : status <> SSH_OK \/ ssh_get_pubkey_hash s = None \/ exists hash, ssh_get_pubkey_hash s = Some hash /\
       match ssh_is_server_known s with
       | SSH_SERVER_KNOWN_CHANGED | SSH_SERVER_FOUND_OTHER | SSH_SERVER_ERROR => True
       | SSH_SERVER_NOT_KNOWN | SSH_SERVER_FILE_NOT_FOUND =>
           exists accept, acceptHostKey auth = Some accept /\ accept hash = false
       | SSH_SERVER_KNOWN_OK => False
       end) :
  ssh_connect_store hostname port auth d =
    (Throw ConnectionException, {| sshPath := sshPath d; sftpReady := sftpReady d; server := s |}).
Proof.
  assert (connect_host hostname port auth (server d) = (Throw ConnectionException, s)) as E.
  { unfold connect_host. rewrite (io_bind_Ret get_state _ _ _ _ eq_refl),
      (io_bind_Ret (put_state _) _ _ _ _ eq_refl), (io_bind_Ret get_state _ _ _ _ eq_refl).
    rewrite (io_bind_Ret _ _ _ _ _ Hconn). destruct Hbad as [Hs|[Hn|(hash & Hh & Hk)]].
    - by destruct status.
    - destruct status; [|done..]. by rewrite (io_bind_Ret get_state _ _ _ _ eq_refl), Hn.
    - destruct status; [|done..]. rewrite (io_bind_Ret get_state _ _ _ _ eq_refl), Hh. unfold check_host_key.
      destruct (ssh_is_server_known s); try done; destruct Hk as (accept & -> & Ha); cbn [or_undef];
        by rewrite io_bind_lift, Ha. }
  unfold ssh_connect_store. unfold mbind at 1, io_bind at 1, on_server at 1. by rewrite E.
Qed.
End Properties.

(** The connection is lost after four bytes, and [get] returns normally. *)
Example ssh_get_truncated :
  match ssh_get (str "/key") (new_MemoryOutputStream 100) DefaultProgressFunction (ToySSH.store true) with
  | (Ret o, d) => mData o = str "the " /\ remote (server d) (str "/store/key") = Some (str "the key file")
  | _ => False
  end.
Proof. vm_compute. split; reflexivity. Qed.

Lemma ssh_get_correct_witness :
  exists o d pre rest, ssh_get (str "/key") (new_MemoryOutputStream 100) DefaultProgressFunction (ToySSH.store false)
      = (Ret o, d) /\ str "the key file" = pre ++ rest /\ written o = pre.
Proof.
  assert (ovalid (new_MemoryOutputStream 100)) as Ho by (cbn; lia).
  pose proof (ssh_get_correct (ToySSH.store false) (str "/key") (new_MemoryOutputStream 100) DefaultProgressFunction
    eq_refl Ho (fun _ _ => eq_refl)) as G.
  assert (remote (server (ToySSH.store false)) (path_append (sshPath (ToySSH.store false)) (str "/key")) =
    Some (str "the key file")) as Er by (vm_compute; reflexivity).
  rewrite Er in G. assert (fits (new_MemoryOutputStream 100) (zlen (str "the key file"))) as Hf by (vm_compute; discriminate).
  destruct (G Hf) as (o' & d' & pre & rest & E & _ & Hd & Hw & _).
  exists o', d', pre, rest. split; [exact E|]. split; [exact Hd|exact Hw].
Defined.

Lemma ssh_put_correct_witness :
  ssh_put (str "/snapshot/s1") (new_MemoryInputStream (str "data")) DefaultProgressFunction (ToySSH.store false) =
    (Throw FileNotFoundException, ToySSH.store false) /\
  exists i d, ssh_put (str "/key") (new_MemoryInputStream (str "new")) DefaultProgressFunction (ToySSH.store false) =
    (Ret i, d) /\ remote (server d) (str "/store/key") = Some (str "new key file").
Proof.
  destruct (new_MemoryInputStream_valid (str "data")) as (V1 & _), (new_MemoryInputStream_valid (str "new")) as (V2 & C2 & _).
  pose proof (ssh_put_correct (ToySSH.store false) (str "/snapshot/s1") _ DefaultProgressFunction eq_refl V1
    (fun _ _ => eq_refl)) as P1.
  pose proof (ssh_put_correct (ToySSH.store false) (str "/key") _ DefaultProgressFunction eq_refl V2
    (fun _ _ => eq_refl)) as P2.
  split; [exact P1|]. cbv zeta in P2.
  assert (remote (server (ToySSH.store false)) (path_append (sshPath (ToySSH.store false)) (str "/key")) =
    Some (str "the key file")) as Er by (vm_compute; reflexivity).
  rewrite Er in P2. destruct P2 as (i & d & E & Hr & _).
  - intros s h b. cbn. unfold ToySSH.toy_write. destruct (ToySSH.thandles s h). apply zlen_nonneg.
  - exists i, d. split; [exact E|]. rewrite C2 in Hr. exact Hr.
Defined.

Lemma ssh_connect_checks_witness :
  ssh_connect_store (str "host") 22 {| acceptHostKey := Some (fun _ => false);
      authMethod := PasswordAuthentication (str "u") (str "secret") |} (ToySSH.store false) =
    (Throw ConnectionException, ToySSH.store false).
Proof.
  apply (ssh_connect_checks (ToySSH.store false) (str "host") 22 {| acceptHostKey := Some (fun _ => false);
    authMethod := PasswordAuthentication (str "u") (str "secret") |} SSH_OK (ToySSH.start false) eq_refl).
  right. right. exists (str "hash"). split; [reflexivity|]. exists (fun _ => false). split; reflexivity.
Defined.
