(* ===== verification/AwsS3DataStore.v ===== *)
(** * AwsS3DataStore.cpp: objects in an S3 bucket

    The AWS SDK is not modelled: the client and the transfer manager are the
    class [S3].  The two stream buffers that let the SDK read an [InputStream]
    and write an [OutputStream] are modelled with what std::streambuf and
    std::istream do around them: [sbumpc], [sputc], [seekg], [tellg] and [read].
    How the SDK uses the stream of an upload is a parameter, any program of these
    calls. *)
From S2P Require Import Prelude Crypto Streams MemoryStreams DataStore.
From Stdlib Require Import ZArith Lia.

(** ** IOStreamInputBuf *)

(** The bytes from [eback] to [egptr], the index of [gptr], and [mOffset]. *)
Record IOStreamInputBuf (In : Type) := { ibStream : In; ibBuffer : bytes; ibNext : Z; ibOffset : Z }.
Arguments ibStream {In} _.
Arguments ibBuffer {In} _.
Arguments ibNext {In} _.
Arguments ibOffset {In} _.
Arguments Build_IOStreamInputBuf {In} _ _ _ _.

Inductive seekdir := seek_beg | seek_cur | seek_end.

Section InputBuf.
Context {In} `{InputStream In}.

Definition new_IOStreamInputBuf (i : In) : IOStreamInputBuf In := Build_IOStreamInputBuf i [] 0 0.

(** [IOStreamInputBuf::underflow]; [None] is [traits_type::eof()]. *)
Definition underflow (b : IOStreamInputBuf In) : result (option byte * IOStreamInputBuf In) :=
  if ibNext b <? zlen (ibBuffer b) then c ← or_undef (znth (ibNext b) (ibBuffer b)); Ret (Some c, b)
  else
    '(buffer, i) ← read (ibStream b) 8192;
    if zlen buffer =? 0 then Ret (None, Build_IOStreamInputBuf i (ibBuffer b) (ibNext b) (ibOffset b))
    else
      let b := Build_IOStreamInputBuf i buffer 0 (ibOffset b + zlen buffer) in
      c ← or_undef (znth 0 buffer);
      Ret (Some c, b).

(** [IOStreamInputBuf::seekoff] *)
Definition seekoff (b : IOStreamInputBuf In) (off : Z) (way : seekdir) (which_in : bool)
  : result (Z * IOStreamInputBuf In) :=
  if which_in && (off =? 0) then
    match way with
    | seek_end =>
        n ← size (ibStream b);
        Ret (n, Build_IOStreamInputBuf (ibStream b) [] 0 n)
    | seek_cur => Ret (ibOffset b - (zlen (ibBuffer b) - ibNext b), b)
    | seek_beg =>
        if canRewind (ibStream b) then
          i ← rewind (ibStream b);
          Ret (0, Build_IOStreamInputBuf i [] 0 0)
        else Ret (-1, b)
    end
  else Ret (-1, b).

(** std::streambuf::sbumpc: the next character is consumed. *)
Definition sbumpc (b : IOStreamInputBuf In) : result (option byte * IOStreamInputBuf In) :=
  '(c, b) ← underflow b;
  match c with
  | None => Ret (None, b)
  | Some c => Ret (Some c, Build_IOStreamInputBuf (ibStream b) (ibBuffer b) (ibNext b + 1) (ibOffset b))
  end.

(** A client that consumes [n] characters, or all there are. *)
Fixpoint sgetn (n : nat) (b : IOStreamInputBuf In) : result (bytes * IOStreamInputBuf In) :=
  match n with
  | O => Ret ([], b)
  | S n =>
      '(c, b) ← sbumpc b;
      match c with
      | None => Ret ([], b)
      | Some c => '(l, b) ← sgetn n b; Ret (c :: l, b)
      end
  end.
End InputBuf.

(** *** Programs over std::istream *)

(** What a client does with a stream until it has the data it wants: [seekg(0, way)],
    [tellg()], [read(n)] and [clear()]. *)
Inductive body_program :=
  | Send (data : bytes)
  | Seekg (way : seekdir) (k : body_program)
  | Tellg (k : Z -> body_program)
  | Read (n : nat) (k : bytes -> body_program)
  | Clear (k : body_program).

(** The body is measured by seeking, and then read. *)
Definition whole_body : body_program :=
  Seekg seek_end (Tellg (fun n => Seekg seek_beg (Read (Z.to_nat n) Send))).

(** On a stream with an [IOStreamInputBuf]; [fail] is its failbit, with which
    nothing but [clear] has an effect.  A seek that answers -1 and a read that
    ends early set it. *)
Fixpoint run_body {In} `{InputStream In} (p : body_program) (fail : bool) (b : IOStreamInputBuf In)
  : result (bytes * IOStreamInputBuf In) :=
  match p with
  | Send data => Ret (data, b)
  | Seekg way k =>
      if fail then run_body k true b
      else '(pos, b) ← seekoff b 0 way true; run_body k (pos =? -1) b
  | Tellg k =>
      if fail then run_body (k (-1)) true b
      else '(pos, b) ← seekoff b 0 seek_cur true; run_body (k pos) false b
  | Read n k =>
      if fail then run_body (k []) true b
      else '(l, b) ← sgetn n b; run_body (k l) (zlen l <? Z.of_nat n) b
  | Clear k => run_body k false b
  end.


(** ** IOStreamOutputBuf *)

(** The bytes from [pbase] to [pptr]. *)
Record IOStreamOutputBuf (Out : Type) := { obStream : Out; obBuffer : bytes }.
Arguments obStream {Out} _.
Arguments obBuffer {Out} _.
Arguments Build_IOStreamOutputBuf {Out} _ _.

Section OutputBuf.
Context {Out} `{OutputStream Out}.

Definition new_IOStreamOutputBuf (o : Out) : IOStreamOutputBuf Out := Build_IOStreamOutputBuf o [].

(** [IOStreamOutputBuf::sync] *)
Definition sync (b : IOStreamOutputBuf Out) : result (IOStreamOutputBuf Out) :=
  if zlen (obBuffer b) =? 0 then Ret b
  else o ← write (obStream b) (obBuffer b); Ret (Build_IOStreamOutputBuf o []).

(** [IOStreamOutputBuf::overflow], of a character or of [traits_type::eof()]. *)
Definition overflow (b : IOStreamOutputBuf Out) (c : option byte) : result (IOStreamOutputBuf Out) :=
  match c with
  | None => Ret b
  | Some c =>
      b ← (if zlen (obBuffer b) =? 8192 then sync b else Ret b);
      Ret (Build_IOStreamOutputBuf (obStream b) (obBuffer b ++ [c]))
  end.

(** std::streambuf::sputc, and the characters of a write. *)
Definition sputc (b : IOStreamOutputBuf Out) (c : byte) : result (IOStreamOutputBuf Out) :=
  if zlen (obBuffer b) <? 8192 then Ret (Build_IOStreamOutputBuf (obStream b) (obBuffer b ++ [c]))
  else overflow b (Some c).

Fixpoint sputn (b : IOStreamOutputBuf Out) (l : bytes) : result (IOStreamOutputBuf Out) :=
  match l with
  | [] => Ret b
  | c :: l => b ← sputc b c; sputn b l
  end.
End OutputBuf.

(** ** The data store *)

Inductive TransferStatus := COMPLETED | FAILED | CANCELED.

(** The metadata of an upload. *)
Record MetaData := { content_length : option Z; content_md5 : option bytes }.

Class S3 := {
  Bucket : Type;
  HeadObject : Bucket -> bytes -> bool;
  DeleteObject : Bucket -> bytes -> bool * Bucket;
  (** the progress of a transfer: bytes transferred, total *)
  download_events : Bucket -> bytes -> list (Z * Z);
  upload_events : Bucket -> bytes -> bytes -> list (Z * Z);
  (** the bytes written to the stream, whether it was flushed, and the status; told if it was cancelled *)
  DownloadFile : Bucket -> bytes -> bool -> bytes * bool * TransferStatus;
  (** how the stream is read; then the upload of what was read *)
  upload_body : Bucket -> bytes -> MetaData -> body_program;
  UploadFile : Bucket -> bytes -> MetaData -> bytes -> bool -> TransferStatus * Bucket;
  Base64Encode : bytes -> bytes
}.

Section Store.
Context `{EVP} `{S3}.

(** Does the progress function cancel the transfer? *)
Definition cancelled (progress : ProgressFunction) (events : list (Z * Z)) : bool :=
  existsb (fun e => negb (progress (fst e) (snd e))) events.

(** [AwsS3DataStore::exist] *)
Definition s3_exist (path : bytes) (progress : ProgressFunction) : io Bucket bool :=
  b ← get_state; mret (HeadObject b path).

(** [AwsS3DataStore::get]; the buffer is not flushed by the code. *)
Definition s3_get {Out} `{OutputStream Out} (path : bytes) (stream : Out) (progress : ProgressFunction)
  : io Bucket Out :=
  b ← get_state;
  let '(data, flushed, status) := DownloadFile b path (cancelled progress (download_events b path)) in
  buf ← lift (sputn (new_IOStreamOutputBuf stream) data);
  buf ← lift (if (flushed : bool) then sync buf else Ret buf);
  match status with
  | COMPLETED => mret (obStream buf)
  | _ => throw FileIOException
  end.

(** [while((n = stream.read(...)) > 0) EVP_DigestUpdate(...)], of which the
    results are not used. *)
Fixpoint md5_loop {In} `{InputStream In} (fuel : nat) (ctx : DigestCtx) (i : In) : result (DigestCtx * In) :=
  '(buffer, i) ← read i 8192;
  if 0 <? zlen buffer then
    match fuel with
    | O => NoFuel
    | S fuel => md5_loop fuel (default ctx (EVP_DigestUpdate ctx buffer)) i
    end
  else Ret (ctx, i).

(** The metadata of [put], and the stream at its beginning; the digest of a
    context that could not be initialised or finished is undefined. *)
Definition put_metadata {In} `{InputStream In} (i : In) : result (MetaData * In) :=
  n ← size i;
  let len := if 0 <=? n then Some n else None in
  if canRewind i then
    i ← rewind i;
    ctx ← or_undef EVP_DigestInit;
    '(ctx, i) ← md5_loop (remaining i) ctx i;
    digest ← or_undef (EVP_DigestFinal ctx);
    i ← rewind i;
    Ret ({| content_length := len; content_md5 := Some (Base64Encode digest) |}, i)
  else Ret ({| content_length := len; content_md5 := None |}, i).

(** [AwsS3DataStore::put] *)
Definition s3_put {In} `{InputStream In} (path : bytes) (stream : In) (progress : ProgressFunction)
  : io Bucket In :=
  b ← get_state;
  '(meta, i) ← lift (put_metadata stream);
  '(data, buf) ← lift (run_body (upload_body b path meta) false (new_IOStreamInputBuf i));
  let (status, b) := UploadFile b path meta data (cancelled progress (upload_events b path data)) in
  _ ← put_state b;
  match status with
  | COMPLETED => mret (ibStream buf)
  | _ => throw FileIOException
  end.

(** [AwsS3DataStore::list] *)
Definition s3_list (path : bytes) (progress : ProgressFunction) : io Bucket (list (option bytes)) := mret [].

(** [AwsS3DataStore::unlink] *)
Definition s3_unlink (path : bytes) (progress : ProgressFunction) : io Bucket bool :=
  b ← get_state;
  let (ok, b) := DeleteObject b path in
  _ ← put_state b;
  if (ok : bool) then mret true else throw FileIOException.

#[export] Instance AwsS3_store : DataStore Bucket := {|
  exist := s3_exist;
  get _ _ := s3_get;
  put _ _ := s3_put;
  list_files := s3_list;
  unlink := s3_unlink
|}.
End Store.

(** * Specification *)

Section InputBufSpec.
Context {In} `{InputStreamSpec In}.
Implicit Types b : IOStreamInputBuf In.

(** After [k] characters of [all], which [i0] had to deliver. *)
Record input_at (i0 : In) (all : bytes) (k : Z) b : Prop := {
  ia_valid : valid (ibStream b);
  ia_source : same_source whole i0 (ibStream b);
  ia_next : 0 <= ibNext b <= zlen (ibBuffer b);
  ia_offset : ibOffset b - (zlen (ibBuffer b) - ibNext b) = k;
  ia_rest : zdrop k all = zdrop (ibNext b) (ibBuffer b) ++ contents (ibStream b);
  ia_pos : 0 <= k <= zlen all
}.

Lemma new_input_at (i : In) : valid i -> input_at i (contents i) 0 (new_IOStreamInputBuf i).
Proof. intros Hv. pose proof (zlen_nonneg (contents i)). split; cbn; try done; by rewrite zdrop_nonpos. Qed.

Lemma zdrop_head {A} (k : Z) (l : list A) c : 0 <= k < zlen l -> znth k l = Some c ->
  zdrop k l = c :: zdrop (k + 1) l.
Proof.
  intros Hk Hc. rewrite !zdrop_drop by lia. rewrite znth_lookup in Hc by lia.
  rewrite (drop_S _ _ _ Hc). do 2 f_equal. lia.
Qed.

(** One character: [sbumpc] delivers the next one, or the end. *)
Lemma sbumpc_spec i0 all k b : input_at i0 all k b ->
  (k = zlen all /\ exists b', sbumpc b = Ret (None, b') /\ input_at i0 all k b') \/
  (exists c b', sbumpc b = Ret (Some c, b') /\ zdrop k all = c :: zdrop (k + 1) all /\ input_at i0 all (k + 1) b').
Proof.
  intros [Hv Hs Hn Ho Hr Hk]. unfold sbumpc, underflow.
  pose proof (zlen_zdrop k all ltac:(lia)) as Hz. pose proof Hr as Hlen.
  apply (f_equal zlen) in Hlen. rewrite zlen_app, !zlen_zdrop in Hlen by lia.
  pose proof (zlen_nonneg (contents (ibStream b))).
  destruct (Z.ltb_spec (ibNext b) (zlen (ibBuffer b))) as [Hl|Hl].
  - destruct (znth_Some (ibNext b) (ibBuffer b)) as [c Ec]; [lia|]. rewrite Ec.
    cbn [or_undef mbind result_bind]. right. exists c. eexists. split; [done|].
    rewrite (zdrop_head (ibNext b) _ c) in Hr by (done || lia). cbn [app] in Hr.
    assert (zdrop (k + 1) all = zdrop (ibNext b + 1) (ibBuffer b) ++ contents (ibStream b)) as Hr'.
    { rewrite <-(zdrop_zdrop 1 k) by lia. by rewrite Hr, zdrop_drop. }
    split; [by rewrite Hr, Hr'|]. split; cbn; try done; lia.
  - rewrite (zdrop_ge (ibNext b)) in Hr by lia. cbn [app] in Hr.
    destruct (read_spec (ibStream b) 8192 Hv ltac:(lia)) as (i & -> & V & C & S). rewrite bind_of_Ret.
    rewrite <-Hr in *. rewrite zlen_ztake by lia.
    destruct (Z.eqb_spec (Z.min 8192 (zlen (zdrop k all))) 0) as [He|He].
    + left. split; [lia|]. eexists. split; [done|]. split; cbn; try done; [eauto with nebula|].
      rewrite (zdrop_ge (ibNext b)) by lia. rewrite C. rewrite !zdrop_ge by lia. done.
    + right. destruct (znth_Some k all) as [c Ec]; [lia|].
      pose proof (zdrop_head k all c ltac:(lia) Ec) as Eh.
      rewrite <-(ztake_zdrop 8192 (zdrop k all)), <-C in Eh.
      destruct (ztake 8192 (zdrop k all)) as [|c' l] eqn:El;
        [apply (f_equal zlen) in El; rewrite zlen_ztake in El by lia; cbn in El; lia|].
      cbn [app] in Eh. injection Eh as -> Er. cbn [or_undef mbind result_bind znth Z.eqb].
      exists c. eexists. split; [done|]. split; [apply zdrop_head; [lia|done]|].
      apply (f_equal zlen) in El. rewrite zlen_ztake, zlen_cons in El by lia. pose proof (zlen_nonneg l).
      split; cbn [ibStream ibNext ibBuffer ibOffset]; rewrite ?zlen_cons; try done; try lia;
        [by eapply same_source_trans|by rewrite (zdrop_drop (0 + 1)), <-Er].
Qed.

(** Reading [n] characters delivers the next [n] bytes, or all there are. *)
Lemma sgetn_spec i0 all n : forall k b, input_at i0 all k b ->
  exists b', sgetn n b = Ret (ztake (Z.of_nat n) (zdrop k all), b') /\
    input_at i0 all (Z.min (zlen all) (k + Z.of_nat n)) b'.
Proof.
  induction n as [|n IH]; intros k b Hb; cbn [sgetn].
  - exists b. rewrite ztake_nonpos by lia. pose proof (ia_pos _ _ _ _ Hb).
    by replace (Z.min _ _) with k by lia.
  - pose proof (ia_pos _ _ _ _ Hb). destruct (sbumpc_spec _ _ _ _ Hb) as [(-> & b1 & -> & Hb1)|(c & b1 & -> & Ec & Hb1)];
      rewrite bind_of_Ret.
    + exists b1. rewrite zdrop_ge, ztake_nil by lia. by replace (Z.min _ _) with (zlen all) by lia.
    + destruct (IH _ _ Hb1) as (b' & -> & Hb'). rewrite bind_of_Ret. exists b'. rewrite Ec.
      replace (Z.of_nat (S n)) with (1 + Z.of_nat n) in * by lia.
      rewrite Z.add_assoc. split; [|done]. do 2 f_equal. rewrite !ztake_take.
      by replace (Z.to_nat (1 + Z.of_nat n)) with (S (Z.to_nat (Z.of_nat n))) by lia.
Qed.

Lemma seek_cur_spec i0 all k b : input_at i0 all k b -> seekoff b 0 seek_cur true = Ret (k, b).
Proof. intros Hb. unfold seekoff. cbn [andb Z.eqb]. by rewrite (ia_offset _ _ _ _ Hb). Qed.

Lemma seek_beg_spec i0 all k b : input_at i0 all k b -> canRewind i0 = true ->
  exists b', seekoff b 0 seek_beg true = Ret (0, b') /\ input_at i0 (whole i0) 0 b'.
Proof.
  intros Hb Hc. pose proof (ia_source _ _ _ _ Hb) as (Hw & Hr & Hsz). unfold seekoff. cbn [andb Z.eqb].
  rewrite Hr, Hc. destruct (rewind_spec (ibStream b)) as (i & -> & V & C & S);
    [apply Hb|congruence|]. rewrite bind_of_Ret. eexists. split; [done|]. pose proof (zlen_nonneg (whole i0)).
  split; cbn; try done; [by eapply same_source_trans; [apply Hb|]|].
  by rewrite zdrop_nonpos, C, Hw.
Qed.

Lemma seek_end_spec i0 all k b n : input_at i0 all k b -> size i0 = Ret n ->
  exists b', seekoff b 0 seek_end true = Ret (n, b') /\ ibStream b' = ibStream b.
Proof.
  intros Hb Hn. pose proof (ia_source _ _ _ _ Hb) as (_ & _ & Hsz). unfold seekoff. cbn [andb Z.eqb].
  rewrite Hsz, Hn. by eexists.
Qed.
End InputBufSpec.

Section OutputBufSpec.
Context {Out} `{OutputStreamSpec Out}.
Implicit Types b : IOStreamOutputBuf Out.

(** After the characters [l], with room for [extra] more; what is pending fits
    in the buffer, and something is once a character was put. *)
Record output_at (o0 : Out) (l : bytes) (extra : Z) b : Prop := {
  oa_valid : ovalid (obStream b);
  oa_written : written (obStream b) ++ obBuffer b = written o0 ++ l;
  oa_size : zlen (obBuffer b) <= 8192;
  oa_pending : obBuffer b = [] <-> l = [];
  oa_fits : fits (obStream b) (zlen (obBuffer b) + extra)
}.

Lemma new_output_at o extra : ovalid o -> fits o extra -> output_at o [] extra (new_IOStreamOutputBuf o).
Proof. intros Ho Hf. split; cbn; auto; lia. Qed.

Lemma sync_spec o0 l extra b : output_at o0 l extra b -> 0 <= extra ->
  exists b', sync b = Ret b' /\ ovalid (obStream b') /\ obBuffer b' = [] /\ written (obStream b') = written o0 ++ l /\
    fits (obStream b') extra.
Proof.
  intros [Hv Hw Hs Hp Hf] He. unfold sync. pose proof (zlen_nonneg (obBuffer b)).
  destruct (Z.eqb_spec (zlen (obBuffer b)) 0) as [E|E].
  - rewrite E in Hf. apply zlen_nil_inv in E. rewrite E, app_nil_r in Hw. by exists b.
  - destruct (write_spec (obStream b) (obBuffer b) Hv) as (o & -> & V & W & F); [eapply fits_mono; [|done]; lia|].
    rewrite bind_of_Ret. eexists. split; [done|]. cbn. split_and!; try done; [by rewrite W|by apply F].
Qed.

Lemma sputc_spec o0 l extra b c : output_at o0 l (1 + extra) b -> 0 <= extra ->
  exists b', sputc b c = Ret b' /\ output_at o0 (l ++ [c]) extra b'.
Proof.
  intros Hb He. pose proof Hb as [Hv Hw Hs Hp Hf]. unfold sputc, overflow.
  assert (forall k : bytes, k ++ [c] = [] <-> False) as Hne by (intros []; naive_solver).
  assert (forall k k' : bytes, k ++ [c] = [] <-> k' ++ [c] = []) as Hiff by (intros; by rewrite !Hne).
  destruct (Z.ltb_spec (zlen (obBuffer b)) 8192) as [Hl|Hl].
  - eexists. split; [done|]. split; cbn [obStream obBuffer]; auto; rewrite ?zlen_app, ?zlen_cons, ?zlen_nil.
    + by rewrite app_assoc, Hw, app_assoc.
    + lia.
    + by replace (zlen (obBuffer b) + _ + extra) with (zlen (obBuffer b) + (1 + extra)) by lia.
  - replace (zlen (obBuffer b) =? 8192) with true by lia.
    destruct (sync_spec _ _ _ _ Hb ltac:(lia)) as (b' & -> & V & E & W & F). rewrite bind_of_Ret.
    eexists. split; [done|]. rewrite E. split; cbn [obStream obBuffer]; auto; cbn [app]; rewrite ?zlen_cons, ?zlen_nil.
    + by rewrite W, app_assoc.
    + lia.
Qed.

Lemma sputn_spec o0 k extra : forall l b, output_at o0 l (zlen k + extra) b -> 0 <= extra ->
  exists b', sputn b k = Ret b' /\ output_at o0 (l ++ k) extra b'.
Proof.
  induction k as [|c k IH]; intros l b Hb He; cbn [sputn].
  - exists b. by rewrite app_nil_r.
  - rewrite zlen_cons, <-Z.add_assoc in Hb. pose proof (zlen_nonneg k).
    destruct (sputc_spec _ _ _ _ c Hb ltac:(lia)) as (b1 & -> & Hb1). rewrite bind_of_Ret.
    destruct (IH _ _ Hb1 He) as (b' & -> & Hb'). exists b'. by rewrite <-app_assoc in Hb'.
Qed.
End OutputBufSpec.

(** ** The bucket *)

(** What the transfer manager documents: a completed download delivered the
    object. *)
Class S3Spec `{S3} := {
  objects : Bucket -> gmap bytes bytes;
  download_spec b p c data flushed : DownloadFile b p c = (data, flushed, COMPLETED) -> objects b !! p = Some data
}.

Section StoreSpec.
Context `{EVPSpec} `{S3Spec}.








(** [IOStreamInputBuf] reads its stream like a file: consecutive reads of
    [n] and [m] characters deliver consecutive parts of what the stream had
    left, the position told in between is the number of characters consumed
    (not the number the buffer has fetched), seeking to the end tells the size
    of the stream, and seeking to the beginning starts the stream again. *)
Theorem s3_input_buffer {In} `{InputStreamSpec In} (i : In) (n m : nat) :
  valid i ->
  exists b1 b2, sgetn n (new_IOStreamInputBuf i) = Ret (ztake (Z.of_nat n) (contents i), b1) /\
    seekoff b1 0 seek_cur true = Ret (Z.min (zlen (contents i)) (Z.of_nat n), b1) /\
    sgetn m b1 = Ret (ztake (Z.of_nat m) (zdrop (Z.of_nat n) (contents i)), b2) /\
    (forall len, size i = Ret len -> exists b3, seekoff b2 0 seek_end true = Ret (len, b3)) /\
    (canRewind i = true -> exists b3 b4, seekoff b2 0 seek_beg true = Ret (0, b3) /\
      sgetn m b3 = Ret (ztake (Z.of_nat m) (whole i), b4)).
Proof.
  intros Hv. destruct (sgetn_spec _ _ n _ _ (new_input_at i Hv)) as (b1 & E1 & A1).
  rewrite zdrop_nonpos in E1 by lia. destruct (sgetn_spec _ _ m _ _ A1) as (b2 & E2 & A2).
  exists b1, b2. split; [exact E1|]. split; [by erewrite seek_cur_spec|]. split; [|split].
  - rewrite E2. do 2 f_equal. destruct (Z.le_ge_cases (zlen (contents i)) (Z.of_nat n)) as [Hl|Hl].
    + rewrite !zdrop_ge by lia. done.
    + by replace (Z.min _ _) with (Z.of_nat n) by lia.
  - intros len Hs. destruct (seek_end_spec _ _ _ _ _ A2 Hs) as (b3 & E3 & _). by exists b3.
  - intros Hc. destruct (seek_beg_spec _ _ _ _ A2 Hc) as (b3 & E3 & A3).
    destruct (sgetn_spec _ _ m _ _ A3) as (b4 & E4 & _). rewrite zdrop_nonpos in E4 by lia. by exists b3, b4.
Qed.

(** C35: [get] fails with FileIOException unless the transfer completes, a
    cancelled transfer included.  A completed one has written to the stream all
    of the object when the transfer manager flushed the buffer, and all but the
    last part, of at most 8192 bytes and not empty, when it did not: [get]
    itself does not flush it. *)
Theorem s3_get_correct {Out} `{OutputStreamSpec Out} b path (o : Out) progress data flushed status :
  DownloadFile b path (cancelled progress (download_events b path)) = (data, flushed, status) ->
  ovalid o -> fits o (zlen data) ->
  match status with
  | COMPLETED => objects b !! path = Some data /\
      exists o' pending, s3_get path o progress b = (Ret o', b) /\ ovalid o' /\
        written o' ++ pending = written o ++ data /\ zlen pending <= 8192 /\
        (pending = [] <-> flushed = true \/ data = [])
  | _ => s3_get path o progress b = (Throw FileIOException, b)
  end.
Proof.
  intros E Ho Hf. unfold s3_get. rewrite (io_bind_Ret get_state _ _ _ _ eq_refl), E.
  destruct (sputn_spec o data 0 [] _ (new_output_at o (zlen data + 0) Ho ltac:(by rewrite Z.add_0_r)))
    as (b1 & -> & A1); [lia|]. rewrite io_bind_lift. cbn [app] in A1.
  assert (exists b2, (if flushed then sync b1 else Ret b1) = Ret b2 /\ ovalid (obStream b2) /\ exists pending,
    written (obStream b2) ++ pending = written o ++ data /\ zlen pending <= 8192 /\
    (pending = [] <-> flushed = true \/ data = [])) as (b2 & -> & V2 & pending & W2 & L2 & P2).
  { destruct flushed.
    - destruct (sync_spec _ _ _ _ A1) as (b2 & E2 & V2 & _ & W2 & _); [lia|]. exists b2. split_and!; try done.
      exists []. rewrite app_nil_r, W2. split_and!; try done. naive_solver.
    - exists b1. destruct A1 as [Hv Hw Hs Hp _]. split_and!; try done. exists (obBuffer b1).
      split_and!; try done. naive_solver. }
  rewrite io_bind_lift. destruct status; [split; [by eapply download_spec|]|done..].
  by exists (obStream b2), pending.
Qed.

End StoreSpec.

(** ** A concrete bucket, whose transfers do not flush the buffer *)

Module ToyS3.
Definition bucket := gmap (list Byte.byte) (list Byte.byte).

#[global] Instance s3 : S3 := {|
  Bucket := bucket;
  HeadObject b p := bool_decide (is_Some (b !! p));
  DeleteObject b p := (true, delete p b);
  download_events b p := [(zlen (default [] (b !! p)), zlen (default [] (b !! p)))];
  upload_events _ _ data := [(0, zlen data); (zlen data, zlen data)];
  DownloadFile b p cancel :=
    match b !! p with
    | Some data => (data, false, if (cancel : bool) then CANCELED else COMPLETED)
    | None => ([], false, FAILED)
    end;
  upload_body _ _ _ := whole_body;
  UploadFile b p meta data cancel := if (cancel : bool) then (CANCELED, b) else (COMPLETED, <[p := data]> b);
  Base64Encode b := b
|}.

#[global] Program Instance spec : S3Spec := {| objects b := b |}.
Next Obligation.
  intros b p c data flushed E. cbn in E. case_match eqn:Eb; [|discriminate E]. destruct c; [discriminate E|].
  injection E as -> _. exact Eb.
Qed.

Definition put_object (p data : bytes) (b : Bucket) : Bucket := <[p := data]> (b : bucket).
Definition start : Bucket := put_object (str "/key") (str "the key file") (∅ : bucket).
End ToyS3.

Lemma s3_input_buffer_witness :
  exists b1 b2, sgetn 3 (new_IOStreamInputBuf (new_MemoryInputStream (str "abcdef"))) = Ret (str "abc", b1) /\
    seekoff b1 0 seek_cur true = Ret (3, b1) /\ sgetn 5 b1 = Ret (str "def", b2).
Proof.
  destruct (new_MemoryInputStream_valid (str "abcdef")) as (V & C & _).
  destruct (s3_input_buffer (new_MemoryInputStream (str "abcdef")) 3 5 V) as (b1 & b2 & E1 & E2 & E3 & _).
  rewrite C in E1, E2, E3. exists b1, b2. split_and!; [exact E1|exact E2|exact E3].
Defined.

Lemma s3_get_correct_witness :
  exists o pending, s3_get (str "/key") (new_MemoryOutputStream 100) DefaultProgressFunction ToyS3.start
    = (Ret o, ToyS3.start) /\ written o ++ pending = str "the key file" /\ pending <> [].
Proof.
  assert (ovalid (new_MemoryOutputStream 100)) as Ho by (cbn; lia).
  assert (fits (new_MemoryOutputStream 100) (zlen (str "the key file"))) as Hf by (vm_compute; discriminate).
  destruct (s3_get_correct ToyS3.start (str "/key") (new_MemoryOutputStream 100) DefaultProgressFunction
    (str "the key file") false COMPLETED ltac:(vm_compute; reflexivity) Ho Hf)
    as (_ & o & pending & E & _ & Hw & _ & Hp).
  exists o, pending. split_and!; [exact E|exact Hw|]. rewrite Hp. intros [[=]|[=]].
Defined.

