(* ===== verification/Repository.v ===== *)
(** * Repository.cpp: keys, snapshots, uploads and downloads

    The operations run in the monad [io] over the backend and a clock.  What the
    code takes from its environment is the class [Env]: random bytes and names
    of temporary files (which the clock makes different at every use), the
    contents of uninitialised memory, the logarithm of the C library, and the
    bound on decompressed sizes. *)
From S2P Require Import Prelude Base32 Crypto RollingHash Streams MemoryStreams FileStreams CompositeStreams.
From S2P Require Import CryptoStreams Lzma StreamUtils StdMap Filesystem Snapshot DataStore.
From Stdlib Require Import ZArith Lia.

Class Env := {
  arc4random_buf : nat -> nat -> bytes;     (* time, size *)
  uninitialised : nat -> nat -> bytes;      (* time, size *)
  temp_disk : disk;
  unique_name : nat -> bytes;
  ceil_log2 : Z -> Z;                       (* (int)ceil(log(n) / log(2)), in floating point *)
  decompress_bound : nat
}.

Class EnvSpec `{Env} := {
  random_length t n : zlen (arc4random_buf t n) = Z.of_nat n;
  uninitialised_length t n : zlen (uninitialised t n) = Z.of_nat n;
  unique_free t : unique_name t ∉ locked temp_disk
}.

Record world (D : Type) := { wstore : D; wclock : nat }.
Arguments wstore {D} w.
Arguments wclock {D} w.
Arguments Build_world {D} _ _.

(** ** Options and keys *)

Record Options := {
  smallFileSize : Z; maxBlockSize : Z; minRollingHashBits : Z; maxRollingHashBits : Z; blockSplitCount : Z
}.

(** [Options::Options()] *)
Definition default_Options : Options := {|
  smallFileSize := 512000; maxBlockSize := 50000000; minRollingHashBits := 18; maxRollingHashBits := 25;
  blockSplitCount := 8 |}.

Record Repository := {
  mOptions : Options; mEncKey : bytes; mMacKey : bytes; mHashKey : bytes; mRollKey : bytes
}.

(** [Repository::Repository]; the keys are uninitialised. *)
Definition new_Repository `{Env} (t : nat) (options : option Options) : Repository := {|
  mOptions := default default_Options options;
  mEncKey := uninitialised t 64; mMacKey := uninitialised t 64;
  mHashKey := uninitialised t 64; mRollKey := uninitialised t 64 |}.

Definition MAX_LOG_ROUNDS := 31.

(** FileTransferProgressFunction: block, number of blocks, bytes, total bytes. *)
Definition FileTransferProgressFunction : Type := Z -> Z -> Z -> Z -> bool.
Definition DefaultFileTransferProgressFunction : FileTransferProgressFunction := fun _ _ _ _ => true.

(** [Repository::objectIdToString] *)
Definition objectIdToString (id : bytes) : result bytes :=
  outStr ← base32encode (ztake SHA256_DIGEST_LENGTH id) 53;
  rest ← or_undef (cstring (zdrop 2 outStr));
  Ret (ztake 2 outStr ++ slash :: rest).

Section Code.
Context `{EVP} `{LZMA} `{Paths} `{Env} {D} `{DataStore D}.

Definition tick : io (world D) nat :=
  fun w => (Ret (wclock w), Build_world (wstore w) (S (wclock w))).

Definition random (n : nat) : io (world D) bytes := t ← tick; mret (arc4random_buf t n).

Definition on_store {A} (m : io D A) : io (world D) A :=
  fun w => let (r, d) := m (wstore w) in (r, Build_world d (wclock w)).

Definition new_temp : io (world D) TempFileStream := t ← tick; mret (new_TempFileStream temp_disk (unique_name t)).

(** [*tmp.inputStream()] *)
Definition temp_input (s : TempFileStream) : result (MemoryInputStream + FileStream) :=
  '(i, _) ← inputStream s; or_undef i.

(** [HMAC(EVP_sha256(), ...)] *)
Definition HMAC_once (key data : bytes) : result bytes :=
  ctx ← or_throw (HMAC_Init key) EncryptionFailedException;
  ctx ← or_throw (HMAC_Update ctx data) EncryptionFailedException;
  or_throw (HMAC_Final ctx) EncryptionFailedException.

(** ** The key file *)

(** What the key stream holds before the encrypted keys. *)
Definition key_header (rounds : Z) (salt : bytes) : list bytes :=
  [str "NEBULABACKUP"; le_bytes 4 65536; le_bytes 4 0; le_bytes 4 rounds; salt].

(** [Repository::writeRepositoryKey]; the array [hmac] has 64 bytes of which
    [HMAC] fills 32. *)
Definition writeRepositoryKey (r : Repository) (password : bytes) (logRounds : Z)
    (progress : ProgressFunction) : io (world D) unit :=
  if MAX_LOG_ROUNDS <? logRounds then throw InvalidArgumentException
  else
    salt ← random 8;
    derivedKey ← lift (or_throw (PKCS5_PBKDF2_HMAC password salt (swrap 32 (Z.shiftl 1 logRounds))
                                   EVP_MAX_MD_SIZE) EncryptionFailedException);
    keyStream ← new_temp;
    keyStream ← lift (write_all keyStream (key_header (Z.shiftl 1 logRounds) salt));
    iv ← random 16;
    encStream ← lift (new_EncryptedOutputStream
      (new_MemoryOutputStream (EVP_MAX_KEY_LENGTH * 4 + EVP_MAX_BLOCK_LENGTH)) derivedKey iv);
    encStream ← lift (write_all encStream [mEncKey r; mMacKey r; mHashKey r; mRollKey r]);
    encStream ← lift (close encStream);
    keyStream ← lift (write keyStream (mData (eStream encStream)));
    hmac ← lift (HMAC_once derivedKey (mData (eStream encStream)));
    t ← tick;
    keyStream ← lift (write keyStream (hmac ++ uninitialised t 32));
    keyStream ← lift (close keyStream);
    stream ← lift (temp_input keyStream);
    _ ← on_store (put (str "/key") stream progress);
    mret tt.

(** [Repository::initializeRepository] *)
Definition initializeRepository (r : Repository) (password : bytes) (logRounds : Z)
    (progress : ProgressFunction) : io (world D) Repository :=
  enc ← random 64;
  mac ← random 64;
  hash ← random 64;
  roll ← random 64;
  let r := {| mOptions := mOptions r; mEncKey := enc; mMacKey := mac; mHashKey := hash; mRollKey := roll |} in
  _ ← writeRepositoryKey r password logRounds progress;
  mret r.

(** An array of [n] bytes of which a read that is not checked filled [b]: its
    use is undefined when the read was short. *)
Definition filled (n : Z) (b : bytes) : result bytes := if zlen b =? n then Ret b else Undef.

(** What [unlockRepository] reads: the rounds, the salt, the encrypted keys and
    the first 32 bytes of the stored HMAC. *)
Definition read_key_file {In} `{InputStream In} (i : In) : result (Z * bytes * bytes * bytes) :=
  '(magic, i) ← readExpected i 12;
  if negb (bool_decide (magic = str "NEBULABACKUP")) then Throw InvalidRepositoryException
  else
    '(version, i) ← readType 4 i;
    if negb (version =? 65536) then Throw InvalidRepositoryException
    else
      '(algorithm, i) ← readType 4 i;
      if negb (algorithm =? 0) then Throw InvalidRepositoryException
      else
        '(rounds, i) ← readType 4 i;
        if uwrap 32 (Z.shiftl 1 MAX_LOG_ROUNDS) <? rounds then Throw InvalidRepositoryException
        else
          '(salt, i) ← read i PKCS5_SALT_LEN;
          salt ← filled PKCS5_SALT_LEN salt;
          '(encKeyData, i) ← read i (EVP_MAX_KEY_LENGTH * 4 + EVP_MAX_BLOCK_LENGTH);
          '(hmac1, i) ← read i EVP_MAX_MD_SIZE;
          encKeyData ← filled (EVP_MAX_KEY_LENGTH * 4 + EVP_MAX_BLOCK_LENGTH) encKeyData;
          hmac1 ← filled EVP_MAX_MD_SIZE hmac1;
          Ret (rounds, salt, encKeyData, ztake SHA256_DIGEST_LENGTH hmac1).

(** The four keys, from the decrypted key block; the reads are not checked. *)
Definition read_keys {In} `{InputStream In} (r : Repository) (i : In) : result Repository :=
  '(enc, i) ← read i EVP_MAX_KEY_LENGTH; enc ← filled EVP_MAX_KEY_LENGTH enc;
  '(mac, i) ← read i EVP_MAX_KEY_LENGTH; mac ← filled EVP_MAX_KEY_LENGTH mac;
  '(hash, i) ← read i EVP_MAX_KEY_LENGTH; hash ← filled EVP_MAX_KEY_LENGTH hash;
  '(roll, i) ← read i EVP_MAX_KEY_LENGTH; roll ← filled EVP_MAX_KEY_LENGTH roll;
  Ret {| mOptions := mOptions r; mEncKey := enc; mMacKey := mac; mHashKey := hash; mRollKey := roll |}.

(** The checks and the decryption of [unlockRepository], on the key file. *)
Definition unlock_stream {In} `{InputStream In} (r : Repository) (password : bytes) (i : In)
  : result (bool * Repository) :=
  '(rounds, salt, encKeyData, hmac1) ← read_key_file i;
  derivedKey ← or_throw (PKCS5_PBKDF2_HMAC password salt (swrap 32 rounds) EVP_MAX_KEY_LENGTH)
                        EncryptionFailedException;
  hmac2 ← HMAC_once derivedKey encKeyData;
  if negb (bool_decide (hmac1 = hmac2)) then Ret (false, r)
  else
    decStream ← new_DecryptedInputStream (new_MemoryInputStream encKeyData) derivedKey;
    r ← read_keys r decStream;
    Ret (true, r).

(** [Repository::unlockRepository] *)
Definition unlockRepository (r : Repository) (password : bytes) (progress : ProgressFunction)
  : io (world D) (bool * Repository) :=
  keyStream ← new_temp;
  keyStream ← on_store (get (str "/key") keyStream progress);
  stream ← lift (temp_input keyStream);
  lift (unlock_stream r password stream).

(** [Repository::changePassword] *)
Definition changePassword (r : Repository) (oldPassword newPassword : bytes) (logRounds : Z)
    (progress : ProgressFunction) : io (world D) (bool * Repository) :=
  '(ok, r) ← unlockRepository r oldPassword DefaultProgressFunction;
  if negb (ok : bool) then mret (false, r)
  else
    _ ← writeRepositoryKey r newPassword logRounds progress;
    mret (true, r).

(** ** Snapshots *)

(** [Repository::listSnapshots]: the arguments of the callback. *)
Definition listSnapshots (progress : ProgressFunction) : io (world D) (list (option bytes)) :=
  on_store (list_files (str "/snapshot") progress).

(** [Repository::createSnapshot] *)
Definition createSnapshot : Snapshot := new_Snapshot.

(** [Repository::loadSnapshot] *)
Definition loadSnapshot (r : Repository) (name : bytes) (progress : ProgressFunction)
  : io (world D) Snapshot :=
  tmpSnapshotStream ← new_temp;
  tmpSnapshotStream ← on_store (get (str "/snapshot/" ++ name) tmpSnapshotStream progress);
  snapshotStream ← new_temp;
  stream ← lift (temp_input tmpSnapshotStream);
  '(_, snapshotStream) ← lift (decompressDecryptHMAC decompress_bound (Some LZMA2) (mEncKey r) (mMacKey r)
                                 stream snapshotStream);
  stream ← lift (temp_input snapshotStream);
  '(snapshot, _) ← lift (load new_Snapshot stream);
  mret snapshot.

(** [StreamUtils::compressEncryptHMAC] with a fresh vector and temporary file. *)
Definition seal {In} `{InputStream In} (r : Repository) (compressType : CompressionType) (i : In)
  : io (world D) EncryptedHMACStream :=
  t ← tick;
  iv ← random 16;
  '(s, _, _) ← lift (compressEncryptHMAC (Some compressType) (mEncKey r) (mMacKey r) i temp_disk
                       (unique_name t) iv);
  mret s.

(** [Repository::commitSnapshot] *)
Definition commitSnapshot (r : Repository) (snapshot : Snapshot) (name : bytes) (progress : ProgressFunction)
  : io (world D) unit :=
  tmpStream ← new_temp;
  tmpStream ← lift (save snapshot tmpStream);
  stream ← lift (temp_input tmpStream);
  snapshotStream ← seal r LZMA2 stream;
  _ ← on_store (put (str "/snapshot/" ++ name) snapshotStream progress);
  mret tt.

(** ** Blocks *)

(** [Repository::computeBlockHMAC] *)
Definition computeBlockHMAC (r : Repository) (block : bytes) (comp : CompressionType) : result bytes :=
  ctx ← or_throw (HMAC_Init (ztake SHA256_DIGEST_LENGTH (mHashKey r))) EncryptionFailedException;
  ctx ← or_throw (HMAC_Update ctx [z2b (compression_code comp)]) EncryptionFailedException;
  ctx ← or_throw (HMAC_Update ctx block) EncryptionFailedException;
  or_throw (HMAC_Final ctx) EncryptionFailedException.

Definition data_path (id : bytes) : result bytes := s ← objectIdToString id; Ret (str "/data/" ++ s).

(** [Repository::compressEncryptAndUploadBlock] *)
Definition compressEncryptAndUploadBlock (r : Repository) (comp : CompressionType) (objectId block : bytes)
    (progress : ProgressFunction) : io (world D) unit :=
  uploadPath ← lift (data_path objectId);
  present ← on_store (exist uploadPath DefaultProgressFunction);
  if (present : bool) then
    if negb (progress (zlen block) (zlen block)) then throw CancelledException else mret tt
  else
    encryptedStream ← seal r comp (new_MemoryInputStream block);
    _ ← on_store (put uploadPath encryptedStream progress);
    mret tt.
End Code.
