(* ===== verification/RepositoryKeys.v ===== *)
(** * The key file and the snapshots of a repository

    What [initializeRepository], [unlockRepository], [changePassword],
    [commitSnapshot] and [loadSnapshot] do, over any backend that keeps the
    contract of DataStore.h. *)
From S2P Require Import Prelude Crypto Streams MemoryStreams FileStreams CompositeStreams CryptoStreams Lzma.
From S2P Require Import StreamUtils StdMap Filesystem Snapshot DataStore FileDataStore Repository.
From Stdlib Require Import ZArith Lia.

(** The world after an operation on the backend. *)
Definition with_store {D} (w : world D) (d : D) : world D := Build_world d (wclock w).

(** Two worlds with the same objects. *)
Definition same_objects `{DataStoreSpec D} (w w' : world D) : Prop :=
  forall p, object_path p -> objects (wstore w') p = objects (wstore w) p.

Section Temp.
Context `{EnvSpec} {D : Type}.

Lemma temp_input_spec s : ovalid s -> exists i, temp_input s = Ret i /\ valid i /\ contents i = written s /\
  whole i = written s /\ canRewind i = true /\ size i = Ret (zlen (written s)).
Proof.
  intros Hs. destruct (inputStream_spec s Hs) as (i & s' & E & R). unfold temp_input. rewrite E.
  exists i. split; [done|exact R].
Qed.

(** A new temporary stream is empty, and only the clock has moved. *)
Lemma new_temp_spec (w : world D) : exists t w', new_temp w = (Ret t, w') /\ wstore w' = wstore w /\
  ovalid t /\ written t = [] /\ forall n, n < 2 ^ 64 -> fits t n.
Proof.
  eexists _, _. split; [reflexivity|]. split; [done|].
  destruct (new_TempFileStream_ok temp_disk (unique_name (wclock w)) (unique_free _)) as [V W].
  split; [exact V|]. split; [exact W|]. intros n Hn. cbn [fits TempFileStream_spec].
  cbn [written TempFileStream_spec] in W. rewrite W. cbn. lia.
Qed.

Lemma random_spec (w : world D) n : exists b w', random n w = (Ret b, w') /\ wstore w' = wstore w /\
  zlen b = Z.of_nat n.
Proof. eexists _, _. split; [reflexivity|]. split; [done|]. apply random_length. Qed.
End Temp.

Lemma on_store_Ret {D A} (m : io D A) (w : world D) a d : m (wstore w) = (Ret a, d) ->
  on_store m w = (Ret a, with_store w d).
Proof. intros E. unfold on_store. by rewrite E. Qed.

(** Runs the next operation of an [io] block, of which [E] is the equation. *)
Ltac io_step E := rewrite (io_bind_Ret _ _ _ _ _ E).
Ltac io_lift E := rewrite E, io_bind_lift.

Section Keys.
Context `{EVPSpec} `{LZMASpec} `{Paths} `{EnvSpec} {D} `{DataStoreSpec D}.

Definition keys_ok (r : Repository) : Prop :=
  zlen (mEncKey r) = 64 /\ zlen (mMacKey r) = 64 /\ zlen (mHashKey r) = 64 /\ zlen (mRollKey r) = 64.

Definition key_material (r : Repository) : bytes := mEncKey r ++ mMacKey r ++ mHashKey r ++ mRollKey r.

(** The encrypted keys of the key file. *)
Definition key_block (derived iv : bytes) (r : Repository) : bytes :=
  iv ++ encrypt derived iv (key_material r).

Definition key_bytes (logRounds : Z) (salt block tag junk : bytes) : bytes :=
  concat (key_header (Z.shiftl 1 logRounds) salt) ++ block ++ tag ++ junk.

Definition derives (password salt : bytes) (logRounds : Z) (k : bytes) : Prop :=
  PKCS5_PBKDF2_HMAC password salt (swrap 32 (Z.shiftl 1 logRounds)) 64 = Some k.

(** The store holds the key file of [r] under [password]. *)
Definition has_key_file (w : world D) (r : Repository) (password salt iv derived junk : bytes) (logRounds : Z) : Prop :=
  dvalid (wstore w) /\ 0 <= logRounds <= MAX_LOG_ROUNDS /\ zlen salt = PKCS5_SALT_LEN /\
  zlen iv = EVP_MAX_IV_LENGTH /\ zlen junk = 32 /\ derives password salt logRounds derived /\
  objects (wstore w) (str "/key") =
    Some (key_bytes logRounds salt (key_block derived iv r) (hmac derived (key_block derived iv r)) junk).

Lemma HMAC_once_spec key data : HMAC_once key data = Ret (hmac key data).
Proof.
  unfold HMAC_once. destruct (hmac_init key) as (c & -> & Hc). cbn [or_throw mbind result_bind].
  destruct (hmac_update c data) as (c' & -> & Hu). cbn [or_throw mbind result_bind].
  rewrite hmac_final. cbn [or_throw]. by rewrite <-Hu, app_nil_r, Hc.
Qed.

Lemma key_material_length r : keys_ok r -> zlen (key_material r) = 256.
Proof. intros (? & ? & ? & ?). unfold key_material. rewrite !zlen_app. lia. Qed.

Lemma key_block_length derived iv r : keys_ok r -> zlen iv = EVP_MAX_IV_LENGTH ->
  zlen (key_block derived iv r) = 288.
Proof.
  intros Hk Hiv. unfold key_block. rewrite zlen_app, Hiv, encrypt_length, key_material_length by done. done.
Qed.

Lemma key_header_length rounds salt : zlen salt = PKCS5_SALT_LEN -> zlen (concat (key_header rounds salt)) = 32.
Proof.
  intros Hs. unfold key_header. cbn [concat]. rewrite !zlen_app, !zlen_le_bytes, Hs. reflexivity.
Qed.

(** The keys, encrypted to a buffer of exactly the right size. *)
Lemma encrypt_keys derived iv r : keys_ok r -> zlen iv = EVP_MAX_IV_LENGTH ->
  exists e e1 e2, new_EncryptedOutputStream
      (new_MemoryOutputStream (EVP_MAX_KEY_LENGTH * 4 + EVP_MAX_BLOCK_LENGTH)) derived iv = Ret e /\
    write_all e [mEncKey r; mMacKey r; mHashKey r; mRollKey r] = Ret e1 /\ close e1 = Ret e2 /\
    mData (eStream e2) = key_block derived iv r.
Proof.
  intros Hk Hiv. set (o := new_MemoryOutputStream _).
  assert (ovalid o) as Ho by (cbn; vm_compute; discriminate).
  destruct (new_encrypted_spec o derived iv (key_material r) Ho Hiv) as (e & E & V & T).
  { pose proof (key_block_length derived iv r Hk Hiv) as Hl. unfold key_block in Hl. rewrite zlen_app in Hl.
    cbn [fits MemoryOutputStream_spec o mData new_MemoryOutputStream]. rewrite Hl. vm_compute. discriminate. }
  assert (concat [mEncKey r; mMacKey r; mHashKey r; mRollKey r] ++ [] = key_material r) as Em.
  { cbn [concat]. by rewrite !app_nil_r. }
  rewrite <-Em in V, T.
  destruct (eos_write_all_spec [mEncKey r; mMacKey r; mHashKey r; mRollKey r] e [] V) as (e1 & E1 & V1 & T1).
  destruct (eos_close_spec e1 V1) as (e2 & E2 & _ & W). exists e, e1, e2. split_and!; [exact E|exact E1|exact E2|].
  cbn [written MemoryOutputStream_spec] in W. rewrite W, T1, T, Em. done.
Qed.

Lemma writeRepositoryKey_spec r password logRounds pf (w : world D) :
  keys_ok r -> 0 <= logRounds <= MAX_LOG_ROUNDS -> dvalid (wstore w) -> (forall a b, pf a b = true) ->
  exists salt iv derived junk w', writeRepositoryKey r password logRounds pf w = (Ret tt, w') /\
    has_key_file w' r password salt iv derived junk logRounds /\
    forall p, object_path p -> p <> str "/key" -> objects (wstore w') p = objects (wstore w) p.
Proof.
  intros Hk Hr Hd Hpf. unfold writeRepositoryKey. destruct (Z.ltb_spec MAX_LOG_ROUNDS logRounds); [lia|].
  destruct (random_spec w 8) as (salt & w1 & E1 & D1 & L1). io_step E1.
  destruct (pbkdf2_length password salt (swrap 32 (Z.shiftl 1 logRounds)) 64) as (derived & Ek & Lk); [lia|].
  change EVP_MAX_MD_SIZE with 64. rewrite Ek. cbn [or_throw]. rewrite io_bind_lift.
  destruct (new_temp_spec w1) as (t & w2 & E2 & D2 & V2 & W2 & F2). io_step E2.
  destruct (write_all_spec (key_header (Z.shiftl 1 logRounds) salt) t (288 + 64) V2) as (t1 & E3 & V3 & W3 & F3).
  { lia. } { apply F2. rewrite key_header_length by exact L1. lia. }
  io_lift E3. destruct (random_spec w2 16) as (iv & w3 & E4 & D4 & L4). io_step E4.
  destruct (encrypt_keys derived iv r Hk L4) as (e & e1 & e2 & Ee & Ee1 & Ee2 & Hblock).
  io_lift Ee. io_lift Ee1. io_lift Ee2. rewrite Hblock.
  pose proof (key_block_length derived iv r Hk L4) as Lb.
  destruct (write_spec t1 (key_block derived iv r) V3) as (t2 & E5 & V5 & W5 & F5).
  { eapply fits_mono; [|exact F3]. lia. }
  io_lift E5. rewrite HMAC_once_spec, io_bind_lift.
  rewrite (io_bind_Ret tick _ _ _ _ eq_refl).
  set (junk := uninitialised (wclock w3) 32).
  assert (zlen junk = 32) as Lj by apply uninitialised_length.
  destruct (write_spec t2 (hmac derived (key_block derived iv r) ++ junk) V5) as (t3 & E6 & V6 & W6 & _).
  { rewrite zlen_app, hmac_length, Lj. apply F5; [vm_compute; discriminate|]. rewrite Lb. exact F3. }
  io_lift E6. cbn [close TempFileStream_stream default_close]. unfold default_close. rewrite io_bind_lift.
  destruct (temp_input_spec t3 V6) as (i & E7 & V7 & C7 & _). io_lift E7.
  assert (wstore w3 = wstore w) as D3 by congruence.
  destruct (put_spec (wstore w) (str "/key") i pf Hd path_key V7 Hpf) as (i' & d' & Ep & Hd' & Hob).
  erewrite io_bind_Ret; [|apply on_store_Ret; cbn [wstore]; rewrite D3; exact Ep].
  exists salt, iv, derived, junk. eexists. split; [reflexivity|]. cbn [wstore with_store]. split.
  - unfold has_key_file. cbn [wstore with_store]. split_and!; try done; try lia.
    rewrite Hob, decide_True, C7, W6, W5, W3, W2 by (done || apply path_key). unfold key_bytes.
    cbn [app]. by rewrite <-!app_assoc.
  - intros p Hp Hne. rewrite Hob by done. by rewrite decide_False.
Qed.

(** ** Unlocking *)

Lemma read_app {In} `{InputStreamSpec In} (i : In) b rest n : valid i -> zlen b = n -> n < 2 ^ 63 ->
  contents i = b ++ rest -> exists i', read i n = Ret (b, i') /\ valid i' /\ contents i' = rest.
Proof.
  intros Hv <- Hb Hc. pose proof (zlen_nonneg b).
  destruct (read_spec i (zlen b) Hv) as (i' & -> & V & C & _); [lia|].
  exists i'. rewrite Hc, zdrop_app_exact in C by done. rewrite Hc, ztake_app_exact by done. done.
Qed.

Lemma filled_ok n b : zlen b = n -> filled n b = Ret b.
Proof. unfold filled. intros ->. by rewrite Z.eqb_refl. Qed.

Lemma read_key_file_spec {In} `{InputStreamSpec In} (i : In) logRounds salt block tag junk :
  valid i -> 0 <= logRounds <= MAX_LOG_ROUNDS -> zlen salt = PKCS5_SALT_LEN -> zlen block = 288 ->
  zlen tag = SHA256_DIGEST_LENGTH -> zlen junk = 32 -> contents i = key_bytes logRounds salt block tag junk ->
  read_key_file i = Ret (Z.shiftl 1 logRounds, salt, block, tag).
Proof.
  intros Hv Hr Ls Lb Lt Lj Hc. unfold read_key_file. change MAX_LOG_ROUNDS with 31 in *.
  assert (1 <= Z.shiftl 1 logRounds <= 2 ^ 31) as Hrounds.
  { rewrite Z.shiftl_1_l. split; [apply (Z.pow_le_mono_r 2 0); lia|apply Z.pow_le_mono_r; lia]. }
  unfold key_bytes, key_header in Hc. cbn [concat] in Hc. rewrite app_nil_r, <-!app_assoc in Hc.
  destruct (readExpected_app i (str "NEBULABACKUP") _ Hv ltac:(done) Hc) as (i1 & E1 & V1 & C1 & _).
  change (zlen (str "NEBULABACKUP")) with 12 in E1. rewrite E1. cbn [mbind result_bind].
  rewrite bool_decide_eq_true_2 by done. cbn [negb].
  destruct (readType_le i1 4 65536 _ V1 ltac:(lia) C1) as (i2 & E2 & V2 & C2 & _). rewrite E2.
  cbn [mbind result_bind]. change (65536 mod 256 ^ Z.of_nat 4) with 65536. cbn [Z.eqb Pos.eqb negb].
  destruct (readType_le i2 4 0 _ V2 ltac:(lia) C2) as (i3 & E3 & V3 & C3 & _). rewrite E3.
  cbn [mbind result_bind]. change (0 mod 256 ^ Z.of_nat 4) with 0. cbn [Z.eqb negb].
  destruct (readType_le i3 4 _ _ V3 ltac:(lia) C3) as (i4 & E4 & V4 & C4 & _). rewrite E4.
  cbn [mbind result_bind]. change (256 ^ Z.of_nat 4) with (2 ^ 32). rewrite Z.mod_small by lia.
  change (uwrap 32 (Z.shiftl 1 31)) with (2 ^ 31).
  destruct (Z.ltb_spec (2 ^ 31) (Z.shiftl 1 logRounds)); [lia|].
  destruct (read_app i4 salt _ PKCS5_SALT_LEN V4 Ls ltac:(done) C4) as (i5 & -> & V5 & C5).
  cbn [mbind result_bind]. rewrite (filled_ok _ salt) by done. cbn [mbind result_bind].
  destruct (read_app i5 block _ 288 V5 Lb ltac:(done) C5) as (i6 & E6 & V6 & C6).
  change (EVP_MAX_KEY_LENGTH * 4 + EVP_MAX_BLOCK_LENGTH) with 288. rewrite E6. cbn [mbind result_bind].
  assert (zlen (tag ++ junk) = 64) as Ltj by (rewrite zlen_app, Lt, Lj; done).
  rewrite <-(app_nil_r (tag ++ junk)) in C6.
  destruct (read_app i6 (tag ++ junk) [] 64 V6 Ltj ltac:(done) C6) as (i7 & E7 & V7 & C7).
  change EVP_MAX_MD_SIZE with 64. rewrite E7. cbn [mbind result_bind].
  rewrite (filled_ok 288 block), (filled_ok 64) by done. cbn [mbind result_bind].
  by rewrite ztake_app_exact.
Qed.

Lemma read_keys_spec {In} `{InputStreamSpec In} (i : In) r r0 : valid i -> keys_ok r ->
  contents i = key_material r ->
  read_keys r0 i = Ret {| mOptions := mOptions r0; mEncKey := mEncKey r; mMacKey := mMacKey r;
                          mHashKey := mHashKey r; mRollKey := mRollKey r |}.
Proof.
  intros Hv (L1 & L2 & L3 & L4) Hc. unfold read_keys, key_material in *. change EVP_MAX_KEY_LENGTH with 64.
  rewrite <-(app_nil_r (mRollKey r)) in Hc.
  destruct (read_app i _ _ 64 Hv L1 ltac:(done) Hc) as (i1 & -> & V1 & C1). cbn [mbind result_bind].
  rewrite (filled_ok 64 (mEncKey r)) by done. cbn [mbind result_bind].
  destruct (read_app i1 _ _ 64 V1 L2 ltac:(done) C1) as (i2 & -> & V2 & C2). cbn [mbind result_bind].
  rewrite (filled_ok 64 (mMacKey r)) by done. cbn [mbind result_bind].
  destruct (read_app i2 _ _ 64 V2 L3 ltac:(done) C2) as (i3 & -> & V3 & C3). cbn [mbind result_bind].
  rewrite (filled_ok 64 (mHashKey r)) by done. cbn [mbind result_bind].
  destruct (read_app i3 _ _ 64 V3 L4 ltac:(done) C3) as (i4 & -> & V4 & C4). cbn [mbind result_bind].
  by rewrite (filled_ok 64 (mRollKey r)).
Qed.

(** The keys of [r] with the options of [r0]. *)
Definition with_keys (r0 r : Repository) : Repository :=
  {| mOptions := mOptions r0; mEncKey := mEncKey r; mMacKey := mMacKey r; mHashKey := mHashKey r;
     mRollKey := mRollKey r |}.

Lemma unlockRepository_spec (w : world D) r r0 password password' salt iv derived derived' junk logRounds pf :
  keys_ok r -> has_key_file w r password salt iv derived junk logRounds -> (forall a b, pf a b = true) ->
  derives password' salt logRounds derived' ->
  exists w', wstore w' = wstore w /\
    (derived' = derived -> unlockRepository r0 password' pf w = (Ret (true, with_keys r0 r), w')) /\
    (hmac derived' (key_block derived iv r) <> hmac derived (key_block derived iv r) ->
       unlockRepository r0 password' pf w = (Ret (false, r0), w')).
Proof.
  intros Hk (Hd & Hr & Ls & Li & Lj & Hder & Hob) Hpf Hder'. unfold unlockRepository.
  pose proof (key_block_length derived iv r Hk Li) as Lb.
  assert (zlen (hmac derived (key_block derived iv r)) = SHA256_DIGEST_LENGTH) as Lt by apply hmac_length.
  destruct (new_temp_spec w) as (t & w1 & E1 & D1 & V1 & W1 & F1).
  assert (zlen (key_bytes logRounds salt (key_block derived iv r) (hmac derived (key_block derived iv r)) junk) = 384) as Lf.
  { unfold key_bytes. rewrite !zlen_app, key_header_length, Lb, Lt, Lj by done. done. }
  rewrite <-D1 in Hd, Hob.
  destruct (get_spec (wstore w1) (str "/key") t pf _ 0 Hd path_key Hob V1) as (t1 & E2 & V2 & W2 & _); try done.
  { apply F1. rewrite Lf. done. }
  destruct (temp_input_spec t1 V2) as (i & E3 & V3 & C3 & _).
  rewrite W2, W1 in C3. cbn [app] in C3.
  pose proof (read_key_file_spec i logRounds salt _ _ junk V3 Hr Ls Lb Lt Lj C3) as E4.
  exists w1. split; [done|].
  assert (unlockRepository r0 password' pf w = (unlock_stream r0 password' i, w1)) as Eu.
  { unfold unlockRepository. io_step E1. erewrite io_bind_Ret; [|apply on_store_Ret; exact E2].
    io_lift E3. unfold lift, with_store. by destruct w1. }
  unfold unlockRepository in Eu. rewrite Eu. unfold unlock_stream. rewrite E4. cbn [mbind result_bind].
  change EVP_MAX_KEY_LENGTH with 64. rewrite Hder'. cbn [or_throw mbind result_bind].
  rewrite HMAC_once_spec. cbn [mbind result_bind]. split.
  - intros ->. rewrite bool_decide_eq_true_2 by done. cbn [negb].
    destruct (new_MemoryInputStream_valid (key_block derived iv r)) as (Vm & Cm & _).
    destruct (new_decrypted_spec (new_MemoryInputStream (key_block derived iv r)) derived iv _ (key_material r) Vm Li Cm)
      as (s & -> & Vs & Cs); [apply decrypt_encrypt|apply encrypt_grows|]. cbn [mbind result_bind].
    by rewrite (read_keys_spec s r r0 Vs Hk Cs).
  - intros Hne. rewrite bool_decide_eq_false_2 by (by intros E; apply Hne). done.
Qed.

Lemma initializeRepository_spec r password logRounds pf (w : world D) :
  0 <= logRounds <= MAX_LOG_ROUNDS -> dvalid (wstore w) -> (forall a b, pf a b = true) ->
  exists r' salt iv derived junk w', initializeRepository r password logRounds pf w = (Ret r', w') /\
    keys_ok r' /\ mOptions r' = mOptions r /\ has_key_file w' r' password salt iv derived junk logRounds /\
    forall p, object_path p -> p <> str "/key" -> objects (wstore w') p = objects (wstore w) p.
Proof.
  intros Hr Hd Hpf. unfold initializeRepository.
  destruct (random_spec w 64) as (k1 & w1 & E1 & D1 & L1). io_step E1.
  destruct (random_spec w1 64) as (k2 & w2 & E2 & D2 & L2). io_step E2.
  destruct (random_spec w2 64) as (k3 & w3 & E3 & D3 & L3). io_step E3.
  destruct (random_spec w3 64) as (k4 & w4 & E4 & D4 & L4). io_step E4.
  assert (wstore w4 = wstore w) as Dw by congruence. rewrite <-Dw in *.
  set (r' := {| mOptions := mOptions r; mEncKey := k1; mMacKey := k2; mHashKey := k3; mRollKey := k4 |}).
  assert (keys_ok r') as Hk by done.
  destruct (writeRepositoryKey_spec r' password logRounds pf w4 Hk Hr Hd Hpf)
    as (salt & iv & derived & junk & w' & Ew & Hkf & Hoth).
  io_step Ew. exists r', salt, iv, derived, junk, w'. done.
Qed.

(** ** Snapshots in the repository *)

Lemma seal_spec {In} `{InputStreamSpec In} r c (i : In) (w : world D) :
  valid i -> zlen (payload c (contents i)) < 2 ^ 62 ->
  exists s w' iv, seal r c i w = (Ret s, w') /\ wstore w' = wstore w /\ zlen iv = EVP_MAX_IV_LENGTH /\
    valid s /\ contents s = object_bytes c (mEncKey r) (mMacKey r) iv (contents i) /\
    whole s = contents s /\ canRewind s = true /\ size s = Ret (zlen (contents s)).
Proof.
  intros Hv Hl. unfold seal. rewrite (io_bind_Ret tick _ _ _ _ eq_refl).
  match goal with |- context [random 16 ≫= ?f] => destruct (random_spec (Build_world (wstore w) (S (wclock w))) 16)
    as (iv & w1 & E1 & D1 & L1) end. io_step E1.
  destruct (compressEncryptHMAC_spec c (mEncKey r) (mMacKey r) i temp_disk (unique_name (wclock w)) iv Hv
    (unique_free _) L1) as (s & t & i' & E & _ & Vs & Cs & Ws & Rs & Ss).
  { unfold object_bytes. rewrite zlen_sealed. unfold object_body. rewrite zlen_app, L1, encrypt_length.
    change SHA256_DIGEST_LENGTH with 32. pose proof (zlen_nonneg (payload c (contents i))).
    Z.div_mod_to_equations. lia. }
  io_lift E. exists s, w1, iv. rewrite Cs, Ws. split_and!; done.
Qed.

(** Opening a stored object with the keys of the repository. *)
Lemma open_object {In Out} `{InputStreamSpec In} `{OutputStreamSpec Out} r c iv m extra (i : In) (o : Out) :
  valid i -> canRewind i = true -> contents i = whole i ->
  whole i = object_bytes c (mEncKey r) (mMacKey r) iv m -> zlen iv = EVP_MAX_IV_LENGTH ->
  zlen m <= Z.of_nat decompress_bound -> ovalid o -> 0 <= extra -> fits o (zlen m + extra) ->
  exists i' o', decompressDecryptHMAC decompress_bound (Some c) (mEncKey r) (mMacKey r) i o = Ret (i', o') /\
    ovalid o' /\ written o' = written o ++ m /\ fits o' extra.
Proof. intros. by apply (decompressDecryptHMAC_spec decompress_bound c (mEncKey r) (mMacKey r) iv m extra). Qed.

Lemma open_object_into {In Out} `{InputStreamSpec In} `{OutputStreamSpec Out} r c iv m extra (i : In) (o : Out) :
  valid i -> canRewind i = true -> contents i = whole i ->
  whole i = object_bytes c (mEncKey r) (mMacKey r) iv m -> zlen iv = EVP_MAX_IV_LENGTH ->
  zlen m <= Z.of_nat decompress_bound -> ovalid o -> 0 <= extra -> fits o (zlen m + extra) ->
  exists i' o', decompress_into decompress_bound (Some c) (mEncKey r) (mMacKey r) i o = (Ret i', o') /\
    ovalid o' /\ written o' = written o ++ m /\ fits o' extra.
Proof. intros. by apply (decompress_into_spec decompress_bound c (mEncKey r) (mMacKey r) iv m extra). Qed.

Lemma commitSnapshot_spec r s name pf (w : world D) :
  snapshot_ok s -> dvalid (wstore w) -> name <> [] -> slash_free name -> (forall a b, pf a b = true) ->
  zlen (snapshot_bytes s) < 2 ^ 62 -> zlen (payload LZMA2 (snapshot_bytes s)) < 2 ^ 62 ->
  exists iv w', commitSnapshot r s name pf w = (Ret tt, w') /\ dvalid (wstore w') /\ zlen iv = EVP_MAX_IV_LENGTH /\
    forall p, object_path p -> objects (wstore w') p = if decide (p = str "/snapshot/" ++ name)
      then Some (object_bytes LZMA2 (mEncKey r) (mMacKey r) iv (snapshot_bytes s)) else objects (wstore w) p.
Proof.
  intros Hok Hd Hn Hs Hpf Hl Hl'. unfold commitSnapshot.
  destruct (new_temp_spec w) as (t & w1 & E1 & D1 & V1 & W1 & F1). io_step E1.
  destruct (save_chunks s t Hok) as (chunks & Ec & Es). rewrite <-Ec in Hl.
  destruct (write_all_spec chunks t 0 V1) as (t1 & E2 & V2 & W2 & _); [done|apply F1; lia|].
  rewrite Es. io_lift E2. destruct (temp_input_spec t1 V2) as (i & E3 & V3 & C3 & _). io_lift E3.
  rewrite W2, W1, Ec in C3. cbn [app] in C3.
  destruct (seal_spec r LZMA2 i w1 V3) as (x & w2 & iv & E4 & D4 & L4 & Vx & Cx & _); [by rewrite C3|]. io_step E4.
  assert (wstore w2 = wstore w) as D2 by congruence. rewrite <-D2 in Hd.
  destruct (put_spec (wstore w2) (str "/snapshot/" ++ name) x pf Hd (path_snapshot name Hn Hs) Vx Hpf)
    as (x' & d' & E5 & Hd' & Hob).
  erewrite io_bind_Ret; [|apply on_store_Ret; exact E5].
  exists iv. eexists. split; [reflexivity|]. cbn [wstore with_store]. split; [done|]. split; [done|].
  intros p Hp. rewrite Hob, D2, Cx, C3 by done. done.
Qed.

Lemma loadSnapshot_spec r s name iv pf (w : world D) :
  snapshot_ok s -> keyed s -> dvalid (wstore w) -> name <> [] -> slash_free name -> (forall a b, pf a b = true) ->
  zlen iv = EVP_MAX_IV_LENGTH ->
  objects (wstore w) (str "/snapshot/" ++ name) =
    Some (object_bytes LZMA2 (mEncKey r) (mMacKey r) iv (snapshot_bytes s)) ->
  zlen (snapshot_bytes s) <= Z.of_nat decompress_bound -> zlen (snapshot_bytes s) < 2 ^ 62 ->
  zlen (object_bytes LZMA2 (mEncKey r) (mMacKey r) iv (snapshot_bytes s)) < 2 ^ 63 ->
  exists s' w', loadSnapshot r name pf w = (Ret s', w') /\ wstore w' = wstore w /\
    snapshot_ok s' /\ keyed s' /\ mFiles s' = mFiles s /\ mObjectIDs s' = mObjectIDs s /\
    mStringBuffer s' = mStringBuffer s.
Proof.
  intros Hok Hkey Hd Hn Hs Hpf Hiv Hob Hb Hl Hl'. unfold loadSnapshot.
  destruct (new_temp_spec w) as (t & w1 & E1 & D1 & V1 & W1 & F1). io_step E1.
  rewrite <-D1 in Hd, Hob.
  destruct (get_spec (wstore w1) _ t pf _ 0 Hd (path_snapshot name Hn Hs) Hob V1) as (t1 & E2 & V2 & W2 & _); try done.
  { apply F1. lia. }
  erewrite io_bind_Ret; [|apply on_store_Ret; exact E2].
  destruct (new_temp_spec (with_store w1 (wstore w1))) as (u & w2 & E3 & D3 & V3 & W3 & F3). io_step E3.
  destruct (temp_input_spec t1 V2) as (i & E4 & V4 & C4 & Wh4 & R4 & _). io_lift E4.
  rewrite W2, W1 in C4, Wh4. cbn [app] in C4, Wh4.
  destruct (open_object r LZMA2 iv (snapshot_bytes s) 0 i u V4 R4 (eq_trans C4 (eq_sym Wh4)) Wh4 Hiv Hb V3)
    as (i' & u1 & E5 & V5 & W5 & _); [done|apply F3; lia|].
  io_lift E5. destruct (temp_input_spec u1 V5) as (j & E6 & V6 & C6 & _). io_lift E6.
  rewrite W5, W3 in C6. cbn [app] in C6. rewrite <-(app_nil_r (snapshot_bytes s)) in C6.
  destruct (load_spec s j [] Hok Hkey V6 C6) as (j' & tb & E7 & Ht & _). io_lift E7.
  eexists _, w2. split; [reflexivity|]. split; [by rewrite D3|].
  split; [by apply snapshot_ok_table|]. split; [exact Hkey|]. done.
Qed.
End Keys.

(** * Properties *)

Section Properties.
Context `{EVPSpec} `{LZMASpec} `{Paths} `{EnvSpec} {D} `{DataStoreSpec D}.

(** C13: a repository that was initialised with a password is unlocked by that
    password, which yields exactly its four keys; with a password whose derived
    key gives the key block another HMAC, [unlockRepository] returns false and
    keeps the keys of the object.  Unlocking changes nothing in the store, and
    initialising writes only "/key". *)
Theorem unlock_correct r r0 password logRounds pf (w : world D)
    (Hr : 0 <= logRounds <= MAX_LOG_ROUNDS) (Hd : dvalid (wstore w)) (Hpf : forall a b, pf a b = true) :
  exists r' w', initializeRepository r password logRounds pf w = (Ret r', w') /\ keys_ok r' /\
    (forall p, object_path p -> p <> str "/key" -> objects (wstore w') p = objects (wstore w) p) /\
    exists salt iv derived, derives password salt logRounds derived /\
      forall w2, wstore w2 = wstore w' ->
        (exists w3, wstore w3 = wstore w' /\
           unlockRepository r0 password pf w2 = (Ret (true, with_keys r0 r'), w3)) /\
        forall password' derived', derives password' salt logRounds derived' ->
          hmac derived' (key_block derived iv r') <> hmac derived (key_block derived iv r') ->
          exists w3, wstore w3 = wstore w' /\ unlockRepository r0 password' pf w2 = (Ret (false, r0), w3).
Proof.
  destruct (initializeRepository_spec r password logRounds pf w Hr Hd Hpf)
    as (r' & salt & iv & derived & junk & w' & E & Hk & _ & Hkf & Hoth).
  exists r', w'. split; [exact E|]. split; [exact Hk|]. split; [exact Hoth|].
  exists salt, iv, derived. pose proof Hkf as (_ & _ & _ & _ & _ & Hder & _). split; [exact Hder|].
  intros w2 Hw2. assert (has_key_file w2 r' password salt iv derived junk logRounds) as Hkf2.
  { unfold has_key_file in *. by rewrite Hw2. }
  split.
  - destruct (unlockRepository_spec w2 r' r0 password password salt iv derived derived junk logRounds pf Hk Hkf2 Hpf Hder)
      as (w3 & E3 & Hok & _). exists w3. split; [congruence|]. by apply Hok.
  - intros password' derived' Hder' Hne.
    destruct (unlockRepository_spec w2 r' r0 password password' salt iv derived derived' junk logRounds pf Hk Hkf2 Hpf Hder')
      as (w3 & E3 & _ & Hbad). exists w3. split; [congruence|]. by apply Hbad.
Qed.

(** [changePassword] with the right old password. *)
Lemma changePassword_spec r r0 old new salt iv derived junk logRounds logRounds' pf (w : world D) :
  keys_ok r -> has_key_file w r old salt iv derived junk logRounds -> 0 <= logRounds' <= MAX_LOG_ROUNDS ->
  (forall a b, pf a b = true) ->
  exists salt' iv' derived' junk' w', changePassword r0 old new logRounds' pf w = (Ret (true, with_keys r0 r), w') /\
    has_key_file w' r new salt' iv' derived' junk' logRounds' /\
    forall p, object_path p -> p <> str "/key" -> objects (wstore w') p = objects (wstore w) p.
Proof.
  intros Hk Hkf Hr Hpf. pose proof Hkf as (Hd & _ & _ & _ & _ & Hder & _).
  destruct (unlockRepository_spec w r r0 old old salt iv derived derived junk logRounds DefaultProgressFunction
    Hk Hkf (fun _ _ => eq_refl) Hder) as (w1 & E1 & Hok & _). specialize (Hok eq_refl).
  unfold changePassword. io_step Hok. cbn [negb]. rewrite <-E1 in Hd.
  assert (keys_ok (with_keys r0 r)) as Hk' by exact Hk.
  destruct (writeRepositoryKey_spec (with_keys r0 r) new logRounds' pf w1 Hk' Hr Hd Hpf)
    as (salt' & iv' & derived' & junk' & w2 & E2 & Hkf2 & Hoth). io_step E2.
  exists salt', iv', derived', junk', w2. split; [done|]. split; [exact Hkf2|]. intros p Hp Hne. by rewrite Hoth, E1.
Qed.

(** C14: [changePassword] with the right old password returns true, keeps the
    four keys, rewrites only "/key", and makes the repository open with the new
    password; with an old password that does not unlock, it returns false and
    the store is as before. *)
Theorem change_password_correct r r0 old new salt iv derived junk logRounds logRounds' pf (w : world D)
    (Hk : keys_ok r) (Hkf : has_key_file w r old salt iv derived junk logRounds)
    (Hr : 0 <= logRounds' <= MAX_LOG_ROUNDS) (Hpf : forall a b, pf a b = true) :
  (exists w', changePassword r0 old new logRounds' pf w = (Ret (true, with_keys r0 r), w') /\
     (forall p, object_path p -> p <> str "/key" -> objects (wstore w') p = objects (wstore w) p) /\
     exists w2, wstore w2 = wstore w' /\
       unlockRepository r0 new pf w' = (Ret (true, with_keys r0 r), w2)) /\
  (forall wrong derived', derives wrong salt logRounds derived' ->
     hmac derived' (key_block derived iv r) <> hmac derived (key_block derived iv r) ->
     exists w', wstore w' = wstore w /\ changePassword r0 wrong new logRounds' pf w = (Ret (false, r0), w')).
Proof.
  pose proof Hkf as (_ & _ & _ & _ & _ & Hder & _). split.
  - destruct (changePassword_spec r r0 old new salt iv derived junk logRounds logRounds' pf w Hk Hkf Hr Hpf)
      as (salt' & iv' & derived' & junk' & w2 & E2 & Hkf2 & Hoth).
    exists w2. split; [done|]. split; [done|]. pose proof Hkf2 as (_ & _ & _ & _ & _ & Hder' & _).
    destruct (unlockRepository_spec w2 r r0 new new salt' iv' derived' derived' junk' logRounds' pf
      Hk Hkf2 Hpf Hder') as (w3 & E3 & Hok3 & _). exists w3. split; [done|]. by apply Hok3.
  - intros wrong derived' Hder' Hne.
    destruct (unlockRepository_spec w r r0 old wrong salt iv derived derived' junk logRounds DefaultProgressFunction
      Hk Hkf (fun _ _ => eq_refl) Hder') as (w1 & E1 & _ & Hbad). specialize (Hbad Hne).
    exists w1. split; [exact E1|]. unfold changePassword. by io_step Hbad.
Qed.

(** C15: a committed snapshot is loaded back with the same files, strings and
    objects, and no other object of the store is touched by either. *)
Theorem snapshot_commit_load r s name pf (w : world D)
    (Hok : snapshot_ok s) (Hkey : keyed s) (Hd : dvalid (wstore w)) (Hn : name <> []) (Hs : slash_free name)
    (Hpf : forall a b, pf a b = true) (Hb : zlen (snapshot_bytes s) <= Z.of_nat decompress_bound)
    (Hl : zlen (snapshot_bytes s) < 2 ^ 62) (Hl' : zlen (payload LZMA2 (snapshot_bytes s)) < 2 ^ 62) :
  exists w', commitSnapshot r s name pf w = (Ret tt, w') /\
    (forall p, object_path p -> p <> str "/snapshot/" ++ name -> objects (wstore w') p = objects (wstore w) p) /\
    exists s' w2, loadSnapshot r name pf w' = (Ret s', w2) /\ wstore w2 = wstore w' /\ snapshot_ok s' /\
      mFiles s' = mFiles s /\ mObjectIDs s' = mObjectIDs s /\ mStringBuffer s' = mStringBuffer s.
Proof.
  destruct (commitSnapshot_spec r s name pf w Hok Hd Hn Hs Hpf Hl Hl') as (iv & w' & E & Hd' & Hiv & Hob).
  exists w'. split; [exact E|]. split; [intros p Hp Hne; by rewrite Hob, decide_False|].
  pose proof (Hob _ (path_snapshot name Hn Hs)) as Hs'. rewrite decide_True in Hs' by done.
  destruct (loadSnapshot_spec r s name iv pf w' Hok Hkey Hd' Hn Hs Hpf Hiv Hs' Hb Hl) as (s' & w2 & E2 & R & Ok' & _ & Rest).
  { unfold object_bytes. rewrite zlen_sealed. unfold object_body. rewrite zlen_app, Hiv, encrypt_length.
    change SHA256_DIGEST_LENGTH with 32. change EVP_MAX_IV_LENGTH with 16.
    pose proof (zlen_nonneg (payload LZMA2 (snapshot_bytes s))). Z.div_mod_to_equations. lia. }
  exists s', w2. done.
Qed.
End Properties.

(** ** A concrete repository, for the witnesses *)

Module Demo.
#[global] Instance env : Env := {|
  arc4random_buf t n := replicate n (z2b (Z.of_nat t + 1));
  uninitialised t n := replicate n Byte.xaa;
  temp_disk := empty_disk;
  unique_name t := str "tmp";
  ceil_log2 n := if bool_decide (n ∈ [2 ^ 29; 2 ^ 31; 2 ^ 39]) then Z.log2 n + 1 else Z.log2_up n;
  decompress_bound := 4096
|}.
#[global] Program Instance env_spec : EnvSpec.
Next Obligation. intros. apply zlen_replicate. Qed.
Next Obligation. intros. apply zlen_replicate. Qed.
Next Obligation. intros. set_solver. Qed.

Definition start : world FileDataStore := Build_world (new_FileDataStore (str "store")) 0.
Definition repo : Repository := new_Repository 0 None.

Lemma start_ok : dvalid (wstore start).
Proof. by apply new_FileDataStore_ok. Qed.
End Demo.

Lemma unlock_correct_witness :
  exists r' w', initializeRepository Demo.repo (str "secret") 4 DefaultProgressFunction Demo.start = (Ret r', w') /\
    exists w3, unlockRepository Demo.repo (str "secret") DefaultProgressFunction w' =
      (Ret (true, with_keys Demo.repo r'), w3).
Proof.
  destruct (unlock_correct Demo.repo Demo.repo (str "secret") 4 DefaultProgressFunction Demo.start
    ltac:(vm_compute; split; discriminate) Demo.start_ok (fun _ _ => eq_refl))
    as (r' & w' & E & _ & _ & salt & iv & derived & _ & U).
  destruct (U w' eq_refl) as [(w3 & _ & E3) _].
  exists r', w'. split; [exact E|]. exists w3. exact E3.
Defined.

Lemma change_password_correct_witness :
  exists r w, keys_ok r /\
    exists w', changePassword Demo.repo (str "old") (str "new") 5 DefaultProgressFunction w =
      (Ret (true, with_keys Demo.repo r), w').
Proof.
  assert (0 <= 4 <= MAX_LOG_ROUNDS) as H4 by (vm_compute; split; discriminate).
  assert (0 <= 5 <= MAX_LOG_ROUNDS) as H5 by (vm_compute; split; discriminate).
  destruct (initializeRepository_spec Demo.repo (str "old") 4 DefaultProgressFunction Demo.start H4 Demo.start_ok
    (fun _ _ => eq_refl)) as (r & salt & iv & derived & junk & w & _ & Hk & _ & Hkf & _).
  destruct (change_password_correct r Demo.repo (str "old") (str "new") salt iv derived junk 4 5
    DefaultProgressFunction w Hk Hkf H5 (fun _ _ => eq_refl)) as [(w' & E & _) _].
  exists r, w. split; [exact Hk|]. exists w'. exact E.
Defined.

Lemma snapshot_commit_load_witness :
  exists w', commitSnapshot Demo.repo example_snapshot (str "s1") DefaultProgressFunction Demo.start = (Ret tt, w') /\
    exists s' w2, loadSnapshot Demo.repo (str "s1") DefaultProgressFunction w' = (Ret s', w2) /\
      mFiles s' = mFiles example_snapshot.
Proof.
  destruct example_ok as [Hok Hkey].
  assert (slash_free (str "s1")) as Hs.
  { unfold slash_free. refine (bool_decide_unpack _ _). vm_compute. exact I. }
  assert (zlen (snapshot_bytes example_snapshot) <= Z.of_nat decompress_bound) as Hb
    by (vm_compute; discriminate).
  destruct (snapshot_commit_load Demo.repo example_snapshot (str "s1") DefaultProgressFunction Demo.start Hok Hkey
    Demo.start_ok ltac:(discriminate) Hs (fun _ _ => eq_refl) Hb ltac:(vm_compute; reflexivity)
    ltac:(vm_compute; reflexivity)) as (w' & E & _ & s' & w2 & E2 & _ & _ & F & _).
  exists w'. split; [exact E|]. exists s', w2. split; [exact E2|exact F].
Defined.
