(* ===== verification/Upload.v ===== *)
(** * Repository.cpp: uploadFile, finalizePack, downloadFile

    A small file becomes one object, or a part of a pack; a large one is cut into
    blocks where the rolling hash of the last 8192 bytes has enough zero bits. *)
From S2P Require Import Prelude Base32 Crypto RollingHash Streams MemoryStreams FileStreams CompositeStreams.
From S2P Require Import CryptoStreams Lzma StreamUtils StdMap Filesystem Snapshot DataStore Repository.
From Stdlib Require Import ZArith Lia.

(** ** The size of blocks *)

(** [rollingHashBits]: the logarithm of the average block size, as floating point
    numbers give it, clamped.  Dividing by zero is undefined, and so is converting
    the logarithm of zero to [int]. *)
Definition rolling_bits `{Env} (o : Options) (fileLength : Z) : result Z :=
  if blockSplitCount o =? 0 then Undef
  else
    let n := fileLength / uwrap 64 (blockSplitCount o) in
    if n =? 0 then Undef
    else
      let bits := ceil_log2 n in
      let bits := if bits <? minRollingHashBits o then minRollingHashBits o else bits in
      Ret (if maxRollingHashBits o <? bits then maxRollingHashBits o else bits).

(** [std::max(4096, (int)((fileLength + 65534) / 65535))] *)
Definition min_block_size (fileLength : Z) : Z :=
  Z.max 4096 (swrap 32 (uwrap 64 (fileLength + 65534) / 65535)).

(** The extensions that are not compressed, in lower case. *)
Definition noCompressExt : list bytes :=
  [str ".png"; str ".jpg"; str ".jpeg"; str ".gif"; str ".mov"; str ".mkv"; str ".avi"; str ".mp2";
   str ".mp3"; str ".mp4"; str ".mpg"; str ".m4a"; str ".m4v"; str ".3gp"; str ".3gpp"; str ".3g2";
   str ".3gpp2"; str ".wma"; str ".wmv"; str ".ogg"; str ".aac"; str ".zip"; str ".gz"; str ".bz2";
   str ".xz"; str ".lz"; str ".lzo"; str ".lzma"; str ".z"; str ".7z"; str ".s7z"; str ".rar";
   str ".apk"; str ".ipa"; str ".jar"].

Definition lower (ext : bytes) : bytes := (fun b => z2b (tolower (b2z b))) <$> ext.

Definition compression_for (ext : bytes) : CompressionType :=
  if bool_decide (lower ext ∈ noCompressExt) then NoCompression else LZMA2.

(** ** Packs *)

(** [PackFileInfo]; [pi_packLength] is uninitialised until [finalizePack] sets it. *)
Record PackFileInfo := {
  pi_path : bytes; pi_user : bytes; pi_group : bytes; pi_type : FileType; pi_mode : Z;
  pi_compression : CompressionType; pi_size : Z; pi_mtime : Z; pi_rollingHashBits : Z; pi_md5 : bytes;
  pi_offset : Z; pi_packLength : option Z
}.

(** What [finalizePack] sets in a file. *)
Definition placed (fi : PackFileInfo) (off len : Z) : PackFileInfo := {|
  pi_path := pi_path fi; pi_user := pi_user fi; pi_group := pi_group fi; pi_type := pi_type fi;
  pi_mode := pi_mode fi; pi_compression := pi_compression fi; pi_size := pi_size fi; pi_mtime := pi_mtime fi;
  pi_rollingHashBits := pi_rollingHashBits fi; pi_md5 := pi_md5 fi; pi_offset := off; pi_packLength := Some len |}.

Section Pack.
Context `{EVP}.

(** [PackUploadState]; [p_hmac] is [None] before [HMAC_Init]. *)
Record PackUploadState := {
  p_hmac : option HmacCtx; fileInfos : list PackFileInfo; packData : list bytes;
  p_rollingHash : option RollingHash
}.

(** [Repository::createPackState] *)
Definition createPackState : PackUploadState :=
  {| p_hmac := None; fileInfos := []; packData := []; p_rollingHash := None |}.

(** [PackUploadState::addFile]; the offset it stores is the index of the file. *)
Definition addFile (p : PackUploadState) (data path user group : bytes) (type : FileType) (md : Z)
    (comp : CompressionType) (sz mt bits : Z) (digest : bytes) : result PackUploadState :=
  ctx ← or_undef (p_hmac p);
  ctx ← or_throw (HMAC_Update ctx data) EncryptionFailedException;
  let info := {| pi_path := path; pi_user := user; pi_group := group; pi_type := type; pi_mode := md;
                 pi_compression := comp; pi_size := sz; pi_mtime := mt; pi_rollingHashBits := bits;
                 pi_md5 := digest; pi_offset := uwrap 32 (zlen (packData p)); pi_packLength := None |} in
  Ret {| p_hmac := Some ctx; fileInfos := fileInfos p ++ [info]; packData := packData p ++ [data];
         p_rollingHash := p_rollingHash p |}.

(** The loop over the bytes of a small file: does the pack end with it? *)
Fixpoint roll_pack (h : RollingHash) (data : bytes) (writePack : bool) : result (bool * RollingHash) :=
  match data with
  | [] => Ret (writePack, h)
  | b :: data =>
      '(v, h) ← roll h b;
      roll_pack h data (writePack || (Z.land v (Z.shiftl 1 20 - 1) =? 0))
  end.

(** [MD5(...)] *)
Definition MD5 (data : bytes) : result bytes :=
  ctx ← or_throw EVP_DigestInit EncryptionFailedException;
  ctx ← or_throw (EVP_DigestUpdate ctx data) EncryptionFailedException;
  or_throw (EVP_DigestFinal ctx) EncryptionFailedException.
End Pack.
Arguments PackUploadState {_}.

Section Code.
Context `{EVP} `{LZMA} `{Paths} `{Env} {D} `{DataStore D}.

(** The loop of [finalizePack] that seals the files: the streams, in order, and
    the files with their offsets and lengths. *)
Fixpoint seal_pack (r : Repository) (l : list (PackFileInfo * bytes)) (off : Z)
  : io (world D) (list EncryptedHMACStream * list PackFileInfo) :=
  match l with
  | [] => mret ([], [])
  | (fi, data) :: l =>
      encryptedStream ← seal r (pi_compression fi) (new_MemoryInputStream data);
      n ← lift (size encryptedStream);
      let len := uwrap 32 n in
      '(streams, infos) ← seal_pack r l (uwrap 32 (off + len));
      mret (encryptedStream :: streams, placed fi off len :: infos)
  end.

(** The loop of [finalizePack] that adds the entries. *)
Fixpoint add_pack_entries (snapshot : Snapshot) (objectId : bytes) (l : list PackFileInfo) : result Snapshot :=
  match l with
  | [] => Ret snapshot
  | fi :: l =>
      packLen ← or_undef (pi_packLength fi);
      snapshot ← addFileEntry snapshot (pi_path fi) (pi_user fi) (pi_group fi) (pi_type fi) (pi_mode fi)
                   (pi_compression fi) (pi_size fi) (pi_mtime fi) (pi_rollingHashBits fi) (pi_md5 fi)
                   (pi_offset fi) packLen [objectId];
      add_pack_entries snapshot objectId l
  end.

(** [Repository::finalizePack] *)
Definition finalizePack (r : Repository) (snapshot : Snapshot) (p : PackUploadState)
  : io (world D) (Snapshot * PackUploadState) :=
  match p_rollingHash p with
  | None => mret (snapshot, p)
  | Some _ =>
      ctx ← lift (or_undef (p_hmac p));
      objectId ← lift (or_throw (HMAC_Final ctx) EncryptionFailedException);
      objPath ← lift (data_path objectId);
      present ← on_store (exist objPath DefaultProgressFunction);
      infos ← (if (present : bool) then mret (fileInfos p)
               else
                 '(streams, infos) ← seal_pack r (zip (fileInfos p) (packData p)) 0;
                 _ ← on_store (put objPath (new_MultiInputStream streams) DefaultProgressFunction);
                 mret infos);
      snapshot ← lift (add_pack_entries snapshot objectId infos);
      mret (snapshot, createPackState)
  end.

(** ** Large files *)

(** The state of the loop over the bytes of a large file. *)
Record upload_state := {
  u_hash : RollingHash; u_buffer : bytes; u_ids : list bytes; u_md5 : DigestCtx; u_count : Z
}.

(** [computeBlockHMAC] and the upload of one block of the buffer. *)
Definition upload_block (r : Repository) (comp : CompressionType) (progress : FileTransferProgressFunction)
    (total : Z) (u : upload_state) : io (world D) upload_state :=
  md5 ← lift (or_throw (EVP_DigestUpdate (u_md5 u) (u_buffer u)) EncryptionFailedException);
  id ← lift (computeBlockHMAC r (u_buffer u) comp);
  _ ← compressEncryptAndUploadBlock r comp id (u_buffer u) (progress (u_count u) total);
  mret {| u_hash := u_hash u; u_buffer := []; u_ids := u_ids u ++ [id]; u_md5 := md5; u_count := u_count u + 1 |}.

(** One byte: it joins the buffer; the rolling hash is only advanced once the
    buffer has [minBlockSize] bytes. *)
Definition take_byte (o : Options) (hashMask minBlock : Z) (u : upload_state) (b : byte)
  : result (bool * upload_state) :=
  let buffer := u_buffer u ++ [b] in
  if minBlock <=? zlen buffer then
    '(v, h) ← roll (u_hash u) b;
    Ret ((Z.land v hashMask =? 0) || (maxBlockSize o <=? zlen buffer),
         {| u_hash := h; u_buffer := buffer; u_ids := u_ids u; u_md5 := u_md5 u; u_count := u_count u |})
  else
    Ret (false, {| u_hash := u_hash u; u_buffer := buffer; u_ids := u_ids u; u_md5 := u_md5 u; u_count := u_count u |}).

(** [while(!bufferedFile.isEof())] *)
Fixpoint upload_loop {In} `{InputStream In} (fuel : nat) (r : Repository) (comp : CompressionType)
    (progress : FileTransferProgressFunction) (hashMask minBlock : Z) (u : upload_state)
    (file : BufferedInputStream In) : io (world D) upload_state :=
  '(eof, file) ← lift (isEof file);
  if (eof : bool) then mret u
  else
    match fuel with
    | O => lift NoFuel
    | S fuel =>
        '(b, file) ← lift (readByte file);
        '(cut, u) ← lift (take_byte (mOptions r) hashMask minBlock u b);
        u ← (if (cut : bool) then upload_block r comp progress (-1) u else mret u);
        upload_loop fuel r comp progress hashMask minBlock u file
    end.

(** [1 << n], on int. *)
Definition shift1 (n : Z) : result Z := if (0 <=? n) && (n <? 31) then Ret (Z.shiftl 1 n) else Undef.

(** The branch of [uploadFile] for large files.  A negative [maxBlockSize] ends
    at [blockBuffer.reserve], which throws. *)
Definition upload_large {In} `{InputStream In} (r : Repository) (comp : CompressionType)
    (progress : FileTransferProgressFunction) (fileLength : Z) (rh : RollingHash) (md5 : DigestCtx) (file : In)
  : io (world D) (Z * upload_state) :=
  bits ← lift (rolling_bits (mOptions r) fileLength);
  mask ← lift (shift1 bits);
  capacity ← lift (shift1 (1 + bits));
  if Z.min capacity (maxBlockSize (mOptions r)) <? 0 then throw length_error
  else
    u ← upload_loop (remaining file) r comp progress (mask - 1) (min_block_size fileLength)
          {| u_hash := rh; u_buffer := []; u_ids := []; u_md5 := md5; u_count := 0 |}
          (new_BufferedInputStream file);
    u ← (if zlen (u_buffer u) =? 0 then mret u else upload_block r comp progress (-1) u);
    mret (bits, u).

(** The branch for a small file that joins a pack. *)
Definition upload_to_pack (r : Repository) (comp : CompressionType) (progress : FileTransferProgressFunction)
    (snapshot : Snapshot) (p : PackUploadState) (path : bytes) (info : FileInfo) (buffer : bytes)
  : io (world D) (Snapshot * PackUploadState) :=
  p ← lift (match p_rollingHash p with
    | Some _ => Ret p
    | None =>
        h ← new_RollingHash (mRollKey r) 8192;
        ctx ← or_throw (HMAC_Init (ztake SHA256_DIGEST_LENGTH (mHashKey r))) EncryptionFailedException;
        Ret {| p_hmac := Some ctx; fileInfos := fileInfos p; packData := packData p; p_rollingHash := Some h |}
    end);
  ctx ← lift (or_undef (p_hmac p));
  h ← lift (or_undef (p_rollingHash p));
  let ctx := default ctx (HMAC_Update ctx buffer) in
  '(writePack, h) ← lift (roll_pack h buffer false);
  digest ← lift (MD5 buffer);
  p ← lift (addFile {| p_hmac := Some ctx; fileInfos := fileInfos p; packData := packData p;
                       p_rollingHash := Some h |}
              buffer path (mUserName info) (mGroupName info) (mType info) (uwrap 16 (mMode info)) comp
              (mLength info) (mLastModifyTime info) 0 digest);
  if (writePack : bool) then finalizePack r snapshot p
  else if negb (progress 0 1 0 0) then throw CancelledException
  else mret (snapshot, p).

(** [Repository::uploadFile]; [st] is what [stat] says of the path of the file,
    and a null [packUploadState] is [None]. *)
Definition uploadFile (r : Repository) (pack : option PackUploadState) (snapshot : Snapshot) (destPath : bytes)
    (fileStream : FileStream) (st : option stat) (progress : FileTransferProgressFunction)
  : io (world D) (Snapshot * option PackUploadState) :=
  rh ← lift (new_RollingHash (mRollKey r) 8192);
  let info := new_FileInfo (mPath fileStream) st in
  if negb (exists_ info) then throw FileNotFoundException
  else
    md5 ← lift (or_throw EVP_DigestInit EncryptionFailedException);
    let comp := compression_for (mExtension info) in
    let path := relative_normal destPath in
    if mLength info <? uwrap 64 (smallFileSize (mOptions r)) then
      '(buffer, _) ← lift (readExpected fileStream (mLength info));
      md5 ← lift (or_throw (EVP_DigestUpdate md5 buffer) EncryptionFailedException);
      objectId ← lift (computeBlockHMAC r buffer comp);
      match pack with
      | Some p =>
          '(snapshot, p) ← upload_to_pack r comp progress snapshot p path info buffer;
          mret (snapshot, Some p)
      | None =>
          _ ← compressEncryptAndUploadBlock r comp objectId buffer (progress 0 1);
          digest ← lift (or_throw (EVP_DigestFinal md5) EncryptionFailedException);
          snapshot ← lift (addFileEntry snapshot path (mUserName info) (mGroupName info) (mType info)
            (uwrap 16 (mMode info)) comp (mLength info) (mLastModifyTime info) 0 digest 0 0 [objectId]);
          mret (snapshot, None)
      end
    else
      '(bits, u) ← upload_large r comp progress (mLength info) rh md5 fileStream;
      digest ← lift (or_throw (EVP_DigestFinal (u_md5 u)) EncryptionFailedException);
      snapshot ← lift (addFileEntry snapshot path (mUserName info) (mGroupName info) (mType info)
        (uwrap 16 (mMode info)) comp (mLength info) (mLastModifyTime info) (uwrap 8 bits) digest 0 0 (u_ids u));
      mret (snapshot, pack).

(** The overload without a pack, which does not pass its progress function on. *)
Definition uploadFile_plain (r : Repository) (snapshot : Snapshot) (destPath : bytes)
    (fileStream : FileStream) (st : option stat) (progress : FileTransferProgressFunction)
  : io (world D) Snapshot :=
  '(snapshot, _) ← uploadFile r None snapshot destPath fileStream st DefaultFileTransferProgressFunction;
  mret snapshot.

(** ** Download *)

(** A downloaded object, or the part of the pack, is opened to the output. *)
Definition open_downloaded {In Out} `{InputStream In} `{OutputStream Out} (r : Repository) (fe : FileEntry)
    (downloadedStream : In) : io (world D * Out) unit :=
  if 0 <? packLength fe then
    rangeStream ← lift (new_InputRangeStream downloadedStream (offset fe) (packLength fe));
    _ ← on_snd (decompress_into decompress_bound (compression_of (compression fe)) (mEncKey r) (mMacKey r) rangeStream);
    mret tt
  else
    _ ← on_snd (decompress_into decompress_bound (compression_of (compression fe)) (mEncKey r) (mMacKey r) downloadedStream);
    mret tt.

(** The body of the loop over the objects of an entry; [i] counts them.  The
    output, which the caller keeps, is a part of the state. *)
Definition download_object {Out} `{OutputStream Out} (r : Repository) (s : Snapshot) (fe : FileEntry)
    (progress : FileTransferProgressFunction) (i : Z) : io (world D * Out) unit :=
  id ← lift (or_undef (znth (objectIdIndex fe + i) (mObjectIDs s)));
  objectPath ← lift (data_path id);
  tmpStream ← on_fst new_temp;
  tmpStream ← on_fst (on_store (get objectPath tmpStream (progress i (objectCount fe))));
  downloadedStream ← lift (temp_input tmpStream);
  open_downloaded r fe downloadedStream.

Fixpoint download_objects {Out} `{OutputStream Out} (n : nat) (r : Repository) (s : Snapshot) (fe : FileEntry)
    (progress : FileTransferProgressFunction) (i : Z) : io (world D * Out) unit :=
  match n with
  | O => mret tt
  | S n =>
      _ ← download_object r s fe progress i;
      download_objects n r s fe progress (i + 1)
  end.

(** [Repository::downloadFile]; [fileStream] is a part of the state. *)
Definition download_into {Out} `{OutputStream Out} (r : Repository) (s : Snapshot) (srcPath : bytes)
    (progress : FileTransferProgressFunction) : io (world D * Out) bool :=
  match getFileEntry s srcPath with
  | None => mret false
  | Some fe =>
      _ ← lift (indexToObjectID s (objectIdIndex fe));
      _ ← download_objects (Z.to_nat (objectCount fe)) r s fe progress 0;
      mret true
  end.

(** The same where nothing looks at the output after an exception. *)
Definition downloadFile {Out} `{OutputStream Out} (r : Repository) (s : Snapshot) (srcPath : bytes) (out : Out)
    (progress : FileTransferProgressFunction) : io (world D) (bool * Out) := fun w =>
  let '(a, (w, out)) := download_into r s srcPath progress (w, out) in (found ← a; Ret (found, out), w).
End Code.
