(* ===== verification/Chunks.v ===== *)
(** * How a large file is cut into blocks

    [blocks_of] is the reference definition of the cutting: a function of the
    options, the state of the rolling hash and the bytes.  It is a partition of
    the file with bounded block sizes and a bounded number of blocks. *)
From S2P Require Import Prelude Crypto RollingHash Streams CompositeStreams Repository Upload.
From Stdlib Require Import ZArith Lia.

Section Blocks.
Context (o : Options) (hashMask minBlock : Z).

(** The complete blocks, and the bytes that are left in the buffer at the end. *)
Fixpoint blocks_of (h : RollingHash) (buf data : bytes) : list bytes * bytes :=
  match data with
  | [] => ([], buf)
  | b :: data =>
      let buf := buf ++ [b] in
      if minBlock <=? zlen buf then
        match roll h b with
        | Ret (v, h) =>
            if (Z.land v hashMask =? 0) || (maxBlockSize o <=? zlen buf)
            then let (bs, rest) := blocks_of h [] data in (buf :: bs, rest)
            else blocks_of h buf data
        | _ => ([], buf)
        end
      else blocks_of h buf data
  end.

(** No block is longer. *)
Definition block_limit : Z := Z.max minBlock (maxBlockSize o).

Lemma blocks_partition data : forall h buf, wf h ->
  concat (blocks_of h buf data).1 ++ (blocks_of h buf data).2 = buf ++ data.
Proof.
  induction data as [|b data IH]; intros h buf Hh; cbn [blocks_of]; [by rewrite app_nil_r|].
  replace (buf ++ b :: data) with ((buf ++ [b]) ++ data) by (by rewrite <-app_assoc).
  destruct (minBlock <=? zlen (buf ++ [b])); [|by apply IH].
  destruct (roll_wf h b Hh) as (h' & -> & Hh' & _). destruct (_ || _); [|by apply IH].
  specialize (IH h' [] Hh'). destruct (blocks_of h' [] data) as [bs rest]. cbn [fst snd concat] in *.
  by rewrite <-app_assoc, IH.
Qed.

Lemma blocks_bounds data : 0 < minBlock -> forall h buf, wf h -> zlen buf < block_limit ->
  Forall (fun b => minBlock <= zlen b <= block_limit) (blocks_of h buf data).1 /\
  zlen (blocks_of h buf data).2 < block_limit.
Proof.
  intros Hpos. induction data as [|b data IH]; intros h buf Hh Hb; cbn [blocks_of]; [done|].
  assert (zlen (buf ++ [b]) = zlen buf + 1) as Hl by (by rewrite zlen_app).
  destruct (Z.leb_spec minBlock (zlen (buf ++ [b]))).
  - destruct (roll_wf h b Hh) as (h' & -> & Hh' & _).
    destruct (Z.land (mHash h') hashMask =? 0); cbn [orb].
    + assert (zlen (@nil byte) < block_limit) as H0 by (unfold block_limit; simpl; lia).
      destruct (IH h' [] Hh' H0) as [F R]. destruct (blocks_of h' [] data) as [bs rest].
      cbn [fst snd] in *. split; [constructor; [lia|done]|done].
    + destruct (Z.leb_spec (maxBlockSize o) (zlen (buf ++ [b]))).
      * assert (zlen (@nil byte) < block_limit) as H0' by (unfold block_limit; simpl; lia).
        destruct (IH h' [] Hh' H0') as [F R]. destruct (blocks_of h' [] data) as [bs rest].
        cbn [fst snd] in *. split; [constructor; [lia|done]|done].
      * apply IH; [done|]. unfold block_limit in *. lia.
  - apply IH; [done|]. unfold block_limit in *. lia.
Qed.

(** All the blocks of a file: the complete ones, and the rest unless it is empty. *)
Definition file_blocks (h : RollingHash) (data : bytes) : list bytes :=
  let (bs, rest) := blocks_of h [] data in if zlen rest =? 0 then bs else bs ++ [rest].

Lemma file_blocks_concat h data : wf h -> concat (file_blocks h data) = data.
Proof.
  intros Hh. pose proof (blocks_partition data h [] Hh) as P. unfold file_blocks.
  destruct (blocks_of h [] data) as [bs rest]. cbn [fst snd app] in P.
  destruct (Z.eqb_spec (zlen rest) 0) as [Hz|Hz].
  - apply zlen_nil_inv in Hz as ->. by rewrite app_nil_r in P.
  - rewrite concat_app. cbn [concat]. by rewrite app_nil_r.
Qed.

Lemma zlen_concat_ge (l : list bytes) k : Forall (fun b => k <= zlen b) l -> k * zlen l <= zlen (concat l).
Proof.
  induction 1 as [|b l Hb Hl IH]; cbn [concat]; [simpl; lia|]. rewrite zlen_app, zlen_cons. lia.
Qed.

(** At most [m] blocks, when [m] blocks of the least size cover the file. *)
Lemma file_blocks_count h data m : wf h -> 0 < minBlock -> zlen data <= m * minBlock ->
  zlen (file_blocks h data) <= m.
Proof.
  intros Hh Hpos Hm. pose proof (blocks_partition data h [] Hh) as P.
  assert (zlen (@nil byte) < block_limit) as H0 by (unfold block_limit; simpl; lia).
  pose proof (blocks_bounds data Hpos h [] Hh H0) as [F _]. unfold file_blocks.
  destruct (blocks_of h [] data) as [bs rest]. cbn [fst snd app] in *.
  assert (minBlock * zlen bs <= zlen (concat bs)) as Hle.
  { apply zlen_concat_ge. eapply Forall_impl; [exact F|]. simpl. lia. }
  apply (f_equal zlen) in P. rewrite zlen_app in P. pose proof (zlen_nonneg rest). pose proof (zlen_nonneg bs).
  destruct (Z.eqb_spec (zlen rest) 0).
  - assert (minBlock * zlen bs <= m * minBlock) by lia. nia.
  - rewrite zlen_app. cbn [zlen]. assert (minBlock * zlen bs < m * minBlock) by lia. nia.
Qed.
End Blocks.

(** The parameters of the cutting of a file of [n] bytes. *)
Lemma min_block_size_spec n : 0 <= n < 2 ^ 46 ->
  4096 <= min_block_size n < 2 ^ 31 /\ n <= 65535 * min_block_size n.
Proof.
  intros Hn. unfold min_block_size. rewrite uwrap_small by lia.
  assert (0 <= (n + 65534) / 65535 < 2 ^ 31) as Hq by (Z.div_mod_to_equations; lia).
  rewrite swrap_small by lia. split; [lia|]. Z.div_mod_to_equations. lia.
Qed.

Lemma rolling_bits_spec `{Env} o n : 0 < blockSplitCount o < 2 ^ 31 -> blockSplitCount o <= n ->
  minRollingHashBits o <= maxRollingHashBits o ->
  exists bits, rolling_bits o n = Ret bits /\ minRollingHashBits o <= bits <= maxRollingHashBits o.
Proof.
  intros Hs Hn Hm. unfold rolling_bits. rewrite uwrap_small by lia.
  destruct (Z.eqb_spec (blockSplitCount o) 0); [lia|].
  destruct (Z.eqb_spec (n / blockSplitCount o) 0) as [Hz|Hz].
  { assert (1 <= n / blockSplitCount o); [|lia]. apply Z.div_le_lower_bound; lia. }
  eexists. split; [reflexivity|].
  destruct (Z.ltb_spec (ceil_log2 (n / blockSplitCount o)) (minRollingHashBits o)) as [Hlt|Hge].
  - destruct (Z.ltb_spec (maxRollingHashBits o) (minRollingHashBits o)); lia.
  - destruct (Z.ltb_spec (maxRollingHashBits o) (ceil_log2 (n / blockSplitCount o))); lia.
Qed.

(** The shape of the blocks of a large file. *)
Lemma file_blocks_shape o hashMask h data (minBlock := min_block_size (zlen data)) : wf h -> zlen data < 2 ^ 46 ->
  zlen (file_blocks o hashMask minBlock h data) <= 65535 /\
  Forall (fun b => 0 < zlen b <= Z.max minBlock (maxBlockSize o)) (file_blocks o hashMask minBlock h data) /\
  forall l b, file_blocks o hashMask minBlock h data = l ++ [b] -> Forall (fun b => 4096 <= minBlock <= zlen b) l.
Proof.
  intros Hh Hlen. pose proof (zlen_nonneg data).
  destruct (min_block_size_spec (zlen data)) as [Hm Hn]; [lia|]. fold minBlock in Hm, Hn.
  assert (zlen (@nil byte) < block_limit o minBlock) as Hnil by (unfold block_limit; simpl; lia).
  pose proof (blocks_bounds o hashMask minBlock data ltac:(lia) h [] Hh Hnil) as [F R].
  split; [apply file_blocks_count; [done|lia|lia]|].
  unfold file_blocks in *. destruct (blocks_of o hashMask minBlock h [] data) as [bs rest].
  cbn [fst snd] in *. unfold block_limit in *. pose proof (zlen_nonneg rest).
  destruct (Z.eqb_spec (zlen rest) 0) as [Hz|Hz]; split.
  - eapply Forall_impl; [exact F|]. simpl. lia.
  - intros l' b ->. apply Forall_app in F as [F _]. eapply Forall_impl; [exact F|]. simpl. lia.
  - apply Forall_app. split; [eapply Forall_impl; [exact F|]; simpl; lia|].
    constructor; [lia|constructor].
  - intros l' b E. apply app_inj_tail in E as [<- <-]. eapply Forall_impl; [exact F|]. simpl. lia.
Qed.
