(* ===== verification/RepositoryFiles.v ===== *)
(** * Uploading and downloading files

    What [uploadFile], [finalizePack] and [downloadFile] do together, over any
    backend that keeps the contract of DataStore.h. *)
From S2P Require Import Prelude Base32 Crypto RollingHash Streams MemoryStreams FileStreams CompositeStreams.
From S2P Require Import CryptoStreams Lzma StreamUtils StdMap Filesystem Snapshot DataStore FileDataStore.
From S2P Require Import Repository RepositoryKeys Upload Chunks.
From Stdlib Require Import ZArith Lia.

(** ** Object names *)

Definition object_file (id : bytes) : bytes :=
  str "/data/" ++ ztake 2 (rfc4648 id) ++ slash :: zdrop 2 (rfc4648 id).

Lemma alphabet_clean : Byte.x00 ∉ base32hex /\ slash ∉ base32hex.
Proof. split; refine (bool_decide_unpack _ _); vm_compute; exact I. Qed.

Lemma rfc4648_no_nul id : no_nul (rfc4648 id).
Proof. intros Hc%rfc4648_alphabet. exact (proj1 alphabet_clean Hc). Qed.

Lemma ztake_in {A} n (l : list A) x : x ∈ ztake n l -> x ∈ l.
Proof. intros Hx. rewrite <-(ztake_zdrop n l), elem_of_app. by left. Qed.
Lemma zdrop_in {A} n (l : list A) x : x ∈ zdrop n l -> x ∈ l.
Proof. intros Hx. rewrite <-(ztake_zdrop n l), elem_of_app. by right. Qed.

Lemma data_path_spec id : zlen id = SHA256_DIGEST_LENGTH -> data_path id = Ret (object_file id).
Proof.
  intros Hid. unfold data_path, objectIdToString. rewrite ztake_ge by lia.
  assert (zlen (rfc4648 id) = 52) as Hl by (by rewrite zlen_rfc4648, Hid).
  rewrite base32encode_eq, Hid by lia. change (encoded_len SHA256_DIGEST_LENGTH + 1 <=? 53) with true.
  cbn [mbind result_bind].
  rewrite zdrop_app, ztake_app by lia.
  rewrite (ztake_nonpos (2 - _)), (zdrop_nonpos (2 - _)), app_nil_r by lia.
  rewrite cstring_app; [done|]. intros Hc%zdrop_in. by apply rfc4648_no_nul in Hc.
Qed.

Lemma object_file_path id : zlen id = SHA256_DIGEST_LENGTH -> object_path (object_file id).
Proof.
  intros Hid. assert (zlen (rfc4648 id) = 52) as Hl by (by rewrite zlen_rfc4648, Hid).
  assert (slash ∉ rfc4648 id) as Hs by (intros Hc%rfc4648_alphabet; exact (proj2 alphabet_clean Hc)).
  apply path_data.
  - rewrite zlen_ztake by lia. lia.
  - intros Hc%ztake_in. by apply Hs.
  - intros E. apply (f_equal zlen) in E. rewrite zlen_zdrop in E by lia. cbn in E. lia.
  - intros Hc%zdrop_in. by apply Hs.
Qed.

Lemma object_file_inj id1 id2 : zlen id1 = SHA256_DIGEST_LENGTH -> zlen id2 = SHA256_DIGEST_LENGTH ->
  object_file id1 = object_file id2 -> id1 = id2.
Proof.
  intros H1 H2 E. unfold object_file in E.
  assert (zlen (rfc4648 id1) = 52 /\ zlen (rfc4648 id2) = 52) as [L1 L2] by (rewrite !zlen_rfc4648, H1, H2; done).
  apply app_inv_head in E. apply app_inj_1 in E as [E1 E2].
  - injection E2 as E2. assert (rfc4648 id1 = rfc4648 id2) as Er.
    { by rewrite <-(ztake_zdrop 2 (rfc4648 id1)), <-(ztake_zdrop 2 (rfc4648 id2)), E1, E2. }
    pose proof (decode_rfc4648 id1) as D1. rewrite Er, decode_rfc4648 in D1. by injection D1.
  - assert (zlen (ztake 2 (rfc4648 id1)) = zlen (ztake 2 (rfc4648 id2))) as Hz
      by (rewrite !zlen_ztake by lia; lia).
    rewrite !zlen_length in Hz. lia.
Qed.

Section Files.
Context `{EVPSpec} `{LZMASpec} `{Paths} `{EnvSpec} {D} `{DataStoreSpec D}.
Context (r : Repository).

(** ** Blocks *)

Definition block_id (c : CompressionType) (b : bytes) : bytes :=
  hmac (ztake SHA256_DIGEST_LENGTH (mHashKey r)) (z2b (compression_code c) :: b).

Lemma block_id_length c b : zlen (block_id c b) = SHA256_DIGEST_LENGTH.
Proof. apply hmac_length. Qed.

Lemma computeBlockHMAC_spec c b : computeBlockHMAC r b c = Ret (block_id c b).
Proof.
  unfold computeBlockHMAC. destruct (hmac_init (ztake SHA256_DIGEST_LENGTH (mHashKey r))) as (x & -> & Hx).
  cbn [or_throw mbind result_bind]. destruct (hmac_update x [z2b (compression_code c)]) as (y & -> & Hy).
  cbn [or_throw mbind result_bind]. destruct (hmac_update y b) as (z & -> & Hz).
  cbn [or_throw mbind result_bind]. rewrite hmac_final. cbn [or_throw].
  by rewrite <-Hz, app_nil_r, <-Hy, Hx.
Qed.

(** The store holds the block [b]. *)
Definition stored (w : world D) (c : CompressionType) (b : bytes) : Prop :=
  exists iv, zlen iv = EVP_MAX_IV_LENGTH /\
    objects (wstore w) (object_file (block_id c b)) = Some (object_bytes c (mEncKey r) (mMacKey r) iv b).

(** Nothing is overwritten. *)
Definition grows (w w' : world D) : Prop :=
  forall p v, object_path p -> objects (wstore w) p = Some v -> objects (wstore w') p = Some v.

Lemma grows_refl w : grows w w.
Proof. intros p v. done. Qed.
Lemma grows_trans a b c : grows a b -> grows b c -> grows a c.
Proof. intros Hab Hbc p v Hp Hv. eauto. Qed.

(** Only the objects of the blocks [bs] may have changed. *)
Definition only_blocks (c : CompressionType) (bs : list bytes) (w w' : world D) : Prop :=
  forall p, object_path p -> (forall b, b ∈ bs -> p <> object_file (block_id c b)) ->
    objects (wstore w') p = objects (wstore w) p.

Lemma only_blocks_trans c b1 b2 w1 w2 w3 : only_blocks c b1 w1 w2 -> only_blocks c b2 w2 w3 ->
  only_blocks c (b1 ++ b2) w1 w3.
Proof.
  intros H12 H23 p Hp Hb. rewrite H23, H12; try done; intros b Hin; apply Hb, elem_of_app; auto.
Qed.

Lemma stored_grows w w' c b : grows w w' -> stored w c b -> stored w' c b.
Proof.
  intros Hg (iv & Hiv & Ho). exists iv. split; [done|]. apply Hg; [|done].
  apply object_file_path, block_id_length.
Qed.

(** The blocks [B] can be stored: a block of which the name is taken is there. *)
Definition can_store (w : world D) (c : CompressionType) (B : list bytes) : Prop :=
  Forall (fun b => objects (wstore w) (object_file (block_id c b)) = None \/ stored w c b) B.

(** No two different blocks of [B] have the same identifier. *)
Definition no_clash (c : CompressionType) (B : list bytes) : Prop :=
  forall b1 b2, b1 ∈ B -> b2 ∈ B -> block_id c b1 = block_id c b2 -> b1 = b2.

Definition small_payloads (c : CompressionType) (B : list bytes) : Prop :=
  Forall (fun b => zlen (payload c b) < 2 ^ 62) B.

Lemma upload_one c b B pf (w : world D) : dvalid (wstore w) -> b ∈ B -> can_store w c B -> no_clash c B ->
  small_payloads c B -> (forall x y, pf x y = true) ->
  exists w', compressEncryptAndUploadBlock r c (block_id c b) b pf w = (Ret tt, w') /\
    dvalid (wstore w') /\ can_store w' c B /\ grows w w' /\ stored w' c b /\ only_blocks c [b] w w'.
Proof.
  intros Hd Hb Hcan Hnc Hsm Hpf. unfold compressEncryptAndUploadBlock.
  rewrite (data_path_spec _ (block_id_length c b)), io_bind_lift.
  pose proof (object_file_path _ (block_id_length c b)) as Hp.
  pose proof (exist_spec (wstore w) (object_file (block_id c b)) DefaultProgressFunction Hd Hp) as Ex.
  rewrite (io_bind_Ret _ _ _ _ _ (on_store_Ret _ w _ _ Ex)).
  unfold can_store in Hcan |- *. rewrite Forall_forall in Hcan. destruct (Hcan b Hb) as [Hnone|Hst].
  - rewrite Hnone, bool_decide_eq_false_2 by (by intros [? ?]). cbn [negb].
    destruct (new_MemoryInputStream_valid b) as (V & C & _).
    destruct (seal_spec r c (new_MemoryInputStream b) (with_store w (wstore w)) V) as (s & w1 & iv & E1 & D1 & L1 & Vs & Cs & _).
    { rewrite C. unfold small_payloads in Hsm. rewrite Forall_forall in Hsm. by apply Hsm. }
    io_step E1. rewrite C in Cs. cbn [wstore with_store] in D1. rewrite <-D1 in Hd.
    destruct (put_spec (wstore w1) _ s pf Hd Hp Vs Hpf) as (s' & d' & E2 & Hd' & Hob).
    erewrite io_bind_Ret; [|apply on_store_Ret; exact E2].
    eexists. split; [reflexivity|]. cbn [wstore with_store]. split; [exact Hd'|].
    assert (grows w (with_store w1 d')) as Hg.
    { intros p v Hpp Hv. cbn [wstore with_store]. rewrite Hob, D1 by done.
      case_decide as Eq; [subst; congruence|done]. }
    assert (stored (with_store w1 d') c b) as Hsb.
    { exists iv. split; [done|]. cbn [wstore with_store]. by rewrite Hob, decide_True, Cs by done. }
    split; [|split; [done|split; [done|]]].
    2: { intros p Hpp Hne. cbn [wstore with_store]. rewrite Hob, D1 by done.
         rewrite decide_False; [done|]. apply Hne, list_elem_of_singleton. done. }
    apply Forall_forall. intros b' Hb'. destruct (Hcan b' Hb') as [Hn|Hst'].
    + destruct (decide (block_id c b' = block_id c b)) as [Eq|Hne].
      * right. by rewrite (Hnc b' b Hb' Hb Eq).
      * left. cbn [wstore with_store]. rewrite Hob, decide_False, D1 by
          (try (by apply object_file_path, block_id_length);
           by intros Eq%object_file_inj; try apply block_id_length). done.
    + right. by eapply stored_grows.
  - pose proof Hst as (iv & Hiv & Ho). rewrite Ho, bool_decide_eq_true_2 by done. rewrite Hpf. cbn [negb].
    eexists. split; [reflexivity|]. cbn [wstore with_store]. split; [done|].
    split; [apply Forall_forall; exact Hcan|]. split; [exact (grows_refl w)|split; [exact Hst|done]].
Qed.

(** ** The loop of a large file *)

(** [bs] were uploaded between two states: their identifiers are recorded, the
    digest took their bytes, and the store has them. *)
Record uploaded (c : CompressionType) (B bs : list bytes) (u u' : upload_state) (w w' : world D) : Prop := {
  up_ids : u_ids u' = u_ids u ++ (block_id c <$> bs);
  up_md5 m : md5_rest (u_md5 u) (concat bs ++ m) = md5_rest (u_md5 u') m;
  up_valid : dvalid (wstore w');
  up_can : can_store w' c B;
  up_grows : grows w w';
  up_stored : Forall (stored w' c) bs;
  up_only : only_blocks c bs w w'
}.

Lemma uploaded_nil c B (u u' : upload_state) (w : world D) : u_ids u' = u_ids u -> u_md5 u' = u_md5 u ->
  dvalid (wstore w) -> can_store w c B -> uploaded c B [] u u' w w.
Proof. intros Ei Em Hd Hcan. constructor; rewrite ?Ei, ?Em, ?app_nil_r; try done; apply grows_refl. Qed.

Lemma uploaded_trans c B b1 b2 (u1 u2 u3 : upload_state) (w1 w2 w3 : world D) :
  uploaded c B b1 u1 u2 w1 w2 -> uploaded c B b2 u2 u3 w2 w3 -> uploaded c B (b1 ++ b2) u1 u3 w1 w3.
Proof.
  intros [I1 M1 V1 C1 G1 S1 O1] [I2 M2 V2 C2 G2 S2 O2]. constructor; try done.
  - by rewrite I2, I1, fmap_app, app_assoc.
  - intros m. by rewrite concat_app, <-app_assoc, M1, M2.
  - by eapply grows_trans.
  - apply Forall_app. split; [|done]. eapply Forall_impl; [exact S1|]. intros b. by apply stored_grows.
  - by eapply only_blocks_trans.
Qed.

Lemma uploaded_same c B bs (u0 u u' : upload_state) (w w' : world D) : u_ids u0 = u_ids u -> u_md5 u0 = u_md5 u ->
  uploaded c B bs u0 u' w w' -> uploaded c B bs u u' w w'.
Proof. intros Ei Em [I M V C G S O]. constructor; rewrite <-?Ei, <-?Em; done. Qed.

Section Loop.
Context (c : CompressionType) (B : list bytes) (progress : FileTransferProgressFunction).
Context (Hnc : no_clash c B) (Hsm : small_payloads c B) (Hpf : forall a b x y, progress a b x y = true).

Lemma upload_block_spec total u (w : world D) : dvalid (wstore w) -> can_store w c B -> u_buffer u ∈ B ->
  exists u' w', upload_block r c progress total u w = (Ret u', w') /\ u_buffer u' = [] /\ u_hash u' = u_hash u /\
    uploaded c B [u_buffer u] u u' w w'.
Proof.
  intros Hd Hcan Hb. unfold upload_block. destruct (md5_update (u_md5 u) (u_buffer u)) as (m & -> & Hm).
  cbn [or_throw]. rewrite io_bind_lift, computeBlockHMAC_spec, io_bind_lift.
  destruct (upload_one c (u_buffer u) B (progress (u_count u) total) w Hd Hb Hcan Hnc Hsm (Hpf _ _))
    as (w' & E & Hd' & Hcan' & Hg & Hs & Hon). io_step E.
  eexists _, w'. split; [reflexivity|]. split; [done|]. split; [done|].
  constructor; cbn [u_ids u_md5]; try done; [|by apply Forall_singleton].
  intros x. cbn [concat]. by rewrite app_nil_r.
Qed.

Lemma upload_loop_spec {In} `{InputStreamSpec In} hashMask minB fuel :
  forall u (file : BufferedInputStream In) (w : world D) bs rest,
  valid file -> zlen (contents file) <= Z.of_nat fuel -> wf (u_hash u) -> dvalid (wstore w) -> can_store w c B ->
  blocks_of (mOptions r) hashMask minB (u_hash u) (u_buffer u) (contents file) = (bs, rest) ->
  Forall (.∈ B) bs ->
  exists u' w', upload_loop fuel r c progress hashMask minB u file w = (Ret u', w') /\ u_buffer u' = rest /\
    uploaded c B bs u u' w w'.
Proof.
  induction fuel as [|fuel IH]; intros u file w bs rest Hv Hf Hh Hd Hcan Hbs HB; cbn [upload_loop];
    destruct (isEof_spec file Hv) as (f1 & E1 & V1 & C1 & _ & N1); io_lift E1;
    destruct (contents file) as [|b l] eqn:Ec.
  1,3: injection Hbs as <- <-; exists u, w; split; [done|]; split; [done|]; by apply uploaded_nil.
  { rewrite zlen_cons in Hf. pose proof (zlen_nonneg l). lia. }
  destruct (readByte_spec f1 b l V1) as (f2 & E2 & V2 & C2 & _); [by apply N1|done|]. io_lift E2.
  rewrite zlen_cons in Hf. cbn [blocks_of] in Hbs. unfold take_byte.
  destruct (minB <=? zlen (u_buffer u ++ [b])) eqn:Em.
  - destruct (roll_wf (u_hash u) b Hh) as (h' & Er & Hh' & _). rewrite Er in *. cbn [mbind result_bind].
    rewrite io_bind_lift. destruct (_ || _) eqn:Ecut.
    + destruct (blocks_of (mOptions r) hashMask minB h' [] l) as [bs1 rest1] eqn:Eb. injection Hbs as <- <-.
      apply Forall_cons in HB as [Hb HB].
      match goal with |- context [upload_block r c progress (-1) ?x] => set (u1 := x) end.
      destruct (upload_block_spec (-1) u1 w Hd Hcan Hb) as (u2 & w2 & E3 & B2 & Hh2 & U2).
      rewrite (io_bind_Ret _ _ _ _ _ E3). assert (wf (u_hash u2)) as Hwf2 by (rewrite Hh2; exact Hh'). pose proof U2 as [_ _ Vd Cd _ _ _].
      destruct (IH u2 f2 w2 bs1 rest1) as (u3 & w3 & E4 & B3 & U3); try done; [rewrite C2; lia|by rewrite Hh2, B2, C2|].
      exists u3, w3. split; [exact E4|]. split; [exact B3|].
      apply (uploaded_trans c B [u_buffer u1] bs1 u u2 u3 w w2 w3); [|exact U3].
      by apply (uploaded_same c B _ u1).
    + match goal with |- context [(mret ?x ≫= _) _] => set (u1 := x) end.
      destruct (IH u1 f2 w bs rest) as (u3 & w3 & E4 & B3 & U3); try done; [rewrite C2; lia|by rewrite C2|].
      exists u3, w3. split; [exact E4|]. split; [exact B3|]. by apply (uploaded_same c B _ u1).
  - cbn [mbind result_bind]. rewrite io_bind_lift.
    match goal with |- context [(mret ?x ≫= _) _] => set (u1 := x) end.
    destruct (IH u1 f2 w bs rest) as (u3 & w3 & E4 & B3 & U3); try done; [rewrite C2; lia|by rewrite C2|].
    exists u3, w3. split; [exact E4|]. split; [exact B3|]. by apply (uploaded_same c B _ u1).
Qed.
End Loop.

(** ** Downloads *)

(** The bytes of a stored object that belong to an entry. *)
Definition part (off len : Z) (obj : bytes) : bytes := if 0 <? len then ztake len (zdrop off obj) else obj.

(** The store has, in the object [id], the contents [m] of an entry with this
    offset and length. *)
Definition holds (w : world D) (c : CompressionType) (off len : Z) (id m : bytes) : Prop :=
  exists iv obj, zlen iv = EVP_MAX_IV_LENGTH /\ zlen id = SHA256_DIGEST_LENGTH /\
    objects (wstore w) (object_file id) = Some obj /\ zlen obj < 2 ^ 63 /\
    zlen m <= Z.of_nat decompress_bound /\ 0 <= off /\ 0 <= len /\ (0 < len -> off + len <= zlen obj) /\
    part off len obj = object_bytes c (mEncKey r) (mMacKey r) iv m.

Lemma zlen_object_bytes c iv m : zlen iv = EVP_MAX_IV_LENGTH -> zlen (payload c m) < 2 ^ 62 ->
  zlen (object_bytes c (mEncKey r) (mMacKey r) iv m) < 2 ^ 63.
Proof.
  intros Hiv Hp. unfold object_bytes, object_body. rewrite zlen_sealed, zlen_app, Hiv, encrypt_length.
  change SHA256_DIGEST_LENGTH with 32. change EVP_MAX_IV_LENGTH with 16.
  pose proof (zlen_nonneg (payload c m)). Z.div_mod_to_equations. lia.
Qed.

Lemma stored_holds w c b : stored w c b -> zlen (payload c b) < 2 ^ 62 -> zlen b <= Z.of_nat decompress_bound ->
  holds w c 0 0 (block_id c b) b.
Proof.
  intros (iv & Hiv & Ho) Hp Hb. exists iv. eexists. split; [done|]. split; [apply block_id_length|].
  split; [exact Ho|]. split; [by apply zlen_object_bytes|]. split_and!; done || lia.
Qed.

Lemma zdrop_cons {A} n (l : list A) x k : 0 <= n -> zdrop n l = x :: k ->
  znth n l = Some x /\ zdrop (n + 1) l = k.
Proof.
  intros Hn E. assert (zlen l - n = 1 + zlen k) as Hl.
  { rewrite <-zlen_cons with (x := x), <-E, zlen_zdrop by lia. pose proof (zlen_nonneg l).
    destruct (Z.le_gt_cases n (zlen l)); [lia|]. rewrite zdrop_ge in E by lia. done. }
  split.
  - rewrite <-(ztake_zdrop n l), E. pose proof (zlen_nonneg k).
    rewrite znth_app_r by (rewrite zlen_ztake by lia; lia). rewrite zlen_ztake by lia.
    replace (n - Z.min n (zlen l)) with 0 by lia. done.
  - rewrite <-(zdrop_zdrop 1 n l) by lia. rewrite E. cbn. by apply zdrop_nonpos.
Qed.

Section Download.
Context {Out} `{OutputStreamSpec Out} (s : Snapshot) (fe : FileEntry) (c : CompressionType).
Context (progress : FileTransferProgressFunction) (Hpf : forall a b x y, progress a b x y = true).
Context (Hcomp : compression_of (compression fe) = Some c).

(** An object that is in the store is fetched. *)
Lemma download_fetched i id obj (out : Out) (w : world D) : zlen id = SHA256_DIGEST_LENGTH ->
  znth (objectIdIndex fe + i) (mObjectIDs s) = Some id -> dvalid (wstore w) ->
  objects (wstore w) (object_file id) = Some obj -> zlen obj < 2 ^ 63 ->
  exists (j : MemoryInputStream + FileStream) w', valid j /\ contents j = obj /\ whole j = obj /\
    canRewind j = true /\ wstore w' = wstore w /\
    download_object r s fe progress i (w, out) = open_downloaded r fe j (w', out).
Proof.
  intros Hid Hz Hd Hob Hlen. unfold download_object.
  rewrite Hz. cbn [or_undef]. rewrite io_bind_lift, (data_path_spec id Hid), io_bind_lift.
  destruct (new_temp_spec w) as (t & w1 & E1 & D1 & V1 & W1 & F1). io_step (on_fst_eq _ _ out _ _ E1).
  rewrite <-D1 in Hd, Hob.
  destruct (get_spec (wstore w1) _ t (progress i (objectCount fe)) obj 0 Hd (object_file_path id Hid) Hob V1)
    as (t1 & E2 & V2 & W2 & _); [done|apply F1; lia|apply Hpf|].
  io_step (on_fst_eq _ _ out _ _ (on_store_Ret _ _ _ _ E2)).
  destruct (temp_input_spec t1 V2) as (j & E3 & V3 & C3 & Wh3 & R3 & _). io_lift E3.
  rewrite W2, W1 in C3, Wh3. exists j, (with_store w1 (wstore w1)). by split_and!.
Qed.

(** An object that is not there. *)
Lemma download_missing i id (out : Out) (w : world D) : zlen id = SHA256_DIGEST_LENGTH ->
  znth (objectIdIndex fe + i) (mObjectIDs s) = Some id -> dvalid (wstore w) ->
  objects (wstore w) (object_file id) = None ->
  exists w', download_object r s fe progress i (w, out) = (Throw FileNotFoundException, (w', out)) /\
    wstore w' = wstore w.
Proof.
  intros Hid Hz Hd Hob. unfold download_object.
  rewrite Hz. cbn [or_undef]. rewrite io_bind_lift, (data_path_spec id Hid), io_bind_lift.
  destruct (new_temp_spec w) as (t & w1 & E1 & D1 & _). io_step (on_fst_eq _ _ out _ _ E1).
  rewrite <-D1 in Hd, Hob.
  pose proof (get_missing (wstore w1) _ t (progress i (objectCount fe)) Hd (object_file_path id Hid) Hob) as E2.
  exists w1. split; [|done]. apply io_bind_Throw, on_fst_eq. unfold on_store. rewrite E2. by destruct w1.
Qed.

(** The stream over the object, or over what there is of the part of the pack. *)
Lemma open_downloaded_part {In} `{InputStreamSpec In} (j : In) (st : world D * Out) : valid j -> canRewind j = true ->
  contents j = whole j -> 0 <= offset fe -> (0 < packLength fe -> offset fe + packLength fe < 2 ^ 63) ->
  exists I (HI : InputStream I) (HS : InputStreamSpec I) (q : I), valid q /\ canRewind q = true /\
    contents q = whole q /\ whole q = part (offset fe) (packLength fe) (whole j) /\
    open_downloaded r fe j st =
      (_ ← on_snd (decompress_into decompress_bound (compression_of (compression fe)) (mEncKey r) (mMacKey r) q); mret tt) st.
Proof.
  intros Hv Hr Hc Hoff Hend. unfold open_downloaded, part. destruct (Z.ltb_spec 0 (packLength fe)) as [Hp|Hp].
  - specialize (Hend Hp).
    destruct (new_range_open j (offset fe) (packLength fe) Hv Hc Hoff ltac:(lia) Hend) as (rs & E & V & C & Wh & R & _).
    exists (InputRangeStream In), unsized_range, unsized_range_spec, rs.
    cbn [valid contents whole canRewind unsized_range unsized_range_spec]. cbn [canRewind InputRangeStream_stream] in R.
    split; [exact V|]. split; [congruence|]. split; [congruence|]. split; [exact Wh|].
    rewrite E, io_bind_lift. reflexivity.
  - by exists In, _, _, j.
Qed.

(** One object of a file. *)
Lemma download_object_spec i id m (out : Out) (w : world D) extra :
  znth (objectIdIndex fe + i) (mObjectIDs s) = Some id -> holds w c (offset fe) (packLength fe) id m ->
  dvalid (wstore w) -> ovalid out -> 0 <= extra -> fits out (zlen m + extra) ->
  exists out' w', download_object r s fe progress i (w, out) = (Ret tt, (w', out')) /\
    wstore w' = wstore w /\ ovalid out' /\ written out' = written out ++ m /\ fits out' extra.
Proof.
  intros Hz (iv & obj & Hiv & Hid & Hob & Hlen & Hm & Hoff & Hpl & Hend & Hpart) Hd Ho He Hf.
  destruct (download_fetched i id obj out w Hid Hz Hd Hob ltac:(lia)) as (j & w1 & V & C & Wh & R & D1 & ->).
  destruct (open_downloaded_part j (w1, out) V R) as (I & HI & HS & q & Vq & Rq & Cq & Wq & ->);
    [congruence|done|intros Hp; specialize (Hend Hp); lia|].
  rewrite Hcomp, Wh, Hpart in *.
  destruct (open_object_into r c iv m extra q out Vq Rq Cq Wq Hiv) as (i' & o' & E & R'); try done.
  exists o', w1. split; [|done]. by io_step (on_snd_eq _ w1 _ _ _ E).
Qed.

Lemma download_objects_spec (l : list (bytes * bytes)) : forall i (out : Out) (w : world D) rest extra,
  0 <= objectIdIndex fe + i -> zdrop (objectIdIndex fe + i) (mObjectIDs s) = l.*1 ++ rest ->
  Forall (fun p => holds w c (offset fe) (packLength fe) p.1 p.2) l -> dvalid (wstore w) ->
  ovalid out -> 0 <= extra -> fits out (zlen (concat l.*2) + extra) ->
  exists out' w', download_objects (length l) r s fe progress i (w, out) = (Ret tt, (w', out')) /\
    wstore w' = wstore w /\ ovalid out' /\ written out' = written out ++ concat l.*2 /\ fits out' extra.
Proof.
  induction l as [|[id m] l IH]; intros i out w rest extra Hi Hids Hl Hd Ho He Hf; cbn [length download_objects].
  { exists out, w. rewrite app_nil_r. done. }
  cbn [fmap list_fmap fst snd app] in Hids. cbn [fmap list_fmap snd concat] in *. rewrite zlen_app, <-Z.add_assoc in Hf.
  apply Forall_cons in Hl as [Hh Hl]. cbn [fst snd] in *. destruct (zdrop_cons _ _ _ _ Hi Hids) as [Hz Hids'].
  pose proof (zlen_nonneg (concat l.*2)).
  assert (0 <= zlen (concat l.*2) + extra) as He' by lia.
  destruct (download_object_spec i id m out w _ Hz Hh Hd Ho He' Hf) as (o1 & w1 & E1 & D1 & Vo & Wo & Fo).
  io_step E1. destruct (IH (i + 1) o1 w1 rest extra) as (o2 & w2 & E6 & D6 & V6 & W6 & F6); try done.
  - lia.
  - by rewrite Z.add_assoc.
  - eapply Forall_impl; [exact Hl|]. intros [id' m']. unfold holds. cbn [fst snd]. by rewrite D1.
  - by rewrite D1.
  - exists o2, w2. split; [exact E6|]. split; [congruence|]. split; [done|].
    split; [|done]. by rewrite W6, Wo, <-app_assoc.
Qed.

Lemma download_into_spec (l : list (bytes * bytes)) path (out : Out) (w : world D) extra :
  getFileEntry s path = Some fe -> snapshot_ok s -> l <> [] ->
  objectCount fe = zlen l -> ztake (zlen l) (zdrop (objectIdIndex fe) (mObjectIDs s)) = l.*1 ->
  Forall (fun p => holds w c (offset fe) (packLength fe) p.1 p.2) l -> dvalid (wstore w) ->
  ovalid out -> 0 <= extra -> fits out (zlen (concat l.*2) + extra) ->
  exists out' w', download_into r s path progress (w, out) = (Ret true, (w', out')) /\
    wstore w' = wstore w /\ ovalid out' /\ written out' = written out ++ concat l.*2 /\ fits out' extra.
Proof.
  intros Hg Hok Hne Hc Hids Hl Hd Ho He Hf. unfold download_into. rewrite Hg.
  assert (entry_ok s fe) as Hfe.
  { pose proof (ok_entries s Hok) as F. rewrite Forall_forall in F. apply (F (path, fe)).
    by apply find_In; [apply Hok|]. }
  pose proof (ok_ids s fe Hfe) as [Hi Hj]. pose proof (ok_nobjects s Hok) as Hn.
  assert (1 <= zlen l) as Hl1 by (destruct l; [done|rewrite zlen_cons; pose proof (zlen_nonneg l); lia]).
  unfold indexToObjectID. rewrite swrap_small by lia.
  destruct (Z.ltb_spec (objectIdIndex fe) 0); [lia|]. destruct (Z.leb_spec (zlen (mObjectIDs s)) (objectIdIndex fe)); [lia|].
  cbn [orb]. destruct (znth_Some (objectIdIndex fe) (mObjectIDs s)) as [x ->]; [lia|].
  cbn [or_undef]. rewrite io_bind_lift, Hc, to_nat_zlen.
  destruct (download_objects_spec l 0 out w (zdrop (zlen l) (zdrop (objectIdIndex fe) (mObjectIDs s))) extra)
    as (o' & w' & E & R); try done; [lia|by rewrite Z.add_0_r, <-Hids, ztake_zdrop|].
  io_step E. by exists o', w'.
Qed.

Lemma downloadFile_spec (l : list (bytes * bytes)) path (out : Out) (w : world D) extra :
  getFileEntry s path = Some fe -> snapshot_ok s -> l <> [] ->
  objectCount fe = zlen l -> ztake (zlen l) (zdrop (objectIdIndex fe) (mObjectIDs s)) = l.*1 ->
  Forall (fun p => holds w c (offset fe) (packLength fe) p.1 p.2) l -> dvalid (wstore w) ->
  ovalid out -> 0 <= extra -> fits out (zlen (concat l.*2) + extra) ->
  exists out' w', downloadFile r s path out progress w = (Ret (true, out'), w') /\
    wstore w' = wstore w /\ ovalid out' /\ written out' = written out ++ concat l.*2 /\ fits out' extra.
Proof.
  intros. destruct (download_into_spec l path out w extra) as (o' & w' & E & R); try done.
  exists o', w'. unfold downloadFile. by rewrite E.
Qed.
End Download.

(** ** Restoring files *)

(** The contents of a path can be put together from the store, and its entry has
    their digest. *)
Definition restorable (w : world D) (s : Snapshot) (path data : bytes) : Prop :=
  exists fe c l, getFileEntry s path = Some fe /\ compression_of (compression fe) = Some c /\ l <> [] /\
    objectCount fe = zlen l /\ ztake (zlen l) (zdrop (objectIdIndex fe) (mObjectIDs s)) = l.*1 /\
    Forall (fun p => holds w c (offset fe) (packLength fe) p.1 p.2) l /\ concat l.*2 = data /\ fmd5 fe = md5 data.

(** The objects with data are kept. *)
Definition data_kept (w w' : world D) : Prop :=
  forall id obj, zlen id = SHA256_DIGEST_LENGTH -> objects (wstore w) (object_file id) = Some obj ->
    objects (wstore w') (object_file id) = Some obj.

Lemma grows_data_kept w w' : grows w w' -> data_kept w w'.
Proof. intros Hg id obj Hid. apply Hg. by apply object_file_path. Qed.

Lemma same_data_kept w w' : wstore w' = wstore w -> data_kept w w'.
Proof. by intros E id obj _; rewrite E. Qed.

Lemma holds_kept w w' c off len id m : data_kept w w' -> holds w c off len id m -> holds w' c off len id m.
Proof.
  intros Hk (iv & obj & Hiv & Hid & Hob & R). exists iv, obj. split; [done|]. split; [done|]. split; [by apply Hk|done].
Qed.

Lemma stored_kept w w' c b : data_kept w w' -> stored w c b -> stored w' c b.
Proof. intros Hk (iv & Hiv & Ho). exists iv. split; [done|]. apply Hk; [apply block_id_length|done]. Qed.

(** A path keeps its contents when its entry, the identifiers and the data are kept. *)
Lemma restorable_kept w w' s s' path data : data_kept w w' -> getFileEntry s' path = getFileEntry s path ->
  (exists k, mObjectIDs s' = mObjectIDs s ++ k) -> snapshot_ok s ->
  restorable w s path data -> restorable w' s' path data.
Proof.
  intros Hk Hg [k Hids] Hok (fe & c & l & Hfe & Hc & Hl & Hn & Hi & Hh & Hcat & Hmd). exists fe, c, l.
  rewrite Hg. split_and!; try done.
  - assert (entry_ok s fe) as Hfeok.
    { pose proof (ok_entries s Hok) as F. rewrite Forall_forall in F. apply (F (path, fe)).
      by apply find_In; [apply Hok|]. }
    destruct (ok_ids _ _ Hfeok) as [Hi0 Hi1].
    rewrite Hids, zdrop_app, ztake_app, Hi by (try lia; apply zlen_nonneg).
    rewrite (ztake_nonpos (zlen l - _)) by (rewrite zlen_zdrop by lia; lia). by rewrite app_nil_r.
  - eapply Forall_impl; [exact Hh|]. intros p. by apply holds_kept.
Qed.

(** What is restorable can be downloaded. *)
Lemma restorable_download_into {Out} `{OutputStreamSpec Out} (w : world D) s path data progress (out : Out) :
  (forall a b x y, progress a b x y = true) -> snapshot_ok s -> dvalid (wstore w) -> restorable w s path data ->
  ovalid out -> fits out (zlen data) ->
  exists out' w', download_into r s path progress (w, out) = (Ret true, (w', out')) /\
    wstore w' = wstore w /\ written out' = written out ++ data /\ ovalid out'.
Proof.
  intros Hpf Hok Hd (fe & c & l & Hfe & Hc & Hl & Hn & Hi & Hh & Hcat & _) Ho Hf.
  destruct (download_into_spec s fe c progress Hpf Hc l path out w 0) as (o' & w' & E & D' & V & W & _); try done.
  { by rewrite Hcat, Z.add_0_r. }
  exists o', w'. by rewrite W, Hcat.
Qed.

Lemma restorable_download {Out} `{OutputStreamSpec Out} (w : world D) s path data progress (out : Out) :
  (forall a b x y, progress a b x y = true) -> snapshot_ok s -> dvalid (wstore w) -> restorable w s path data ->
  ovalid out -> fits out (zlen data) ->
  exists out' w', downloadFile r s path out progress w = (Ret (true, out'), w') /\
    wstore w' = wstore w /\ written out' = written out ++ data.
Proof.
  intros Hpf Hok Hd Hr Ho Hf.
  destruct (restorable_download_into w s path data progress out Hpf Hok Hd Hr Ho Hf) as (o' & w' & E & D' & W & _).
  exists o', w'. unfold downloadFile. by rewrite E.
Qed.
End Files.
