(* ===== verification/FileTransfer.v ===== *)
(** * What is uploaded can be downloaded

    [uploadFile] cuts a file, stores its blocks and adds an entry to the
    snapshot; [downloadFile] follows the entry and gives the file back. *)
From S2P Require Import Prelude Base32 Crypto RollingHash Streams MemoryStreams FileStreams CompositeStreams.
From S2P Require Import CryptoStreams Lzma StreamUtils StdMap Filesystem Snapshot DataStore FileDataStore.
From S2P Require Import Repository RepositoryKeys Upload Chunks RepositoryFiles.
From Stdlib Require Import ZArith Lia.

(** The options that the code can work with. *)
Record options_ok (o : Options) : Prop := {
  oo_small : 0 < smallFileSize o < 2 ^ 31;
  oo_split : 0 < blockSplitCount o <= smallFileSize o;
  oo_bits : 0 <= minRollingHashBits o /\ minRollingHashBits o <= maxRollingHashBits o < 30;
  oo_max : 0 <= maxBlockSize o
}.

Lemma default_options_ok : options_ok default_Options.
Proof. split; cbn; lia. Qed.

(** How a file is cut: the number of bits of the mask, and the blocks. *)
Definition cut_file `{Env} (o : Options) (rh : RollingHash) (data : bytes) : Z * list bytes :=
  if zlen data <? smallFileSize o then (0, [data])
  else match rolling_bits o (zlen data) with
       | Ret bits => (bits, file_blocks o (2 ^ bits - 1) (min_block_size (zlen data)) rh data)
       | _ => (0, [])
       end.

Lemma cut_file_spec `{Env} o rh data : options_ok o -> wf rh -> zlen data < 2 ^ 46 ->
  concat (cut_file o rh data).2 = data /\ 1 <= zlen (cut_file o rh data).2 <= 65535 /\
  0 <= (cut_file o rh data).1 < 30.
Proof.
  intros [Hs Hp [Hb0 Hb1] Hm] Hrh Hlen. pose proof (zlen_nonneg data). unfold cut_file.
  destruct (Z.ltb_spec (zlen data) (smallFileSize o)) as [Hl|Hl].
  { cbn [fst snd concat]. rewrite app_nil_r. split; [done|]. cbn. lia. }
  destruct (rolling_bits_spec o (zlen data)) as (bits & -> & Hbits); [lia|lia|lia|]. cbn [fst snd].
  destruct (min_block_size_spec (zlen data)) as [Hmin Hcount]; [lia|].
  assert (concat (file_blocks o (2 ^ bits - 1) (min_block_size (zlen data)) rh data) = data) as Hc
    by (by apply file_blocks_concat).
  split; [exact Hc|]. split; [|lia]. split.
  - destruct (file_blocks _ _ _ _ _) as [|b l] eqn:E; [|rewrite zlen_cons; pose proof (zlen_nonneg l); lia].
    rewrite <-Hc in Hl. cbn in Hl. lia.
  - apply file_blocks_count; [done|lia|lia].
Qed.

Section Transfer.
Context `{EVPSpec} `{LZMASpec} `{Paths} `{EnvSpec} {D} `{DataStoreSpec D}.
Context (r : Repository).
Context (progress : FileTransferProgressFunction) (Hpf : forall a b x y, progress a b x y = true).
Context (Ho : options_ok (mOptions r)).

Lemma upload_large_spec {In} `{InputStreamSpec In} c B rh md (file : In) (w : world D) :
  valid file -> smallFileSize (mOptions r) <= zlen (contents file) < 2 ^ 46 -> wf rh ->
  dvalid (wstore w) -> can_store r w c B -> no_clash r c B -> small_payloads c B ->
  Forall (.∈ B) (cut_file (mOptions r) rh (contents file)).2 ->
  exists u w', upload_large r c progress (zlen (contents file)) rh md file w =
      (Ret ((cut_file (mOptions r) rh (contents file)).1, u), w') /\
    uploaded r c B (cut_file (mOptions r) rh (contents file)).2
      {| u_hash := rh; u_buffer := []; u_ids := []; u_md5 := md; u_count := 0 |} u w w'.
Proof.
  intros Hv Hlen Hrh Hd Hcan Hnc Hsm. pose proof Ho as [Hs Hp [Hb0 Hb1] Hm].
  unfold cut_file, upload_large. destruct (Z.ltb_spec (zlen (contents file)) (smallFileSize (mOptions r))); [lia|].
  destruct (rolling_bits_spec (mOptions r) (zlen (contents file))) as (bits & -> & Hbits); [lia|lia|lia|].
  rewrite io_bind_lift. cbn [fst snd]. unfold shift1.
  destruct (Z.leb_spec 0 bits), (Z.ltb_spec bits 31), (Z.leb_spec 0 (1 + bits)), (Z.ltb_spec (1 + bits) 31); try lia.
  cbn [andb]. rewrite !io_bind_lift, !Z.shiftl_1_l.
  assert (0 <= 2 ^ (1 + bits)) by (apply Z.pow_nonneg; lia).
  destruct (Z.ltb_spec (Z.min (2 ^ (1 + bits)) (maxBlockSize (mOptions r))) 0); [lia|].
  unfold file_blocks. set (u0 := {| u_hash := rh |}).
  destruct (blocks_of (mOptions r) (2 ^ bits - 1) (min_block_size (zlen (contents file))) rh [] (contents file))
    as [bs rest] eqn:Eb. intros HB.
  assert (valid (new_BufferedInputStream file)) as Hvb by exact Hv.
  assert (contents (new_BufferedInputStream file) = contents file) as Hcb by done.
  assert (Forall (.∈ B) bs /\ (zlen rest <> 0 -> rest ∈ B)) as [HB1 HB2].
  { destruct (Z.eqb_spec (zlen rest) 0); [done|]. apply Forall_app in HB as [? HB]. split; [done|].
    intros _. apply Forall_cons in HB as [HB _]. exact HB. }
  destruct (upload_loop_spec r c B progress Hnc Hsm Hpf (2 ^ bits - 1) (min_block_size (zlen (contents file)))
    (remaining file) u0 (new_BufferedInputStream file) w bs rest) as (u1 & w1 & E1 & R1 & U1); try done.
  { rewrite Hcb. by apply remaining_spec. }
  io_step E1. rewrite R1. destruct (Z.eqb_spec (zlen rest) 0) as [Hz|Hz].
  - exists u1, w1. done.
  - pose proof U1 as [_ _ Vd Cd _ _ _].
    destruct (upload_block_spec r c B progress Hnc Hsm Hpf (-1) u1 w1 Vd Cd) as (u2 & w2 & E2 & _ & _ & U2);
      [rewrite R1; by apply HB2|].
    rewrite (io_bind_Ret _ _ _ _ _ E2). exists u2, w2. split; [done|].
    rewrite R1 in U2. by apply (uploaded_trans r c B bs [rest] u0 u1 u2 w w1 w2).
Qed.

(** ** Uploading a file *)

(** The rolling hash that [uploadFile] starts with. *)
Definition first_hash (rh : RollingHash) : Prop := new_RollingHash (mRollKey r) 8192 = Ret rh.

Definition file_info (fs : FileStream) (st : stat) : FileInfo := new_FileInfo (mPath fs) (Some st).

(** How the file is compressed. *)
Definition file_compression (fs : FileStream) (st : stat) : CompressionType :=
  compression_for (mExtension (file_info fs st)).

(** The file exists and has the bytes [data], its size is that of [stat], the
    snapshot has no such entry and has room for it, and the blocks [bs] can be
    stored and are not larger than what can be opened. *)
Record can_upload (w : world D) (s : Snapshot) (destPath : bytes) (fs : FileStream) (st : stat)
    (data : bytes) (bits : Z) (bs : list bytes) : Prop := {
  cu_valid : valid fs;
  cu_contents : contents fs = data;
  cu_size : st_size st = zlen data;
  cu_exists : type_of_mode (st_mode st) <> FileNotFound;
  cu_length : zlen data < 2 ^ 46;
  cu_dvalid : dvalid (wstore w);
  cu_can : can_store r w (file_compression fs st) bs;
  cu_clash : no_clash r (file_compression fs st) bs;
  cu_payloads : small_payloads (file_compression fs st) bs;
  cu_bound : Forall (fun b => zlen b <= Z.of_nat decompress_bound) bs;
  cu_snapshot : snapshot_ok s;
  cu_new : getFileEntry s (relative_normal destPath) = None;
  cu_args : add_args s (relative_normal destPath) (mUserName (file_info fs st)) (mGroupName (file_info fs st))
    (uwrap 16 (mMode (file_info fs st))) (zlen data) (mLastModifyTime (file_info fs st)) bits (md5 data) 0 0
    (block_id r (file_compression fs st) <$> bs)
}.

(** The entry of an uploaded file. *)
Record file_entry (w : world D) (s : Snapshot) (c : CompressionType) (data : bytes) (bs : list bytes)
    (fe : FileEntry) : Prop := {
  fe_size : fsize fe = zlen data;
  fe_md5 : fmd5 fe = md5 data;
  fe_compression : compression fe = compression_code c;
  fe_offset : offset fe = 0;
  fe_pack : packLength fe = 0;
  fe_count : objectCount fe = zlen bs;
  fe_ids : ztake (zlen bs) (zdrop (objectIdIndex fe) (mObjectIDs s)) = block_id r c <$> bs;
  fe_stored : Forall (stored r w c) bs
}.

Lemma md5_prefix m : ztake MD5_DIGEST_LENGTH (md5 m) = md5 m.
Proof. apply ztake_ge. by rewrite md5_length. Qed.

(** The other entries and all objects are kept, and so is [keyed]. *)
Definition same_others (s s' : Snapshot) (path : bytes) : Prop :=
  (forall path', path' <> path -> getFileEntry s' path' = getFileEntry s path') /\
  (exists k, mObjectIDs s' = mObjectIDs s ++ k) /\ (keyed s -> splits path -> keyed s').

(** The room that the strings of an entry take at most. *)
Definition file_room (fs : FileStream) (st : stat) (destPath : bytes) : Z :=
  zlen (filename (relative_normal destPath)) + zlen (parent_path (relative_normal destPath)) +
  zlen (mUserName (file_info fs st)) + zlen (mGroupName (file_info fs st)) + 16.

(** The end of [uploadFile]: the entry is added. *)
Lemma add_entry (w w' : world D) s destPath fs st data bits bs :
  can_upload w s destPath fs st data bits bs -> zlen bs <= 65535 ->
  Forall (stored r w' (file_compression fs st)) bs ->
  exists s' fe, addFileEntry s (relative_normal destPath) (mUserName (file_info fs st)) (mGroupName (file_info fs st))
      (mType (file_info fs st)) (uwrap 16 (mMode (file_info fs st))) (file_compression fs st) (zlen data)
      (mLastModifyTime (file_info fs st)) bits (md5 data) 0 0 (block_id r (file_compression fs st) <$> bs) = Ret s' /\
    snapshot_ok s' /\ getFileEntry s' (relative_normal destPath) = Some fe /\
    file_entry w' s' (file_compression fs st) data bs fe /\ same_others s s' (relative_normal destPath) /\
    grown s s' (file_room fs st destPath) (zlen bs) 1.
Proof.
  intros [] Hn Hst.
  destruct (addFileEntry_spec s _ _ _ (mType (file_info fs st)) _ (file_compression fs st) _ _ _ _ _ _ _
    cu_snapshot0 cu_args0) as (s' & fe & E & Hok & Hf & Hbuf & Hobj & Hdes & Hsz & Hmd & Hc & Hoff & Hpl & _ & _ & _ & _ & Hroom).
  { by rewrite zlen_fmap. }
  exists s', fe. split; [exact E|]. split; [exact Hok|]. split.
  - unfold getFileEntry in *. rewrite Hf, find_insert_new, decide_True by (done || apply cu_snapshot0).
    by rewrite cu_new0.
  - pose proof (d_count _ _ _ _ _ _ _ Hdes) as Hcount. pose proof (d_ids _ _ _ _ _ _ _ Hdes) as Hids.
    rewrite zlen_fmap in Hcount, Hids. rewrite md5_prefix in Hmd. split; [by constructor|].
    split; [split; [|split]|].
    + intros path' Hne. unfold getFileEntry. rewrite Hf, find_insert_new, decide_False by (done || apply cu_snapshot0).
      done.
    + by eexists.
    + intros Hk Hsp. exact (keyed_insert _ _ _ _ _ _ _ cu_snapshot0 Hok Hk Hsp Hbuf Hf Hdes).
    + constructor; [unfold file_room; lia|by rewrite Hobj, zlen_app, zlen_fmap|rewrite Hf; apply zlen_insert_new].
Qed.

(** A file that is not collected in a pack. *)
Lemma uploadFile_spec (w : world D) s destPath fs st data rh bits bs pack :
  first_hash rh -> cut_file (mOptions r) rh data = (bits, bs) ->
  can_upload w s destPath fs st data bits bs -> pack = None \/ smallFileSize (mOptions r) <= zlen data ->
  exists s' w' fe, uploadFile r pack s destPath fs (Some st) progress w = (Ret (s', pack), w') /\
    snapshot_ok s' /\ dvalid (wstore w') /\ grows w w' /\
    only_blocks r (file_compression fs st) bs w w' /\
    getFileEntry s' (relative_normal destPath) = Some fe /\
    file_entry w' s' (file_compression fs st) data bs fe /\ same_others s s' (relative_normal destPath) /\
    grown s s' (file_room fs st destPath) (zlen bs) 1.
Proof.
  intros Hrh Hcut Hcu Hpack. pose proof Hcu as [Hv Hc Hsz Hex Hlen Hd Hcan Hnc Hsm _ _ _ _].
  unfold first_hash in Hrh. destruct (new_RollingHash_wf (mRollKey r) 8192) as (rh' & Hrh' & Hwf & _); [lia|].
  rewrite Hrh in Hrh'. injection Hrh' as <-.
  pose proof (cut_file_spec (mOptions r) rh data Ho Hwf Hlen) as (_ & Hn & Hbits).
  pose proof Ho as [Hs _ _ _]. pose proof (zlen_nonneg data).
  unfold uploadFile. rewrite Hrh, io_bind_lift. fold (file_info fs st).
  assert (exists_ (file_info fs st) = true) as ->.
  { unfold exists_. cbn [file_info new_FileInfo mType]. by rewrite bool_decide_eq_false_2. }
  cbn [negb]. destruct md5_init as (md & -> & Hmd). cbn [or_throw]. rewrite io_bind_lift.
  assert (mLength (file_info fs st) = zlen data) as ->.
  { cbn [file_info new_FileInfo mLength]. rewrite Hsz, uwrap_small; lia. }
  rewrite uwrap_small by lia. fold (file_compression fs st).
  destruct (Z.ltb_spec (zlen data) (smallFileSize (mOptions r))) as [Hl|Hl].
  - destruct Hpack as [->|?]; [|lia]. unfold cut_file in Hcut. apply Z.ltb_lt in Hl. rewrite Hl in Hcut. injection Hcut as <- <-.
    destruct (readExpected_spec fs (zlen data) Hv) as (fs' & E1 & _); [lia|by rewrite Hc|].
    rewrite Hc, ztake_ge in E1 by lia. io_lift E1.
    destruct (md5_update md data) as (md' & -> & Hmd'). cbn [or_throw].
    rewrite io_bind_lift, computeBlockHMAC_spec, io_bind_lift.
    destruct (upload_one r (file_compression fs st) data [data] (progress 0 1) w Hd) as (w' & E2 & Hd' & _ & Hg & Hst & Hon);
      try done; [by apply list_elem_of_singleton|].
    io_step E2. rewrite md5_final. cbn [or_throw]. rewrite io_bind_lift, <-Hmd', app_nil_r, Hmd.
    destruct (add_entry w w' s destPath fs st data 0 [data] Hcu) as (s' & fe & E3 & R1 & R2 & R3 & R4 & R5);
      [done|by apply Forall_singleton|].
    cbn [fmap list_fmap] in E3. io_lift E3. exists s', w', fe. done.
  - rewrite <-Hc in *.
    destruct (upload_large_spec (file_compression fs st) bs rh md fs w Hv) as (u & w' & E1 & U); try done.
    { rewrite Hcut. cbn [snd]. apply Forall_forall. done. }
    rewrite Hcut in E1, U. cbn [fst snd] in E1, U. io_step E1. destruct U as [I M Vd _ G S On].
    cbn [u_ids u_md5 app] in I, M. rewrite md5_final. cbn [or_throw]. rewrite io_bind_lift.
    pose proof (cut_file_spec (mOptions r) rh (contents fs) Ho Hwf Hlen) as (Hcat & _).
    rewrite Hcut in Hcat, Hn, Hbits. cbn [fst snd] in Hcat, Hn, Hbits.
    rewrite <-M, app_nil_r, Hcat, Hmd, I, (uwrap_small 8) by lia.
    destruct (add_entry w w' s destPath fs st (contents fs) bits bs Hcu) as (s' & fe & E3 & R1 & R2 & R3 & R4 & R5); [lia|done|].
    io_lift E3. exists s', w', fe. done.
Qed.

(** An uploaded file is restorable. *)
Lemma file_entry_restorable (w : world D) s c data bs fe path : getFileEntry s path = Some fe ->
  file_entry w s c data bs fe -> small_payloads c bs -> Forall (fun b => zlen b <= Z.of_nat decompress_bound) bs ->
  bs <> [] -> concat bs = data -> restorable r w s path data.
Proof.
  intros Hg [_ Fm Fc Fo Fp Fn Fi Fst] Hsm Hbd Hne Hcat. set (l := (fun b => (block_id r c b, b)) <$> bs).
  assert (l.*1 = block_id r c <$> bs) as L1 by (unfold l; by rewrite <-list_fmap_compose).
  assert (l.*2 = bs) as L2 by (unfold l; rewrite <-list_fmap_compose; apply list_fmap_id).
  assert (zlen l = zlen bs) as L by apply zlen_fmap.
  exists fe, c, l. rewrite L, L1, L2, Fc, Fo, Fp. split_and!; try done; [by destruct c|by destruct bs|].
  apply Forall_fmap, Forall_forall. intros b Hb. cbn [compose fst snd]. unfold small_payloads in Hsm.
  rewrite Forall_forall in Fst, Hsm, Hbd. by apply stored_holds; [apply Fst|apply Hsm|apply Hbd].
Qed.

(** The blocks of a file that is cut. *)
Lemma cut_file_blocks data rh bits bs : first_hash rh -> cut_file (mOptions r) rh data = (bits, bs) ->
  zlen data < 2 ^ 46 -> concat bs = data /\ bs <> [].
Proof.
  intros Hrh Hcut Hlen. destruct (new_RollingHash_wf (mRollKey r) 8192) as (rh' & Hrh' & Hwf & _); [lia|].
  unfold first_hash in Hrh. rewrite Hrh in Hrh'. injection Hrh' as <-.
  destruct (cut_file_spec (mOptions r) rh data Ho Hwf Hlen) as (Hcat & Hn & _). rewrite Hcut in Hcat, Hn.
  cbn [snd] in Hcat, Hn. split; [done|]. intros ->. cbn in Hn. lia.
Qed.
End Transfer.

(** * Properties *)

(** C7: a file that is uploaded can be downloaded: [uploadFile] adds an entry
    with the size and the MD5 of the file and with one object for each of its
    blocks; it changes no object that was in the store and adds only the blocks;
    and from any later state of the store that still has these objects,
    [downloadFile] writes exactly the bytes of the file and changes nothing.
    This covers both the small files and those that are cut into blocks. *)
Theorem transfer_roundtrip `{EVPSpec} `{LZMASpec} `{Paths} `{EnvSpec} {D} `{DataStoreSpec D} {Out} `{OutputStreamSpec Out}
    r progress (w : world D) s destPath fs st data rh bits bs (out : Out)
    (Hpf : forall a b x y, progress a b x y = true) (Ho : options_ok (mOptions r)) (Hrh : first_hash r rh)
    (Hcut : cut_file (mOptions r) rh data = (bits, bs)) (Hcu : can_upload r w s destPath fs st data bits bs)
    (Hout : ovalid out) (Hfits : fits out (zlen data)) :
  exists s' w' fe, uploadFile r None s destPath fs (Some st) progress w = (Ret (s', None), w') /\
    snapshot_ok s' /\ dvalid (wstore w') /\ grows w w' /\ only_blocks r (file_compression fs st) bs w w' /\
    getFileEntry s' (relative_normal destPath) = Some fe /\
    fsize fe = zlen data /\ fmd5 fe = md5 data /\ objectCount fe = zlen bs /\
    forall w2, grows w' w2 -> dvalid (wstore w2) ->
      exists out' w3, downloadFile r s' (relative_normal destPath) out progress w2 = (Ret (true, out'), w3) /\
        wstore w3 = wstore w2 /\ written out' = written out ++ data.
Proof.
  destruct (uploadFile_spec r progress Hpf Ho w s destPath fs st data rh bits bs None Hrh Hcut Hcu (or_introl eq_refl))
    as (s' & w' & fe & E & Hok & Hd & Hg & Hon & Hfe & Fe & _). exists s', w', fe.
  pose proof Fe as [Fs Fm _ _ _ Fn _ _]. do 9 (split; [done|]). intros w2 Hg2 Hd2.
  pose proof Hcu as [_ _ _ _ Hlen _ _ _ Hsm Hbd _ _ _].
  destruct (cut_file_blocks r Ho data rh bits bs Hrh Hcut Hlen) as [Hcat Hne].
  eapply restorable_download; try done. eapply restorable_kept; [apply grows_data_kept, Hg2|done| |done|].
  - exists []. by rewrite app_nil_r.
  - by eapply file_entry_restorable.
Qed.

(** C16: the branch of [uploadFile] for large files cuts the file into blocks,
    stores each of them under its identifier, and records the identifiers in
    order.  The concatenation of the blocks is the file, and the MD5 took its
    bytes; every block but the last has at least 4096 bytes, and the number that
    makes 65535 blocks enough; none exceeds the larger of this and [maxBlockSize];
    a file of less than 2^46 bytes has at most 65535 blocks, so that
    [objectCount] holds their number; and the bits of the mask are between the
    bounds of the options. *)
Theorem blocks_correct `{EVPSpec} `{LZMASpec} `{Paths} `{EnvSpec} {D} `{DataStoreSpec D} {In} `{InputStreamSpec In}
    r c progress rh md (file : In) (w : world D) (Hpf : forall a b x y, progress a b x y = true)
    (Ho : options_ok (mOptions r)) (Hv : valid file) (Hrh : wf rh) (Hd : dvalid (wstore w))
    (Hlen : smallFileSize (mOptions r) <= zlen (contents file) < 2 ^ 46)
    (Hcan : can_store r w c (cut_file (mOptions r) rh (contents file)).2)
    (Hnc : no_clash r c (cut_file (mOptions r) rh (contents file)).2)
    (Hsm : small_payloads c (cut_file (mOptions r) rh (contents file)).2) :
  let minBlock := min_block_size (zlen (contents file)) in
  exists bits l u w', upload_large r c progress (zlen (contents file)) rh md file w = (Ret (bits, u), w') /\
    concat l = contents file /\ md5_rest (u_md5 u) [] = md5_rest md (contents file) /\
    u_ids u = block_id r c <$> l /\ Forall (stored r w' c) l /\ zlen l <= 65535 /\
    Forall (fun b => 0 < zlen b <= Z.max minBlock (maxBlockSize (mOptions r))) l /\
    (forall l' b, l = l' ++ [b] -> Forall (fun b => 4096 <= minBlock <= zlen b) l') /\
    minRollingHashBits (mOptions r) <= bits <= maxRollingHashBits (mOptions r).
Proof.
  intros minBlock. pose proof Ho as [Hs Hp [Hb0 Hb1] Hm].
  destruct (upload_large_spec r progress Hpf Ho c (cut_file (mOptions r) rh (contents file)).2 rh md file w)
    as (u & w' & E & [I M _ _ _ S _]); try done. { apply Forall_forall. done. }
  pose proof (cut_file_spec (mOptions r) rh (contents file) Ho Hrh (proj2 Hlen)) as (Hcat & _).
  exists (cut_file (mOptions r) rh (contents file)).1, (cut_file (mOptions r) rh (contents file)).2, u, w'.
  specialize (M []). rewrite !app_nil_r, Hcat in M. cbn [u_md5] in M.
  split; [exact E|]. split; [exact Hcat|]. split; [done|]. split; [exact I|]. split; [exact S|].
  unfold cut_file. destruct (Z.ltb_spec (zlen (contents file)) (smallFileSize (mOptions r))); [lia|].
  destruct (rolling_bits_spec (mOptions r) (zlen (contents file))) as (bits & -> & Hbits); [lia|lia|lia|].
  cbn [fst snd]. destruct (file_blocks_shape (mOptions r) (2 ^ bits - 1) rh (contents file) Hrh (proj2 Hlen)) as (R1 & R2 & R3).
  done.
Qed.

(** ** A concrete upload *)

Module Sample.
Definition options : Options := {|
  smallFileSize := 4; maxBlockSize := 50; minRollingHashBits := 2; maxRollingHashBits := 5; blockSplitCount := 2 |}.
Definition repo : Repository := new_Repository 0 (Some options).
Definition disk1 : disk := set_file empty_disk (str "/tmp/a.txt") (str "some text").
Definition file : FileStream :=
  {| mDisk := disk1; mFp := Some {| fName := str "/tmp/a.txt"; fPos := 0; fMode := FM_Read |};
     mPath := str "/tmp/a.txt" |}.
Definition info : stat := {|
  st_mode := 33188; st_uid := 0; st_gid := 0; st_size := 9; st_mtime := 7; pw_name := Some (str "u"); gr_name := None |}.
(** The keys are not set yet, and any rolling hash will do. *)
Definition hash0 : RollingHash :=
  match new_RollingHash (mRollKey repo) 8192 with
  | Ret h => h
  | _ => {| mWindowSize := 0; mIndex := 0; mWindow := []; mSubTable := []; mConstant := 0; mConstantPowWinSize := 0; mHash := 0 |}
  end.

Lemma options_ok1 : options_ok (mOptions repo).
Proof. constructor; cbn; lia. Qed.

Lemma first : first_hash repo hash0.
Proof.
  destruct (new_RollingHash_wf (mRollKey repo) 8192) as (h & E & _); [lia|].
  unfold first_hash, hash0. by rewrite E.
Qed.

Lemma cut : cut_file (mOptions repo) hash0 (str "some text") = (2, [str "some text"]).
Proof. vm_compute. reflexivity. Qed.

Lemma ready : can_upload repo Demo.start new_Snapshot (str "/a.txt") file info (str "some text") 2 [str "some text"].
Proof.
  constructor.
  - eexists. split; [reflexivity|]. split; [done|]. split; [cbn; lia|]. split; [done|].
    eexists. vm_compute. reflexivity.
  - vm_compute. reflexivity.
  - reflexivity.
  - discriminate.
  - vm_compute. reflexivity.
  - apply Demo.start_ok.
  - apply Forall_singleton. left. vm_compute. reflexivity.
  - by intros b1 b2 ->%list_elem_of_singleton ->%list_elem_of_singleton.
  - apply Forall_singleton. vm_compute. reflexivity.
  - apply Forall_singleton. vm_compute. discriminate.
  - apply new_Snapshot_ok.
  - reflexivity.
  - solve_args.
Qed.
End Sample.

Lemma blocks_correct_witness :
  exists bits l u w' md, upload_large Sample.repo LZMA2 DefaultFileTransferProgressFunction 9 Sample.hash0 md Sample.file
      Demo.start = (Ret (bits, u), w') /\
    concat l = str "some text" /\ u_ids u = block_id Sample.repo LZMA2 <$> l.
Proof.
  destruct (@new_RollingHash_wf Toy.evp Toy.spec (mRollKey Sample.repo) 8192 ltac:(lia)) as (h & E & Hh & _).
  assert (Sample.hash0 = h) as Eh by (unfold Sample.hash0; rewrite E; reflexivity).
  rewrite <-Eh in Hh. pose proof Sample.ready as [Hv Hc _ _ _ Hd Hcan Hnc Hsm _ _ _ _].
  pose proof Sample.cut as Hcut. destruct md5_init as (md & _ & _).
  destruct (blocks_correct Sample.repo LZMA2 DefaultFileTransferProgressFunction Sample.hash0 md Sample.file Demo.start
    (fun _ _ _ _ => eq_refl) Sample.options_ok1 Hv Hh Hd) as (bits & l & u & w' & E1 & Hl & _ & Hi & _).
  - rewrite Hc. vm_compute. split; [discriminate|reflexivity].
  - rewrite Hc, Hcut. exact Hcan.
  - rewrite Hc, Hcut. exact Hnc.
  - rewrite Hc, Hcut. exact Hsm.
  - rewrite Hc in *. exists bits, l, u, w', md. split; [exact E1|]. split; [exact Hl|exact Hi].
Defined.

Lemma transfer_roundtrip_witness :
  exists s' w' out' w3,
    uploadFile Sample.repo None new_Snapshot (str "/a.txt") Sample.file (Some Sample.info)
      DefaultFileTransferProgressFunction Demo.start = (Ret (s', None), w') /\
    downloadFile Sample.repo s' (str "a.txt") (new_MemoryOutputStream 9) DefaultFileTransferProgressFunction w'
      = (Ret (true, out'), w3) /\ written out' = str "some text".
Proof.
  assert (ovalid (new_MemoryOutputStream 9)) as Ho by (cbn; lia).
  assert (fits (new_MemoryOutputStream 9) (zlen (str "some text"))) as Hf by (vm_compute; discriminate).
  destruct (transfer_roundtrip Sample.repo DefaultFileTransferProgressFunction Demo.start new_Snapshot
    (str "/a.txt") Sample.file Sample.info (str "some text") Sample.hash0 2 [str "some text"]
    (new_MemoryOutputStream 9) (fun _ _ _ _ => eq_refl) Sample.options_ok1 Sample.first Sample.cut
    Sample.ready Ho Hf) as (s' & w' & fe & E & _ & Hd & _ & _ & _ & _ & _ & _ & R).
  destruct (R w' (grows_refl w') Hd) as (out' & w3 & E2 & _ & W).
  exists s', w', out', w3. split; [exact E|]. split; [exact E2|exact W].
Defined.
