(* ===== verification/Integrity.v ===== *)
(** * A damaged store is noticed

    Between a backup and its restoration anything may happen to the store: objects
    are lost, cut, or replaced by other bytes.  As long as nobody can make bytes
    with a valid HMAC, a download from such a store either gives exactly the
    contents that were uploaded or ends with an exception. *)
From S2P Require Import Prelude Base32 Crypto RollingHash Streams MemoryStreams FileStreams CompositeStreams.
From S2P Require Import CryptoStreams Lzma StreamUtils StdMap Filesystem Snapshot DataStore FileDataStore.
From S2P Require Import Repository RepositoryKeys Upload Chunks RepositoryFiles FileTransfer.
From Stdlib Require Import ZArith Lia.

Section Integrity.
Context `{EVPSpec} `{LZMASpec} `{Paths} `{EnvSpec} {D} `{DataStoreSpec D}.
Context (r : Repository).

(** Bytes with a valid HMAC in front. *)
Definition authentic (m : bytes) : Prop :=
  SHA256_DIGEST_LENGTH <= zlen m /\ m = sealed (mMacKey r) (zdrop SHA256_DIGEST_LENGTH m).

#[export] Instance authentic_dec m : Decision (authentic m).
Proof. apply _. Defined.

(** What became of the objects of [w] in the later store [w2], for an entry with
    this offset and length: one that is still there has the same bytes for the
    entry or bytes, as many as there are, that are not authentic. *)
Definition unforged (off len : Z) (w w2 : world D) : Prop :=
  forall id obj obj2, zlen id = SHA256_DIGEST_LENGTH ->
    objects (wstore w) (object_file id) = Some obj -> objects (wstore w2) (object_file id) = Some obj2 ->
    obj2 = obj \/ zlen obj2 < 2 ^ 63 /\
      (part off len obj2 = part off len obj \/ ~ authentic (part off len obj2)).

(** The object of an entry is missing, or is not authentic. *)
Definition damaged (off len : Z) (w2 : world D) (id : bytes) : Prop :=
  match objects (wstore w2) (object_file id) with
  | None => True
  | Some obj2 => zlen obj2 < 2 ^ 63 /\ ~ authentic (part off len obj2)
  end.

(** A part that is complete lies within the object. *)
Lemma part_within off len obj obj2 : 0 <= off -> (0 < len -> off + len <= zlen obj) ->
  part off len obj2 = part off len obj -> 0 < len -> off + len <= zlen obj2.
Proof.
  intros Ho Hend Heq Hl. specialize (Hend Hl). apply (f_equal zlen) in Heq. unfold part in Heq.
  destruct (Z.ltb_spec 0 len); [|lia]. pose proof (zlen_nonneg obj2).
  rewrite !zlen_ztake, !zlen_zdrop in Heq by lia. lia.
Qed.

Lemma holds_or_damaged w w2 c off len id m : unforged off len w w2 -> holds r w c off len id m ->
  holds r w2 c off len id m \/ damaged off len w2 id.
Proof.
  intros Hun (iv & obj & Hiv & Hid & Hob & Hlen & Hm & Hoff & Hpl & Hend & Hpart). unfold damaged.
  destruct (objects (wstore w2) (object_file id)) as [obj2|] eqn:Hob2; [|by right].
  destruct (Hun id obj obj2 Hid Hob Hob2) as [->|(Hlen2 & [Heq|Hbad])].
  - left. exists iv, obj. by do 8 (split; [done|]).
  - left. exists iv, obj2. pose proof (part_within off len obj obj2 Hoff Hend Heq). rewrite Heq. by do 8 (split; [done|]).
  - by right.
Qed.

(** What a download from a damaged store may end with. *)
Definition damage_exception (e : exn) : Prop :=
  e = FileNotFoundException \/ e = ShortReadException \/ e = VerificationFailedException.

Lemma decompress_damaged {In Out} `{InputStreamSpec In} `{OutputStream Out} c (i : In) (o : Out) :
  valid i -> canRewind i = true -> contents i = whole i -> ~ authentic (whole i) ->
  exists e, decompress_into decompress_bound c (mEncKey r) (mMacKey r) i o = (Throw e, o) /\ damage_exception e.
Proof.
  intros Hv Hr Hc Ha.
  destruct (decompress_checked decompress_bound c (mEncKey r) (mMacKey r) i o Hv Hr Hc) as (Hshort & Hbad & _).
  destruct (Z.lt_ge_cases (zlen (whole i)) SHA256_DIGEST_LENGTH).
  - exists ShortReadException. split; [by apply Hshort|by right; left].
  - exists VerificationFailedException. split; [|by right; right]. apply Hbad; [done|]. intros E. by apply Ha.
Qed.

Section Download.
Context {Out} `{OutputStreamSpec Out} (s : Snapshot) (fe : FileEntry) (c : CompressionType).
Context (progress : FileTransferProgressFunction) (Hpf : forall a b x y, progress a b x y = true).
Context (Hcomp : compression_of (compression fe) = Some c).

(** An object that is missing or damaged: nothing of it is written. *)
Lemma download_damaged id i (out : Out) (w2 : world D) : 0 <= offset fe -> zlen id = SHA256_DIGEST_LENGTH ->
  (0 < packLength fe -> offset fe + packLength fe < 2 ^ 63) ->
  znth (objectIdIndex fe + i) (mObjectIDs s) = Some id -> dvalid (wstore w2) ->
  damaged (offset fe) (packLength fe) w2 id ->
  exists e w3, download_object r s fe progress i (w2, out) = (Throw e, (w3, out)) /\ damage_exception e /\
    wstore w3 = wstore w2.
Proof.
  intros Hoff Hid Hend Hz Hd Hdam. unfold damaged in Hdam.
  destruct (objects (wstore w2) (object_file id)) as [obj2|] eqn:Hob2.
  2: { destruct (download_missing r s fe progress i id out w2 Hid Hz Hd Hob2) as (w3 & E & D3).
       exists FileNotFoundException, w3. split; [done|]. split; [by left|done]. }
  destruct Hdam as (Hlen2 & Hbad).
  destruct (download_fetched r s fe progress Hpf i id obj2 out w2 Hid Hz Hd Hob2 Hlen2) as (j & w3 & V & C & Wh & R & D3 & ->).
  destruct (open_downloaded_part r fe j (w3, out) V R) as (I & HI & HS & q & Vq & Rq & Cq & Wq & ->);
    [congruence|done|done|].
  rewrite Wh in Wq.
  destruct (decompress_damaged (compression_of (compression fe)) q out Vq Rq Cq) as (e & E & He); [by rewrite Wq|].
  exists e, w3. split; [|done]. by apply io_bind_Throw, on_snd_eq.
Qed.

(** A download writes the contents, or the contents of the first objects and ends
    with such an exception because the next object is damaged. *)
Definition sound_outcome (l : list (bytes * bytes)) (out : Out) (w2 : world D) (x : result unit * (world D * Out)) : Prop :=
  wstore x.2.1 = wstore w2 /\ ovalid x.2.2 /\
  match x.1 with
  | Ret _ => written x.2.2 = written out ++ concat l.*2
  | Throw e => damage_exception e /\ exists l1 id m l2, l = l1 ++ (id, m) :: l2 /\
      damaged (offset fe) (packLength fe) w2 id /\ written x.2.2 = written out ++ concat l1.*2
  | _ => False
  end.

Lemma download_objects_sound (l : list (bytes * bytes)) (w : world D) : forall i (out : Out) (w2 : world D) rest extra,
  unforged (offset fe) (packLength fe) w w2 ->
  0 <= objectIdIndex fe + i -> zdrop (objectIdIndex fe + i) (mObjectIDs s) = l.*1 ++ rest ->
  Forall (fun p => holds r w c (offset fe) (packLength fe) p.1 p.2) l -> dvalid (wstore w2) ->
  ovalid out -> 0 <= extra -> fits out (zlen (concat l.*2) + extra) ->
  sound_outcome l out w2 (download_objects (length l) r s fe progress i (w2, out)).
Proof.
  induction l as [|[id m] l IH]; intros i out w2 rest extra Hun Hi Hids Hl Hd Ho He Hf.
  { cbn [length download_objects]. do 2 (split; [done|]). cbn. by rewrite app_nil_r. }
  cbn [fmap list_fmap fst snd app concat] in Hids, Hf. apply Forall_cons in Hl as [Hh Hl]. cbn [fst snd] in Hh.
  rewrite zlen_app, <-Z.add_assoc in Hf. pose proof (zlen_nonneg (concat l.*2)).
  destruct (zdrop_cons _ _ _ _ Hi Hids) as [Hz Hids']. cbn [length download_objects].
  destruct (holds_or_damaged w w2 c _ _ id m Hun Hh) as [Hh2|Hdam].
  2: { destruct Hh as (_ & obj & _ & Hid & _ & Hlen & _ & Hoff & _ & Hend & _).
       assert (0 < packLength fe -> offset fe + packLength fe < 2 ^ 63) as Hend2 by (intros Hp; specialize (Hend Hp); lia).
       destruct (download_damaged id i out w2 Hoff Hid Hend2 Hz Hd Hdam) as (e & w3 & E & Hex & Hw).
       rewrite (io_bind_Throw _ _ _ _ _ E). do 2 (split; [done|]). split; [done|].
       exists [], id, m, l. split; [done|]. split; [done|]. cbn. by rewrite app_nil_r. }
  assert (0 <= zlen (concat l.*2) + extra) as He' by lia.
  destruct (download_object_spec r s fe c progress Hpf Hcomp i id m out w2 _ Hz Hh2 Hd Ho He' Hf)
    as (o1 & w3 & E1 & D1 & V1 & Wr1 & F1).
  io_step E1. destruct (IH (i + 1) o1 w3 rest extra) as (Hw & Hv & Hout); try done; [|lia|by rewrite Z.add_assoc|by rewrite D1|].
  { intros id' obj obj2. rewrite D1. apply Hun. }
  unfold sound_outcome. destruct (download_objects _ _ _ _ _ _ _) as [[[]|e| |] [w4 o4]]; cbn [fst snd] in *; try done;
    (split; [by rewrite Hw|]); (split; [done|]).
  - cbn [fmap list_fmap snd concat]. by rewrite Hout, Wr1, <-app_assoc.
  - destruct Hout as (He2 & l1 & id' & m' & l2 & -> & Hdam & Hwr). split; [done|]. exists ((id, m) :: l1), id', m', l2.
    split; [done|]. split; [unfold damaged in *; by rewrite D1 in Hdam|].
    cbn [fmap list_fmap snd concat]. by rewrite Hwr, Wr1, <-app_assoc.
Qed.
End Download.

(** *** The whole store *)

(** Every object of [w] that is still in [w2], the key file aside, is unchanged,
    or no part of it is authentic unless it is unchanged. *)
Definition forgery_free (w w2 : world D) : Prop :=
  forall q obj obj2, object_path q -> q <> str "/key" ->
    objects (wstore w) q = Some obj -> objects (wstore w2) q = Some obj2 ->
    obj2 = obj \/ zlen obj2 < 2 ^ 63 /\
      forall off len, part off len obj2 = part off len obj \/ ~ authentic (part off len obj2).

Lemma forgery_free_unforged w w2 off len : forgery_free w w2 -> unforged off len w w2.
Proof.
  intros Hff id obj obj2 Hid Hob Hob2. pose proof (object_file_path id Hid) as Hp.
  destruct (Hff (object_file id) obj obj2 Hp ltac:(discriminate) Hob Hob2) as [|[]]; auto.
Qed.

(** A snapshot that is missing or damaged is not loaded. *)
Lemma load_damaged name (w2 : world D) : dvalid (wstore w2) -> name <> [] -> slash_free name ->
  match objects (wstore w2) (str "/snapshot/" ++ name) with
  | None => True
  | Some obj2 => zlen obj2 < 2 ^ 63 /\ ~ authentic obj2
  end ->
  exists e w3, loadSnapshot r name DefaultProgressFunction w2 = (Throw e, w3) /\ damage_exception e /\
    wstore w3 = wstore w2.
Proof.
  intros Hd Hn Hs Hdam. pose proof (path_snapshot name Hn Hs) as Hp. unfold loadSnapshot.
  destruct (new_temp_spec w2) as (t & w3 & E1 & D1 & V1 & W1 & F1). io_step E1. rewrite <-D1 in Hd, Hdam.
  destruct (objects (wstore w3) _) as [obj2|] eqn:Hob.
  2: { pose proof (get_missing (wstore w3) _ t DefaultProgressFunction Hd Hp Hob) as E2.
       exists FileNotFoundException, w3. split; [|split; [by left|done]].
       apply io_bind_Throw. unfold on_store. rewrite E2. by destruct w3. }
  destruct Hdam as [Hlen Hbad].
  destruct (get_spec (wstore w3) _ t DefaultProgressFunction obj2 0 Hd Hp Hob V1)
    as (t1 & E2 & V2 & W2 & _); [done|apply F1; lia|done|].
  io_step (on_store_Ret _ _ _ _ E2).
  destruct (new_temp_spec (with_store w3 (wstore w3))) as (u & w4 & E4 & D4 & _). io_step E4.
  destruct (temp_input_spec t1 V2) as (j & E3 & V3 & C3 & Wh3 & R3 & _). io_lift E3.
  rewrite W2, W1 in C3, Wh3. cbn [app] in C3, Wh3.
  destruct (decompress_damaged (Some LZMA2) j u V3 R3) as (e & E5 & He); [congruence|by rewrite Wh3|].
  exists e, w4. split; [|split; [exact He|by rewrite D4]]. unfold decompressDecryptHMAC. by rewrite E5.
Qed.

(** Such an exchange is two writes to the store. *)
Lemma exchange_possible (w : world D) s c data other fe (iv : bytes) : dvalid (wstore w) -> file_entry r w s c data [data] fe ->
  block_id r c data <> block_id r c other -> zlen iv = EVP_MAX_IV_LENGTH ->
  exists w1 w2 : world D, file_entry r w1 s c data [data] fe /\ stored r w1 c other /\ dvalid (wstore w2) /\
    objects (wstore w2) (object_file (block_id r c data)) = objects (wstore w1) (object_file (block_id r c other)).
Proof.
  intros Hd [F1 F2 F3 F4 F5 F6 F7 F8] Hne Hiv. set (obj := object_bytes c (mEncKey r) (mMacKey r) iv other).
  pose proof (block_id_length r c data) as Hid. pose proof (block_id_length r c other) as Hid2.
  destruct (new_MemoryInputStream_valid obj) as (V & C & _).
  destruct (put_spec (wstore w) _ (new_MemoryInputStream obj) DefaultProgressFunction Hd (object_file_path _ Hid2) V
    (fun _ _ => eq_refl)) as (i1 & d1 & _ & Hd1 & Hob1). rewrite C in Hob1.
  destruct (put_spec d1 _ (new_MemoryInputStream obj) DefaultProgressFunction Hd1 (object_file_path _ Hid) V
    (fun _ _ => eq_refl)) as (i2 & d2 & _ & Hd2 & Hob2). rewrite C in Hob2.
  assert (objects d1 (object_file (block_id r c other)) = Some obj) as Ho1
    by (by rewrite Hob1, decide_True by (done || by apply object_file_path)).
  exists (Build_world d1 (wclock w)), (Build_world d2 (wclock w)). split_and!; [|by exists iv|done|].
  - constructor; try done. apply Forall_inv in F8 as (iv1 & Hiv1 & Hst). constructor; [|done]. exists iv1.
    split; [done|]. cbn [wstore]. rewrite Hob1 by (by apply object_file_path). rewrite decide_False; [done|].
    by intros Eq%object_file_inj.
  - cbn [wstore]. by rewrite Ho1, Hob2, decide_True by (done || by apply object_file_path).
Qed.
End Integrity.

(** What became of the file [path] of which the contents were [data]: it was
    written completely, or up to an object that is damaged. *)
Definition download_outcome `{EVPSpec} `{Env} {D} `{DataStoreSpec D} {Out} `{OutputStreamSpec Out} (r : Repository)
    (s : Snapshot) (path data : bytes) (w2 : world D) (out : Out) (x : result bool * (world D * Out)) : Prop :=
  wstore x.2.1 = wstore w2 /\ ovalid x.2.2 /\
  match x.1 with
  | Ret found => found = true /\ written x.2.2 = written out ++ data
  | Throw e => damage_exception e /\
      (exists some rest, data = some ++ rest /\ written x.2.2 = written out ++ some) /\
      exists fe id, getFileEntry s path = Some fe /\
        id ∈ ztake (objectCount fe) (zdrop (objectIdIndex fe) (mObjectIDs s)) /\
        damaged r (offset fe) (packLength fe) w2 id
  | _ => False
  end.

Lemma download_into_sound `{EVPSpec} `{LZMASpec} `{Paths} `{EnvSpec} {D} `{DataStoreSpec D} {Out} `{OutputStreamSpec Out}
    r progress (w w2 : world D) s path data (out : Out) :
  (forall a b x y, progress a b x y = true) -> snapshot_ok s -> restorable r w s path data -> dvalid (wstore w2) ->
  (forall fe, getFileEntry s path = Some fe -> unforged r (offset fe) (packLength fe) w w2) ->
  ovalid out -> fits out (zlen data) ->
  download_outcome r s path data w2 out (download_into r s path progress (w2, out)).
Proof.
  intros Hpf Hok (fe & c & l & Hfe & Hc & Hne & Hn & Hids & Hl & Hcat & _) Hd Hun Hout Hfits.
  unfold download_into. rewrite Hfe.
  assert (entry_ok s fe) as Hfeok.
  { pose proof (ok_entries s Hok) as F. rewrite Forall_forall in F. apply (F (path, fe)).
    by apply find_In; [apply Hok|]. }
  pose proof (ok_ids s fe Hfeok) as [Hi Hj]. pose proof (ok_nobjects s Hok) as Hno.
  assert (1 <= zlen l) as Hl1 by (destruct l; [done|rewrite zlen_cons; pose proof (zlen_nonneg l); lia]).
  destruct (znth_Some (objectIdIndex fe) (mObjectIDs s)) as [x Hx]; [lia|].
  assert (indexToObjectID s (objectIdIndex fe) = Ret x) as ->.
  { unfold indexToObjectID. rewrite swrap_small by lia.
    destruct (Z.ltb_spec (objectIdIndex fe) 0), (Z.leb_spec (zlen (mObjectIDs s)) (objectIdIndex fe)); try lia. by rewrite Hx. }
  rewrite io_bind_lift, Hn, to_nat_zlen.
  pose proof (download_objects_sound r s fe c progress Hpf Hc l w 0 out w2
    (zdrop (zlen l) (zdrop (objectIdIndex fe) (mObjectIDs s))) 0 (Hun fe Hfe)) as Hsound.
  destruct Hsound as (Hw & Hv & Hres); try done; [lia|by rewrite Z.add_0_r, <-Hids, ztake_zdrop|by rewrite Hcat, Z.add_0_r|].
  unfold mbind, io_bind, mret, io_ret, download_outcome.
  destruct (download_objects _ _ _ _ _ _ _) as [[[]|e| |] [w3 out3]]; cbn [fst snd] in *; try done.
  - do 2 (split; [done|]). split; [done|]. by rewrite Hres, Hcat.
  - destruct Hres as (He & l1 & id & m & l2 & -> & Hdam & Hwr). do 2 (split; [done|]). split; [done|]. split.
    + exists (concat l1.*2), (concat (((id, m) :: l2).*2)). split; [|done]. by rewrite <-Hcat, fmap_app, concat_app.
    + exists fe, id. split; [done|]. split; [|done]. rewrite Hn, Hids, fmap_app. cbn. set_solver.
Qed.

(** * Properties *)

(** C9: a damaged store is noticed: [downloadFile] of a file that was uploaded,
    from a store whose objects were since then lost, cut or overwritten in any way
    that made no authentic bytes in the place of its own, either writes exactly the
    contents of the file, or ends with FileNotFound, ShortRead or
    VerificationFailed because one of the objects of the file is missing or not
    authentic; then what it wrote is a beginning of the contents.  The store is not
    changed.  (The HMAC covers the bytes of an object, not its name: exchanging two
    authentic objects is outside of the hypothesis.) *)
Theorem download_sound `{EVPSpec} `{LZMASpec} `{Paths} `{EnvSpec} {D} `{DataStoreSpec D} {Out} `{OutputStreamSpec Out}
    r progress (w w2 : world D) s path data (out : Out)
    (Hpf : forall a b x y, progress a b x y = true) (Hok : snapshot_ok s) (Hr : restorable r w s path data)
    (Hd : dvalid (wstore w2)) (Hun : forall fe, getFileEntry s path = Some fe -> unforged r (offset fe) (packLength fe) w w2)
    (Hout : ovalid out) (Hfits : fits out (zlen data)) :
  let '(a, (w3, out')) := download_into r s path progress (w2, out) in
  wstore w3 = wstore w2 /\
  match a with
  | Ret found => found = true /\ written out' = written out ++ data
  | Throw e => damage_exception e /\ (exists some rest, data = some ++ rest /\ written out' = written out ++ some) /\
      exists fe id, getFileEntry s path = Some fe /\
        id ∈ ztake (objectCount fe) (zdrop (objectIdIndex fe) (mObjectIDs s)) /\
        damaged r (offset fe) (packLength fe) w2 id
  | _ => False
  end.
Proof.
  pose proof (download_into_sound r progress w w2 s path data out Hpf Hok Hr Hd Hun Hout Hfits) as (Hw & _ & Hres).
  by destruct (download_into _ _ _ _ _) as [a [w3 out']].
Qed.

(** C10: an exchange of authentic objects is not noticed: when the object of a
    file with one block was replaced by the object of another block of the
    repository with the same compression, [downloadFile] succeeds and writes the
    other block: the HMAC does not cover the name of an object, and the MD5 in the
    entry is not compared. *)
Theorem exchange_unnoticed `{EVPSpec} `{LZMASpec} `{Paths} `{EnvSpec} {D} `{DataStoreSpec D} {Out} `{OutputStreamSpec Out}
    r progress (w w2 : world D) s path fe c data other (out : Out)
    (Hpf : forall a b x y, progress a b x y = true) (Hok : snapshot_ok s) (Hfe : getFileEntry s path = Some fe)
    (Hentry : file_entry r w s c data [data] fe) (Hother : stored r w c other)
    (Hpay : zlen (payload c other) < 2 ^ 62) (Hbound : zlen other <= Z.of_nat decompress_bound)
    (Hd : dvalid (wstore w2))
    (Hswap : objects (wstore w2) (object_file (block_id r c data)) = objects (wstore w) (object_file (block_id r c other)))
    (Hout : ovalid out) (Hfits : fits out (zlen other)) :
  exists out' w3, downloadFile r s path out progress w2 = (Ret (true, out'), w3) /\
    written out' = written out ++ other /\ fmd5 fe = md5 data.
Proof.
  destruct Hentry as [_ Hmd Hc Hoff Hlen Hn Hids _]. destruct Hother as (iv & Hiv & Hob).
  assert (holds r w2 c (offset fe) (packLength fe) (block_id r c data) other) as Hh.
  { rewrite Hoff, Hlen. exists iv, (object_bytes c (mEncKey r) (mMacKey r) iv other). rewrite Hswap.
    split; [done|]. split; [apply block_id_length|]. split; [exact Hob|]. split; [by apply zlen_object_bytes|].
    by split_and!. }
  destruct (downloadFile_spec r s fe c progress Hpf ltac:(rewrite Hc; by destruct c) [(block_id r c data, other)] path out w2 0)
    as (out' & w3 & E & _ & _ & W & _); try done.
  - by apply Forall_singleton.
  - cbn [fmap list_fmap snd concat]. by rewrite app_nil_r, Z.add_0_r.
  - exists out', w3. split; [done|]. split; [|done]. rewrite W. cbn [fmap list_fmap snd concat]. by rewrite app_nil_r.
Qed.

(** ** A damaged store *)

Module SampleDamage.
Definition zeros : bytes := replicate 40 Byte.x00.

Lemma uploaded_file : exists (w : world FileDataStore) s fe, snapshot_ok s /\ dvalid (wstore w) /\
  getFileEntry s (str "a.txt") = Some fe /\ packLength fe = 0 /\
  restorable Sample.repo w s (str "a.txt") (str "some text").
Proof.
  destruct (uploadFile_spec Sample.repo DefaultFileTransferProgressFunction (fun _ _ _ _ => eq_refl) Sample.options_ok1
    Demo.start new_Snapshot (str "/a.txt") Sample.file Sample.info (str "some text") Sample.hash0 2 [str "some text"] None
    Sample.first Sample.cut Sample.ready (or_introl eq_refl)) as (s & w & fe & _ & Hok & Hd & _ & _ & Hg & Fe & _).
  exists w, s, fe. split; [exact Hok|]. split; [exact Hd|]. split; [exact Hg|]. split; [exact (fe_pack _ _ _ _ _ _ _ Fe)|].
  pose proof Sample.ready as Hr.
  apply (file_entry_restorable Sample.repo w s _ (str "some text") [str "some text"] fe (str "a.txt") Hg Fe
    (cu_payloads _ _ _ _ _ _ _ _ _ Hr) (cu_bound _ _ _ _ _ _ _ _ _ Hr)); [discriminate|reflexivity].
Qed.

Lemma zeros_bad : ~ authentic Sample.repo zeros.
Proof. refine (bool_decide_unpack _ _). vm_compute. exact I. Qed.

(** One object of a store is overwritten with zeros. *)
Lemma overwritten (w : world FileDataStore) id off : dvalid (wstore w) -> zlen id = SHA256_DIGEST_LENGTH ->
  exists w2 : world FileDataStore, dvalid (wstore w2) /\ objects (wstore w2) (object_file id) = Some zeros /\
    unforged Sample.repo off 0 w w2.
Proof.
  intros Hd Hid. destruct (new_MemoryInputStream_valid zeros) as (V & C & _).
  destruct (put_spec (wstore w) (object_file id) (new_MemoryInputStream zeros) DefaultProgressFunction Hd
    (object_file_path id Hid) V (fun _ _ => eq_refl)) as (i' & d & _ & Hd' & Hob).
  exists (Build_world d 0). rewrite C in Hob. split; [exact Hd'|]. split.
  - cbn [wstore]. rewrite Hob by (by apply object_file_path). by apply decide_True.
  - intros id' obj obj2 Hid' Ho Ho2. cbn [wstore] in Ho2. rewrite Hob in Ho2 by (by apply object_file_path).
    case_decide; [right|left; congruence]. injection Ho2 as <-. split; [done|]. right. exact zeros_bad.
Qed.

(** A file is uploaded and another block is stored; then the object of the file
    is replaced by that of the block. *)
Lemma exchanged : exists (w w2 : world FileDataStore) s fe, snapshot_ok s /\
  getFileEntry s (str "a.txt") = Some fe /\
  file_entry Sample.repo w s LZMA2 (str "some text") [str "some text"] fe /\
  stored Sample.repo w LZMA2 (str "other") /\ dvalid (wstore w2) /\
  objects (wstore w2) (object_file (block_id Sample.repo LZMA2 (str "some text"))) =
    objects (wstore w) (object_file (block_id Sample.repo LZMA2 (str "other"))).
Proof.
  destruct (uploadFile_spec Sample.repo DefaultFileTransferProgressFunction (fun _ _ _ _ => eq_refl) Sample.options_ok1
    Demo.start new_Snapshot (str "/a.txt") Sample.file Sample.info (str "some text") Sample.hash0 2 [str "some text"] None
    Sample.first Sample.cut Sample.ready (or_introl eq_refl)) as (s & w & fe & _ & Hok & Hd & _ & _ & Hg & Fe & _).
  assert (file_entry Sample.repo w s LZMA2 (str "some text") [str "some text"] fe) as Fe' by exact Fe.
  assert (block_id Sample.repo LZMA2 (str "some text") <> block_id Sample.repo LZMA2 (str "other")) as Hne
    by (vm_compute; discriminate).
  destruct (exchange_possible Sample.repo w s LZMA2 _ _ fe (replicate 16 Byte.x01) Hd Fe' Hne eq_refl)
    as (w1 & w2 & Fe1 & Hst & Hd2 & Hsw).
  exists w1, w2, s, fe. split; [exact Hok|]. split; [exact Hg|]. split; [exact Fe1|]. split; [exact Hst|].
  split; [exact Hd2|exact Hsw].
Qed.
End SampleDamage.

Lemma exchange_unnoticed_witness : exists (w2 : world FileDataStore) s fe out' w3,
  getFileEntry s (str "a.txt") = Some fe /\ fmd5 fe = md5 (str "some text") /\
  downloadFile Sample.repo s (str "a.txt") (new_MemoryOutputStream 9) DefaultFileTransferProgressFunction w2 =
    (Ret (true, out'), w3) /\ written out' = str "other".
Proof.
  destruct SampleDamage.exchanged as (w & w2 & s & fe & Hok & Hg & Hentry & Hst & Hd2 & Hswap).
  assert (ovalid (new_MemoryOutputStream 9)) as Ho by (cbn; lia).
  assert (fits (new_MemoryOutputStream 9) (zlen (str "other"))) as Hf by (vm_compute; discriminate).
  assert (zlen (payload LZMA2 (str "other")) < 2 ^ 62) as Hp by (vm_compute; reflexivity).
  assert (zlen (str "other") <= Z.of_nat decompress_bound) as Hb by (vm_compute; discriminate).
  destruct (exchange_unnoticed Sample.repo DefaultFileTransferProgressFunction w w2 s (str "a.txt") fe LZMA2
    (str "some text") (str "other") (new_MemoryOutputStream 9) (fun _ _ _ _ => eq_refl) Hok Hg Hentry Hst Hp Hb Hd2
    Hswap Ho Hf) as (out' & w3 & E & W & M).
  exists w2, s, fe, out', w3. split; [exact Hg|]. split; [exact M|]. split; [exact E|exact W].
Defined.

Lemma download_sound_witness : exists (w2 : world FileDataStore) s fe id,
  objects (wstore w2) (object_file id) = Some SampleDamage.zeros /\
  getFileEntry s (str "a.txt") = Some fe /\
  let '(a, (w3, out')) := download_into Sample.repo s (str "a.txt") DefaultFileTransferProgressFunction
    (w2, new_MemoryOutputStream 9) in
  wstore w3 = wstore w2 /\
  match a with
  | Ret found => found = true /\ written out' = str "some text"
  | Throw e => damage_exception e
  | _ => False
  end.
Proof.
  destruct SampleDamage.uploaded_file as (w & s & fe & Hok & Hd & Hg & Hp & Hr).
  assert (zlen (block_id Sample.repo LZMA2 (str "some text")) = SHA256_DIGEST_LENGTH) as Hid by apply block_id_length.
  destruct (SampleDamage.overwritten w _ (offset fe) Hd Hid) as (w2 & Hd2 & Hob & Hun).
  assert (ovalid (new_MemoryOutputStream 9)) as Ho by (cbn; lia).
  assert (fits (new_MemoryOutputStream 9) (zlen (str "some text"))) as Hf by (vm_compute; discriminate).
  assert (forall fe', getFileEntry s (str "a.txt") = Some fe' -> unforged Sample.repo (offset fe') (packLength fe') w w2) as Hun'.
  { intros fe' Hg'. rewrite Hg in Hg'. injection Hg' as <-. rewrite Hp. exact Hun. }
  pose proof (download_sound Sample.repo DefaultFileTransferProgressFunction w w2 s (str "a.txt") (str "some text")
    (new_MemoryOutputStream 9) (fun _ _ _ _ => eq_refl) Hok Hr Hd2 Hun' Ho Hf) as R.
  exists w2, s, fe, (block_id Sample.repo LZMA2 (str "some text")). split; [exact Hob|]. split; [exact Hg|].
  revert R. destruct (download_into _ _ _ _ _) as [[found|e| |] [w3 out']]; intros [Hw R]; (split; [exact Hw|]).
  - destruct R as [Hfd Hwr]. split; [exact Hfd|exact Hwr].
  - exact (proj1 R).
  - exact R.
  - exact R.
Defined.
