(* ===== verification/PackFiles.v ===== *)
(** * Packs: several small files in one object

    [finalizePack] seals every file of a pack, stores the sealed files one after
    the other in one object, and adds an entry with the offset and the length of
    each; [downloadFile] takes each of them out again. *)
From S2P Require Import Prelude Base32 Crypto RollingHash Streams MemoryStreams FileStreams CompositeStreams.
From S2P Require Import CryptoStreams Lzma StreamUtils StdMap Filesystem Snapshot DataStore FileDataStore.
From S2P Require Import Repository RepositoryKeys Upload Chunks RepositoryFiles FileTransfer.
From Stdlib Require Import ZArith Lia.

(** The size of a sealed object. *)
Definition object_size `{EVPSpec} `{LZMASpec} (c : CompressionType) (m : bytes) : Z :=
  48 + (zlen (payload c m) / 16 + 1) * 16.

Section Seal.
Context `{EVPSpec} `{LZMASpec} `{Paths} `{EnvSpec} {D} `{DataStoreSpec D}.
Context (r : Repository).

Lemma zlen_object c iv m : zlen iv = EVP_MAX_IV_LENGTH ->
  zlen (object_bytes c (mEncKey r) (mMacKey r) iv m) = object_size c m.
Proof.
  intros Hiv. unfold object_bytes, object_body, object_size. rewrite zlen_sealed, zlen_app, Hiv, encrypt_length.
  change SHA256_DIGEST_LENGTH with 32. change EVP_MAX_IV_LENGTH with 16. lia.
Qed.

Lemma object_size_pos c m : 64 <= object_size c m.
Proof. unfold object_size. pose proof (zlen_nonneg (payload c m)). Z.div_mod_to_equations. lia. Qed.

Lemma object_size_payload c m : zlen (payload c m) < object_size c m.
Proof. unfold object_size. Z.div_mod_to_equations. lia. Qed.

(** The size of a pack. *)
Definition pack_size (l : list (PackFileInfo * bytes)) : Z :=
  foldr (fun x n => object_size (pi_compression x.1) x.2 + n) 0 l.

Lemma pack_size_nonneg l : 0 <= pack_size l.
Proof.
  induction l as [|x l IH]; [done|]. cbn [pack_size foldr]. fold (pack_size l).
  pose proof (object_size_pos (pi_compression x.1) x.2). lia.
Qed.

(** The files of [l], sealed as the objects [objs] one after the other from
    [off], are described by [infos]. *)
Inductive sealed_pack : Z -> list (PackFileInfo * bytes) -> list PackFileInfo -> list bytes -> Prop :=
  | sealed_nil off : sealed_pack off [] [] []
  | sealed_cons off fi data iv l infos objs : zlen iv = EVP_MAX_IV_LENGTH ->
      sealed_pack (off + object_size (pi_compression fi) data) l infos objs ->
      sealed_pack off ((fi, data) :: l) (placed fi off (object_size (pi_compression fi) data) :: infos)
        (object_bytes (pi_compression fi) (mEncKey r) (mMacKey r) iv data :: objs).

Lemma seal_pack_spec (l : list (PackFileInfo * bytes)) : forall off (w : world D),
  0 <= off -> off + pack_size l < 2 ^ 32 ->
  exists streams infos objs w', seal_pack r l off w = (Ret (streams, infos), w') /\ wstore w' = wstore w /\
    Forall valid streams /\ concat_with contents streams = concat objs /\ concat_with whole streams = concat objs /\
    sealed_pack off l infos objs.
Proof.
  induction l as [|[fi data] l IH]; intros off w Hoff Hs; cbn [seal_pack pack_size foldr fst snd] in *.
  { exists [], [], [], w. split_and!; try done. constructor. }
  fold (pack_size l) in Hs. pose proof (pack_size_nonneg l).
  pose proof (object_size_pos (pi_compression fi) data). pose proof (object_size_payload (pi_compression fi) data).
  destruct (new_MemoryInputStream_valid data) as (V & C & _).
  destruct (seal_spec r (pi_compression fi) (new_MemoryInputStream data) w V)
    as (s & w1 & iv & E1 & D1 & L1 & Vs & Cs & Ws & _ & Ss); [rewrite C; lia|].
  io_step E1. rewrite C in Cs. rewrite Cs, (zlen_object _ _ _ L1) in Ss. io_lift Ss.
  rewrite !uwrap_small by lia.
  destruct (IH (off + object_size (pi_compression fi) data) w1) as (streams & infos & objs & w2 & E2 & D2 & Vl & Cl & Wl & Hl);
    [lia|lia|]. io_step E2.
  exists (s :: streams), (placed fi off (object_size (pi_compression fi) data) :: infos),
    (object_bytes (pi_compression fi) (mEncKey r) (mMacKey r) iv data :: objs), w2.
  split; [done|]. split; [congruence|]. split; [by constructor|].
  rewrite !concat_with_cons, Ws, Cs, Cl, Wl. split; [done|]. split; [done|]. by constructor.
Qed.

Lemma sealed_pack_size off l infos objs : sealed_pack off l infos objs -> zlen (concat objs) = pack_size l.
Proof.
  induction 1 as [|off fi data iv l infos objs Hiv _ IH]; [done|]. cbn [concat pack_size foldr fst snd].
  fold (pack_size l). by rewrite zlen_app, zlen_object, IH.
Qed.

(** Where a file of the pack is. *)
Definition located (obj : bytes) (fi : PackFileInfo) (data : bytes) (fi' : PackFileInfo) : Prop :=
  exists off, fi' = placed fi off (object_size (pi_compression fi) data) /\ 0 <= off /\
    off + object_size (pi_compression fi) data <= zlen obj /\
    exists iv, zlen iv = EVP_MAX_IV_LENGTH /\
      ztake (object_size (pi_compression fi) data) (zdrop off obj) =
        object_bytes (pi_compression fi) (mEncKey r) (mMacKey r) iv data.

Lemma sealed_located off l infos objs : sealed_pack off l infos objs -> forall pre, zlen pre = off ->
  Forall2 (fun x fi' => located (pre ++ concat objs) x.1 x.2 fi') l infos.
Proof.
  induction 1 as [|off fi data iv l infos objs Hiv Hs IH]; intros pre Hpre; [constructor|].
  set (obj := object_bytes (pi_compression fi) (mEncKey r) (mMacKey r) iv data).
  assert (zlen obj = object_size (pi_compression fi) data) as Ho by (by apply zlen_object).
  pose proof (zlen_nonneg pre). pose proof (zlen_nonneg (concat objs)).
  constructor; cbn [fst snd concat].
  - exists off. split; [done|]. split; [lia|]. split; [rewrite !zlen_app; lia|].
    exists iv. split; [done|]. rewrite zdrop_app_exact by done. by rewrite ztake_app_exact.
  - rewrite app_assoc. apply (IH (pre ++ obj)). rewrite zlen_app. lia.
Qed.
End Seal.

(** ** The entries of a pack *)

Section Entries.
Context `{Paths}.

(** The members of a file have the types of their declarations. *)
Record info_ok (fi : PackFileInfo) : Prop := {
  io_name : no_nul (filename (pi_path fi)); io_parent : no_nul (parent_path (pi_path fi));
  io_user : no_nul (pi_user fi); io_group : no_nul (pi_group fi);
  io_mode : 0 <= pi_mode fi < 2 ^ 16; io_size : 0 <= pi_size fi < 2 ^ 64;
  io_mtime : - 2 ^ 63 <= pi_mtime fi < 2 ^ 63; io_bits : 0 <= pi_rollingHashBits fi < 2 ^ 8;
  io_md5 : zlen (pi_md5 fi) = MD5_DIGEST_LENGTH
}.

(** The room that the strings of a file take at most. *)
Definition info_room (fi : PackFileInfo) : Z :=
  zlen (filename (pi_path fi)) + zlen (parent_path (pi_path fi)) + zlen (pi_user fi) + zlen (pi_group fi) + 16.
Definition pack_room (l : list PackFileInfo) : Z := foldr (fun fi n => info_room fi + n) 0 l.

Lemma info_room_pos fi : 16 <= info_room fi.
Proof.
  unfold info_room. pose proof (zlen_nonneg (filename (pi_path fi))). pose proof (zlen_nonneg (parent_path (pi_path fi))).
  pose proof (zlen_nonneg (pi_user fi)). pose proof (zlen_nonneg (pi_group fi)). lia.
Qed.

Lemma pack_room_nonneg l : 0 <= pack_room l.
Proof. induction l as [|fi l IH]; [done|]. cbn [pack_room foldr]. fold (pack_room l). pose proof (info_room_pos fi). lia. Qed.

(** The snapshot has new places for these files. *)
Record has_room (s : Snapshot) (l : list PackFileInfo) : Prop := {
  hr_new : Forall (fun fi => getFileEntry s (pi_path fi) = None) l;
  hr_nodup : NoDup (pi_path <$> l);
  hr_strings : zlen (mStringBuffer s) + pack_room l < 2 ^ 31;
  hr_objects : zlen (mObjectIDs s) + zlen l < 2 ^ 31;
  hr_files : zlen (mFiles s) + zlen l < 2 ^ 32
}.

(** A place in a pack. *)
Definition has_place (fi : PackFileInfo) : Prop :=
  0 <= pi_offset fi < 2 ^ 32 /\ exists len, pi_packLength fi = Some len /\ 0 <= len < 2 ^ 32.

(** The entry of a file of the pack [id]. *)
Record pack_entry (s : Snapshot) (id : bytes) (fi : PackFileInfo) (fe : FileEntry) : Prop := {
  pe_size : fsize fe = pi_size fi;
  pe_md5 : fmd5 fe = pi_md5 fi;
  pe_compression : compression fe = compression_code (pi_compression fi);
  pe_offset : offset fe = pi_offset fi;
  pe_length : Some (packLength fe) = pi_packLength fi;
  pe_count : objectCount fe = 1;
  pe_id : ztake 1 (zdrop (objectIdIndex fe) (mObjectIDs s)) = [id]
}.

Lemma first_app {A} i (l k : list A) x : 0 <= i -> ztake 1 (zdrop i l) = [x] -> ztake 1 (zdrop i (l ++ k)) = [x].
Proof.
  intros Hi E. rewrite zdrop_app, ztake_app, E by lia. assert (1 <= zlen (zdrop i l)) as Hl.
  { apply (f_equal zlen) in E. rewrite zlen_ztake in E by lia. cbn in E. lia. }
  by rewrite (ztake_nonpos (1 - _)) by lia.
Qed.

Lemma add_pack_entries_spec id (l : list PackFileInfo) : forall s,
  snapshot_ok s -> zlen id = SHA256_DIGEST_LENGTH -> Forall info_ok l -> Forall has_place l -> has_room s l ->
  exists s' k, add_pack_entries s id l = Ret s' /\ snapshot_ok s' /\ mObjectIDs s' = mObjectIDs s ++ k /\
    (forall path, path ∉ pi_path <$> l -> getFileEntry s' path = getFileEntry s path) /\
    (keyed s -> Forall splits (pi_path <$> l) -> keyed s') /\
    Forall (fun fi => exists fe, getFileEntry s' (pi_path fi) = Some fe /\ pack_entry s' id fi fe) l /\
    grown s s' (pack_room l) (zlen l) (zlen l).
Proof.
  induction l as [|fi l IH]; intros s Hok Hid Hl Hp Hr; cbn [add_pack_entries].
  { exists s, []. rewrite app_nil_r. split_and!; try done. constructor; cbn; lia. }
  apply Forall_cons in Hl as [[] Hl]. apply Forall_cons in Hp as [(Hoff & len & Hlen & Hlr) Hp].
  destruct Hr as [Hnew Hnd Hst Hob Hfi]. apply Forall_cons in Hnew as [Hn Hnew].
  cbn [fmap list_fmap] in Hnd |- *. apply NoDup_cons in Hnd as [Hni Hnd].
  cbn [pack_room foldr] in Hst. fold (pack_room l) in Hst. pose proof (pack_room_nonneg l). unfold info_room in Hst.
  rewrite zlen_cons in Hob, Hfi. pose proof (zlen_nonneg l). rewrite Hlen. cbn [or_undef]. rewrite bind_of_Ret.
  destruct (addFileEntry_spec s (pi_path fi) (pi_user fi) (pi_group fi) (pi_type fi) (pi_mode fi) (pi_compression fi)
    (pi_size fi) (pi_mtime fi) (pi_rollingHashBits fi) (pi_md5 fi) (pi_offset fi) len [id] Hok)
    as (s1 & fe & -> & Ok1 & F1 & X1 & I1 & D1 & Z1 & M1 & C1 & O1 & P1 & _ & _ & _ & _ & B1).
  { constructor; try done; try lia; [by apply Forall_singleton|cbn; lia]. }
  { cbn. lia. }
  rewrite bind_of_Ret. pose proof (ok_sorted s Hok) as Hs.
  assert (getFileEntry s1 (pi_path fi) = Some fe) as G1.
  { unfold getFileEntry in *. by rewrite F1, find_insert_new, decide_True, Hn by done. }
  assert (forall path, path <> pi_path fi -> getFileEntry s1 path = getFileEntry s path) as G2.
  { intros path Hne. unfold getFileEntry. by rewrite F1, find_insert_new, decide_False by done. }
  destruct (IH s1 Ok1 Hid Hl Hp) as (s2 & k & -> & Ok2 & I2 & G3 & K2 & En & [B2 N2 L2]).
  { constructor.
    - rewrite Forall_forall in Hnew |- *. intros fi' Hin. rewrite G2; [by apply Hnew|].
      intros E. apply Hni. rewrite <-E. by apply list_elem_of_fmap_2.
    - done.
    - lia.
    - rewrite I1, zlen_app. cbn [zlen]. lia.
    - rewrite F1. pose proof (zlen_insert_new (pi_path fi) fe (mFiles s)). lia. }
  exists s2, (id :: k). split; [done|]. split; [done|]. split; [by rewrite I2, I1, <-app_assoc|]. split.
  - intros path Hpath. apply not_elem_of_cons in Hpath as [Hne Hpath]. by rewrite G3, G2.
  - split.
    { intros Hk Hsp. apply Forall_cons in Hsp as [Hsp Hsps]. apply K2; [|done].
      exact (keyed_insert _ _ _ _ _ _ _ Hok Ok1 Hk Hsp X1 F1 D1). }
    assert (grown s s2 (pack_room (fi :: l)) (zlen (fi :: l)) (zlen (fi :: l))) as Hgr.
    { rewrite zlen_cons. cbn [pack_room foldr]. fold (pack_room l). unfold info_room.
      rewrite I1, zlen_app, F1 in *. cbn [zlen] in N2. pose proof (zlen_insert_new (pi_path fi) fe (mFiles s)).
      constructor; lia. }
    split; [|exact Hgr]. constructor; [|done]. exists fe. split; [by rewrite G3|].
    pose proof (d_ids _ _ _ _ _ _ _ D1) as Hids. pose proof (d_count _ _ _ _ _ _ _ D1) as Hcount.
    constructor; try done.
    + rewrite M1. apply ztake_ge. lia.
    + by rewrite P1.
    + rewrite I2. apply first_app; [|done]. pose proof (ok_entries s1 Ok1) as F. rewrite Forall_forall in F.
      apply find_In in G1; [|by apply Ok1]. by apply (F _ G1).
Qed.
End Entries.

(** ** The state of a pack *)

Section Packs.
Context `{EVPSpec} `{LZMASpec} `{Paths} `{EnvSpec} {D} `{DataStoreSpec D}.
Context (r : Repository).

(** Every file is given to the HMAC twice: by [uploadFile] and by [addFile]. *)
Definition twice (l : list bytes) : bytes := concat ((fun d => d ++ d) <$> l).

(** The name of a pack. *)
Definition pack_id (l : list bytes) : bytes := hmac (ztake SHA256_DIGEST_LENGTH (mHashKey r)) (twice l).

(** A context that was given [fed]. *)
Definition has_fed (p : PackUploadState) (fed : bytes) : Prop :=
  exists ctx, p_hmac p = Some ctx /\
    forall m, hmac_rest ctx m = hmac (ztake SHA256_DIGEST_LENGTH (mHashKey r)) (fed ++ m).

(** The invariant of a pack: it is empty until the first file starts the two hashes. *)
Record pack_inv (p : PackUploadState) : Prop := {
  pv_length : length (fileInfos p) = length (packData p);
  pv_md5 : Forall2 (fun fi d => pi_md5 fi = md5 d) (fileInfos p) (packData p);
  pv_hash : match p_rollingHash p with
    | None => packData p = []
    | Some h => wf h /\ has_fed p (twice (packData p))
    end
}.

Lemma createPackState_inv : pack_inv createPackState.
Proof. by constructor. Qed.

Lemma twice_snoc l d : twice (l ++ [d]) = twice l ++ d ++ d.
Proof. unfold twice. rewrite fmap_app, concat_app. cbn. by rewrite app_nil_r. Qed.

Lemma roll_pack_spec data : forall h b, wf h -> exists b' h', roll_pack h data b = Ret (b', h') /\ wf h'.
Proof.
  induction data as [|x data IH]; intros h b Hh; cbn [roll_pack]; [by exists b, h|].
  destruct (roll_wf h x Hh) as (h1 & -> & Hh1 & _). rewrite bind_of_Ret. by apply IH.
Qed.

(** The file that [uploadFile] adds to a pack. *)
Definition new_pack_file (p : PackUploadState) (path : bytes) (info : FileInfo) (comp : CompressionType)
    (data : bytes) : PackFileInfo := {|
  pi_path := path; pi_user := mUserName info; pi_group := mGroupName info; pi_type := mType info;
  pi_mode := uwrap 16 (mMode info); pi_compression := comp; pi_size := mLength info;
  pi_mtime := mLastModifyTime info; pi_rollingHashBits := 0; pi_md5 := md5 data;
  pi_offset := uwrap 32 (zlen (packData p)); pi_packLength := None |}.

Lemma MD5_spec data : MD5 data = Ret (md5 data).
Proof.
  unfold MD5. destruct md5_init as (c & -> & Hc). cbn [or_throw]. rewrite bind_of_Ret.
  destruct (md5_update c data) as (c' & -> & Hu). cbn [or_throw]. rewrite bind_of_Ret, md5_final. cbn [or_throw].
  by rewrite <-Hu, app_nil_r, Hc.
Qed.

(** The hashes are started, unless they were. *)
Lemma start_pack p : pack_inv p -> exists ctx h,
  (match p_rollingHash p with
   | Some _ => Ret p
   | None =>
       h ← new_RollingHash (mRollKey r) 8192;
       ctx ← or_throw (HMAC_Init (ztake SHA256_DIGEST_LENGTH (mHashKey r))) EncryptionFailedException;
       Ret {| p_hmac := Some ctx; fileInfos := fileInfos p; packData := packData p; p_rollingHash := Some h |}
   end) = Ret {| p_hmac := Some ctx; fileInfos := fileInfos p; packData := packData p; p_rollingHash := Some h |} /\
  wf h /\ forall m, hmac_rest ctx m = hmac (ztake SHA256_DIGEST_LENGTH (mHashKey r)) (twice (packData p) ++ m).
Proof.
  intros [Hl _ Hh]. destruct (p_rollingHash p) as [h|] eqn:Er.
  - destruct Hh as [Hw (ctx & Hc & Hf)]. exists ctx, h. destruct p; cbn in *. by subst.
  - destruct (new_RollingHash_wf (mRollKey r) 8192) as (h & -> & Hw & _); [lia|]. rewrite bind_of_Ret.
    destruct (hmac_init (ztake SHA256_DIGEST_LENGTH (mHashKey r))) as (ctx & -> & Hf). cbn [or_throw].
    rewrite bind_of_Ret. exists ctx, h. by rewrite Hh.
Qed.

Lemma upload_to_pack_spec comp progress s p path info data (w : world D) :
  pack_inv p -> (forall a b x y, progress a b x y = true) ->
  exists p' (cut : bool), pack_inv p' /\ is_Some (p_rollingHash p') /\
    fileInfos p' = fileInfos p ++ [new_pack_file p path info comp data] /\ packData p' = packData p ++ [data] /\
    upload_to_pack r comp progress s p path info data w =
      if cut then finalizePack r s p' w else (Ret (s, p'), w).
Proof.
  intros Hp Hpf. unfold upload_to_pack. destruct (start_pack p Hp) as (ctx & h & E & Hw & Hf). io_lift E.
  cbn [p_hmac p_rollingHash or_undef]. rewrite !io_bind_lift.
  destruct (hmac_update ctx data) as (ctx1 & -> & U1). change (default ctx (Some ctx1)) with ctx1.
  destruct (roll_pack_spec data h false Hw) as (cut & h' & -> & Hw'). rewrite io_bind_lift, MD5_spec, io_bind_lift.
  unfold addFile. cbn [p_hmac or_undef]. rewrite bind_of_Ret.
  destruct (hmac_update ctx1 data) as (ctx2 & -> & U2). cbn [or_throw]. rewrite bind_of_Ret, io_bind_lift.
  cbn [fileInfos packData p_rollingHash].
  match goal with |- context [finalizePack r s ?x] => exists x, cut end.
  cbn [fileInfos packData p_rollingHash]. split; [|split; [by eexists|]; split; [done|]; split; [done|]].
  - destruct Hp as [Hl Hm _]. constructor; cbn [fileInfos packData p_rollingHash p_hmac].
    + rewrite !length_app. cbn. lia.
    + apply Forall2_app; [done|]. by repeat constructor.
    + split; [done|]. exists ctx2. split; [done|]. intros m. rewrite twice_snoc.
      by rewrite <-U2, <-U1, Hf, <-!app_assoc.
  - destruct cut; [done|]. by rewrite Hpf.
Qed.

(** ** Finishing a pack *)

(** The pack can be stored in the world, and its files in the snapshot. *)
Record can_finalize (w : world D) (s : Snapshot) (p : PackUploadState) : Prop := {
  cf_inv : pack_inv p;
  cf_started : is_Some (p_rollingHash p);
  cf_store : dvalid (wstore w);
  cf_absent : objects (wstore w) (object_file (pack_id (packData p))) = None;
  cf_size : pack_size (zip (fileInfos p) (packData p)) < 2 ^ 32;
  cf_bound : Forall (fun d => zlen d <= Z.of_nat decompress_bound) (packData p);
  cf_infos : Forall info_ok (fileInfos p);
  cf_snapshot : snapshot_ok s;
  cf_room : has_room s (fileInfos p)
}.

(** [placed] changes nothing but the place. *)
Lemma placed_files (l : list (PackFileInfo * bytes)) infos :
  Forall2 (fun x fi' => exists off len, fi' = placed x.1 off len) l infos ->
  pi_path <$> infos = pi_path <$> l.*1 /\ (Forall info_ok l.*1 -> Forall info_ok infos) /\
  pack_room infos = pack_room l.*1 /\ zlen infos = zlen l.*1.
Proof.
  induction 1 as [|[fi d] fi' l infos (off & len & ->) _ (IH1 & IH2 & IH3 & IH4)]; [done|].
  cbn [fmap list_fmap fst snd]. split; [by f_equal|]. split.
  - intros Hi. apply Forall_cons in Hi as [Hi Hl]. constructor; [destruct Hi; by constructor|by apply IH2].
  - rewrite !zlen_cons. cbn [pack_room foldr]. fold (pack_room infos) (pack_room l.*1).
    change (info_room (placed fi off len)) with (info_room fi). lia.
Qed.

Lemma finalizePack_spec w s p : can_finalize w s p ->
  exists s' w' obj infos, finalizePack r s p w = (Ret (s', createPackState), w') /\
    snapshot_ok s' /\ dvalid (wstore w') /\ zlen obj < 2 ^ 32 /\
    (forall q, object_path q -> objects (wstore w') q =
       if decide (q = object_file (pack_id (packData p))) then Some obj else objects (wstore w) q) /\
    (forall path, path ∉ pi_path <$> fileInfos p -> getFileEntry s' path = getFileEntry s path) /\
    (exists k, mObjectIDs s' = mObjectIDs s ++ k) /\
    (keyed s -> Forall splits (pi_path <$> fileInfos p) -> keyed s') /\
    Forall2 (fun x fi' => located r obj x.1 x.2 fi') (zip (fileInfos p) (packData p)) infos /\
    Forall (fun fi' => exists fe, getFileEntry s' (pi_path fi') = Some fe /\
      pack_entry s' (pack_id (packData p)) fi' fe) infos /\
    grown s s' (pack_room (fileInfos p)) (zlen (fileInfos p)) (zlen (fileInfos p)).
Proof.
  intros [[Hl _ Hh] [h Hs] Hd Habs Hsize Hbd Hinf Hok Hroom]. rewrite Hs in Hh. destruct Hh as [_ (ctx & Hc & Hf)].
  set (l := zip (fileInfos p) (packData p)) in *.
  assert (l.*1 = fileInfos p) as L1 by (apply fst_zip; lia).
  unfold finalizePack. rewrite Hs, Hc. cbn [or_undef]. rewrite io_bind_lift, hmac_final. cbn [or_throw].
  rewrite io_bind_lift, Hf, app_nil_r. fold (pack_id (packData p)). set (id := pack_id (packData p)) in *.
  assert (zlen id = SHA256_DIGEST_LENGTH) as Hid by apply hmac_length.
  rewrite (data_path_spec id Hid), io_bind_lift. pose proof (object_file_path id Hid) as Hp.
  pose proof (exist_spec (wstore w) (object_file id) DefaultProgressFunction Hd Hp) as Ex.
  rewrite (io_bind_Ret _ _ _ _ _ (on_store_Ret _ w _ _ Ex)), Habs, bool_decide_eq_false_2 by (by intros [? ?]).
  destruct (seal_pack_spec r l 0 (with_store w (wstore w))) as (streams & infos & objs & w1 & E1 & D1 & Vs & Cs & Ws & Hsp);
    [done|done|]. rewrite io_bind_assoc. io_step E1. rewrite io_bind_assoc.
  pose proof (sealed_pack_size _ _ _ _ _ Hsp) as Hz. pose proof (pack_size_nonneg l).
  destruct (new_MultiInputStream_spec streams Vs) as (V & C & _); [rewrite Ws; lia|].
  cbn [wstore with_store] in D1. rewrite <-D1 in Hd.
  destruct (put_spec (wstore w1) (object_file id) (new_MultiInputStream streams) DefaultProgressFunction Hd Hp V)
    as (m' & d' & E2 & Hd' & Hob); [done|].
  rewrite (io_bind_Ret _ _ _ _ _ (on_store_Ret _ w1 _ _ E2)).
  rewrite (io_bind_Ret (mret infos) _ _ _ _ eq_refl).
  pose proof (sealed_located _ _ _ _ _ Hsp [] eq_refl) as Hloc. cbn [app] in Hloc.
  assert (Forall2 (fun x fi' => exists off len, fi' = placed x.1 off len) l infos) as Hpl.
  { eapply Forall2_impl; [exact Hloc|]. intros x fi' (off & -> & _). by eexists _, _. }
  destruct (placed_files l infos Hpl) as (Hpaths & Hio & Hrm & Hzl). rewrite L1 in *.
  destruct Hroom as [Hnew Hnd Hstr Hno Hnf].
  destruct (add_pack_entries_spec id infos s Hok Hid (Hio Hinf)) as (s' & k & E3 & Ok' & Hob3 & Hoth & Hky & Hent & Hgr).
  { apply Forall_forall. intros fi' Hin. apply list_elem_of_lookup_1 in Hin as [j Hj].
    destruct (Forall2_lookup_r _ _ _ _ _ Hloc Hj) as (x & _ & off & -> & Ho1 & Ho2 & _).
    pose proof (object_size_pos (pi_compression x.1) x.2).
    split; [cbn; lia|]. eexists. split; [reflexivity|]. lia. }
  { constructor; rewrite ?Hpaths, ?Hrm, ?Hzl; try done.
    assert (Forall (fun path => getFileEntry s path = None) (pi_path <$> infos)) as Hfa
      by (rewrite Hpaths; by apply Forall_fmap). by apply Forall_fmap in Hfa. }
  io_lift E3. exists s', (with_store w1 d'), (concat objs), infos. cbn [wstore with_store].
  rewrite Hrm, Hzl in Hgr. split_and!; try done; [lia| |by rewrite <-Hpaths|by exists k|by rewrite <-Hpaths].
  intros q Hq. rewrite Hob, D1, C, Cs by done. done.
Qed.

(** Whatever [finalizePack] and [upload_to_pack] return keeps the invariant. *)
Lemma finalizePack_inv (w w' : world D) s s' p p' : pack_inv p ->
  finalizePack r s p w = (Ret (s', p'), w') -> pack_inv p'.
Proof.
  intros Hp. unfold finalizePack. destruct (p_rollingHash p); [|intros E; by injection E as <- <- <-].
  do 6 (intros (? & ? & _ & E)%io_bind_inv; revert E). intros E. injection E as <- <- <-.
  apply createPackState_inv.
Qed.

Lemma upload_to_pack_inv comp progress s s' p p' path info data (w w' : world D) : pack_inv p ->
  (forall a b x y, progress a b x y = true) ->
  upload_to_pack r comp progress s p path info data w = (Ret (s', p'), w') -> pack_inv p'.
Proof.
  intros Hp Hpf E. destruct (upload_to_pack_spec comp progress s p path info data w Hp Hpf)
    as (p1 & cut & Hp1 & _ & _ & _ & E1). rewrite E in E1. destruct cut; [|by injection E1 as _ -> _].
  symmetry in E1. by eapply finalizePack_inv.
Qed.

(** A file of a finished pack is restorable. *)
Lemma packed_restorable (w : world D) s' obj data fi fi' id fe path :
  zlen id = SHA256_DIGEST_LENGTH -> objects (wstore w) (object_file id) = Some obj -> zlen obj < 2 ^ 32 ->
  zlen data <= Z.of_nat decompress_bound -> located r obj fi data fi' -> pi_md5 fi = md5 data ->
  getFileEntry s' path = Some fe -> pack_entry s' id fi' fe -> restorable r w s' path data.
Proof.
  intros Hid Hob Hz Hb (off & -> & Hoff & Hend & iv & Hiv & Hpart) Hmd Hg [_ Pm Pc Po Pl Pn Pi].
  cbn [placed pi_compression pi_offset pi_packLength] in *. injection Pl as Pl.
  pose proof (object_size_pos (pi_compression fi) data).
  exists fe, (pi_compression fi), [(id, data)]. rewrite Pc, Po, Pl. split_and!; try done.
  - by destruct (pi_compression fi).
  - apply Forall_singleton. cbn [fst snd]. exists iv, obj. split_and!; try done; try lia.
    unfold part. destruct (Z.ltb_spec 0 (object_size (pi_compression fi) data)); [done|lia].
  - cbn. by rewrite app_nil_r.
  - by rewrite Pm.
Qed.

(** All the files of a pack, after it was finished. *)
Lemma finished_pack (w w' : world D) s s' p obj infos i fi data : can_finalize w s p ->
  zlen obj < 2 ^ 32 -> objects (wstore w') (object_file (pack_id (packData p))) = Some obj ->
  Forall2 (fun x fi' => located r obj x.1 x.2 fi') (zip (fileInfos p) (packData p)) infos ->
  Forall (fun fi' => exists fe, getFileEntry s' (pi_path fi') = Some fe /\
    pack_entry s' (pack_id (packData p)) fi' fe) infos ->
  fileInfos p !! i = Some fi -> packData p !! i = Some data ->
  exists fe, getFileEntry s' (pi_path fi) = Some fe /\ fsize fe = pi_size fi /\ fmd5 fe = pi_md5 fi /\
    restorable r w' s' (pi_path fi) data.
Proof.
  intros Hcf Hz Hob Hloc Hent Hfi Hdata.
  assert (zip (fileInfos p) (packData p) !! i = Some (fi, data)) as Hzip by (by apply lookup_zip_with_Some; eauto).
  destruct (Forall2_lookup_l _ _ _ _ _ Hloc Hzip) as (fi' & Hfi' & Hl). cbn [fst snd] in Hl.
  pose proof (proj1 (Forall_lookup _ _) Hent i fi' Hfi') as (fe & Hg & Hpe).
  pose proof Hl as (off & Epl & _). rewrite Epl in Hg. exists fe. split; [exact Hg|].
  split; [by rewrite (pe_size _ _ _ _ Hpe), Epl|]. split; [by rewrite (pe_md5 _ _ _ _ Hpe), Epl|].
  eapply packed_restorable; try done; [apply hmac_length|exact (proj1 (Forall_lookup _ _) (cf_bound _ _ _ Hcf) i data Hdata)|].
  exact (Forall2_lookup_lr _ _ _ _ _ _ (pv_md5 _ (cf_inv _ _ _ Hcf)) Hfi Hdata).
Qed.
(** A small file only joins the pack. *)
Lemma uploadFile_pack progress (w : world D) s p destPath fs st data :
  (forall a b x y, progress a b x y = true) -> pack_inv p -> valid fs -> contents fs = data ->
  st_size st = zlen data -> type_of_mode (st_mode st) <> FileNotFound ->
  zlen data < smallFileSize (mOptions r) < 2 ^ 31 ->
  exists p' (cut : bool), pack_inv p' /\ is_Some (p_rollingHash p') /\ packData p' = packData p ++ [data] /\
    fileInfos p' = fileInfos p ++
      [new_pack_file p (relative_normal destPath) (file_info fs st) (file_compression fs st) data] /\
    uploadFile r (Some p) s destPath fs (Some st) progress w =
      if cut then ('(s', p'') ← finalizePack r s p'; mret (s', Some p'')) w else (Ret (s, Some p'), w).
Proof.
  intros Hpf Hp Hv Hc Hsz Hex Hsmall. pose proof (zlen_nonneg data). unfold uploadFile.
  destruct (new_RollingHash_wf (mRollKey r) 8192) as (rh & -> & _); [lia|]. rewrite io_bind_lift.
  fold (file_info fs st).
  assert (exists_ (file_info fs st) = true) as ->.
  { unfold exists_. cbn [file_info new_FileInfo mType]. by rewrite bool_decide_eq_false_2. }
  cbn [negb]. destruct md5_init as (md & -> & _). cbn [or_throw]. rewrite io_bind_lift.
  assert (mLength (file_info fs st) = zlen data) as ->.
  { cbn [file_info new_FileInfo mLength]. rewrite Hsz, uwrap_small; lia. }
  rewrite uwrap_small by lia. fold (file_compression fs st).
  destruct (Z.ltb_spec (zlen data) (smallFileSize (mOptions r))); [|lia].
  destruct (readExpected_spec fs (zlen data) Hv) as (fs' & E1 & _); [lia|by rewrite Hc|].
  rewrite Hc, ztake_ge in E1 by lia. io_lift E1.
  destruct (md5_update md data) as (md' & -> & _). cbn [or_throw].
  rewrite io_bind_lift, computeBlockHMAC_spec, io_bind_lift.
  destruct (upload_to_pack_spec (file_compression fs st) progress s p (relative_normal destPath) (file_info fs st)
    data w Hp Hpf) as (p' & cut & Hp' & Hs & Hi & Hd & E). exists p', cut. do 4 (split; [done|]).
  unfold mbind at 1, io_bind at 1. rewrite E. destruct cut; [|done].
  unfold mbind, io_bind. by destruct (finalizePack r s p' w) as [[[]| | |] ?].
Qed.
End Packs.

(** * Properties *)

(** C8: finishing a pack stores one object with all its files and adds an entry
    for each of them, with the size and the digest that were recorded; no other
    object and no other entry changes, and the pack is empty again.  From any
    later state of the store that still has its objects, [downloadFile] gives
    back exactly the bytes of each file of the pack. *)
Theorem pack_roundtrip `{EVPSpec} `{LZMASpec} `{Paths} `{EnvSpec} {D} `{DataStoreSpec D} {Out} `{OutputStreamSpec Out}
    r (w : world D) s p (Hcf : can_finalize r w s p) :
  exists s' w', finalizePack r s p w = (Ret (s', createPackState), w') /\ snapshot_ok s' /\ dvalid (wstore w') /\
    (forall q, object_path q -> q <> object_file (pack_id r (packData p)) ->
       objects (wstore w') q = objects (wstore w) q) /\
    (forall path, path ∉ pi_path <$> fileInfos p -> getFileEntry s' path = getFileEntry s path) /\
    forall i fi data, fileInfos p !! i = Some fi -> packData p !! i = Some data ->
      exists fe, getFileEntry s' (pi_path fi) = Some fe /\ fsize fe = pi_size fi /\ fmd5 fe = pi_md5 fi /\
        forall progress (w2 : world D) (out : Out), (forall a b x y, progress a b x y = true) ->
          grows w' w2 -> dvalid (wstore w2) -> ovalid out -> fits out (zlen data) ->
          exists out' w3, downloadFile r s' (pi_path fi) out progress w2 = (Ret (true, out'), w3) /\
            wstore w3 = wstore w2 /\ written out' = written out ++ data.
Proof.
  destruct (finalizePack_spec r w s p Hcf) as (s' & w' & obj & infos & E & Hok & Hd & Hz & Hob & Hoth & _ & _ & Hloc & Hent & _).
  exists s', w'. split; [exact E|]. split; [done|]. split; [done|].
  split; [intros q Hq Hne; by rewrite Hob, decide_False|]. split; [done|].
  intros i fi data Hfi Hdata. assert (zlen (pack_id r (packData p)) = SHA256_DIGEST_LENGTH) as Hid by apply hmac_length.
  assert (objects (wstore w') (object_file (pack_id r (packData p))) = Some obj) as Hpack.
  { by rewrite Hob, decide_True by (done || by apply object_file_path). }
  destruct (finished_pack r w w' s s' p obj infos i fi data Hcf Hz Hpack Hloc Hent Hfi Hdata) as (fe & Hg & Hs & Hm & Hr).
  exists fe. do 3 (split; [done|]). intros progress w2 out Hpf Hgr Hd2 Ho Hf.
  eapply restorable_download; try done. eapply restorable_kept; [by apply grows_data_kept|done| |done|exact Hr].
  exists []. by rewrite app_nil_r.
Qed.

(** [uploadFile] with a pack only collects a small file: it is appended to
    the files of the pack with its description, nothing is stored and the
    snapshot stays as it is, unless the rolling hash ends the pack at this file,
    in which case [finalizePack] follows.  The invariant of the pack holds. *)
Theorem pack_collects `{EVPSpec} `{LZMASpec} `{Paths} `{EnvSpec} {D} `{DataStoreSpec D}
    r progress (w : world D) s p destPath fs st data
    (Hpf : forall a b x y, progress a b x y = true) (Hp : pack_inv r p) (Hv : valid fs) (Hc : contents fs = data)
    (Hsz : st_size st = zlen data) (Hex : type_of_mode (st_mode st) <> FileNotFound)
    (Hsmall : zlen data < smallFileSize (mOptions r) < 2 ^ 31) :
  exists p' (cut : bool), pack_inv r p' /\ is_Some (p_rollingHash p') /\ packData p' = packData p ++ [data] /\
    fileInfos p' = fileInfos p ++
      [new_pack_file p (relative_normal destPath) (file_info fs st) (file_compression fs st) data] /\
    uploadFile r (Some p) s destPath fs (Some st) progress w =
      if cut then ('(s', p'') ← finalizePack r s p'; mret (s', Some p'')) w else (Ret (s, Some p'), w).
Proof. by apply uploadFile_pack. Qed.

(** When the object of a pack is already in the store (the same small files
    were packed before), [finalizePack] uses the lengths of the files in the pack
    although nothing set them: the behaviour is undefined.  (The code skips the
    loop that sets them together with the upload.) *)
Theorem finalizePack_existing `{EVPSpec} `{LZMASpec} `{Paths} `{EnvSpec} {D} `{DataStoreSpec D}
    r (w : world D) s p fi l obj
    (Hp : pack_inv r p) (Hs : is_Some (p_rollingHash p)) (Hd : dvalid (wstore w))
    (Hob : objects (wstore w) (object_file (pack_id r (packData p))) = Some obj)
    (Hfi : fileInfos p = fi :: l) (Hlen : pi_packLength fi = None) :
  fst (finalizePack r s p w) = Undef.
Proof.
  destruct Hs as [h Hh]. pose proof (pv_hash r p Hp) as Hi. rewrite Hh in Hi. destruct Hi as [_ (ctx & Hc & Hf)].
  unfold finalizePack. rewrite Hh, Hc. cbn [or_undef]. rewrite io_bind_lift, hmac_final. cbn [or_throw].
  rewrite io_bind_lift, Hf, app_nil_r. fold (pack_id r (packData p)).
  assert (zlen (pack_id r (packData p)) = SHA256_DIGEST_LENGTH) as Hid by apply hmac_length.
  rewrite (data_path_spec _ Hid), io_bind_lift. pose proof (object_file_path _ Hid) as Hpa.
  pose proof (exist_spec (wstore w) _ DefaultProgressFunction Hd Hpa) as Ex.
  rewrite (io_bind_Ret _ _ _ _ _ (on_store_Ret _ w _ _ Ex)), Hob, bool_decide_eq_true_2 by done.
  rewrite (io_bind_Ret (mret (fileInfos p)) _ _ _ _ eq_refl), Hfi. cbn [add_pack_entries]. by rewrite Hlen.
Qed.

(** ** A concrete pack *)

Module SamplePack.
Definition add (p : PackUploadState) (path data : bytes) : PackUploadState :=
  match fst (upload_to_pack Demo.repo LZMA2 DefaultFileTransferProgressFunction new_Snapshot p path
               (file_info Sample.file Sample.info) data Demo.start) with
  | Ret (_, p) => p
  | _ => createPackState
  end.
Definition pack : PackUploadState := add (add createPackState (str "a.txt") (str "first")) (str "b.txt") (str "second").

Lemma add_inv p path data : pack_inv Demo.repo p -> pack_inv Demo.repo (add p path data).
Proof.
  intros Hp. unfold add. destruct (upload_to_pack _ _ _ _ _ _ _ _ _) as [[[s p1]| | |] w1] eqn:E; cbn [fst];
    [|apply createPackState_inv..]. eapply upload_to_pack_inv; [exact Hp| |exact E]. done.
Qed.

Lemma pack_ok : pack_inv Demo.repo pack.
Proof. do 2 apply add_inv. apply createPackState_inv. Qed.

(** Decides the side conditions of the files of the example. *)
Ltac solve_info :=
  constructor; first
    [ unfold no_nul; refine (bool_decide_unpack _ _); vm_compute; exact I
    | vm_compute; split; [discriminate|reflexivity]
    | vm_compute; reflexivity ].

(** What the pack holds, evaluated once. *)
Definition infos : list PackFileInfo := Eval vm_compute in fileInfos pack.

Definition datas : list bytes := [str "first"; str "second"].

Definition shape (p : PackUploadState) : list PackFileInfo * list bytes * bool :=
  (fileInfos p, packData p, match p_rollingHash p with Some _ => true | None => false end).

Lemma pack_shape : shape pack = (infos, datas, true).
Proof. vm_compute. reflexivity. Qed.

Lemma shape_inv p : shape p = (infos, datas, true) ->
  fileInfos p = infos /\ packData p = datas /\ is_Some (p_rollingHash p).
Proof.
  unfold shape. generalize infos datas. intros i d [= -> -> Hh]. destruct (p_rollingHash p); [|discriminate Hh].
  split; [done|]. split; [done|]. by eexists.
Qed.

Lemma shape_ready p : shape p = (infos, datas, true) -> pack_inv Demo.repo p ->
  can_finalize Demo.repo Demo.start new_Snapshot p.
Proof.
  intros (Hi & Hd & Hh)%shape_inv Hp. constructor; rewrite ?Hi, ?Hd; [done|done|apply Demo.start_ok|..].
  - vm_compute. reflexivity.
  - vm_compute. reflexivity.
  - repeat constructor; vm_compute; discriminate.
  - unfold infos. repeat (apply Forall_cons; split; [solve_info|]). apply Forall_nil_2.
  - apply new_Snapshot_ok.
  - unfold infos. constructor; try (vm_compute; reflexivity).
    + repeat (apply Forall_cons; split; [reflexivity|]). apply Forall_nil_2.
    + refine (bool_decide_unpack _ _). vm_compute. exact I.
Qed.

Lemma pack_ready : can_finalize Demo.repo Demo.start new_Snapshot pack.
Proof. exact (shape_ready pack pack_shape pack_ok). Qed.

Lemma second_file : exists fi, fileInfos pack !! 1%nat = Some fi /\ pi_path fi = str "b.txt" /\
  packData pack !! 1%nat = Some (str "second").
Proof.
  destruct (shape_inv pack pack_shape) as (-> & -> & _).
  eexists. split; [vm_compute; reflexivity|]. split; vm_compute; reflexivity.
Qed.

Lemma first_file : exists fi l, fileInfos pack = fi :: l /\ pi_packLength fi = None.
Proof.
  destruct (shape_inv pack pack_shape) as (-> & _).
  do 2 eexists. split; vm_compute; reflexivity.
Qed.

(** The store after the pack was finished. *)
Lemma stored_pack : exists (w : world FileDataStore) obj, dvalid (wstore w) /\
  objects (wstore w) (object_file (pack_id Demo.repo (packData pack))) = Some obj.
Proof.
  destruct (finalizePack_spec Demo.repo Demo.start new_Snapshot pack pack_ready)
    as (s' & w' & obj & infos & _ & _ & Hd & _ & Hob & _).
  exists w', obj. split; [exact Hd|].
  assert (zlen (pack_id Demo.repo (packData pack)) = SHA256_DIGEST_LENGTH) as Hid by apply hmac_length.
  clear -Hob Hid. revert Hob Hid. generalize (pack_id Demo.repo (packData pack)). intros id Hob Hid.
  rewrite Hob by (by apply object_file_path). by apply decide_True.
Qed.
End SamplePack.

Lemma pack_roundtrip_witness :
  exists s' w' out' w3,
    finalizePack Demo.repo new_Snapshot SamplePack.pack Demo.start = (Ret (s', createPackState), w') /\
    downloadFile Demo.repo s' (str "b.txt") (new_MemoryOutputStream 6) DefaultFileTransferProgressFunction w'
      = (Ret (true, out'), w3) /\ written out' = str "second".
Proof.
  destruct (pack_roundtrip (Out := MemoryOutputStream) Demo.repo Demo.start new_Snapshot SamplePack.pack SamplePack.pack_ready)
    as (s' & w' & E & _ & Hd & _ & _ & R).
  destruct SamplePack.second_file as (fi & Ef & Hpath & Hdata).
  destruct (R 1%nat fi (str "second") Ef Hdata) as (fe & _ & _ & _ & Rd).
  assert (ovalid (new_MemoryOutputStream 6)) as Ho by (cbn; lia).
  assert (fits (new_MemoryOutputStream 6) (zlen (str "second"))) as Hf by (vm_compute; discriminate).
  destruct (Rd DefaultFileTransferProgressFunction w' (new_MemoryOutputStream 6) (fun _ _ _ _ => eq_refl) (grows_refl w')
    Hd Ho Hf) as (out' & w3 & E2 & _ & W).
  rewrite Hpath in E2. exists s', w', out', w3. split; [exact E|]. split; [exact E2|exact W].
Defined.

Lemma pack_collects_witness :
  exists p' (cut : bool), packData p' = [str "some text"] /\
    uploadFile Demo.repo (Some createPackState) new_Snapshot (str "/a.txt") Sample.file (Some Sample.info)
      DefaultFileTransferProgressFunction Demo.start =
    if cut then ('(s', p'') ← finalizePack Demo.repo new_Snapshot p'; mret (s', Some p'')) Demo.start
    else (Ret (new_Snapshot, Some p'), Demo.start).
Proof.
  pose proof (cu_valid _ _ _ _ _ _ _ _ _ Sample.ready) as Hv.
  pose proof (cu_contents _ _ _ _ _ _ _ _ _ Sample.ready) as Hc.
  pose proof (cu_exists _ _ _ _ _ _ _ _ _ Sample.ready) as Hex.
  destruct (pack_collects Demo.repo DefaultFileTransferProgressFunction Demo.start new_Snapshot createPackState
    (str "/a.txt") Sample.file Sample.info (str "some text") (fun _ _ _ _ => eq_refl) (createPackState_inv Demo.repo)
    Hv Hc eq_refl Hex ltac:(vm_compute; split; reflexivity)) as (p' & cut & _ & _ & Hd & _ & E).
  exists p', cut. split; [exact Hd|exact E].
Defined.

Lemma finalizePack_existing_witness :
  exists w, fst (finalizePack Demo.repo new_Snapshot SamplePack.pack w) = Undef.
Proof.
  destruct SamplePack.stored_pack as (w & obj & Hd & Hob).
  destruct SamplePack.first_file as (fi & l & Ef & Hlen).
  exists w. exact (finalizePack_existing Demo.repo w new_Snapshot SamplePack.pack fi l obj SamplePack.pack_ok
    (cf_started _ _ _ _ SamplePack.pack_ready) Hd Hob Ef Hlen).
Defined.
