(* ===== verification/Backup.v ===== *)
(** * The backup as a whole

    The abstract specification of the program: a backup is a working set of files
    and a set of named snapshots, each a map from paths to contents.  The
    commands of a client run the operations of the repository; every one of them
    refines its specification, so that everything that was committed can be
    restored after any sequence of commands. *)
From S2P Require Import Prelude Base32 Crypto RollingHash Streams MemoryStreams FileStreams CompositeStreams.
From S2P Require Import CryptoStreams Lzma StreamUtils StdMap Filesystem Snapshot DataStore FileDataStore.
From S2P Require Import Repository RepositoryKeys Upload Chunks RepositoryFiles FileTransfer PackFiles.
From Stdlib Require Import ZArith Lia.

(** ** The specification *)

Record backup := {
  working : gmap (list Byte.byte) (list Byte.byte);
  committed : gmap (list Byte.byte) (gmap (list Byte.byte) (list Byte.byte))
}.

Definition empty_backup : backup := {| working := ∅; committed := ∅ |}.

Section Commands.
Context `{EVP}.

(** What a client of the library does with a repository that is open. *)
Inductive command :=
  | Upload (destPath : bytes) (fs : FileStream) (st : stat)   (* uploadFile, without a pack *)
  | Pack (p : PackUploadState)                                (* finalizePack *)
  | Delete (path : bytes)                                     (* deleteFileEntry *)
  | Commit (name : bytes)                                     (* commitSnapshot *)
  | Load (name : bytes)                                       (* loadSnapshot *)
  | Create.                                                   (* createSnapshot *)

(** The files of a pack. *)
Definition pack_files (p : PackUploadState) : gmap (list Byte.byte) (list Byte.byte) :=
  list_to_map (zip (pi_path <$> fileInfos p) (packData p)).

(** What each command means. *)
Definition spec `{Paths} (c : command) (a : backup) : backup :=
  match c with
  | Upload destPath fs st =>
      {| working := <[relative_normal destPath := contents fs]> (working a); committed := committed a |}
  | Pack p => {| working := pack_files p ∪ working a; committed := committed a |}
  | Delete path => {| working := delete path (working a); committed := committed a |}
  | Commit name => {| working := working a; committed := <[name := working a]> (committed a) |}
  | Load name => {| working := default ∅ (committed a !! name); committed := committed a |}
  | Create => {| working := ∅; committed := committed a |}
  end.
End Commands.

(** ** The program *)

(** The world and the snapshot the client works on. *)
Record system (D : Type) := { sys_world : world D; sys_snapshot : Snapshot }.
Arguments sys_world {D} s.
Arguments sys_snapshot {D} s.
Arguments Build_system {D} _ _.

Section Program.
Context `{EVP} `{LZMA} `{Paths} `{Env} {D} `{DataStore D}.

Definition on_world {A} (m : io (world D) A) : io (system D) A :=
  fun x => let (a, w) := m (sys_world x) in (a, Build_system w (sys_snapshot x)).

Definition the_snapshot : io (system D) Snapshot := fun x => (Ret (sys_snapshot x), x).
Definition set_snapshot (s : Snapshot) : io (system D) unit := fun x => (Ret tt, Build_system (sys_world x) s).

Definition exec (r : Repository) (c : command) : io (system D) unit :=
  s ← the_snapshot;
  match c with
  | Upload destPath fs st =>
      '(s, _) ← on_world (uploadFile r None s destPath fs (Some st) DefaultFileTransferProgressFunction);
      set_snapshot s
  | Pack p => '(s, _) ← on_world (finalizePack r s p); set_snapshot s
  | Delete path => set_snapshot (deleteFileEntry s path)
  | Commit name => on_world (commitSnapshot r s name DefaultProgressFunction)
  | Load name => s ← on_world (loadSnapshot r name DefaultProgressFunction); set_snapshot s
  | Create => set_snapshot createSnapshot
  end.

Fixpoint exec_all (r : Repository) (cs : list command) : io (system D) unit :=
  match cs with
  | [] => mret tt
  | c :: cs => _ ← exec r c; exec_all r cs
  end.
End Program.

Lemma on_world_Ret {D A} (m : io (world D) A) x a w : m (sys_world x) = (Ret a, w) ->
  on_world m x = (Ret a, Build_system w (sys_snapshot x)).
Proof. intros E. unfold on_world. by rewrite E. Qed.

(** ** The refinement *)

Section Refinement.
Context `{EVPSpec} `{LZMASpec} `{Paths} `{EnvSpec} {D} `{DataStoreSpec D}.
Context (r : Repository) (rh : RollingHash).
(** The blocks that are ever uploaded, with their compression. *)
Context (U : list (CompressionType * bytes)).
(** The key file. *)
Context (kf : bytes).

(** They have different names, and can be opened again. *)
Record universe_ok : Prop := {
  uo_names : forall x y, x ∈ U -> y ∈ U -> block_id r x.1 x.2 = block_id r y.1 y.2 -> x = y;
  uo_payload : Forall (fun x => zlen (payload x.1 x.2) < 2 ^ 62) U;
  uo_bound : Forall (fun x => zlen x.2 <= Z.of_nat decompress_bound) U
}.

(** The snapshot has the files [m]. *)
Record represents (w : world D) (s : Snapshot) (m : gmap (list Byte.byte) (list Byte.byte)) : Prop := {
  rp_ok : snapshot_ok s;
  rp_keyed : keyed s;
  rp_none path : m !! path = None -> getFileEntry s path = None;
  rp_some path data : m !! path = Some data -> restorable r w s path data
}.

(** A block of which the name is taken is in the store. *)
Definition blocks_ok (w : world D) : Prop :=
  forall x, x ∈ U -> objects (wstore w) (object_file (block_id r x.1 x.2)) = None \/ stored r w x.1 x.2.

(** The snapshot [name] has the files [m]. *)
Definition has_snapshot (w : world D) (name : bytes) (m : gmap (list Byte.byte) (list Byte.byte)) : Prop :=
  name <> [] /\ slash_free name /\
  exists iv s, zlen iv = EVP_MAX_IV_LENGTH /\ represents w s m /\
    objects (wstore w) (str "/snapshot/" ++ name) =
      Some (object_bytes LZMA2 (mEncKey r) (mMacKey r) iv (snapshot_bytes s)) /\
    zlen (snapshot_bytes s) <= Z.of_nat decompress_bound /\ zlen (snapshot_bytes s) < 2 ^ 62 /\
    zlen (payload LZMA2 (snapshot_bytes s)) < 2 ^ 62.

(** The system implements the backup [a]. *)
Record refines (a : backup) (x : system D) : Prop := {
  rf_store : dvalid (wstore (sys_world x));
  rf_key : objects (wstore (sys_world x)) (str "/key") = Some kf;
  rf_blocks : blocks_ok (sys_world x);
  rf_working : represents (sys_world x) (sys_snapshot x) (working a);
  rf_committed name m : committed a !! name = Some m -> has_snapshot (sys_world x) name m
}.

(** When a command can be given. *)
Definition pre (c : command) (a : backup) (x : system D) : Prop :=
  match c with
  | Upload destPath fs st =>
      exists bits bs, cut_file (mOptions r) rh (contents fs) = (bits, bs) /\
        valid fs /\ st_size st = zlen (contents fs) /\ type_of_mode (st_mode st) <> FileNotFound /\
        zlen (contents fs) < 2 ^ 46 /\ Forall (fun b => (file_compression fs st, b) ∈ U) bs /\
        splits (relative_normal destPath) /\ working a !! relative_normal destPath = None /\
        add_args (sys_snapshot x) (relative_normal destPath) (mUserName (file_info fs st))
          (mGroupName (file_info fs st)) (uwrap 16 (mMode (file_info fs st))) (zlen (contents fs))
          (mLastModifyTime (file_info fs st)) bits (md5 (contents fs)) 0 0
          (block_id r (file_compression fs st) <$> bs)
  | Pack p =>
      can_finalize r (sys_world x) (sys_snapshot x) p /\ Forall splits (pi_path <$> fileInfos p) /\
        forall b, b ∈ U -> block_id r b.1 b.2 <> pack_id r (packData p)
  | Delete _ | Create => True
  | Commit name =>
      name <> [] /\ slash_free name /\
        zlen (snapshot_bytes (sys_snapshot x)) <= Z.of_nat decompress_bound /\
        zlen (snapshot_bytes (sys_snapshot x)) < 2 ^ 62 /\
        zlen (payload LZMA2 (snapshot_bytes (sys_snapshot x))) < 2 ^ 62
  | Load name => is_Some (committed a !! name)
  end.

Lemma represents_kept w w' s m : data_kept w w' -> represents w s m -> represents w' s m.
Proof.
  intros Hk [Hok Hky Hn Hs]. constructor; try done. intros path data Hp.
  eapply restorable_kept; [exact Hk|done|exists []; by rewrite app_nil_r|done|by apply Hs].
Qed.

Lemma has_snapshot_kept w w' name m : data_kept w w' ->
  objects (wstore w') (str "/snapshot/" ++ name) = objects (wstore w) (str "/snapshot/" ++ name) ->
  has_snapshot w name m -> has_snapshot w' name m.
Proof.
  intros Hk Ho (Hn & Hs & iv & s & Hiv & Hr & Hob & Hb). split; [done|]. split; [done|]. exists iv, s.
  split; [done|]. split; [by eapply represents_kept|]. by rewrite Ho.
Qed.

(** *** One command *)

Context (Ho : options_ok (mOptions r)) (Hrh : first_hash r rh) (HU : universe_ok).

Lemma upload_refines progress pack destPath fs st a x : (forall a b x y, progress a b x y = true) ->
  refines a x -> pre (Upload destPath fs st) a x ->
  pack = None \/ smallFileSize (mOptions r) <= zlen (contents fs) ->
  exists s' w', uploadFile r pack (sys_snapshot x) destPath fs (Some st) progress (sys_world x) = (Ret (s', pack), w') /\
    refines (spec (Upload destPath fs st) a) (Build_system w' s') /\
    grown (sys_snapshot x) s' (file_room fs st destPath) (zlen (cut_file (mOptions r) rh (contents fs)).2) 1 /\
    only_blocks r (file_compression fs st) (cut_file (mOptions r) rh (contents fs)).2 (sys_world x) w'.
Proof.
  intros Hpf [Hd Hkf Hb Hw Hc] (bits & bs & Hcut & Hv & Hsz & Hex & Hlen & HinU & Hsp & Hnew & Hargs) Hpack.
  destruct HU as [Hnames Hpay Hbd]. rewrite Forall_forall in Hpay, Hbd. rewrite Forall_forall in HinU.
  set (c := file_compression fs st) in *.
  assert (can_upload r (sys_world x) (sys_snapshot x) destPath fs st (contents fs) bits bs) as Hcu.
  { constructor; try done; try (by apply Hw).
    - apply Forall_forall. intros b Hin. by apply (Hb (c, b)), HinU.
    - intros b1 b2 H1' H2' E. pose proof (Hnames (c, b1) (c, b2) (HinU _ H1') (HinU _ H2') E) as Eq.
      by injection Eq.
    - apply Forall_forall. intros b Hin. by apply (Hpay (c, b)), HinU.
    - apply Forall_forall. intros b Hin. by apply (Hbd (c, b)), HinU. }
  destruct (uploadFile_spec r progress Hpf Ho (sys_world x) (sys_snapshot x) destPath fs st (contents fs) rh bits bs
    pack Hrh Hcut Hcu Hpack) as (s' & w' & fe & E & Hok & Hd' & Hg & Hon & Hfe & Fe & (Hoth & Hids & Hky) & Hgr).
  exists s', w'. split; [exact E|]. rewrite Hcut. split; [|by split].
  pose proof (grows_data_kept _ _ Hg) as Hk. destruct Hw as [Wok Wky Wn Ws].
  destruct (cut_file_blocks r Ho (contents fs) rh bits bs Hrh Hcut Hlen) as [Hcat Hne].
  constructor; cbn [sys_world sys_snapshot spec working committed]; [done|by apply Hg; [apply path_key|]| | |].
  - intros [c' b'] Hin. cbn [fst snd].
    destruct (decide (object_file (block_id r c' b') ∈ (fun b => object_file (block_id r c b)) <$> bs)) as [Hi|Hi].
    + apply list_elem_of_fmap in Hi as (b & E' & Hbin).
      apply object_file_inj in E'; [|apply block_id_length..].
      pose proof (Hnames (c', b') (c, b) Hin (HinU _ Hbin) E') as Eq. injection Eq as -> ->. right.
      pose proof (fe_stored _ _ _ _ _ _ _ Fe) as Fst. rewrite Forall_forall in Fst. by apply Fst.
    + destruct (Hb (c', b') Hin) as [Hno|Hst]; [left|right; by eapply stored_kept].
      rewrite <-Hno. apply Hon; [by apply object_file_path, block_id_length|].
      intros b Hbin E'. cbn [fst snd] in E'. apply Hi. rewrite E'. by apply (list_elem_of_fmap_2 (fun b => object_file (block_id r c b))).
  - constructor; [done|by apply Hky| |].
    + intros path Hp. apply lookup_insert_None in Hp as [Hp Hneq]. rewrite Hoth by done. by apply Wn.
    + intros path data Hp. apply lookup_insert_Some in Hp as [[<- <-]|[Hneq Hp]].
      * eapply file_entry_restorable; try done; apply Hcu.
      * eapply restorable_kept; [exact Hk|by apply Hoth|done|done|by apply Ws].
  - intros name m Hm. pose proof (Hc name m Hm) as Hs. eapply has_snapshot_kept; [exact Hk| |exact Hs].
    destruct Hs as (Hn & Hsl & iv & s & _ & _ & Hob & _). rewrite Hob.
    by apply Hg; [apply path_snapshot|].
Qed.

Lemma exec_upload destPath fs st a x : refines a x -> pre (Upload destPath fs st) a x ->
  exists x', exec r (Upload destPath fs st) x = (Ret tt, x') /\ refines (spec (Upload destPath fs st) a) x'.
Proof.
  intros Hr Hp. destruct (upload_refines DefaultFileTransferProgressFunction None destPath fs st a x
    (fun _ _ _ _ => eq_refl) Hr Hp (or_introl eq_refl)) as (s' & w' & E & R & _).
  exists (Build_system w' s'). split; [|exact R]. unfold exec.
  rewrite (io_bind_Ret the_snapshot _ _ _ _ eq_refl). by rewrite (io_bind_Ret _ _ _ _ _ (on_world_Ret _ x _ _ E)).
Qed.

(** The objects with data are not snapshots. *)
Lemma data_not_snapshot id name : object_file id <> str "/snapshot/" ++ name.
Proof. discriminate. Qed.

Lemma pack_refines p a x : refines a x -> pre (Pack p) a x ->
  exists s' w', finalizePack r (sys_snapshot x) p (sys_world x) = (Ret (s', createPackState), w') /\
    refines (spec (Pack p) a) (Build_system w' s') /\
    grown (sys_snapshot x) s' (pack_room (fileInfos p)) (zlen (fileInfos p)) (zlen (fileInfos p)) /\
    (forall q, object_path q -> q <> object_file (pack_id r (packData p)) ->
      objects (wstore w') q = objects (wstore (sys_world x)) q) /\
    is_Some (objects (wstore w') (object_file (pack_id r (packData p)))).
Proof.
  intros [Hd Hkf Hb Hw Hc] (Hcf & Hsp & Hid).
  destruct (finalizePack_spec r (sys_world x) (sys_snapshot x) p Hcf)
    as (s' & w' & obj & infos & E & Hok & Hd' & Hz & Hob & Hoth & Hids & Hky & Hloc & Hent & Hgr).
  set (id := pack_id r (packData p)) in *.
  assert (zlen id = SHA256_DIGEST_LENGTH) as Hidl by apply hmac_length.
  pose proof (object_file_path id Hidl) as Hpid.
  exists s', w'. split; [exact E|]. split; [|split; [exact Hgr|
    split; [intros q Hq Hne; by rewrite Hob, decide_False|rewrite Hob, decide_True by done; by eexists]]].
  assert (data_kept (sys_world x) w') as Hk.
  { intros i o Hi Ho'. rewrite Hob by (by apply object_file_path). case_decide as Eq; [|done].
    pose proof (cf_absent _ _ _ _ Hcf) as Habs. fold id in Habs. congruence. }
  destruct Hw as [Wok Wky Wn Ws].
  assert (length (pi_path <$> fileInfos p) = length (packData p)) as Hlen
    by (rewrite length_fmap; apply Hcf).
  assert ((zip (pi_path <$> fileInfos p) (packData p)).*1 = pi_path <$> fileInfos p) as L1 by (apply fst_zip; lia).
  constructor; cbn [sys_world sys_snapshot spec working committed]; [done| | | |].
  - by rewrite Hob, decide_False by (apply path_key || done).
  - intros y Hin. destruct (Hb y Hin) as [Hno|Hst]; [left|right; by eapply stored_kept].
    rewrite Hob, decide_False; [done| |by apply object_file_path, block_id_length].
    intros Eq%object_file_inj; [|apply block_id_length|done]. by apply (Hid y Hin).
  - constructor; [done|by apply Hky| |].
    + intros path Hp. apply lookup_union_None in Hp as [Hp1 Hp2]. apply not_elem_of_list_to_map in Hp1.
      rewrite L1 in Hp1. rewrite Hoth by done. by apply Wn.
    + intros path data Hp. apply lookup_union_Some_raw in Hp as [Hp|[Hp1 Hp2]].
      * apply elem_of_list_to_map_2, list_elem_of_lookup_1 in Hp as [i Hi].
        apply lookup_zip_with_Some in Hi as (y & d & Epd & Hpath & Hdata). injection Epd as -> ->.
        apply list_lookup_fmap_Some in Hpath as (fi & -> & Hfi).
        destruct (finished_pack r (sys_world x) w' (sys_snapshot x) s' p obj infos i fi d Hcf Hz) as (fe & _ & _ & _ & R);
          try done. by rewrite Hob, decide_True by done.
      * apply not_elem_of_list_to_map in Hp1. rewrite L1 in Hp1.
        eapply restorable_kept; [exact Hk|by apply Hoth|done|done|by apply Ws].
  - intros name m Hm. pose proof (Hc name m Hm) as Hs. eapply has_snapshot_kept; [exact Hk| |exact Hs].
    destruct Hs as (Hn & Hsl & _). rewrite Hob by (by apply path_snapshot).
    rewrite decide_False; [done|]. intros Eq. by apply (data_not_snapshot id name).
Qed.

Lemma exec_pack p a x : refines a x -> pre (Pack p) a x ->
  exists x', exec r (Pack p) x = (Ret tt, x') /\ refines (spec (Pack p) a) x'.
Proof.
  intros Hr Hp. destruct (pack_refines p a x Hr Hp) as (s' & w' & E & R & _).
  exists (Build_system w' s'). split; [|exact R]. unfold exec.
  rewrite (io_bind_Ret the_snapshot _ _ _ _ eq_refl). by rewrite (io_bind_Ret _ _ _ _ _ (on_world_Ret _ x _ _ E)).
Qed.

Lemma exec_delete path a x : refines a x ->
  exists x', exec r (Delete path) x = (Ret tt, x') /\ refines (spec (Delete path) a) x'.
Proof.
  intros [Hd Hkf Hb [Wok Wky Wn Ws] Hc]. eexists. split; [reflexivity|].
  assert (forall path', getFileEntry (deleteFileEntry (sys_snapshot x) path) path' =
    if decide (path' = path) then None else getFileEntry (sys_snapshot x) path') as Hg.
  { intros path'. unfold getFileEntry, deleteFileEntry. cbn [mFiles]. by rewrite find_erase by apply Wok. }
  constructor; cbn [sys_world sys_snapshot spec working committed]; try done.
  constructor; [by apply deleteFileEntry_ok| | |].
  - unfold keyed, deleteFileEntry in *. cbn [mFiles]. by apply erase_Forall.
  - intros path' Hp. rewrite Hg. case_decide; [done|]. apply Wn.
    apply lookup_delete_None in Hp as [Hp|Hp]; [congruence|done].
  - intros path' data Hp. apply lookup_delete_Some in Hp as [Hne Hp].
    apply (restorable_kept r (sys_world x) (sys_world x) (sys_snapshot x)); [by apply same_data_kept| | |exact Wok|by apply Ws].
    + by rewrite Hg, decide_False.
    + exists []. by rewrite app_nil_r.
Qed.

Lemma commit_refines name a x : refines a x -> pre (Commit name) a x ->
  exists w', commitSnapshot r (sys_snapshot x) name DefaultProgressFunction (sys_world x) = (Ret tt, w') /\
    refines (spec (Commit name) a) (Build_system w' (sys_snapshot x)) /\
    forall q, object_path q -> q <> str "/snapshot/" ++ name ->
      objects (wstore w') q = objects (wstore (sys_world x)) q.
Proof.
  intros [Hd Hkf Hb Hw Hc] (Hn & Hs & Hl1 & Hl2 & Hl3). pose proof Hw as [Wok Wky Wn Ws].
  destruct (commitSnapshot_spec r (sys_snapshot x) name DefaultProgressFunction (sys_world x) Wok Hd Hn Hs
    (fun _ _ => eq_refl) Hl2 Hl3) as (iv & w' & E & Hd' & Hiv & Hob).
  exists w'. split; [exact E|]. split; [|intros q Hq Hne; by rewrite Hob, decide_False].
  assert (forall i, zlen i = SHA256_DIGEST_LENGTH ->
    objects (wstore w') (object_file i) = objects (wstore (sys_world x)) (object_file i)) as Hdata.
  { intros i Hi. rewrite Hob by (by apply object_file_path). rewrite decide_False; [done|]. apply data_not_snapshot. }
  assert (data_kept (sys_world x) w') as Hk by (intros i o Hi Ho'; by rewrite Hdata).
  constructor; cbn [sys_world sys_snapshot spec working committed]; [done| | |by eapply represents_kept|].
  - by rewrite Hob, decide_False by (apply path_key || done).
  - intros y Hin. destruct (Hb y Hin) as [Hno|Hst]; [left|right; by eapply stored_kept].
    by rewrite Hdata by apply block_id_length.
  - intros name' m Hm. apply lookup_insert_Some in Hm as [[<- <-]|[Hne Hm]].
    + split; [done|]. split; [done|]. exists iv, (sys_snapshot x). split; [done|]. split; [by eapply represents_kept|].
      split; [|done]. by rewrite Hob, decide_True by (done || by apply path_snapshot).
    + pose proof (Hc name' m Hm) as Hsn. eapply has_snapshot_kept; [exact Hk| |exact Hsn].
      destruct Hsn as (Hn' & Hs' & _). rewrite Hob, decide_False by
        (try (by apply path_snapshot); by intros Eq%app_inv_head). done.
Qed.

Lemma exec_commit name a x : refines a x -> pre (Commit name) a x ->
  exists x', exec r (Commit name) x = (Ret tt, x') /\ refines (spec (Commit name) a) x'.
Proof.
  intros Hr Hp. destruct (commit_refines name a x Hr Hp) as (w' & E & R & _).
  exists (Build_system w' (sys_snapshot x)). split; [|exact R]. unfold exec.
  rewrite (io_bind_Ret the_snapshot _ _ _ _ eq_refl). by apply on_world_Ret.
Qed.

(** A snapshot is loaded from every store that has its object. *)
Lemma load_snapshot_from (w w2 : world D) name m : dvalid (wstore w2) -> has_snapshot w name m ->
  objects (wstore w2) (str "/snapshot/" ++ name) = objects (wstore w) (str "/snapshot/" ++ name) ->
  exists s w', loadSnapshot r name DefaultProgressFunction w2 = (Ret s, w') /\ wstore w' = wstore w2 /\ represents w s m.
Proof.
  intros Hd (Hn & Hs & iv & s & Hiv & [Wok Wky Wn Ws] & Hob & Hb1 & Hb2 & Hb3) Hsame. rewrite <-Hsame in Hob.
  destruct (loadSnapshot_spec r s name iv DefaultProgressFunction w2 Wok Wky Hd Hn Hs (fun _ _ => eq_refl) Hiv Hob Hb1 Hb2)
    as (s' & w' & E & D' & Ok' & Ky' & F' & I' & _); [by apply zlen_object_bytes|].
  exists s', w'. split; [done|]. split; [done|].
  assert (forall path, getFileEntry s' path = getFileEntry s path) as Hg by (intros; unfold getFileEntry; by rewrite F').
  constructor; [done|done| |].
  - intros path Hp. rewrite Hg. by apply Wn.
  - intros path data Hp. eapply restorable_kept; [by apply (same_data_kept w)|by apply Hg| |exact Wok|by apply Ws].
    exists []. by rewrite app_nil_r.
Qed.

Lemma load_snapshot (w : world D) name m : dvalid (wstore w) -> has_snapshot w name m ->
  exists s w', loadSnapshot r name DefaultProgressFunction w = (Ret s, w') /\ wstore w' = wstore w /\ represents w' s m.
Proof.
  intros Hd Hs. destruct (load_snapshot_from w w name m Hd Hs eq_refl) as (s & w' & E & D' & Hr).
  exists s, w'. split; [done|]. split; [done|]. eapply represents_kept; [by apply same_data_kept|done].
Qed.

Lemma exec_load name a x : refines a x -> pre (Load name) a x ->
  exists x', exec r (Load name) x = (Ret tt, x') /\ refines (spec (Load name) a) x'.
Proof.
  intros [Hd Hkf Hb Hw Hc] [m Hm].
  destruct (load_snapshot (sys_world x) name m Hd (Hc name m Hm)) as (s & w' & E & D' & Hr).
  exists (Build_system w' s). split.
  { unfold exec. rewrite (io_bind_Ret the_snapshot _ _ _ _ eq_refl).
    by rewrite (io_bind_Ret _ _ _ _ _ (on_world_Ret _ x _ _ E)). }
  pose proof (same_data_kept _ _ D') as Hk.
  constructor; cbn [sys_world sys_snapshot spec working committed]; [by rewrite D'|by rewrite D'| |by rewrite Hm|].
  - intros y Hin. rewrite D'. destruct (Hb y Hin) as [Hno|Hst]; [by left|right; by eapply stored_kept].
  - intros name' m' Hm'. eapply has_snapshot_kept; [exact Hk|by rewrite D'|by apply Hc].
Qed.

Lemma represents_empty w : represents w new_Snapshot ∅.
Proof. constructor; [apply new_Snapshot_ok|by constructor|done|done]. Qed.

(** Every command implements its specification. *)
Lemma exec_refines c a x : refines a x -> pre c a x ->
  exists x', exec r c x = (Ret tt, x') /\ refines (spec c a) x'.
Proof.
  intros Hr Hp. destruct c.
  - by apply exec_upload.
  - by apply exec_pack.
  - by apply exec_delete.
  - by apply exec_commit.
  - by apply exec_load.
  - eexists. split; [reflexivity|]. destruct Hr as [Hd Hkf Hb _ Hc]. constructor; try done. apply represents_empty.
Qed.

(** *** All commands *)

(** Every command has its precondition when it is given: that a command completes
    is not a part of it. *)
Fixpoint pre_all (cs : list command) (a : backup) (x : system D) : Prop :=
  match cs with
  | [] => True
  | c :: cs => pre c a x /\ forall x', exec r c x = (Ret tt, x') -> pre_all cs (spec c a) x'
  end.

Definition spec_all (cs : list command) (a : backup) : backup := foldl (fun a c => spec c a) a cs.

Lemma exec_all_refines cs a x : refines a x -> pre_all cs a x ->
  exists x', exec_all r cs x = (Ret tt, x') /\ refines (spec_all cs a) x'.
Proof.
  revert a x. induction cs as [|c cs IH]; intros a x Hr Hp; [by exists x|]. destruct Hp as [Hc Hp].
  destruct (exec_refines c a x Hr Hc) as (x1 & E & R1).
  destruct (IH _ x1 R1 (Hp x1 E)) as (x' & E' & R'). exists x'. split; [|done].
  cbn [exec_all]. by rewrite (io_bind_Ret _ _ _ _ _ E).
Qed.
End Refinement.

(** * Properties *)

Section Properties.
Context `{EVPSpec} `{LZMASpec} `{Paths} `{EnvSpec} {D} `{DataStoreSpec D}.

(** What can be restored from a system: every snapshot and every file of it. *)
Definition recovers {Out} `{OutputStreamSpec Out} (r : Repository) (w : world D)
    (name : bytes) (m : gmap (list Byte.byte) (list Byte.byte)) : Prop :=
  exists s w', loadSnapshot r name DefaultProgressFunction w = (Ret s, w') /\ wstore w' = wstore w /\
    forall path (out : Out), ovalid out -> match m !! path with
      | Some data => fits out (zlen data) -> exists out' w2,
          downloadFile r s path out DefaultFileTransferProgressFunction w' = (Ret (true, out'), w2) /\
          wstore w2 = wstore w /\ written out' = written out ++ data
      | None => downloadFile r s path out DefaultFileTransferProgressFunction w' = (Ret (false, out), w')
      end.

Lemma has_snapshot_recovers {Out} `{OutputStreamSpec Out} r (w : world D) name m : dvalid (wstore w) ->
  has_snapshot r w name m -> recovers (Out := Out) r w name m.
Proof.
  intros Hd Hs. destruct (load_snapshot r w name m Hd Hs) as (s & w' & E & D' & [Wok _ Wn Ws]).
  exists s, w'. split; [done|]. split; [done|]. intros path out Hout. destruct (m !! path) as [data|] eqn:Em.
  - intros Hf. rewrite <-D' in Hd.
    destruct (restorable_download r w' s path data DefaultFileTransferProgressFunction out (fun _ _ _ _ => eq_refl)
      Wok Hd (Ws path data Em) Hout Hf) as (out' & w2 & E2 & D2 & W2).
    exists out', w2. split; [done|]. by rewrite D2, D'.
  - unfold downloadFile, download_into. by rewrite Wn.
Qed.

(** Only the keys of the repository matter. *)
Lemma has_snapshot_with_keys rn r (w : world D) name m : has_snapshot r w name m ->
  has_snapshot (with_keys rn r) w name m.
Proof.
  intros (Hn & Hs & iv & s & Hiv & [Wok Wky Wn Ws] & R). split; [done|]. split; [done|].
  exists iv, s. split; [done|]. split; [by constructor|done].
Qed.

Lemma represents_with_keys rn r (w : world D) s m : represents r w s m -> represents (with_keys rn r) w s m.
Proof. intros [Wok Wky Wn Ws]. by constructor. Qed.

Lemma refines_with_keys rn r U kf a (x : system D) : refines r U kf a x -> refines (with_keys rn r) U kf a x.
Proof.
  intros [Hd Hk Hb Hw Hc]. constructor; [exact Hd|exact Hk|exact Hb|by apply represents_with_keys|].
  intros name m Hm. by apply has_snapshot_with_keys, Hc.
Qed.

(** C2: refinement: from a state that implements a backup, commands of which each
    has its precondition when it is given (a new path for an upload, a pack that
    the store does not have yet, a name for a commit, a committed name for a
    load, room in the snapshot, and blocks without clashes of identifiers) all
    complete, and the state they reach implements the backup that their
    specification says.  That a command completes is proved, not assumed. *)
Theorem backup_refinement r rh U kf cs a (x : system D)
    (Ho : options_ok (mOptions r)) (Hrh : first_hash r rh) (HU : universe_ok r U)
    (Hr : refines r U kf a x) (Hpre : pre_all r rh U cs a x) :
  exists x', exec_all r cs x = (Ret tt, x') /\ refines r U kf (spec_all cs a) x'.
Proof. by apply (exec_all_refines r rh U kf Ho Hrh HU). Qed.

(** C1: disaster recovery: initialise a repository with a password in a store
    without its blocks, give any commands, and forget everything but the store
    and the password.  Then [unlockRepository] of a new object accepts the
    password, and with its keys every snapshot that was committed is loaded, all
    its files are downloaded with exactly the contents they had when it was
    committed, and the files it does not have are reported as missing. *)
Theorem disaster_recovery {Out} `{OutputStreamSpec Out} r0 r rh U password logRounds (w0 w1 : world D) cs
    (Hlog : 0 <= logRounds <= MAX_LOG_ROUNDS) (Hd : dvalid (wstore w0))
    (Hinit : initializeRepository r0 password logRounds DefaultProgressFunction w0 = (Ret r, w1))
    (Ho : options_ok (mOptions r0)) (Hrh : first_hash r rh) (HU : universe_ok r U) (Hblocks : blocks_ok r U w0)
    (Hpre : pre_all r rh U cs empty_backup (Build_system w1 createSnapshot)) :
  exists x, exec_all r cs (Build_system w1 createSnapshot) = (Ret tt, x) /\
    forall rn (w2 : world D), wstore w2 = wstore (sys_world x) ->
      exists w3, unlockRepository rn password DefaultProgressFunction w2 = (Ret (true, with_keys rn r), w3) /\
        wstore w3 = wstore w2 /\
        forall name m, committed (spec_all cs empty_backup) !! name = Some m ->
          recovers (Out := Out) (with_keys rn r) w3 name m.
Proof.
  destruct (initializeRepository_spec r0 password logRounds DefaultProgressFunction w0 Hlog Hd (fun _ _ => eq_refl))
    as (r' & salt & iv & derived & junk & w1' & E & Hk & Hopt & Hkf & Hoth).
  rewrite Hinit in E. injection E as <- <-. pose proof Hkf as (Hd1 & _ & Ls & Li & Lj & Hder & Hkey).
  set (kf := key_bytes _ _ _ _ _) in Hkey.
  assert (refines r U kf empty_backup (Build_system w1 createSnapshot)) as Hr.
  { constructor; cbn [sys_world sys_snapshot]; [done|exact Hkey| |apply represents_empty|done].
    intros y Hin. assert (objects (wstore w1) (object_file (block_id r y.1 y.2)) =
      objects (wstore w0) (object_file (block_id r y.1 y.2))) as Eo
      by (apply Hoth; [by apply object_file_path, block_id_length|done]).
    rewrite Eo. destruct (Hblocks y Hin) as [Hno|(iv' & ? & ?)]; [by left|]. right. exists iv'. by rewrite Eo. }
  rewrite <-Hopt in Ho.
  destruct (exec_all_refines r rh U kf Ho Hrh HU cs empty_backup _ Hr Hpre) as (x & Ex & [Xd Xk _ _ Xc]).
  exists x. split; [done|]. intros rn w2 Hw2.
  assert (has_key_file w2 r password salt iv derived junk logRounds) as Hkf2
    by (unfold has_key_file; rewrite Hw2; split_and!; done || lia).
  destruct (unlockRepository_spec w2 r rn password password salt iv derived derived junk logRounds DefaultProgressFunction
    Hk Hkf2 (fun _ _ => eq_refl) Hder) as (w3 & D3 & Hok & _). specialize (Hok eq_refl).
  exists w3. split; [done|]. split; [done|]. intros name m Hm.
  apply has_snapshot_recovers; [by rewrite D3, Hw2|]. apply has_snapshot_with_keys.
  eapply (has_snapshot_kept r); [apply (same_data_kept (sys_world x)); by rewrite D3, Hw2|by rewrite D3, Hw2|by apply Xc].
Qed.
End Properties.

(** ** A concrete backup *)

Module SampleBackup.
Definition password : bytes := str "secret".
Definition initial : result Repository * world FileDataStore :=
  initializeRepository Demo.repo password 4 DefaultProgressFunction Demo.start.
Definition repo : Repository := match fst initial with Ret r => r | _ => Demo.repo end.
Definition hash : RollingHash := match new_RollingHash (mRollKey repo) 8192 with Ret h => h | _ => Sample.hash0 end.
Definition blocks : list (CompressionType * bytes) := [(LZMA2, str "some text")].

Definition world0 : world FileDataStore := snd initial.
Definition x0 : system FileDataStore := Build_system world0 createSnapshot.
Definition add_file : command := Upload (str "/d/a.txt") Sample.file Sample.info.
Definition x1 := snd (exec repo add_file x0).
Definition x2 := snd (exec repo (Commit (str "s1")) x1).
Definition commands : list command := [add_file; Commit (str "s1"); Delete (str "d/a.txt")].

Lemma initialised :
  initializeRepository Demo.repo password 4 DefaultProgressFunction Demo.start = (Ret repo, world0).
Proof. vm_compute. reflexivity. Qed.

Lemma sample_hash : first_hash repo hash.
Proof.
  destruct (new_RollingHash_wf (mRollKey repo) 8192) as (h & E & _); [lia|].
  unfold first_hash, hash. by rewrite E.
Qed.

Lemma blocks_known : universe_ok repo blocks.
Proof.
  constructor.
  - intros x y ->%list_elem_of_singleton ->%list_elem_of_singleton. done.
  - apply Forall_singleton. vm_compute. reflexivity.
  - apply Forall_singleton. vm_compute. discriminate.
Qed.

Lemma blocks_new : blocks_ok repo blocks Demo.start.
Proof. intros x ->%list_elem_of_singleton. left. vm_compute. reflexivity. Qed.

Lemma exec1 : exec repo add_file x0 = (Ret tt, x1).
Proof. vm_compute. reflexivity. Qed.
Lemma exec2 : exec repo (Commit (str "s1")) x1 = (Ret tt, x2).
Proof. vm_compute. reflexivity. Qed.

Lemma pre1 : pre repo hash blocks add_file empty_backup x0.
Proof.
  exists 0, [str "some text"]. split; [vm_compute; reflexivity|].
  split; [apply Sample.ready|]. split; [reflexivity|]. split; [discriminate|]. split; [vm_compute; reflexivity|].
  split; [by apply Forall_singleton, list_elem_of_singleton|].
  split; [vm_compute; reflexivity|]. split; [reflexivity|]. solve_args.
Qed.

Lemma bytes1 : exists l, snapshot_bytes (sys_snapshot x1) = l /\ zlen l <= 4096 /\ zlen (payload LZMA2 l) <= 8192.
Proof.
  eexists. split; [vm_compute; reflexivity|]. split; vm_compute; discriminate.
Qed.

Lemma pre2 : pre repo hash blocks (Commit (str "s1")) (spec add_file empty_backup) x1.
Proof.
  split; [discriminate|]. split; [unfold slash_free; refine (bool_decide_unpack _ _); vm_compute; exact I|].
  destruct bytes1 as (l & -> & H1 & H2). assert (4096 <= Z.of_nat decompress_bound) by (vm_compute; discriminate).
  split; [lia|]. split; lia.
Qed.

Lemma commands_ok : pre_all repo hash blocks commands empty_backup x0.
Proof.
  split; [exact pre1|]. intros y1 E1. rewrite exec1 in E1. apply io_Ret_inj in E1 as [_ <-].
  split; [exact pre2|]. intros y2 E2. rewrite exec2 in E2. apply io_Ret_inj in E2 as [_ <-].
  split; [exact I|]. intros y3 E3. exact I.
Qed.

Lemma committed_file : exists m, committed (spec_all commands empty_backup) !! str "s1" = Some m /\
  m !! str "d/a.txt" = Some (str "some text").
Proof.
  assert (relative_normal (str "/d/a.txt") = str "d/a.txt") as Hp by (vm_compute; reflexivity).
  exists (working (spec add_file empty_backup)). split.
  - unfold spec_all, commands. cbn [foldl spec add_file committed working]. apply lookup_insert_eq.
  - cbn [spec add_file working]. rewrite Hp, lookup_insert_eq. by rewrite (cu_contents _ _ _ _ _ _ _ _ _ Sample.ready).
Qed.

Lemma x0_refines : exists kf, refines repo blocks kf empty_backup x0.
Proof.
  assert (0 <= 4 <= MAX_LOG_ROUNDS) as H4 by (vm_compute; split; discriminate).
  destruct (initializeRepository_spec Demo.repo password 4 DefaultProgressFunction Demo.start H4 Demo.start_ok
    (fun _ _ => eq_refl)) as (r' & salt & iv & derived & junk & w1 & E & _ & _ & (Hd & _ & _ & _ & _ & _ & Hk) & _).
  rewrite initialised in E. apply io_Ret_inj in E as [<- <-]. eexists.
  constructor; [exact Hd|exact Hk| |apply represents_empty|done].
  intros x ->%list_elem_of_singleton. left. vm_compute. reflexivity.
Qed.
End SampleBackup.

Lemma backup_refinement_witness :
  exists kf x', exec_all SampleBackup.repo SampleBackup.commands SampleBackup.x0 = (Ret tt, x') /\
    refines SampleBackup.repo SampleBackup.blocks kf (spec_all SampleBackup.commands empty_backup) x'.
Proof.
  destruct SampleBackup.x0_refines as (kf & Hr).
  destruct (backup_refinement SampleBackup.repo SampleBackup.hash SampleBackup.blocks kf SampleBackup.commands
    empty_backup SampleBackup.x0 default_options_ok SampleBackup.sample_hash SampleBackup.blocks_known Hr
    SampleBackup.commands_ok) as (x' & E & R).
  exists kf, x'. split; [exact E|exact R].
Defined.

Lemma disaster_recovery_witness :
  exists x w3 m,
    exec_all SampleBackup.repo SampleBackup.commands (Build_system SampleBackup.world0 createSnapshot) = (Ret tt, x) /\
    unlockRepository Demo.repo (str "secret") DefaultProgressFunction (sys_world x) =
      (Ret (true, with_keys Demo.repo SampleBackup.repo), w3) /\
    m !! str "d/a.txt" = Some (str "some text") /\
    recovers (Out := MemoryOutputStream) (with_keys Demo.repo SampleBackup.repo) w3 (str "s1") m.
Proof.
  assert (0 <= 4 <= MAX_LOG_ROUNDS) as H4 by (vm_compute; split; discriminate).
  destruct (disaster_recovery (Out := MemoryOutputStream) Demo.repo SampleBackup.repo SampleBackup.hash
    SampleBackup.blocks SampleBackup.password 4 Demo.start SampleBackup.world0 SampleBackup.commands H4
    Demo.start_ok SampleBackup.initialised default_options_ok SampleBackup.sample_hash SampleBackup.blocks_known
    SampleBackup.blocks_new SampleBackup.commands_ok) as (x & E & R).
  destruct SampleBackup.committed_file as (m & Hm & Hf).
  destruct (R Demo.repo (sys_world x) eq_refl) as (w3 & E3 & _ & Hr).
  exists x, w3, m. split; [exact E|]. split; [exact E3|]. split; [exact Hf|]. exact (Hr _ _ Hm).
Defined.
