(* ===== verification/Cli.v ===== *)
(** * Main.cpp: options, prompts, output and the choice of the command

    The parts of the program that do not touch a repository.  The console is the
    bytes to be read from standard input, the bytes written to standard output
    and whether the terminal echoes.  [getopt_long], which is not C++, is given
    as the list of what it returns and the arguments it leaves. *)
From S2P Require Import Prelude Streams Filesystem Snapshot DataStore.
From Stdlib Require Import ZArith Lia SpecFloat.

(** ** Options *)

Record CliOptions := { quiet : bool; verify : bool; dryRun : bool; force : bool; backend : bytes }.

(** [Options::Options()] *)
Definition default_CliOptions : CliOptions :=
  {| quiet := false; verify := true; dryRun := false; force := false; backend := [] |}.

(** A value of [getopt_long]: 0 with the name of a long option, or a character
    with [optarg]; what it does not know is ['?']. *)
Inductive option_event := opt_long (name : bytes) | opt_char (c : byte) (optarg : bytes).

(** The body of the loop; [None] is [printHelp(); return -1]. *)
Definition set_option (o : CliOptions) (e : option_event) : option CliOptions :=
  match e with
  | opt_long name =>
      Some (if bool_decide (name = str "no-verify")
            then {| quiet := quiet o; verify := false; dryRun := dryRun o; force := force o; backend := backend o |}
            else o)
  | opt_char Byte.x71 _ =>    (* 'q' *)
      Some {| quiet := true; verify := verify o; dryRun := dryRun o; force := force o; backend := backend o |}
  | opt_char Byte.x6e _ =>    (* 'n' *)
      Some {| quiet := quiet o; verify := verify o; dryRun := true; force := force o; backend := backend o |}
  | opt_char Byte.x66 _ =>    (* 'f' *)
      Some {| quiet := quiet o; verify := verify o; dryRun := dryRun o; force := true; backend := backend o |}
  | opt_char Byte.x62 arg =>  (* 'b' *)
      Some {| quiet := quiet o; verify := verify o; dryRun := dryRun o; force := force o; backend := arg |}
  | opt_char _ _ => None
  end.

Fixpoint read_options (o : CliOptions) (l : list option_event) : option CliOptions :=
  match l with
  | [] => Some o
  | e :: l => o ← set_option o e; read_options o l
  end.

(** ** The command line *)

Inductive action :=
  | Init (repo : list Byte.byte)
  | BackupFiles (repo snapshotName : list Byte.byte) (files : list (list Byte.byte))
  | Restore (repo snapshotName : list Byte.byte) (files : list (list Byte.byte))
  | ListSnapshots (repo : list Byte.byte)
  | ListSnapshot (repo snapshotName : list Byte.byte)
  | Password (repo : list Byte.byte)
  | Nothing.

(** The [switch] of [main], on [argv + optind], of at least two arguments. *)
Definition dispatch (act repo : bytes) (rest : list bytes) : result action :=
  match act with
  | Byte.x69 :: _ =>   (* 'i' *)
      if bool_decide (act <> str "init") then Throw InvalidArgumentException else Ret (Init repo)
  | Byte.x62 :: _ =>   (* 'b' *)
      if bool_decide (act <> str "backup") then Throw InvalidArgumentException
      else
        match rest with
        | [] => Throw InvalidArgumentException
        | [_] => Throw InvalidArgumentException
        | name :: files => Ret (BackupFiles repo name files)
        end
  | Byte.x72 :: _ =>   (* 'r' *)
      if bool_decide (act = str "restore") then
        match rest with
        | [] => Throw InvalidArgumentException
        | name :: files => Ret (Restore repo name files)
        end
      else Throw InvalidArgumentException
  | Byte.x6c :: _ =>   (* 'l' *)
      if bool_decide (act <> str "list") then Throw InvalidArgumentException
      else
        match rest with
        | [] => Ret (ListSnapshots repo)
        | name :: _ => Ret (ListSnapshot repo name)
        end
  | Byte.x70 :: _ =>   (* 'p' *)
      if bool_decide (act <> str "password") then Throw InvalidArgumentException else Ret (Password repo)
  | _ => Ret Nothing
  end.

(** [main] up to the choice of the command; [None] is [printHelp(); return -1]. *)
Definition command_line (events : list option_event) (args : list bytes) : option (CliOptions * result action) :=
  o ← read_options default_CliOptions events;
  match args with
  | act :: repo :: rest => Some (o, dispatch act repo rest)
  | _ => None
  end.

(** ** The console *)

Record console := { stdin : bytes; stdout : bytes; echo : bool }.

Definition print (text : bytes) : io console unit :=
  fun c => (Ret tt, {| stdin := stdin c; stdout := stdout c ++ text; echo := echo c |}).
Definition enableConsoleOutput (enable : bool) : io console unit :=
  fun c => (Ret tt, {| stdin := stdin c; stdout := stdout c; echo := enable |}).

Definition newline : byte := Byte.x0a.

(** Up to [n] bytes, up to and with the first newline. *)
Fixpoint line (n : nat) (input : bytes) : bytes :=
  match n, input with
  | S n, b :: input => b :: (if decide (b = newline) then [] else line n input)
  | _, _ => []
  end.

(** [fgets(buffer, size, stdin)]: the bytes stored before the NUL, or the null
    pointer at the end of the input. *)
Definition fgets (size : Z) : io console (option bytes) := fun c =>
  match stdin c with
  | [] => (Ret None, c)
  | _ =>
      let l := line (Z.to_nat (size - 1)) (stdin c) in
      (Ret (Some l), {| stdin := zdrop (zlen l) (stdin c); stdout := stdout c; echo := echo c |})
  end.

(** [fgetc(stdin)], where [None] is EOF. *)
Definition fgetc : io console (option byte) := fun c =>
  match stdin c with
  | [] => (Ret None, c)
  | b :: rest => (Ret (Some b), {| stdin := rest; stdout := stdout c; echo := echo c |})
  end.

(** The string in a buffer: up to the first NUL. *)
Definition c_str (l : bytes) : bytes := default l (cstring l).

(** [while(passwd1[--n] == '\n') passwd1[n] = 0;] for the string in the buffer;
    at 0 the index wraps around. *)
Fixpoint trim_newlines (n : nat) (l : bytes) : result bytes :=
  match n with
  | O => Undef
  | S n =>
      c ← or_undef (l !! n);
      if decide (c = newline) then trim_newlines n (take n l) else Ret l
  end.

(** Runs [body] and then [onExit], however it ends. *)
Definition finally {A} (body : io console A) (onExit : io console unit) : io console A :=
  fun c => let (a, c) := body c in (a, snd (onExit c)).

(** [promptReadPassword] *)
Definition promptReadPassword (confirm : bool) : io console bytes :=
  _ ← enableConsoleOutput false;
  finally
    (_ ← print (str "Password: ");
     passwd1 ← fgets 64;
     match passwd1 with
     | None => throw InvalidDataException
     | Some passwd1 =>
         _ ← print [newline];
         _ ← (if confirm then
                _ ← print (str "Confirm password: ");
                passwd2 ← fgets 64;
                match passwd2 with
                | None => throw InvalidDataException
                | Some passwd2 =>
                    _ ← print [newline];
                    if bool_decide (c_str passwd1 <> c_str passwd2) then throw InvalidDataException else mret tt
                end
              else mret tt);
         lift (trim_newlines (length (c_str passwd1)) (c_str passwd1))
     end)
    (enableConsoleOutput true).

(** [promptInput] *)
Definition promptInput (prompt : bytes) (isPassword : bool) : io console bytes :=
  _ ← (if isPassword then enableConsoleOutput false else mret tt);
  finally
    (_ ← print (prompt ++ str ": ");
     inputString ← fgets 64;
     match inputString with
     | None => throw InvalidDataException
     | Some inputString =>
         _ ← print [newline];
         lift (trim_newlines (length (c_str inputString)) (c_str inputString))
     end)
    (if isPassword then enableConsoleOutput true else mret tt).

(** ** Where the repository is *)

Inductive repository_backend :=
  | S3Backend (bucket accessKey secretKey : list Byte.byte)
  | FileBackend (path : list Byte.byte).

(** [createDataStoreFromRepository]; a string made of the null pointer that
    [getenv] returns for a missing variable is undefined. *)
Definition createDataStoreFromRepository (o : CliOptions) (getenv : bytes -> option bytes) (exists_path : bytes -> bool)
    (repo : bytes) : io console repository_backend :=
  if bool_decide (backend o = str "s3") then
    accessKey ← lift (or_undef (getenv (str "AWS_ACCESS_KEY")));
    secretKey ← lift (or_undef (getenv (str "AWS_SECRET_KEY")));
    accessKey ← (if zlen accessKey =? 0 then promptInput (str "Aws Access Key: ") true else mret accessKey);
    secretKey ← (if zlen secretKey =? 0 then promptInput (str "Aws Secret Key: ") true else mret secretKey);
    mret (S3Backend repo accessKey secretKey)
  else if negb (exists_path repo) then throw InvalidRepositoryException
  else mret (FileBackend repo).

(** * Specification *)

(** A line as a user types it, short enough for the buffer. *)
Record typed (pw : bytes) : Prop := {
  typed_line : newline ∉ pw;
  typed_text : no_nul pw;
  typed_short : zlen pw <= 62
}.

Lemma line_spec pw : forall n rest, newline ∉ pw -> (length pw < n)%nat ->
  line n (pw ++ newline :: rest) = pw ++ [newline].
Proof.
  induction pw as [|b pw IH]; intros [|n] rest Hn Hl; try (cbn in Hl; lia).
  - cbn [line app]. by rewrite decide_True.
  - apply not_elem_of_cons in Hn as [Hb Hn]. cbn [line app length] in *. rewrite decide_False by done. by rewrite IH by (done || lia).
Qed.

Lemma line_full n : forall input, (n <= length input)%nat -> newline ∉ take n input -> line n input = take n input.
Proof.
  induction n as [|n IH]; intros [|b input] Hl Hn; cbn [line take length] in *; try done; try lia.
  apply not_elem_of_cons in Hn as [Hb Hn]. rewrite decide_False by done. by rewrite IH by (done || lia).
Qed.

Lemma c_str_text l : no_nul l -> c_str l = l.
Proof.
  unfold c_str. intros Hn. assert (cstring l = None) as ->; [|done].
  induction l as [|b l IH]; [done|]. apply not_elem_of_cons in Hn as [Hb Hn]. cbn [cstring].
  rewrite decide_False by done. by rewrite IH.
Qed.

Lemma no_nul_line pw : no_nul pw -> no_nul (pw ++ [newline]).
Proof. intros Hn Hin. apply elem_of_app in Hin as [Hin|Hin]; [done|]. by apply list_elem_of_singleton in Hin. Qed.

(** What the loop leaves of a line, and of a text without a newline. *)
Lemma trim_text l : l <> [] -> newline ∉ l -> trim_newlines (length l) l = Ret l.
Proof.
  intros Hne Hn. destruct l as [|x k _] using rev_ind; [done|]. rewrite length_app, Nat.add_1_r. cbn [trim_newlines].
  rewrite list_lookup_middle by done. cbn [or_undef mbind result_bind]. rewrite decide_False; [done|].
  intros ->. apply Hn, elem_of_app. right. by apply list_elem_of_singleton.
Qed.

Lemma trim_line pw : newline ∉ pw ->
  trim_newlines (length (pw ++ [newline])) (pw ++ [newline]) = if decide (pw = []) then Undef else Ret pw.
Proof.
  intros Hn. rewrite length_app, Nat.add_1_r. cbn [trim_newlines].
  rewrite list_lookup_middle by done. cbn [or_undef mbind result_bind]. rewrite decide_True, take_app_length by done.
  destruct (decide (pw = [])) as [->|]; [done|by apply trim_text].
Qed.

Lemma fgets_line o e pw rest : typed pw ->
  fgets 64 {| stdin := pw ++ newline :: rest; stdout := o; echo := e |} =
  (Ret (Some (pw ++ [newline])), {| stdin := rest; stdout := o; echo := e |}).
Proof.
  intros [Hn _ Hl]. unfold fgets. cbn [stdin stdout echo]. change (Z.to_nat (64 - 1)) with 63%nat.
  rewrite zlen_length in Hl. rewrite line_spec by (done || lia).
  assert (zdrop (zlen (pw ++ [newline])) (pw ++ newline :: rest) = rest) as ->.
  { change (newline :: rest) with ([newline] ++ rest). rewrite app_assoc. by apply zdrop_app_exact. }
  by destruct pw.
Qed.

Lemma fgets_full o e text : newline ∉ ztake 63 text -> 63 <= zlen text ->
  fgets 64 {| stdin := text; stdout := o; echo := e |} =
  (Ret (Some (ztake 63 text)), {| stdin := zdrop 63 text; stdout := o; echo := e |}).
Proof.
  intros Hn Hl. unfold fgets. cbn [stdin stdout echo]. change (Z.to_nat (64 - 1)) with 63%nat.
  rewrite ztake_take in Hn. change (Z.to_nat 63) with 63%nat in Hn. rewrite zlen_length in Hl.
  rewrite line_full by (done || lia). rewrite ztake_take. change (Z.to_nat 63) with 63%nat.
  assert (zlen (take 63 text) = 63) as -> by (rewrite zlen_length, length_take; lia). by destruct text.
Qed.

(** C37: what [promptReadPassword] makes of its input.  A line gives its text
    without the newline; an empty line makes the trimming loop run below the
    buffer, which is undefined; the confirmation must be the same line, or
    InvalidDataException is thrown, as it is at the end of the input; of a line
    of 63 characters or more the first 63 are the password and the rest stays in
    the input.  The terminal echoes again afterwards, whatever happened. *)
Theorem prompt_password_correct c pw pw2 rest (Hpw : typed pw) (Hpw2 : typed pw2) :
  let result := if decide (pw = []) then Undef else Ret pw in
  (stdin c = pw ++ newline :: rest -> promptReadPassword false c =
     (result, {| stdin := rest; stdout := stdout c ++ str "Password: " ++ [newline]; echo := true |})) /\
  (stdin c = pw ++ newline :: pw2 ++ newline :: rest -> promptReadPassword true c =
     (if decide (pw = pw2) then result else Throw InvalidDataException,
      {| stdin := rest; echo := true;
         stdout := stdout c ++ str "Password: " ++ [newline] ++ str "Confirm password: " ++ [newline] |})) /\
  (forall text, no_nul (ztake 63 text) -> newline ∉ ztake 63 text -> 63 <= zlen text -> stdin c = text ->
     promptReadPassword false c =
     (Ret (ztake 63 text), {| stdin := zdrop 63 text; stdout := stdout c ++ str "Password: " ++ [newline]; echo := true |})) /\
  (forall confirm, stdin c = [] -> promptReadPassword confirm c =
     (Throw InvalidDataException, {| stdin := []; stdout := stdout c ++ str "Password: "; echo := true |})).
Proof.
  pose proof (typed_line _ Hpw) as Hn. pose proof (no_nul_line _ (typed_text _ Hpw)) as Ht.
  pose proof (no_nul_line _ (typed_text _ Hpw2)) as Ht2. intros result.
  destruct c as [i o e]. unfold promptReadPassword, finally, enableConsoleOutput, print, lift, throw, mbind, io_bind, mret, io_ret.
  cbn [stdin stdout echo]. split; [|split; [|split]].
  - intros ->. rewrite fgets_line by done. cbn [stdin stdout snd]. rewrite c_str_text, trim_line, <-app_assoc by done.
    by destruct (decide (pw = [])).
  - intros ->. rewrite fgets_line by done. cbn [stdin stdout echo snd]. rewrite fgets_line by done.
    cbn [stdin stdout echo snd]. rewrite !c_str_text, trim_line, <-!app_assoc by done.
    destruct (decide (pw = pw2)) as [->|Hne].
    + rewrite bool_decide_eq_false_2 by naive_solver. by destruct (decide (pw2 = [])).
    + rewrite bool_decide_eq_true_2; [done|]. by intros E%app_inv_tail.
  - intros text Htext Hnl Hl ->. rewrite fgets_full by done. cbn [stdin stdout snd].
    rewrite c_str_text by done. rewrite trim_text, <-app_assoc; [done| |done].
    intros E. apply (f_equal zlen) in E. rewrite zlen_ztake in E by lia. cbn in E. lia.
  - by intros confirm ->.
Qed.

Lemma prompt_password_correct_witness :
  promptReadPassword false {| stdin := str "secret" ++ [newline]; stdout := []; echo := true |} =
    (Ret (str "secret"), {| stdin := []; stdout := str "Password: " ++ [newline]; echo := true |}) /\
  promptReadPassword false {| stdin := [newline]; stdout := []; echo := true |} =
    (Undef, {| stdin := []; stdout := str "Password: " ++ [newline]; echo := true |}).
Proof.
  assert (typed (str "secret")) as H1 by (split; [refine (bool_decide_unpack _ _); vm_compute; exact I
    |unfold no_nul; refine (bool_decide_unpack _ _); vm_compute; exact I|vm_compute; discriminate]).
  assert (typed []) as H2 by (split; [refine (bool_decide_unpack _ _); vm_compute; exact I
    |unfold no_nul; refine (bool_decide_unpack _ _); vm_compute; exact I|vm_compute; discriminate]).
  split.
  - apply (prompt_password_correct {| stdin := str "secret" ++ [newline]; stdout := []; echo := true |} _ _ [] H1 H1).
    reflexivity.
  - apply (prompt_password_correct {| stdin := [newline]; stdout := []; echo := true |} _ _ [] H2 H2). reflexivity.
Defined.
