(* ===== verification/CliFormat.v ===== *)
(** * Main.cpp: what is printed

    The text of [printf] for the conversions the program uses, with the double
    arithmetic of [formatBytes] done in binary64 (SpecFloat); the progress line
    and the line of a file in the listing of a snapshot. *)
From S2P Require Import Prelude Filesystem Snapshot Cli.
From Stdlib Require Import ZArith Lia SpecFloat.

(** ** printf *)

Definition digit (d : Z) : byte := z2b (48 + d).

(** The decimal digits of a number of at most [fuel] digits. *)
Fixpoint digits (fuel : nat) (n : Z) (acc : bytes) : bytes :=
  match fuel with
  | O => acc
  | S fuel => if n <? 10 then digit n :: acc else digits fuel (n / 10) (digit (n mod 10) :: acc)
  end.

(** ["%ld"], ["%llu"]: a 64-bit number has at most 20 digits. *)
Definition decimal (n : Z) : bytes :=
  if n <? 0 then Byte.x2d :: digits 20 (- n) [] else digits 20 n [].

Definition spaces (n : Z) : bytes := replicate (Z.to_nat n) Byte.x20.
(** ["%10s"] and ["%-10s"]. *)
Definition pad_left (width : Z) (text : bytes) : bytes := spaces (width - zlen text) ++ text.
Definition pad_right (width : Z) (text : bytes) : bytes := text ++ spaces (width - zlen text).

(** [(double)n], and division of doubles. *)
Definition double_of (n : Z) : spec_float := binary_normalize 53 1024 n 0 false.
Definition double_div : spec_float -> spec_float -> spec_float := SFdiv 53 1024.

(** A number times 2^e, rounded to an integer, halves to even. *)
Definition round_even (m e : Z) : Z :=
  if 0 <=? e then m * 2 ^ e
  else
    let q := m / 2 ^ (- e) in
    let r := m mod 2 ^ (- e) in
    match Z.compare (2 * r) (2 ^ (- e)) with
    | Lt => q
    | Gt => q + 1
    | Eq => if Z.even q then q else q + 1
    end.

(** ["%.2f"] of a finite number that is not negative; [None] of others, which
    [formatBytes] does not print. *)
Definition fixed2 (f : spec_float) : option bytes :=
  let text n := decimal (n / 100) ++ [Byte.x2e; digit (n / 10 mod 10); digit (n mod 10)] in
  match f with
  | S754_zero false => Some (text 0)
  | S754_finite false m e => Some (text (round_even (Zpos m * 100) e))
  | _ => None
  end.

(** [snprintf(outString, maxLen, ...)] *)
Definition truncated (maxLen : Z) (text : bytes) : bytes := ztake (maxLen - 1) text.

(** [formatBytes] *)
Definition formatBytes (n maxLen : Z) : option bytes :=
  let scaled divisor unit :=
    s ← fixed2 (double_div (double_of n) (double_of divisor)); Some (truncated maxLen (s ++ unit)) in
  if n <? 1000 then Some (truncated maxLen (decimal n ++ str " b"))
  else if n <? 1000000 then scaled 1000 (str " KB")
  else if n <? 1000000000 then scaled 1000000 (str " MB")
  else if n <? 1000000000000 then scaled 1000000000 (str " GB")
  else scaled 1000000000000 (str " TB").

(** ** The progress line *)

(** [for(; i < limit; i += 5) fputc(c, stdout);] *)
Fixpoint fill (fuel : nat) (c : byte) (i limit : Z) : bytes * Z :=
  match fuel with
  | O => ([], i)
  | S fuel => if i <? limit then let (l, j) := fill fuel c (i + 5) limit in (c :: l, j) else ([], i)
  end.

Definition progress_bar (percent : Z) : bytes :=
  let (done_, i) := fill (Z.to_nat percent) Byte.x23 0 percent in
  done_ ++ fst (fill 20 Byte.x20 i 100).

(** [printProgress], of a division of long that must not overflow; [now] is
    [time(nullptr)]. *)
Definition printProgress (o : CliOptions) (blockNo blockMax bytesTransferred bytesTotal startTime now : Z)
  : option bytes :=
  if quiet o then Some []
  else
    let percent := if 0 <? bytesTotal then Z.quot (bytesTransferred * 100) bytesTotal else 100 in
    let number :=
      if blockMax <? 0 then str "# " ++ pad_left 7 (decimal (blockNo + 1))
      else str "# " ++ pad_left 3 (decimal (blockNo + 1)) ++ str "/" ++ pad_right 3 (decimal blockMax) in
    let timeDelta := now - startTime in
    let avgBytesPerSec := if 0 <? timeDelta then Z.quot bytesTransferred timeDelta else 0 in
    bytesTransferredString ← formatBytes bytesTransferred 32;
    bytesTotalString ← formatBytes bytesTotal 32;
    avgBytesPerSecString ← formatBytes avgBytesPerSec 32;
    Some (str "  " ++ number ++ str " [" ++ progress_bar percent ++ str "] " ++ bytesTransferredString ++ str " / "
            ++ bytesTotalString ++ str "  (" ++ avgBytesPerSecString ++ str "/s)          " ++ [Byte.x0d]).

(** ** The listing of a snapshot *)

(** [if(c) modeString[i] = ch;] *)
Definition set_if (c : bool) (i : Z) (ch : byte) (l : bytes) : bytes := if c then zset i ch l else l.
Definition has_bit (mode bit : Z) : bool := negb (Z.land mode bit =? 0).

(** [modeString] of an entry; the masks are octal in the source. *)
Definition modeString (type mode : Z) : bytes :=
  let s := str "----------" in
  let s := set_if (type =? FileType_code Directory) 0 Byte.x64 s in
  let s := set_if (type =? FileType_code SymbolicLink) 0 Byte.x6c s in
  let s := set_if (type =? FileType_code BlockDevice) 0 Byte.x62 s in
  let s := set_if (type =? FileType_code CharacterDevice) 0 Byte.x63 s in
  let s := set_if (has_bit mode 256) 1 Byte.x72 s in
  let s := set_if (has_bit mode 128) 2 Byte.x77 s in
  let s := set_if (has_bit mode 64) 3 Byte.x78 s in
  let s := set_if (has_bit mode 32) 4 Byte.x72 s in
  let s := set_if (has_bit mode 16) 5 Byte.x77 s in
  let s := set_if (has_bit mode 8) 6 Byte.x78 s in
  let s := set_if (has_bit mode 4) 7 Byte.x72 s in
  let s := set_if (has_bit mode 2) 8 Byte.x77 s in
  let s := set_if (has_bit mode 1) 9 Byte.x78 s in
  let s := set_if (has_bit mode 2048) 3 (if has_bit mode 64 then Byte.x73 else Byte.x53) s in
  let s := set_if (has_bit mode 1024) 6 (if has_bit mode 8 then Byte.x73 else Byte.x53) s in
  set_if (has_bit mode 512) 9 (if has_bit mode 1 then Byte.x74 else Byte.x54) s.

(** The line of an entry, of the callback of [listSnapshot]. *)
Definition listing_line `{Paths} (s : Snapshot) (fe : FileEntry) : result bytes :=
  user ← indexToString s (userIndex fe);
  group ← indexToString s (groupIndex fe);
  name ← indexToString s (nameIndex fe);
  path ← indexToString s (pathIndex fe);
  Ret (pad_right 11 (modeString (ftype fe) (mode fe)) ++ str " " ++ pad_right 8 user ++ str " " ++ pad_right 8 group
         ++ str " " ++ pad_left 10 (decimal (fsize fe)) ++ str " " ++ path_append path name ++ [newline]).

(** * Specification *)

Lemma set_if_cons c i ch x l : 0 < i -> set_if c i ch (x :: l) = x :: set_if c (i - 1) ch l.
Proof. intros Hi. unfold set_if. destruct c; [|done]. cbn [zset]. by destruct (Z.eqb_spec i 0); [lia|]. Qed.

(** The letter of the type, and those of the permissions. *)
Definition type_letter (type : Z) : byte :=
  if type =? FileType_code Directory then Byte.x64
  else if type =? FileType_code SymbolicLink then Byte.x6c
  else if type =? FileType_code BlockDevice then Byte.x62
  else if type =? FileType_code CharacterDevice then Byte.x63
  else Byte.x2d.

Lemma modeString_type type mode : exists permissions,
  modeString type mode = type_letter type :: permissions /\ forall type', exists c, modeString type' mode = c :: permissions.
Proof.
  unfold modeString.
  set (perms := set_if (has_bit mode 512) 8 (if has_bit mode 1 then Byte.x74 else Byte.x54)
    (set_if (has_bit mode 1024) 5 (if has_bit mode 8 then Byte.x73 else Byte.x53)
    (set_if (has_bit mode 2048) 2 (if has_bit mode 64 then Byte.x73 else Byte.x53)
    (set_if (has_bit mode 1) 8 Byte.x78 (set_if (has_bit mode 2) 7 Byte.x77 (set_if (has_bit mode 4) 6 Byte.x72
    (set_if (has_bit mode 8) 5 Byte.x78 (set_if (has_bit mode 16) 4 Byte.x77 (set_if (has_bit mode 32) 3 Byte.x72
    (set_if (has_bit mode 64) 2 Byte.x78 (set_if (has_bit mode 128) 1 Byte.x77 (set_if (has_bit mode 256) 0 Byte.x72
      (str "---------"))))))))))))).
  assert (forall t, exists c, set_if (t =? FileType_code CharacterDevice) 0 Byte.x63
    (set_if (t =? FileType_code BlockDevice) 0 Byte.x62 (set_if (t =? FileType_code SymbolicLink) 0 Byte.x6c
    (set_if (t =? FileType_code Directory) 0 Byte.x64 (str "----------")))) = c :: str "---------" /\ c = type_letter t) as Ht.
  { intros t. unfold type_letter, FileType_code.
    destruct (Z.eqb_spec t 2) as [->|]; [by eexists|]. destruct (Z.eqb_spec t 6) as [->|]; [by eexists|].
    destruct (Z.eqb_spec t 4) as [->|]; [by eexists|]. destruct (Z.eqb_spec t 3) as [->|]; by eexists. }
  exists perms. split; [|intros type']; [destruct (Ht type) as (c & -> & <-)|destruct (Ht type') as (c & -> & _); exists c];
    rewrite !set_if_cons by lia; reflexivity.
Qed.

(** The mode that nine letters of permissions show. *)
Definition letter_bits (l : bytes) (i : nat) (bits : list (byte * Z)) : Z :=
  match l !! i with
  | Some ch => default 0 (snd <$> List.find (fun p => bool_decide (fst p = ch)) bits)
  | None => 0
  end.
Definition mode_of_letters (l : bytes) : Z :=
  letter_bits l 1 [(Byte.x72, 256)] + letter_bits l 2 [(Byte.x77, 128)] +
  letter_bits l 3 [(Byte.x78, 64); (Byte.x73, 64 + 2048); (Byte.x53, 2048)] +
  letter_bits l 4 [(Byte.x72, 32)] + letter_bits l 5 [(Byte.x77, 16)] +
  letter_bits l 6 [(Byte.x78, 8); (Byte.x73, 8 + 1024); (Byte.x53, 1024)] +
  letter_bits l 7 [(Byte.x72, 4)] + letter_bits l 8 [(Byte.x77, 2)] +
  letter_bits l 9 [(Byte.x78, 1); (Byte.x74, 1 + 512); (Byte.x54, 512)].

Lemma mode_of_letters_tail c c' l : mode_of_letters (c :: l) = mode_of_letters (c' :: l).
Proof. reflexivity. Qed.

(** The [n] modes from [z] are shown right. *)
Fixpoint modes_shown (n : nat) (z : Z) : bool :=
  match n with
  | O => true
  | S n => (mode_of_letters (modeString 1 z) =? z) && modes_shown n (z + 1)
  end.

Lemma modes_shown_spec n : forall z z', modes_shown n z = true -> z <= z' < z + Z.of_nat n ->
  mode_of_letters (modeString 1 z') = z'.
Proof.
  induction n as [|n IH]; intros z z' Hs Hz; cbn [modes_shown] in Hs; [lia|].
  apply andb_prop in Hs as [H1%Z.eqb_eq H2]. destruct (decide (z' = z)) as [->|]; [done|].
  apply (IH (z + 1)); [done|lia].
Qed.

Lemma all_modes_shown : modes_shown 4096 0 = true.
Proof. vm_compute. reflexivity. Qed.

(** The mode shown by the listing determines the mode of the file: from
    its nine letters all twelve bits (permissions, set-user, set-group, sticky)
    can be read back, whatever the type; the first letter is that of the type
    and does not depend on the mode. *)
Theorem mode_string_roundtrip type mode (Hm : 0 <= mode < 4096) :
  mode_of_letters (modeString type mode) = mode /\ head (modeString type mode) = Some (type_letter type) /\
  length (modeString type mode) = 10%nat.
Proof.
  destruct (modeString_type type mode) as (l & E & Hl). destruct (Hl 1) as [c Ec].
  pose proof (modes_shown_spec 4096 0 mode all_modes_shown ltac:(lia)) as F.
  rewrite E. split; [|split; [done|]]; [rewrite <-F, Ec; apply mode_of_letters_tail|].
  rewrite <-E. unfold modeString. 
  assert (forall c i ch l, length (set_if c i ch l) = length l) as Hlen.
  { intros b i ch k. unfold set_if. destruct b; [|done]. apply Nat2Z.inj. by rewrite <-!zlen_length, zlen_zset. }
  by rewrite !Hlen.
Qed.

Lemma mode_string_roundtrip_witness :
  mode_of_letters (modeString 1 2541) = 2541 /\ modeString 1 2541 = str "-rwsr-xr-x".
Proof. split; [apply (mode_string_roundtrip 1 2541); lia|reflexivity]. Defined.
