(* ===== verification/CliCommands.v ===== *)
(** * Main.cpp: the commands

    A process has the repository's store and clock, the console, and the part of
    the file system it backs up and restores to.  The printing of the progress
    functions is left out: they are given as their answers ([!sUserCancelled]). *)
From S2P Require Import Prelude Crypto Streams MemoryStreams FileStreams CompositeStreams CryptoStreams Lzma.
From S2P Require Import StdMap Filesystem Snapshot DataStore FileDataStore Repository Upload Cli CliFormat.
From Stdlib Require Import ZArith Lia.

(** What the commands ask of the system besides files: [getenv], [stat], the
    files below a directory (boost's recursive_directory_iterator), and the path
    without the symbolic links of its part that exists
    (boost::filesystem::weakly_canonical). *)
Class Host := {
  getenv : bytes -> option bytes;
  exists_path : bytes -> bool;
  stat_path : bytes -> option stat;
  files_below : bytes -> list bytes;
  weakly_canonical : bytes -> bytes
}.

(** The one path that has nothing that could exist. *)
Class HostSpec `{Host} := weakly_canonical_nil : weakly_canonical [] = [].

(** [boost::filesystem::relative] *)
Definition relative `{Host} (p base : bytes) : bytes :=
  lexically_relative (weakly_canonical p) (weakly_canonical base).

Record process (D : Type) := {
  pworld : world D; pconsole : console; pdisk : disk; pdirs : gset (list Byte.byte); pstderr : bytes
}.
Arguments pworld {D} p.
Arguments pconsole {D} p.
Arguments pdisk {D} p.
Arguments pdirs {D} p.
Arguments pstderr {D} p.
Arguments Build_process {D} _ _ _ _ _.

Section Code.
Context `{EVP} `{LZMA} `{Paths} `{Env} `{Host} {D} `{DataStore D}.
Context (o : CliOptions) (progress : FileTransferProgressFunction).

Definition on_repo {A} (m : io (world D) A) : io (process D) A := fun p =>
  let (a, w) := m (pworld p) in (a, Build_process w (pconsole p) (pdisk p) (pdirs p) (pstderr p)).
Definition on_console {A} (m : io console A) : io (process D) A := fun p =>
  let (a, c) := m (pconsole p) in (a, Build_process (pworld p) c (pdisk p) (pdirs p) (pstderr p)).
Definition put_disk (d : disk) : io (process D) unit := fun p =>
  (Ret tt, Build_process (pworld p) (pconsole p) d (pdirs p) (pstderr p)).
Definition put_dirs (d : gset (list Byte.byte)) : io (process D) unit := fun p =>
  (Ret tt, Build_process (pworld p) (pconsole p) (pdisk p) d (pstderr p)).

Definition printf (text : bytes) : io (process D) unit := on_console (print text).
Definition puts_ (text : bytes) : io (process D) unit := printf (text ++ [newline]).
(** [if(!options.quiet) printf(...)] *)
Definition say (text : bytes) : io (process D) unit := if quiet o then mret tt else printf text.

(** [Repository repo(dataStore.get())], whose keys are uninitialised. *)
Definition the_repository : io (process D) Repository :=
  t ← on_repo tick; mret (new_Repository t None).

(** The first statements of most commands. *)
Definition open_repository (repository : bytes) : io (process D) Repository :=
  _ ← on_console (createDataStoreFromRepository o getenv exists_path repository);
  r ← the_repository;
  password ← on_console (promptReadPassword false);
  '(ok, r) ← on_repo (unlockRepository r (c_str password) DefaultProgressFunction);
  if negb (ok : bool) then throw RepositoryException else mret r.

(** [initializeRepository], with the default of 2^17 rounds. *)
Definition cli_initializeRepository (repository : bytes) : io (process D) unit :=
  _ ← on_console (createDataStoreFromRepository o getenv exists_path repository);
  r ← the_repository;
  password ← on_console (promptReadPassword true);
  _ ← on_repo (initializeRepository r (c_str password) 17 DefaultProgressFunction);
  say (str "Repository initialized." ++ [newline]).

(** *** Backup *)

(** [boost::filesystem::is_directory] *)
Definition is_directory (path : bytes) : io (process D) bool := fun p => (Ret (bool_decide (path ∈ pdirs p)), p).

(** A file, of an argument or of a directory. *)
Definition backup_file (r : Repository) (path : bytes) (state : Snapshot * PackUploadState)
  : io (process D) (Snapshot * PackUploadState) :=
  _ ← say (path ++ [newline]);
  if dryRun o then mret state
  else
    p ← get_state;
    fs ← lift (open_FileStream (pdisk p) path FM_Read);
    '(snapshot, pack) ← on_repo (uploadFile r (Some (snd state)) (fst state) path fs (stat_path path) progress);
    pack ← lift (or_undef pack);
    _ ← say [newline];
    mret (snapshot, pack).

Fixpoint backup_list (r : Repository) (paths : list bytes) (state : Snapshot * PackUploadState)
  : io (process D) (Snapshot * PackUploadState) :=
  match paths with
  | [] => mret state
  | path :: paths =>
      d ← is_directory path;
      state ← (if (d : bool) then mret state else backup_file r path state);
      backup_list r paths state
  end.

(** An argument, with the pack that is finished after it. *)
Definition backup_arg (r : Repository) (arg : bytes) (state : Snapshot * PackUploadState)
  : io (process D) (Snapshot * PackUploadState) :=
  d ← is_directory arg;
  state ← (if (d : bool) then backup_list r (files_below arg) state else backup_file r arg state);
  on_repo (finalizePack r (fst state) (snd state)).

Fixpoint backup_args (r : Repository) (args : list bytes) (state : Snapshot * PackUploadState)
  : io (process D) (Snapshot * PackUploadState) :=
  match args with
  | [] => mret state
  | arg :: args => state ← backup_arg r arg state; backup_args r args state
  end.

(** [backupFiles] *)
Definition backupFiles (repository snapshotName : bytes) (args : list bytes) : io (process D) unit :=
  r ← open_repository repository;
  '(snapshot, _) ← backup_args r args (createSnapshot, createPackState);
  on_repo (commitSnapshot r snapshot snapshotName DefaultProgressFunction).

(** *** Listing *)

Fixpoint print_names (names : list (option bytes)) : io (process D) unit :=
  match names with
  | [] => mret tt
  | None :: names => print_names names
  | Some name :: names => _ ← puts_ name; print_names names
  end.

(** [listSnapshots] *)
Definition cli_listSnapshots (repository : bytes) : io (process D) unit :=
  r ← open_repository repository;
  names ← on_repo (listSnapshots DefaultProgressFunction);
  print_names names.

Fixpoint print_entries (s : Snapshot) (entries : list FileEntry) : io (process D) unit :=
  match entries with
  | [] => mret tt
  | fe :: entries => text ← lift (listing_line s fe); _ ← printf text; print_entries s entries
  end.

(** [listSnapshot] *)
Definition listSnapshot (repository snapshotName : bytes) : io (process D) unit :=
  r ← open_repository repository;
  snapshot ← on_repo (loadSnapshot r snapshotName DefaultProgressFunction);
  print_entries snapshot (forEachFileEntry snapshot).

(** *** Restore *)

Definition exists_file (p : process D) (path : bytes) : bool :=
  bool_decide (is_Some (files (pdisk p) !! path)) || bool_decide (path ∈ pdirs p).

(** [boost::filesystem::create_directories] *)
Definition make_directories (path : bytes) : io (process D) unit :=
  p ← get_state;
  if existsb (fun a => bool_decide (is_Some (files (pdisk p) !! a))) (ancestors path) then throw filesystem_error
  else put_dirs (list_to_set (ancestors path) ∪ pdirs p).

(** [FileStream outStream(path, FileMode::Write)]: a directory cannot be opened. *)
Definition open_output (path : bytes) : io (process D) FileStream :=
  p ← get_state;
  if decide (path ∈ pdirs p) then throw FileNotFoundException
  else
    fs ← lift (open_FileStream (pdisk p) path FM_Write);
    _ ← put_disk (mDisk fs);
    mret fs.

(** [while((n = inStream.read(...)) > 0)] *)
Fixpoint digest_loop {In} `{InputStream In} (fuel : nat) (ctx : DigestCtx) (i : In) : result DigestCtx :=
  '(buffer, i) ← read i 8192;
  if 0 <? zlen buffer then
    match fuel with
    | O => NoFuel
    | S fuel =>
        ctx ← or_throw (EVP_DigestUpdate ctx buffer) VerificationFailedException;
        digest_loop fuel ctx i
    end
  else Ret ctx.

(** [if(options.verify)]: the message of the exception is made of a
    std::strstream that was not terminated, which is undefined. *)
Definition verify_file (path : bytes) (fe : FileEntry) : io (process D) unit :=
  p ← get_state;
  inStream ← lift (open_FileStream (pdisk p) path FM_Read);
  ctx ← lift (or_throw EVP_DigestInit VerificationFailedException);
  ctx ← lift (digest_loop (remaining inStream) ctx inStream);
  md ← lift (or_throw (EVP_DigestFinal ctx) VerificationFailedException);
  if bool_decide (ztake MD5_DIGEST_LENGTH md = ztake MD5_DIGEST_LENGTH (fmd5 fe)) then mret tt else lift Undef.

(** A block with an output file: its destructor closes it, also when the block
    is left by an exception, and the file keeps what was written. *)
Definition on_output {A} (outStream : FileStream) (m : io (world D * FileStream) A) : io (process D) A := fun p =>
  let '(a, (w, outStream)) := m (pworld p, outStream) in
  (a, Build_process w (pconsole p) (mDisk (fs_close outStream)) (pdirs p) (pstderr p)).

(** The download of one file to [filePath]. *)
Definition restore_file (r : Repository) (s : Snapshot) (source filePath : bytes) (fe : FileEntry)
  : io (process D) unit :=
  parent ← is_directory (parent_path filePath);
  _ ← (if parent : bool then mret tt else make_directories (parent_path filePath));
  outStream ← open_output filePath;
  _ ← on_output outStream (download_into r s source progress);
  _ ← say [newline];
  if verify o then verify_file filePath fe else mret tt.

(** The question before a file is overwritten; a single character is read. *)
Definition may_write (filePath : bytes) : io (process D) bool :=
  p ← get_state;
  if negb (force o) && negb (dryRun o) && exists_file p filePath then
    _ ← printf (filePath ++ str ": File exists. Overwrite (y/n)? ");
    c ← on_console fgetc;
    if bool_decide (c <> Some Byte.x79) then mret false
    else _ ← say [newline]; mret true
  else mret true.

(** The callback of [downloadFiles]. *)
Definition restore_entry (r : Repository) (s : Snapshot) (destDir srcFile : bytes) (fe : FileEntry)
  : io (process D) unit :=
  name ← lift (indexToString s (nameIndex fe));
  path ← lift (indexToString s (pathIndex fe));
  let filePath := path_append destDir (relative (path ++ str "/" ++ name) (parent_path srcFile)) in
  ok ← may_write filePath;
  if negb (ok : bool) then mret tt
  else
    _ ← say (filePath ++ [newline]);
    if dryRun o then mret tt else restore_file r s (path ++ str "/" ++ name) filePath fe.

Fixpoint restore_entries (r : Repository) (s : Snapshot) (destDir srcFile : bytes) (entries : list FileEntry)
  : io (process D) unit :=
  match entries with
  | [] => mret tt
  | fe :: entries =>
      _ ← restore_entry r s destDir srcFile fe;
      restore_entries r s destDir srcFile entries
  end.

Fixpoint restore_sources (r : Repository) (s : Snapshot) (destDir : bytes) (sources : list bytes)
  : io (process D) unit :=
  match sources with
  | [] => mret tt
  | srcFile :: sources =>
      entries ← lift (forEachFileEntry_in s srcFile);
      _ ← restore_entries r s destDir srcFile entries;
      restore_sources r s destDir sources
  end.

(** The last argument, and the files before it: all files when there is no
    other.  Without arguments [argv[argc - 1]] is the name of the snapshot. *)
Definition restore_arguments (snapshotName : bytes) (args : list bytes) : list bytes * bytes :=
  match args with
  | [] => ([], snapshotName)
  | [dest] => ([[]], dest)
  | _ => (removelast args, List.last args [])
  end.

(** [downloadFiles] *)
Definition downloadFiles (repository snapshotName : bytes) (args : list bytes) : io (process D) unit :=
  let (sources, destDir) := restore_arguments snapshotName args in
  d ← is_directory destDir;
  if negb (d : bool) then throw InvalidArgumentException
  else
    r ← open_repository repository;
    snapshot ← on_repo (loadSnapshot r snapshotName DefaultProgressFunction);
    restore_sources r snapshot destDir sources.

(** *** The password, and [main] *)

(** [changePassword] *)
Definition cli_changePassword (repository : bytes) : io (process D) unit :=
  _ ← on_console (createDataStoreFromRepository o getenv exists_path repository);
  r ← the_repository;
  _ ← printf (str "Old password" ++ [newline]);
  oldPassword ← on_console (promptReadPassword false);
  '(ok, r) ← on_repo (unlockRepository r (c_str oldPassword) DefaultProgressFunction);
  if negb (ok : bool) then throw RepositoryException
  else
    _ ← printf (str "New password" ++ [newline]);
    newPassword ← on_console (promptReadPassword true);
    _ ← on_repo (changePassword r (c_str oldPassword) (c_str newPassword) 17 DefaultProgressFunction);
    printf (str "Password updated." ++ [newline]).

(** The calls of the [switch]. *)
Definition run (a : action) : io (process D) unit :=
  match a with
  | Init repo => cli_initializeRepository repo
  | BackupFiles repo name files => backupFiles repo name files
  | Restore repo name files => downloadFiles repo name files
  | ListSnapshots repo => cli_listSnapshots repo
  | ListSnapshot repo name => listSnapshot repo name
  | Password repo => cli_changePassword repo
  | Nothing => mret tt
  end.

(** [catch(const std::exception& e)]; the text of the message is left out. *)
Definition catching (m : io (process D) unit) : io (process D) unit := fun p =>
  match m p with
  | (Throw e, p) => (Ret tt, Build_process (pworld p) (pconsole p) (pdisk p) (pdirs p)
                               (pstderr p ++ newline :: str "error: "))
  | r => r
  end.
End Code.

(** [main]: the exit status. *)
Definition main_ `{EVP} `{LZMA} `{Paths} `{Env} `{Host} {D} `{DataStore D} (progress : FileTransferProgressFunction)
    (events : list option_event) (args : list bytes) : io (process D) Z :=
  match command_line events args with
  | None => mret (-1)
  | Some (o, act) =>
      _ ← catching (match act with Ret a => run o progress a | Throw e => throw e | Undef => lift Undef | NoFuel => lift NoFuel end);
      mret 0
  end.
