(* ===== verification/CliSpec.v ===== *)
(** * What the commands of Main.cpp achieve

    The console, opening a repository with a typed password and what a dry run of
    a backup does, over the specifications of the repository. *)
From S2P Require Import Prelude Crypto Streams MemoryStreams FileStreams CompositeStreams CryptoStreams Lzma StreamUtils.
From S2P Require Import StdMap Filesystem Snapshot DataStore FileDataStore Repository RepositoryKeys Upload.
From S2P Require Import RepositoryFiles FileTransfer PackFiles Backup Cli CliFormat CliCommands.
From Stdlib Require Import ZArith Lia.


Section Spec.
Context `{EVPSpec} `{LZMASpec} `{Paths} `{EnvSpec} `{Host} {D} `{DataStoreSpec D}.
Context (o : CliOptions) (progress : FileTransferProgressFunction) (r : Repository).
Implicit Types p : process D.

(** What a step keeps that only uses the console. *)
Definition keeps p p' : Prop :=
  wstore (pworld p') = wstore (pworld p) /\ pdisk p' = pdisk p /\ pdirs p' = pdirs p.

Lemma keeps_refl p : keeps p p.
Proof. done. Qed.
Lemma keeps_trans p1 p2 p3 : keeps p1 p2 -> keeps p2 p3 -> keeps p1 p3.
Proof. intros (?&?&?) (?&?&?). split_and!; congruence. Qed.

Lemma on_repo_Ret {A} (m : io (world D) A) p a w : m (pworld p) = (Ret a, w) ->
  on_repo m p = (Ret a, Build_process w (pconsole p) (pdisk p) (pdirs p) (pstderr p)).
Proof. intros E. unfold on_repo. by rewrite E. Qed.

Lemma on_repo_Throw {A} (m : io (world D) A) p e w : m (pworld p) = (Throw e, w) ->
  on_repo m p = (Throw e, Build_process w (pconsole p) (pdisk p) (pdirs p) (pstderr p)).
Proof. intros E. unfold on_repo. by rewrite E. Qed.

Lemma on_console_Ret {A} (m : io console A) p a c : m (pconsole p) = (Ret a, c) ->
  on_console m p = (Ret a, Build_process (pworld p) c (pdisk p) (pdirs p) (pstderr p)).
Proof. intros E. unfold on_console. by rewrite E. Qed.

(** Printing only changes the output. *)
Lemma say_spec text p : exists p', say o text p = (Ret tt, p') /\ keeps p p' /\ stdin (pconsole p') = stdin (pconsole p).
Proof. unfold say. destruct (quiet o); by eexists. Qed.

Lemma printf_spec text p : exists p', printf text p = (Ret tt, p') /\ keeps p p' /\ stdin (pconsole p') = stdin (pconsole p).
Proof. by eexists. Qed.

(** ** Opening a repository *)

(** The process after one tick of the clock. *)
Definition ticked p : process D :=
  Build_process (Build_world (wstore (pworld p)) (S (wclock (pworld p)))) (pconsole p) (pdisk p) (pdirs p) (pstderr p).

(** How every command on a directory begins. *)
Lemma repository_prefix {A} p repo (k : Repository -> io (process D) A) : backend o <> str "s3" -> exists_path repo = true ->
  (_ ← on_console (createDataStoreFromRepository o getenv exists_path repo); r ← the_repository; k r) p =
    k (new_Repository (wclock (pworld p)) None) (ticked p).
Proof.
  intros Hb Hex. unfold createDataStoreFromRepository. rewrite bool_decide_eq_false_2 by done. rewrite Hex. cbn [negb].
  assert (on_console (mret (FileBackend repo)) p = (Ret (FileBackend repo), p)) as E by (by destruct p).
  rewrite (io_bind_Ret _ _ _ _ _ E).
  unfold the_repository. rewrite io_bind_assoc. by rewrite (io_bind_Ret _ _ _ _ _ (on_repo_Ret tick _ _ _ eq_refl)).
Qed.

Lemma prompt_line c pw rest : typed pw -> pw <> [] -> stdin c = pw ++ newline :: rest ->
  exists c', promptReadPassword false c = (Ret pw, c') /\ stdin c' = rest.
Proof.
  intros Hpw Hne Hin. destruct c as [i out e]. cbn [stdin] in Hin. subst i.
  unfold promptReadPassword, finally, enableConsoleOutput, print, lift, mbind, io_bind, mret, io_ret.
  cbn [stdin stdout echo]. rewrite fgets_line by done. cbn [stdin stdout snd].
  rewrite c_str_text by apply no_nul_line, Hpw. rewrite trim_line by apply Hpw.
  rewrite decide_False by done. by eexists.
Qed.

Lemma prompt_lines c pw rest : typed pw -> pw <> [] -> stdin c = pw ++ newline :: pw ++ newline :: rest ->
  exists c', promptReadPassword true c = (Ret pw, c') /\ stdin c' = rest.
Proof.
  intros Hpw Hne Hin. destruct c as [i out e]. cbn [stdin] in Hin. subst i.
  unfold promptReadPassword, finally, enableConsoleOutput, print, lift, throw, mbind, io_bind, mret, io_ret.
  cbn [stdin stdout echo]. rewrite fgets_line by done. cbn [stdin stdout echo snd]. rewrite fgets_line by done.
  cbn [stdin stdout echo snd]. rewrite bool_decide_eq_false_2 by naive_solver.
  rewrite c_str_text by apply no_nul_line, Hpw. rewrite trim_line by apply Hpw.
  rewrite decide_False by done. by eexists.
Qed.

(** The user types a line with a password for a repository that is there. *)
Record can_type p (repo pw rest : bytes) : Prop := {
  ct_backend : backend o <> str "s3";
  ct_exists : exists_path repo = true;
  ct_typed : typed pw;
  ct_nonempty : pw <> [];
  ct_stdin : stdin (pconsole p) = pw ++ newline :: rest
}.

Lemma open_repository_spec p repo pw salt iv derived junk logRounds rest :
  can_type p repo pw rest -> keys_ok r -> has_key_file (pworld p) r pw salt iv derived junk logRounds ->
  exists rn p', open_repository o repo p = (Ret (with_keys rn r), p') /\ keeps p p' /\ stdin (pconsole p') = rest /\
    mOptions rn = default_Options.
Proof.
  intros [Hb Hex Hpw Hne Hin] Hk Hkf. unfold open_repository. rewrite repository_prefix by done. unfold ticked.
  set (rn := new_Repository (wclock (pworld p)) None).
  destruct (prompt_line (pconsole p) pw rest Hpw Hne Hin) as (c & Ec & Hc).
  set (w1 := Build_world (wstore (pworld p)) (S (wclock (pworld p)))).
  rewrite (io_bind_Ret _ _ _ _ _ (on_console_Ret _ (Build_process w1 _ _ _ _) _ _ Ec)).
  cbn [pworld pconsole pdisk pdirs pstderr].
  rewrite c_str_text by apply Hpw. pose proof Hkf as (_ & _ & _ & _ & _ & Hder & _).
  assert (has_key_file w1 r pw salt iv derived junk logRounds) as Hkf1 by exact Hkf.
  destruct (unlockRepository_spec w1 r rn pw pw salt iv derived derived junk logRounds DefaultProgressFunction
    Hk Hkf1 (fun _ _ => eq_refl) Hder) as (w2 & D2 & Hok & _). specialize (Hok eq_refl).
  rewrite (io_bind_Ret _ _ _ _ _ (on_repo_Ret _ (Build_process w1 _ _ _ _) _ _ Hok)).
  cbn [negb pworld pconsole pdisk pdirs pstderr]. exists rn. eexists. split; [reflexivity|]. by split.
Qed.

(** ** The commands *)

(** [repo] can be opened with the password typed by the user. *)
Record can_open p (repo pw rest : bytes) : Prop := {
  co_type : can_type p repo pw rest;
  co_keys : keys_ok r;
  co_key_file : exists salt iv derived junk logRounds, has_key_file (pworld p) r pw salt iv derived junk logRounds
}.

Lemma can_open_spec p repo pw rest : can_open p repo pw rest ->
  exists rn p', open_repository o repo p = (Ret (with_keys rn r), p') /\ keeps p p' /\ stdin (pconsole p') = rest /\
    mOptions rn = default_Options.
Proof. intros [? ? (salt & iv & derived & junk & lr & Hkf)]. by eapply open_repository_spec. Qed.
End Spec.

(** * Properties *)

Section Properties.
Context `{EVPSpec} `{LZMASpec} `{Paths} `{EnvSpec} `{Host} {D} `{DataStoreSpec D}.
Context (o : CliOptions) (progress : FileTransferProgressFunction) (r : Repository).

(** Where [restore] of a whole snapshot writes a file. *)
(** A dry run reads and stores nothing before the snapshot is committed. *)
Lemma dry_run_list (rn : Repository) l state : forall p : process D, dryRun o = true ->
  exists p', backup_list o progress rn l state p = (Ret state, p') /\ keeps p p'.
Proof.
  intros p Hdry. revert p. induction l as [|path l IH]; intros p; cbn [backup_list]; [by exists p|].
  rewrite (io_bind_Ret (is_directory path) _ p _ p eq_refl).
  assert (exists p1, (if bool_decide (path ∈ pdirs p) then mret state else backup_file o progress rn path state) p
    = (Ret state, p1) /\ keeps p p1) as (p1 & E1 & K1).
  { destruct (bool_decide _); [by exists p|]. unfold backup_file. rewrite Hdry.
    destruct (say_spec o (path ++ [newline]) p) as (p1 & E1 & K1 & _). exists p1.
    by rewrite (io_bind_Ret _ _ _ _ _ E1). }
  rewrite (io_bind_Ret _ _ _ _ _ E1). destruct (IH p1) as (p' & E & K). exists p'. split; [exact E|].
  by eapply keeps_trans.
Qed.

Lemma dry_run_args (rn : Repository) args : forall p : process D, dryRun o = true ->
  exists p', backup_args o progress rn args (createSnapshot, createPackState) p = (Ret (createSnapshot, createPackState), p') /\
    keeps p p'.
Proof.
  set (state := (createSnapshot, createPackState)).
  intros p Hdry. revert p. induction args as [|arg args IH]; intros p; cbn [backup_args]; [by exists p|].
  assert (exists p1, backup_arg o progress rn arg state p = (Ret state, p1) /\ keeps p p1) as (p1 & E1 & K1).
  { unfold backup_arg. rewrite (io_bind_Ret (is_directory arg) _ p _ p eq_refl).
    assert (exists p1, (if bool_decide (arg ∈ pdirs p) then backup_list o progress rn (files_below arg) state
      else backup_file o progress rn arg state) p = (Ret state, p1) /\ keeps p p1) as (p1 & E1 & K1).
    { destruct (bool_decide _); [by apply dry_run_list|]. unfold backup_file. rewrite Hdry.
      destruct (say_spec o (arg ++ [newline]) p) as (p1 & E1 & K1 & _). exists p1.
      by rewrite (io_bind_Ret _ _ _ _ _ E1). }
    rewrite (io_bind_Ret _ _ _ _ _ E1). eexists. split; [by apply on_repo_Ret|]. exact K1. }
  rewrite (io_bind_Ret _ _ _ _ _ E1). destruct (IH p1) as (p' & E & K). exists p'. split; [exact E|].
  by eapply keeps_trans.
Qed.

(** The command [backup --dry-run]. *)
Lemma dry_run_spec (p : process D) repo name args pw rest :
  dryRun o = true -> can_open o r p repo pw rest -> dvalid (wstore (pworld p)) ->
  name <> [] -> slash_free name -> zlen (snapshot_bytes new_Snapshot) <= Z.of_nat decompress_bound ->
  zlen (payload LZMA2 (snapshot_bytes new_Snapshot)) < 2 ^ 62 ->
  exists p', run o progress (BackupFiles repo name args) p = (Ret tt, p') /\
    has_snapshot r (pworld p') name ∅ /\ pdisk p' = pdisk p /\ pdirs p' = pdirs p /\
    dvalid (wstore (pworld p')) /\
    forall q, object_path q -> q <> str "/snapshot/" ++ name ->
      objects (wstore (pworld p')) q = objects (wstore (pworld p)) q.
Proof.
  intros Hdry Hopen Hd Hn Hs Hb Hl.
  cbn [run]. unfold backupFiles. destruct (can_open_spec o r p repo pw rest Hopen) as (rn & p1 & E1 & (W1 & K1 & D1) & _).
  rewrite (io_bind_Ret _ _ _ _ _ E1).
  destruct (dry_run_args (with_keys rn r) args p1 Hdry) as (p2 & E2 & W2 & K2 & D2).
  rewrite (io_bind_Ret _ _ _ _ _ E2).
  assert (dvalid (wstore (pworld p2))) as Hd2 by (by rewrite W2, W1).
  destruct (commitSnapshot_spec (with_keys rn r) createSnapshot name DefaultProgressFunction (pworld p2) new_Snapshot_ok Hd2 Hn Hs
    (fun _ _ => eq_refl)) as (iv & w3 & E3 & Hd3 & Hiv & Hob); [by vm_compute|done|].
  eexists. split; [apply (on_repo_Ret _ _ _ _ E3)|]. cbn [pworld pdisk pdirs].
  split; [|split; [congruence|split; [congruence|split; [done|]]]].
  - split; [done|]. split; [done|]. exists iv, new_Snapshot. split; [done|]. split; [apply represents_empty|].
    split; [by rewrite Hob, decide_True by (done || by apply path_snapshot)|]. split; [done|]. split; [by vm_compute|done].
  - intros q Hq Hne. by rewrite Hob, decide_False, W2, W1.
Qed.

(** C38: the command [backup] with [--dry-run]: whatever the files, nothing of
    them is read or stored, but the command still commits: afterwards the
    snapshot of that name is one without any files, also when there was one
    before; no other object of the store and nothing of the disk changes. *)
Theorem dry_run_commits_empty (p : process D) repo name args pw rest
    (Hdry : dryRun o = true) (Hopen : can_open o r p repo pw rest) (Hd : dvalid (wstore (pworld p)))
    (Hn : name <> []) (Hs : slash_free name) (Hb : zlen (snapshot_bytes new_Snapshot) <= Z.of_nat decompress_bound)
    (Hl : zlen (payload LZMA2 (snapshot_bytes new_Snapshot)) < 2 ^ 62) :
  exists p', run o progress (BackupFiles repo name args) p = (Ret tt, p') /\
    has_snapshot r (pworld p') name ∅ /\ pdisk p' = pdisk p /\ pdirs p' = pdirs p /\
    forall q, object_path q -> q <> str "/snapshot/" ++ name ->
      objects (wstore (pworld p')) q = objects (wstore (pworld p)) q.
Proof.
  destruct (dry_run_spec p repo name args pw rest Hdry Hopen Hd Hn Hs Hb Hl) as (p' & E & Hsn & Hk & Hdd & _ & Hob).
  by exists p'.
Qed.
End Properties.

(** ** A concrete session *)

Module SampleCli.
Definition stat_of (n : Z) : stat := {|
  st_mode := 33188; st_uid := 0; st_gid := 0; st_size := n; st_mtime := 7; pw_name := Some (str "u"); gr_name := None |}.
#[global] Instance host : Host := {|
  getenv _ := None;
  exists_path _ := true;
  stat_path path :=
    if decide (path = str "docs/a.txt") then Some (stat_of 5)
    else if decide (path = str "docs/b.txt") then Some (stat_of 6) else None;
  files_below _ := [str "docs/a.txt"; str "docs/b.txt"];
  weakly_canonical path := path   (* nothing below the directories it is asked for exists *)
|}.

Definition file : bytes := str "d/a.txt".
Definition options (dry : bool) : CliOptions :=
  {| quiet := false; verify := true; dryRun := dry; force := false; backend := [] |}.
Definition process_on (w : world FileDataStore) : process FileDataStore :=
  Build_process w {| stdin := SampleBackup.password ++ newline :: []; stdout := []; echo := true |}
    empty_disk {[ str "out" ]} [].
Definition committed_files : gmap (list Byte.byte) (list Byte.byte) := {[ file := str "some text" ]}.

(** A store with the password and one snapshot. *)
Lemma sample_store : exists w : world FileDataStore, dvalid (wstore w) /\ keys_ok SampleBackup.repo /\
  (exists salt iv derived junk lr, has_key_file w SampleBackup.repo SampleBackup.password salt iv derived junk lr) /\
  has_snapshot SampleBackup.repo w (str "s1") committed_files.
Proof.
  assert (0 <= 4 <= MAX_LOG_ROUNDS) as H4 by (vm_compute; split; discriminate).
  destruct (initializeRepository_spec Demo.repo SampleBackup.password 4 DefaultProgressFunction Demo.start H4 Demo.start_ok
    (fun _ _ => eq_refl)) as (r' & salt & iv & derived & junk & w1 & E & Hk & _ & (Hd & Hr & Ls & Li & Lj & Hder & Hkey) & _).
  rewrite SampleBackup.initialised in E. apply io_Ret_inj in E as [<- <-].
  set (kf := key_bytes _ _ _ _ _) in Hkey.
  assert (refines SampleBackup.repo SampleBackup.blocks kf empty_backup SampleBackup.x0) as Href.
  { constructor; [exact Hd|exact Hkey| |apply represents_empty|done].
    intros x ->%list_elem_of_singleton. left. vm_compute. reflexivity. }
  destruct (exec_all_refines SampleBackup.repo SampleBackup.hash SampleBackup.blocks kf default_options_ok
    SampleBackup.sample_hash SampleBackup.blocks_known SampleBackup.commands empty_backup SampleBackup.x0 Href
    SampleBackup.commands_ok) as (x & _ & [Xd Xk _ _ Xc]).
  exists (sys_world x). split; [exact Xd|]. split; [exact Hk|]. split.
  - exists salt, iv, derived, junk, 4. unfold has_key_file. split_and!; done.
  - apply Xc. unfold spec_all, SampleBackup.commands. cbn [foldl spec SampleBackup.add_file committed working].
    rewrite lookup_insert_eq. f_equal.
Qed.

Lemma opens dry w : keys_ok SampleBackup.repo ->
  (exists salt iv derived junk lr, has_key_file w SampleBackup.repo SampleBackup.password salt iv derived junk lr) ->
  can_open (options dry) SampleBackup.repo (process_on w) (str "store") SampleBackup.password [].
Proof.
  intros Hk Hf. split; [split; try done|done|done].
  split; [refine (bool_decide_unpack _ _); vm_compute; exact I
    |unfold no_nul; refine (bool_decide_unpack _ _); vm_compute; exact I|vm_compute; discriminate].
Qed.
End SampleCli.

Lemma dry_run_commits_empty_witness :
  exists w p', has_snapshot SampleBackup.repo w (str "s1") SampleCli.committed_files /\
    run (SampleCli.options true) DefaultFileTransferProgressFunction
      (BackupFiles (str "store") (str "s1") [str "a.txt"]) (SampleCli.process_on w) = (Ret tt, p') /\
    has_snapshot SampleBackup.repo (pworld p') (str "s1") ∅.
Proof.
  destruct SampleCli.sample_store as (w & Hd & Hk & Hf & Hs). destruct Hs as (Hn & Hsl & R).
  assert (zlen (snapshot_bytes new_Snapshot) <= Z.of_nat decompress_bound) as Hb by (vm_compute; discriminate).
  assert (zlen (payload LZMA2 (snapshot_bytes new_Snapshot)) < 2 ^ 62) as Hl by (vm_compute; reflexivity).
  destruct (dry_run_commits_empty (SampleCli.options true) DefaultFileTransferProgressFunction SampleBackup.repo
    (SampleCli.process_on w) (str "store") (str "s1") [str "a.txt"] SampleBackup.password []
    eq_refl (SampleCli.opens true w Hk Hf) Hd Hn Hsl Hb Hl)
    as (p' & E & H0 & _).
  exists w, p'. split; [|split; [exact E|exact H0]]. split; [exact Hn|]. split; [exact Hsl|exact R].
Defined.
