(* ===== verification/CliRestore.v ===== *)
(** * The restore command

    What [downloadFiles] of Main.cpp achieves: the files that an argument of
    [restore] names are written below the destination, at their paths from the
    directory of the argument, each with exactly its contents; what it leaves
    there when objects of the store were damaged; and that it restores nothing
    for an argument without a directory, as the one that stands for all files. *)
From S2P Require Import Prelude Crypto Streams MemoryStreams FileStreams CompositeStreams CryptoStreams Lzma StreamUtils.
From S2P Require Import StdMap Filesystem Snapshot DataStore FileDataStore Repository RepositoryKeys Upload.
From S2P Require Import RepositoryFiles FileTransfer Integrity PackFiles Backup Cli CliFormat CliCommands CliSpec.
From Stdlib Require Import ZArith Lia.

(** ** A file that is being written *)

(** The disk [d0] on which only the file [path] is written: a contract of
    FileStream that says what becomes of the rest of the disk. *)
Definition written_on (d0 : disk) (path : bytes) (s : FileStream) : Prop :=
  appendable s /\ mPath s = path /\ exists data, mDisk s = set_file d0 path data.

Program Definition output_on (d0 : disk) (path : bytes) : OutputStreamSpec FileStream := {|
  ovalid := written_on d0 path;
  written s := file_data (mDisk s) (mPath s);
  fits s n := True
|}.
Next Obligation.
  intros d0 path s b (Hv & Hp & data & Hd) _. destruct (fs_write_append s b Hv) as (s' & E & Hv' & Hp' & Hd').
  exists s'. cbn [write FileStream_output]. rewrite E, Hp', Hd', file_data_set. split_and!; try done.
  split; [done|]. split; [congruence|]. exists (file_data (mDisk s) (mPath s) ++ b).
  by rewrite Hd', Hd, Hp, set_file_twice.
Qed.
Next Obligation.
  intros d0 path s (Hv & R). exists s. cbn [flush FileStream_output]. destruct Hv as (fp & Efp & Hr).
  unfold fs_flush, get_fp. rewrite Efp. split; [done|]. split; [split; [by exists fp|done]|done].
Qed.
Next Obligation. done. Qed.
Section Spec.
Context `{EVPSpec} `{LZMASpec} `{Paths} `{EnvSpec} `{Host} {D} `{DataStoreSpec D}.
Context (o : CliOptions) (progress : FileTransferProgressFunction) (r : Repository).
Implicit Types p : process D.

(** No file is written; directories may be made. *)
Definition keeps_disk p p' : Prop := pdisk p' = pdisk p /\ forall d, d ∈ pdirs p -> d ∈ pdirs p'.

(** ** Restoring one file *)

Lemma digest_loop_spec {In} `{InputStreamSpec In} fuel : forall ctx (i : In), valid i ->
  zlen (contents i) <= Z.of_nat fuel ->
  exists ctx', digest_loop fuel ctx i = Ret ctx' /\ md5_rest ctx' [] = md5_rest ctx (contents i).
Proof.
  induction fuel as [|fuel IH]; intros ctx i Hv Hf; cbn [digest_loop];
    destruct (read_spec i 8192 Hv ltac:(lia)) as (i1 & -> & V1 & C1 & _); rewrite bind_of_Ret;
    pose proof (zlen_nonneg (contents i)); rewrite zlen_ztake by lia;
    (destruct (Z.ltb_spec 0 (Z.min 8192 (zlen (contents i)))) as [Hl|Hl]; [|
      assert (contents i = []) as -> by (apply zlen_nil_inv; lia); by exists ctx]).
  { lia. }
  destruct (md5_update ctx (ztake 8192 (contents i))) as (ctx1 & -> & Hc). cbn [or_throw]. rewrite bind_of_Ret.
  destruct (IH ctx1 i1 V1) as (ctx' & -> & M); [rewrite C1, zlen_zdrop by lia; lia|].
  exists ctx'. split; [done|]. by rewrite M, <-Hc, C1, ztake_zdrop.
Qed.

(** A file with the right contents passes the check. *)
Lemma verify_file_spec p path fe data : files (pdisk p) !! path = Some data -> fmd5 fe = md5 data ->
  verify_file path fe p = (Ret tt, p).
Proof.
  intros Hf Hm. unfold verify_file. rewrite (io_bind_Ret get_state _ _ _ _ eq_refl).
  destruct (open_read (pdisk p) path ltac:(by eexists)) as (s & -> & Hv & _ & _ & Hc). rewrite io_bind_lift.
  destruct md5_init as (ctx & -> & Hi). cbn [or_throw]. rewrite io_bind_lift.
  assert (valid s) as Vs by exact Hv.
  destruct (digest_loop_spec (remaining s) ctx s Vs (remaining_spec s Vs)) as (ctx' & -> & M). rewrite io_bind_lift.
  rewrite md5_final. cbn [or_throw]. rewrite io_bind_lift, M, Hi, Hc, Hm.
  unfold file_data. rewrite Hf. cbn [default]. by rewrite bool_decide_eq_true_2.
Qed.

(** A place where a file can be written, in a directory that can be made. *)
Record writable p (path : bytes) : Prop := {
  wp_locked : path ∉ locked (pdisk p);
  wp_dir : path ∉ pdirs p;
  wp_parent : path ∉ ancestors (parent_path path);
  wp_above : forall a, a ∈ ancestors (parent_path path) -> files (pdisk p) !! a = None
}.

(** The process after [path] was restored. *)
Record restored p (path data : bytes) p' : Prop := {
  rs_store : wstore (pworld p') = wstore (pworld p);
  rs_disk : pdisk p' = set_file (pdisk p) path data;
  rs_dirs d : d ∈ pdirs p' -> d ∈ pdirs p \/ d ∈ ancestors (parent_path path)
}.

Lemma make_parent_spec p path : writable p path ->
  exists p', (parent ← is_directory (parent_path path);
              if (parent : bool) then mret tt else make_directories (parent_path path)) p = (Ret tt, p') /\
    pworld p' = pworld p /\ pconsole p' = pconsole p /\ pdisk p' = pdisk p /\
    forall d, d ∈ pdirs p' -> d ∈ pdirs p \/ d ∈ ancestors (parent_path path).
Proof.
  intros [_ _ _ Ha]. rewrite (io_bind_Ret (is_directory _) _ p _ p eq_refl).
  destruct (bool_decide _); [exists p; split_and!; try done; by left|]. unfold make_directories.
  rewrite (io_bind_Ret get_state _ _ _ _ eq_refl).
  assert (existsb (fun a => bool_decide (is_Some (files (pdisk p) !! a))) (ancestors (parent_path path)) = false) as ->.
  { apply not_true_is_false. intros (a & Hin & Hb)%existsb_exists. apply bool_decide_eq_true in Hb.
    rewrite (Ha a) in Hb by (by apply list_elem_of_In). by destruct Hb. }
  eexists. split; [reflexivity|]. cbn [pworld pconsole pdisk pdirs]. split_and!; try done. set_solver.
Qed.

Lemma download_to {Out} `{OutputStream Out} (spec : OutputStreamSpec Out) (w : world D) s path data (out : Out) :
  (forall a b x y, progress a b x y = true) -> snapshot_ok s -> dvalid (wstore w) -> restorable r w s path data ->
  ovalid out -> fits out (zlen data) ->
  exists out' w', download_into r s path progress (w, out) = (Ret true, (w', out')) /\
    wstore w' = wstore w /\ written out' = written out ++ data /\ ovalid out'.
Proof. intros. by apply restorable_download_into. Qed.

Lemma on_output_eq {A} (m : io (world D * FileStream) A) s1 s2 p a w : m (pworld p, s1) = (a, (w, s2)) ->
  on_output s1 m p = (a, Build_process w (pconsole p) (mDisk (fs_close s2)) (pdirs p) (pstderr p)).
Proof. intros E. unfold on_output. by rewrite E. Qed.

(** The file is made, or made empty, in its directory. *)
Lemma restore_begin p s source path fe : writable p path ->
  exists p2 s1, restore_file o progress r s source path fe p =
      (_ ← on_output s1 (download_into r s source progress);
       _ ← say o [newline];
       if verify o then verify_file path fe else mret tt) p2 /\
    written_on (pdisk p) path s1 /\ file_data (mDisk s1) (mPath s1) = [] /\ pworld p2 = pworld p /\
    forall d, d ∈ pdirs p2 -> d ∈ pdirs p \/ d ∈ ancestors (parent_path path).
Proof.
  intros Hw. pose proof Hw as [Hl Hdir Hpar Ha].
  unfold restore_file. destruct (make_parent_spec p path Hw) as (p1 & E1 & W1 & C1 & K1 & D1).
  rewrite <-io_bind_assoc, (io_bind_Ret _ _ _ _ _ E1). unfold open_output.
  rewrite io_bind_assoc, (io_bind_Ret get_state _ _ _ _ eq_refl).
  rewrite decide_False by (intros [?|?]%D1; done).
  destruct (open_write (pdisk p1) path) as (s1 & -> & V1 & P1 & K2); [by rewrite K1|].
  rewrite io_bind_assoc, io_bind_lift, io_bind_assoc, (io_bind_Ret (put_disk _) _ p1 tt _ eq_refl).
  set (p2 := Build_process (pworld p1) (pconsole p1) (mDisk s1) (pdirs p1) (pstderr p1)).
  rewrite (io_bind_Ret (mret s1) _ p2 s1 p2 eq_refl). exists p2, s1. split; [reflexivity|].
  split; [split; [done|]; split; [done|]; exists []; by rewrite K2, K1|].
  split; [by rewrite P1, K2, file_data_set|]. split; [exact W1|exact D1].
Qed.

(** The file has what was written to its stream. *)
Lemma written_on_closed d path s2 data : written_on d path s2 -> file_data (mDisk s2) (mPath s2) = data ->
  mDisk (fs_close s2) = set_file d path data.
Proof.
  intros (_ & P & x & K) W. rewrite K, P, file_data_set in W. subst x. unfold fs_close. by destruct (mFp s2).
Qed.

Lemma restore_file_spec p s source path fe data : (forall a b x y, progress a b x y = true) ->
  snapshot_ok s -> dvalid (wstore (pworld p)) -> getFileEntry s source = Some fe ->
  restorable r (pworld p) s source data -> writable p path ->
  exists p', restore_file o progress r s source path fe p = (Ret tt, p') /\ restored p path data p'.
Proof.
  intros Hpf Hok Hd Hfe Hr Hw.
  assert (fmd5 fe = md5 data) as Hmd.
  { destruct Hr as (fe' & c & l & Hfe' & _ & _ & _ & _ & _ & _ & Hmd). by rewrite Hfe in Hfe'; injection Hfe' as <-. }
  destruct (restore_begin p s source path fe Hw) as (p2 & s1 & -> & Hs1 & N1 & W1 & D1). rewrite <-W1 in Hr, Hd.
  destruct (download_to (output_on (pdisk p) path) (pworld p2) s source data s1 Hpf Hok Hd Hr Hs1 I)
    as (s2 & w2 & E2 & D2 & W2 & V2).
  rewrite (io_bind_Ret _ _ _ _ _ (on_output_eq _ _ _ p2 _ _ E2)).
  rewrite (written_on_closed _ _ s2 data V2) by (etrans; [exact W2|]; cbn [written output_on]; by rewrite N1).
  set (p3 := Build_process _ _ _ _ _). destruct (say_spec o [newline] p3) as (p4 & E4 & (W4 & K4 & D4) & _).
  rewrite (io_bind_Ret _ _ _ _ _ E4).
  assert (restored p path data p4) as Hres.
  { split; [etrans; [exact W4|]; etrans; [exact D2|]; by rewrite W1|by rewrite K4|]. rewrite D4. exact D1. }
  exists p4. split; [|done]. destruct (verify o); [|done]. apply (verify_file_spec p4 path fe data); [|done].
  rewrite (rs_disk _ _ _ _ Hres). cbn [set_file files]. by rewrite lookup_insert_eq.
Qed.

(** The end of a command on a damaged store. *)
Definition completes (x : result unit) : Prop := x = Ret tt \/ exists e, x = Throw e /\ damage_exception e.

(** From a store of which the objects were damaged, a file is restored, or a
    beginning of it. *)
Lemma restore_file_sound p s source path fe data (w : world D) : (forall a b x y, progress a b x y = true) ->
  snapshot_ok s -> dvalid (wstore (pworld p)) -> getFileEntry s source = Some fe ->
  restorable r w s source data -> forgery_free r w (pworld p) -> writable p path ->
  exists x p' some rest, restore_file o progress r s source path fe p = (x, p') /\ completes x /\
    data = some ++ rest /\ restored p path some p' /\ (x = Ret tt -> rest = []).
Proof.
  intros Hpf Hok Hd Hfe Hr Hff Hw.
  assert (fmd5 fe = md5 data) as Hmd.
  { destruct Hr as (fe' & c & l & Hfe' & _ & _ & _ & _ & _ & _ & Hmd). by rewrite Hfe in Hfe'; injection Hfe' as <-. }
  destruct (restore_begin p s source path fe Hw) as (p2 & s1 & -> & Hs1 & N1 & W1 & D1). rewrite <-W1 in Hff, Hd.
  destruct (@download_into_sound _ _ _ _ _ _ _ _ _ _ FileStream _ (output_on (pdisk p) path) r progress w (pworld p2)
    s source data s1 Hpf Hok Hr Hd (fun fe' _ => forgery_free_unforged r w (pworld p2) _ _ Hff) Hs1 I) as (Dw & V2 & Hout).
  destruct (download_into r s source progress (pworld p2, s1)) as [a [w2 s2]] eqn:E2. cbn [fst snd] in *.
  destruct a as [found|e| |]; try done.
  - destruct Hout as [-> Wr]. change (file_data (mDisk s2) (mPath s2) = file_data (mDisk s1) (mPath s1) ++ data) in Wr.
    rewrite N1 in Wr. rewrite (io_bind_Ret _ _ _ _ _ (on_output_eq _ _ _ p2 _ _ E2)), (written_on_closed _ _ s2 data V2 Wr).
    set (p3 := Build_process _ _ _ _ _). destruct (say_spec o [newline] p3) as (p4 & E4 & (W4 & K4 & D4) & _).
    rewrite (io_bind_Ret _ _ _ _ _ E4).
    assert (restored p path data p4) as Hres.
    { split; [etrans; [exact W4|]; etrans; [exact Dw|]; by rewrite W1|by rewrite K4|]. rewrite D4. exact D1. }
    exists (Ret tt), p4, data, []. split; [|split; [by left|split; [by rewrite app_nil_r|done]]].
    destruct (verify o); [|done]. apply (verify_file_spec p4 path fe data); [|done].
    rewrite (rs_disk _ _ _ _ Hres). cbn [set_file files]. by rewrite lookup_insert_eq.
  - destruct Hout as (He & (some & rest & -> & Wr) & _).
    change (file_data (mDisk s2) (mPath s2) = file_data (mDisk s1) (mPath s1) ++ some) in Wr. rewrite N1 in Wr.
    rewrite (io_bind_Throw _ _ _ _ _ (on_output_eq _ _ _ p2 _ _ E2)), (written_on_closed _ _ s2 some V2 Wr).
    eexists _, _, some, rest. split; [reflexivity|]. split; [right; by exists e|]. split; [done|]. split; [|done].
    split; [by rewrite <-W1|done|exact D1].
Qed.

(** ** Restoring many files *)

(** Only the files at [places] were written, and the directories above them made. *)
Record wrote p (places : list bytes) p' : Prop := {
  wr_store : wstore (pworld p') = wstore (pworld p);
  wr_locked : locked (pdisk p') = locked (pdisk p);
  wr_files q : q ∉ places -> files (pdisk p') !! q = files (pdisk p) !! q;
  wr_dirs d : d ∈ pdirs p' -> d ∈ pdirs p \/ exists q, q ∈ places /\ d ∈ ancestors (parent_path q)
}.

Lemma wrote_nil p : wrote p [] p.
Proof. constructor; try done. by left. Qed.

Lemma wrote_app p p1 p2 a b : wrote p a p1 -> wrote p1 b p2 -> wrote p (a ++ b) p2.
Proof.
  intros [S1 L1 F1 D1] [S2 L2 F2 D2]. constructor; [congruence|congruence| |].
  - intros q [? ?]%not_elem_of_app. by rewrite F2, F1.
  - intros d [Hd|(q & ? & ?)]%D2; [apply D1 in Hd as [|(q & ? & ?)]; [by left|]|]; right; exists q; set_solver.
Qed.

Lemma wrote_perm p p' a b : a ≡ₚ b -> wrote p a p' -> wrote p b p'.
Proof. intros Hp [S L F Dd]. constructor; [done|done|by setoid_rewrite <-Hp|by setoid_rewrite <-Hp]. Qed.

Lemma restored_wrote p path data p' : restored p path data p' -> wrote p [path] p'.
Proof.
  intros [S Kd Dd]. constructor; rewrite ?Kd; try done.
  - intros q Hq%not_elem_of_cons. cbn [set_file files]. rewrite lookup_insert_ne; [done|naive_solver].
  - intros d [|]%Dd; [by left|]. right. exists path. split; [by apply list_elem_of_singleton|done].
Qed.

(** The places [places] can be written, each for a file of its own. *)
Record can_restore p (places : list bytes) : Prop := {
  cr_nodup : NoDup places;
  cr_place q : q ∈ places -> writable p q;
  cr_above q q' : q ∈ places -> q' ∈ places -> q ∉ ancestors (parent_path q');
  cr_free : force o = true \/ forall q, q ∈ places -> files (pdisk p) !! q = None
}.

Lemma can_restore_perm p places places' : places ≡ₚ places' -> can_restore p places -> can_restore p places'.
Proof.
  intros Hp [Hn Hw Ha Hf]. constructor; [by rewrite <-Hp|..]; setoid_rewrite <-Hp; done.
Qed.

Lemma can_restore_same p p' places : pdisk p' = pdisk p -> pdirs p' = pdirs p ->
  can_restore p places -> can_restore p' places.
Proof.
  intros Ek Ed [Hn Hp Ha Hf]. split; [done| |done|by rewrite Ek].
  intros k Hk. destruct (Hp k Hk). split; rewrite ?Ek, ?Ed; done.
Qed.

(** The rest keeps its places when some files were restored. *)
Lemma can_restore_rest p p' a b : can_restore p (a ++ b) -> wrote p a p' -> can_restore p' b.
Proof.
  intros [(_ & Hab & Hn)%NoDup_app Hw Ha Hf] [_ Hl Hfi Hd].
  assert (forall q, q ∈ b -> files (pdisk p') !! q = files (pdisk p) !! q) as Hsame.
  { intros q Hq. apply Hfi. intros Hqa. by apply (Hab q). }
  constructor; [done| | |].
  - intros q Hq. destruct (Hw q ltac:(set_solver)) as [Wl Wd Wp Wa]. constructor; [by rewrite Hl| |done|].
    + intros [|(q0 & Hq0 & Hin)]%Hd; [done|]. by apply (Ha q q0); set_solver.
    + intros d Hin. rewrite Hfi; [by apply Wa|]. intros Hda. by apply (Ha d q); set_solver.
  - intros q q' Hq Hq'. apply Ha; set_solver.
  - destruct Hf as [|Hf]; [by left|]. right. intros q Hq. rewrite Hsame by done. apply Hf. set_solver.
Qed.

Lemma can_restore_first p a b : can_restore p (a ++ b) -> can_restore p a.
Proof.
  intros [Hn Hp Ha Hf]. constructor; [by apply NoDup_app in Hn as [? _]| | |].
  - intros q Hq. apply Hp. set_solver.
  - intros q q' Hq Hq'. apply Ha; set_solver.
  - destruct Hf as [|Hf]; [by left|right]. intros q Hq. apply Hf. set_solver.
Qed.

(** *** What is saved from a damaged store *)

(** Of the files [l], places with their contents, each is as before or has a
    beginning of its contents; nothing else was written. *)
Record salvaged p (l : list (bytes * bytes)) p' : Prop := {
  sv_wrote : wrote p l.*1 p';
  sv_files : Forall (fun j => files (pdisk p') !! j.1 = files (pdisk p) !! j.1 \/
    exists some rest, j.2 = some ++ rest /\ files (pdisk p') !! j.1 = Some some) l
}.

Definition complete p' (l : list (bytes * bytes)) : Prop := Forall (fun j => files (pdisk p') !! j.1 = Some j.2) l.

(** A step that saves files, all of them if it returns. *)
Definition salvages (m : io (process D) unit) p (l : list (bytes * bytes)) : Prop :=
  exists x p', m p = (x, p') /\ completes x /\ salvaged p l p' /\ (x = Ret tt -> complete p' l).

Lemma salvages_nil p : salvages (mret tt) p [].
Proof. exists (Ret tt), p. split; [done|]. split; [by left|]. split; [split; [apply wrote_nil|constructor]|by constructor]. Qed.

Lemma wrote_more p p' a b : wrote p a p' -> wrote p (a ++ b) p'.
Proof.
  intros [S L F Dd]. constructor; [done|done| |].
  - intros q [? _]%not_elem_of_app. by apply F.
  - intros d [|(q & ? & ?)]%Dd; [by left|]. right. exists q. set_solver.
Qed.

(** The files of other places stay. *)
Lemma wrote_same p p' (a b : list (bytes * bytes)) (j : bytes * bytes) : wrote p b.*1 p' ->
  NoDup (a.*1 ++ b.*1) -> j ∈ a -> files (pdisk p') !! j.1 = files (pdisk p) !! j.1.
Proof.
  intros Hw (_ & Hdis & _)%NoDup_app Hj. apply Hw, Hdis. by apply list_elem_of_fmap_2.
Qed.

Lemma salvages_bind m k p a b : NoDup (a.*1 ++ b.*1) -> salvages m p a ->
  (forall p1, salvaged p a p1 -> salvages k p1 b) -> salvages (_ ← m; k) p (a ++ b).
Proof.
  intros Hnd (x & p1 & E1 & Hx & S1 & C1) Hk. destruct S1 as [Wr1 F1]. rewrite Forall_forall in F1.
  destruct Hx as [-> |(e & -> & He)].
  - destruct (Hk p1 ltac:(split; [done|by apply Forall_forall])) as (x2 & p2 & E2 & Hx2 & [Wr2 F2] & C2).
    exists x2, p2. split; [by rewrite (io_bind_Ret _ _ _ _ _ E1)|]. split; [done|].
    specialize (C1 eq_refl). unfold complete in *. rewrite Forall_forall in C1.
    split; [split|].
    + rewrite fmap_app. by eapply wrote_app.
    + apply Forall_app. split; apply Forall_forall; intros j Hj.
      * rewrite (wrote_same p1 p2 a b j Wr2 Hnd Hj). by apply F1.
      * rewrite Forall_forall in F2. destruct (F2 j Hj) as [->|]; [left|by right].
        apply (wrote_same p p1 b a j Wr1); [|done]. by rewrite Permutation_app_comm.
    + intros Hx3. apply Forall_app. split; [|by apply C2]. apply Forall_forall. intros j Hj.
      rewrite (wrote_same p1 p2 a b j Wr2 Hnd Hj). by apply C1.
  - exists (Throw e), p1. split; [by rewrite (io_bind_Throw _ _ _ _ _ E1)|]. split; [right; by exists e|].
    split; [split; [rewrite fmap_app; by apply wrote_more|]|done].
    apply Forall_app. split; apply Forall_forall; intros j Hj; [by apply F1|]. left.
    apply (wrote_same p p1 b a j Wr1); [|done]. by rewrite Permutation_app_comm.
Qed.

Section Entries.
Context (s : Snapshot) (destDir : bytes) (content : bytes -> bytes).
Context (Hpf : forall a b x y, progress a b x y = true) (Hok : snapshot_ok s) (Hdry : dryRun o = false).

(** Where the callback of [downloadFiles] writes the file [key] that the
    argument [srcFile] names. *)
Definition target (srcFile key : bytes) : bytes := path_append destDir (relative key (parent_path srcFile)).

Lemma may_write_spec p path : force o = true \/ exists_file p path = false -> may_write o path p = (Ret true, p).
Proof.
  intros Hc. unfold may_write. rewrite (io_bind_Ret get_state _ _ _ _ eq_refl).
  by destruct Hc as [-> | ->]; rewrite ?andb_false_r.
Qed.

(** The callback comes to the restoration of its file. *)
Lemma restore_entry_begin p srcFile key fe : entry_path s fe = Ret key -> writable p (target srcFile key) ->
  force o = true \/ files (pdisk p) !! target srcFile key = None ->
  exists p1, restore_entry o progress r s destDir srcFile fe p =
      restore_file o progress r s key (target srcFile key) fe p1 /\ keeps p p1.
Proof.
  intros Hkey Hw Hfree. unfold entry_path in Hkey. unfold restore_entry.
  destruct (indexToString s (pathIndex fe)) as [dir| | |]; try done. rewrite bind_of_Ret in Hkey.
  destruct (indexToString s (nameIndex fe)) as [name| | |]; try done. rewrite bind_of_Ret in Hkey.
  injection Hkey as Hkey. rewrite !io_bind_lift. change (dir ++ str "/" ++ name) with (dir ++ slash :: name).
  rewrite Hkey. fold (target srcFile key). assert (force o = true \/ exists_file p (target srcFile key) = false) as Hc.
  { destruct Hfree as [|Hn]; [by left|]. right. unfold exists_file. rewrite Hn.
    rewrite !bool_decide_eq_false_2; [done|apply Hw|by intros []]. }
  rewrite (io_bind_Ret _ _ _ _ _ (may_write_spec p _ Hc)). cbn [negb]. rewrite Hdry.
  destruct (say_spec o (target srcFile key ++ [newline]) p) as (p1 & E1 & K1 & _).
  rewrite (io_bind_Ret _ _ _ _ _ E1). by exists p1.
Qed.

Lemma restored_keeps p p1 p' path data : keeps p p1 -> restored p1 path data p' -> restored p path data p'.
Proof. intros (W & K & Dd) [Rw Rk Rd]. split; [congruence|congruence|]. by rewrite <-Dd. Qed.

Lemma writable_keeps p p1 path : keeps p p1 -> writable p path -> writable p1 path.
Proof. intros (W & K & Dd) []. split; rewrite ?K, ?Dd; done. Qed.

Lemma restore_entry_spec p srcFile key fe : entry_path s fe = Ret key -> getFileEntry s key = Some fe ->
  dvalid (wstore (pworld p)) -> restorable r (pworld p) s key (content key) -> writable p (target srcFile key) ->
  force o = true \/ files (pdisk p) !! target srcFile key = None ->
  exists p', restore_entry o progress r s destDir srcFile fe p = (Ret tt, p') /\
    restored p (target srcFile key) (content key) p'.
Proof.
  intros Hkey Hfe Hd Hr Hw Hfree. destruct (restore_entry_begin p srcFile key fe Hkey Hw Hfree) as (p1 & -> & K1).
  pose proof K1 as (W1 & _). rewrite <-W1 in Hd.
  assert (restorable r (pworld p1) s key (content key)) as Hr1.
  { eapply restorable_kept; [by apply same_data_kept|done| |done|exact Hr]. exists []. by rewrite app_nil_r. }
  destruct (restore_file_spec p1 s key (target srcFile key) fe (content key) Hpf Hok Hd Hfe Hr1 (writable_keeps _ _ _ K1 Hw))
    as (p' & E & R). exists p'. split; [exact E|]. by eapply restored_keeps.
Qed.

(** What is known of an entry of the snapshot. *)
Definition described (w : world D) (e : bytes * FileEntry) : Prop :=
  entry_path s e.2 = Ret e.1 /\ getFileEntry s e.1 = Some e.2 /\ restorable r w s e.1 (content e.1).

Lemma described_same w w' e : wstore w' = wstore w -> described w e -> described w' e.
Proof.
  intros E (? & ? & Hr). do 2 (split; [done|]).
  eapply restorable_kept; [by apply same_data_kept|done| |done|exact Hr]. exists []. by rewrite app_nil_r.
Qed.

(** The entries that one argument names. *)
Lemma restore_entries_spec srcFile l : forall p, can_restore p (target srcFile <$> l.*1) -> dvalid (wstore (pworld p)) ->
  Forall (described (pworld p)) l ->
  exists p', restore_entries o progress r s destDir srcFile l.*2 p = (Ret tt, p') /\
    wrote p (target srcFile <$> l.*1) p' /\
    forall key, key ∈ l.*1 -> files (pdisk p') !! target srcFile key = Some (content key).
Proof.
  induction l as [|[key fe] l IH]; intros p Hc Hd Hl; cbn [fmap list_fmap fst snd restore_entries] in *.
  - exists p. split; [done|]. split; [apply wrote_nil|by intros key ?%elem_of_nil].
  - apply Forall_cons in Hl as [(Hkey & Hfe & Hr) Hl]. cbn [fst snd] in *.
    set (q := target srcFile key) in *. set (qs := target srcFile <$> l.*1) in *.
    destruct (restore_entry_spec p srcFile key fe Hkey Hfe Hd Hr (cr_place _ _ Hc q ltac:(by left)))
      as (p1 & E1 & Hres). { destruct (cr_free _ _ Hc) as [|Hf]; [by left|]. right. apply Hf. by left. }
    rewrite (io_bind_Ret _ _ _ _ _ E1). pose proof (restored_wrote _ _ _ _ Hres) as Hw.
    pose proof (cr_nodup _ _ Hc) as [Hnin _]%NoDup_cons.
    destruct (IH p1) as (p' & E & Hw' & Hin); [by apply (can_restore_rest p p1 [q])|by rewrite (wr_store _ _ _ Hw)| |].
    { eapply Forall_impl; [exact Hl|]. intros e. eapply described_same, Hw. }
    exists p'. split; [exact E|]. split; [by apply (wrote_app p p1 p' [q])|].
    intros k [->|Hk]%elem_of_cons; [|by apply Hin].
    fold q. rewrite (wr_files _ _ _ Hw' q Hnin), (rs_disk _ _ _ _ Hres). cbn [set_file files]. apply lookup_insert_eq.
Qed.

(** All arguments; [sel] gives the entries of each. *)
Definition all_places (sel : bytes -> list bytes) (sources : list bytes) : list bytes :=
  concat ((fun srcFile => target srcFile <$> sel srcFile) <$> sources).

Lemma restore_sources_spec (sel : bytes -> list (bytes * FileEntry)) sources : forall p,
  can_restore p (all_places (fun srcFile => (sel srcFile).*1) sources) -> dvalid (wstore (pworld p)) ->
  Forall (fun srcFile => forEachFileEntry_in s srcFile = Ret (sel srcFile).*2 /\ Forall (described (pworld p)) (sel srcFile)) sources ->
  exists p', restore_sources o progress r s destDir sources p = (Ret tt, p') /\
    wrote p (all_places (fun srcFile => (sel srcFile).*1) sources) p' /\
    forall srcFile key, srcFile ∈ sources -> key ∈ (sel srcFile).*1 ->
      files (pdisk p') !! target srcFile key = Some (content key).
Proof.
  induction sources as [|src sources IH]; intros p Hc Hd Hs; cbn [restore_sources].
  { exists p. split; [done|]. split; [apply wrote_nil|by intros src key ?%elem_of_nil]. }
  unfold all_places in *. cbn [fmap list_fmap concat] in *. apply Forall_cons in Hs as [[E Hl] Hs].
  pose proof (cr_nodup _ _ Hc) as (Hn1 & Hdis & _)%NoDup_app.
  rewrite E, io_bind_lift. destruct (restore_entries_spec src (sel src) p) as (p1 & E1 & Hw1 & Hin1); [|done|done|].
  { destruct Hc as [_ Hp Ha Hf]. constructor; [done| | |]; [intros; apply Hp; set_solver|intros; apply Ha; set_solver|].
    destruct Hf as [|Hf]; [by left|right]. intros; apply Hf. set_solver. }
  rewrite (io_bind_Ret _ _ _ _ _ E1).
  destruct (IH p1) as (p' & E' & Hw' & Hin'); [by eapply can_restore_rest|by rewrite (wr_store _ _ _ Hw1)| |].
  { eapply Forall_impl; [exact Hs|]. intros src' [? Hd']. split; [done|]. eapply Forall_impl; [exact Hd'|].
    intros e. eapply described_same, Hw1. }
  exists p'. split; [exact E'|]. split; [by eapply wrote_app|].
  intros src' key [->|Hsrc]%elem_of_cons Hkey; [|by apply Hin'].
  rewrite (wr_files _ _ _ Hw'); [by apply Hin1|]. apply Hdis. by apply list_elem_of_fmap_2.
Qed.
(** *** Arguments without a directory *)

(** The destination itself is the place of every file: nothing is written. *)
Lemma restore_file_dest p source fe : destDir ∈ pdirs p ->
  exists e p', restore_file o progress r s source destDir fe p = (Throw e, p') /\ keeps_disk p p' /\
    (e = FileNotFoundException \/ e = filesystem_error).
Proof.
  intros Hd. unfold restore_file. rewrite (io_bind_Ret (is_directory _) _ p _ p eq_refl).
  assert (forall p1 : process D, keeps_disk p p1 -> exists e p', (outStream ← open_output destDir;
    _ ← on_output outStream (download_into r s source progress);
    _ ← say o [newline]; if verify o then verify_file destDir fe else mret tt) p1 = (Throw e, p') /\ keeps_disk p p' /\
    (e = FileNotFoundException \/ e = filesystem_error)) as Hopen.
  { intros p1 [K1 D1]. exists FileNotFoundException, p1. split; [|split; [by split|by left]].
    apply io_bind_Throw. unfold open_output. rewrite (io_bind_Ret get_state _ _ _ _ eq_refl).
    by rewrite decide_True by (by apply D1). }
  destruct (bool_decide _).
  - rewrite (io_bind_Ret _ _ p tt p eq_refl). by apply Hopen.
  - unfold make_directories at 1. rewrite io_bind_assoc, (io_bind_Ret get_state _ _ _ _ eq_refl).
    destruct (existsb _ _).
    + exists filesystem_error, p. split; [by apply io_bind_Throw|]. split; [done|by right].
    + set (dirs := _ ∪ _). rewrite (io_bind_Ret (put_dirs _) _ p tt _ eq_refl). apply Hopen.
      split; [done|]. intros d Hin. cbn [pdirs]. apply elem_of_union. by right.
Qed.

Lemma may_write_any p path : exists b p', may_write o path p = (Ret b, p') /\ keeps_disk p p' /\ (force o = true -> b = true).
Proof.
  unfold may_write. rewrite (io_bind_Ret get_state _ _ _ _ eq_refl).
  destruct (force o) eqn:Ef; [exists true, p; by split_and!|]. cbn [negb andb].
  destruct (_ && _); [|by exists true, p; split_and!].
  destruct (printf_spec (path ++ str ": File exists. Overwrite (y/n)? ") p) as (p1 & E1 & (_ & K1 & D1) & _).
  rewrite (io_bind_Ret _ _ _ _ _ E1).
  assert (exists c p2, on_console fgetc p1 = (Ret c, p2) /\ pdisk p2 = pdisk p1 /\ pdirs p2 = pdirs p1) as (c & p2 & E2 & K2 & D2).
  { unfold on_console, fgetc. destruct (stdin (pconsole p1)); by eexists _, _. }
  rewrite (io_bind_Ret _ _ _ _ _ E2). case_bool_decide.
  - exists false, p2. split; [done|]. split; [|done]. split; [congruence|]. intros d. by rewrite D2, D1.
  - destruct (say_spec o [newline] p2) as (p3 & E3 & (_ & K3 & D3) & _). rewrite (io_bind_Ret _ _ _ _ _ E3).
    exists true, p3. split; [done|]. split; [|done]. split; [congruence|]. intros d. by rewrite D3, D2, D1.
Qed.

(** Every file is refused, by the user or because its place is a directory. *)
Lemma restore_entries_dest srcFile l : forall p, destDir ∈ pdirs p -> (forall key, target srcFile key = destDir) ->
  Forall (fun e => entry_path s e.2 = Ret e.1) l ->
  exists x p', restore_entries o progress r s destDir srcFile l.*2 p = (x, p') /\ keeps_disk p p' /\
    (x = Ret tt \/ x = Throw FileNotFoundException \/ x = Throw filesystem_error) /\
    (force o = true -> l <> [] -> x <> Ret tt).
Proof using Hdry.
  induction l as [|[key fe] l IH]; intros p Hd Ht Hl; cbn [fmap list_fmap fst snd restore_entries].
  { exists (Ret tt), p. split; [done|]. split; [done|]. split; [by left|done]. }
  apply Forall_cons in Hl as [Hkey Hl]. cbn [fst snd] in Hkey. unfold entry_path in Hkey. unfold restore_entry at 1.
  destruct (indexToString s (pathIndex fe)) as [dir| | |]; try done. rewrite bind_of_Ret in Hkey.
  destruct (indexToString s (nameIndex fe)) as [name| | |]; try done. rewrite bind_of_Ret in Hkey.
  injection Hkey as Hkey. rewrite io_bind_assoc, io_bind_lift, io_bind_assoc, io_bind_lift.
  change (dir ++ str "/" ++ name) with (dir ++ slash :: name). rewrite Hkey. fold (target srcFile key). rewrite Ht.
  destruct (may_write_any p destDir) as (b & p1 & E1 & [K1 D1] & Hforce). rewrite io_bind_assoc, (io_bind_Ret _ _ _ _ _ E1).
  destruct b; cbn [negb].
  - destruct (say_spec o (destDir ++ [newline]) p1) as (p2 & E2 & (_ & K2 & D2) & _).
    rewrite io_bind_assoc, (io_bind_Ret _ _ _ _ _ E2), Hdry.
    destruct (restore_file_dest p2 key fe ltac:(rewrite D2; by apply D1)) as (e & p3 & E3 & [K3 D3] & He).
    rewrite (io_bind_Throw _ _ _ _ _ E3). exists (Throw e), p3. split; [done|]. split.
    + split; [congruence|]. intros d Hin. apply D3. rewrite D2. by apply D1.
    + split; [destruct He as [-> | ->]; auto|done].
  - rewrite (io_bind_Ret (mret tt) _ p1 tt p1 eq_refl).
    destruct (IH p1 (D1 _ Hd) Ht Hl) as (x & p2 & E2 & [K2 D2] & Hx & _). exists x, p2. split; [exact E2|].
    split; [split; [congruence|auto]|]. split; [done|]. intros Hf _. by apply Hforce in Hf.
Qed.
(** *** A damaged store *)

Context (w : world D).

(** The world of the backup, and the later one of the process. *)
Definition damaged_store p : Prop := dvalid (wstore (pworld p)) /\ forgery_free r w (pworld p).

Lemma damaged_store_same p p' : wstore (pworld p') = wstore (pworld p) -> damaged_store p -> damaged_store p'.
Proof. intros E [Hd Hf]. split; [by rewrite E|]. intros q ob ob2. rewrite E. apply Hf. Qed.

(** The place of an entry and what belongs there. *)
Definition job (srcFile : bytes) (e : bytes * FileEntry) : bytes * bytes := (target srcFile e.1, content e.1).

Lemma restore_entry_sound p srcFile e : described w e -> damaged_store p -> writable p (job srcFile e).1 ->
  force o = true \/ files (pdisk p) !! (job srcFile e).1 = None ->
  salvages (restore_entry o progress r s destDir srcFile e.2) p [job srcFile e].
Proof.
  destruct e as [key fe]. intros (Hkey & Hfe & Hr) Hdam Hw Hfree. cbn [fst snd job] in *.
  destruct (restore_entry_begin p srcFile key fe Hkey Hw Hfree) as (p1 & E & K1).
  destruct (damaged_store_same p p1 (proj1 K1) Hdam) as [Hd1 Hf1].
  destruct (restore_file_sound p1 s key (target srcFile key) fe (content key) w Hpf Hok Hd1 Hfe Hr Hf1 (writable_keeps _ _ _ K1 Hw))
    as (x & p' & some & rest & E2 & Hx & Hcut & R & Hret).
  apply (restored_keeps p) in R; [|done]. exists x, p'. split; [by rewrite E|]. split; [done|].
  assert (files (pdisk p') !! target srcFile key = Some some) as Hat
    by (rewrite (rs_disk _ _ _ _ R); cbn [set_file files]; apply lookup_insert_eq).
  split; [split; [by apply restored_wrote in R|]|].
  - apply Forall_cons. split; [|constructor]. right. unfold job. by exists some, rest.
  - intros Hx'. apply Forall_cons. split; [|constructor]. unfold job. cbn [fst snd]. by rewrite Hat, Hcut, (Hret Hx'), app_nil_r.
Qed.

Lemma restore_entries_sound srcFile l : forall p, can_restore p (job srcFile <$> l).*1 -> damaged_store p ->
  Forall (described w) l -> salvages (restore_entries o progress r s destDir srcFile l.*2) p (job srcFile <$> l).
Proof.
  induction l as [|e l IH]; intros p Hc Hdam Hl; cbn [fmap list_fmap restore_entries]; [apply salvages_nil|].
  apply Forall_cons in Hl as [He Hl]. cbn [fmap list_fmap] in Hc.
  apply (salvages_bind _ _ p [job srcFile e]); [apply Hc| |].
  - apply restore_entry_sound; [done|done|apply Hc; by left|].
    destruct (cr_free _ _ Hc) as [|Hf]; [by left|]. right. apply Hf. by left.
  - intros p1 [Hw _]. apply IH; [by apply (can_restore_rest p p1 [(job srcFile e).1])| |done].
    by apply (damaged_store_same p), Hdam; apply Hw.
Qed.

Definition jobs (sel : bytes -> list (bytes * FileEntry)) (sources : list bytes) : list (bytes * bytes) :=
  concat ((fun srcFile => job srcFile <$> sel srcFile) <$> sources).

Lemma restore_sources_sound (sel : bytes -> list (bytes * FileEntry)) sources : forall p,
  can_restore p (jobs sel sources).*1 -> damaged_store p ->
  Forall (fun srcFile => forEachFileEntry_in s srcFile = Ret (sel srcFile).*2 /\ Forall (described w) (sel srcFile)) sources ->
  salvages (restore_sources o progress r s destDir sources) p (jobs sel sources).
Proof.
  induction sources as [|src sources IH]; intros p Hc Hdam Hs; cbn [restore_sources]; [apply salvages_nil|].
  unfold jobs in *. cbn [fmap list_fmap concat] in *. apply Forall_cons in Hs as [[E Hl] Hs].
  assert (forall k : io (process D) unit, (entries ← lift (forEachFileEntry_in s src);
    _ ← restore_entries o progress r s destDir src entries; k) p =
    (_ ← restore_entries o progress r s destDir src (sel src).*2; k) p) as Ek by (intros k; by rewrite E).
  unfold salvages. rewrite Ek. rewrite fmap_app in Hc.
  apply (salvages_bind _ _ p (job src <$> sel src)); [apply Hc| |].
  - apply restore_entries_sound; [|done|done]. by eapply can_restore_first.
  - intros p1 [Hw _]. apply IH; [by eapply can_restore_rest| |done].
    by apply (damaged_store_same p), Hdam; apply Hw.
Qed.
End Entries.
End Spec.

(** ** The selected files *)

Lemma sorted_nodup {A} (l : smap A) : sorted l -> NoDup l.*1.
Proof.
  induction l as [|[k v] l IH]; intros Hs; [constructor|]. apply sorted_cons in Hs as [Hs Hlt].
  cbn [fmap list_fmap fst]. constructor; [|by apply IH].
  intros (e & Ek & Hin)%list_elem_of_fmap. rewrite Forall_forall in Hlt. specialize (Hlt e Hin).
  rewrite Ek in Hlt. by apply bytes_lt_irrefl in Hlt.
Qed.

(** The file [path] is what the argument [srcFile] names, or below it. *)
Definition named (srcFile path : bytes) : Prop := under_path (strip_slashes srcFile) path = true.
#[global] Instance named_dec srcFile path : Decision (named srcFile path).
Proof. unfold named. apply _. Defined.

(** The files of [m] that an argument names. *)
Definition selected (m : gmap (list Byte.byte) (list Byte.byte)) (srcFile : bytes) : list bytes :=
  filter (named srcFile) (map_to_list m).*1.

(** No other file of [m] has the argument as a part of its name. *)
Definition unambiguous (m : gmap (list Byte.byte) (list Byte.byte)) (srcFile : bytes) : Prop :=
  forall path, is_Some (m !! path) -> is_prefix (strip_slashes srcFile) path -> named srcFile path.

Lemma elem_of_selected m srcFile path : path ∈ selected m srcFile <-> named srcFile path /\ is_Some (m !! path).
Proof.
  unfold selected. rewrite list_elem_of_filter. f_equiv. split.
  - intros ([k x] & -> & Hin)%list_elem_of_fmap. apply elem_of_map_to_list in Hin. by exists x.
  - intros [x Hx]. apply (list_elem_of_fmap_2 fst _ (path, x)). by apply elem_of_map_to_list.
Qed.

Lemma NoDup_selected m srcFile : NoDup (selected m srcFile).
Proof. apply NoDup_filter, NoDup_fst_map_to_list. Qed.

(** The empty argument names every file. *)
Lemma named_all path : named [] path.
Proof. unfold named, under_path. change (strip_slashes []) with (@nil Byte.byte). by rewrite ztake_nonpos. Qed.


Lemma filter_all {A} (l : smap A) : List.filter (fun e => under_path (strip_slashes []) e.1) l = l.
Proof. induction l as [|e l IH]; [done|]. cbn [List.filter]. rewrite (named_all e.1). by f_equal. Qed.

(** * Properties *)

Section Properties.
Context `{EVPSpec} `{LZMASpec} `{Paths} `{EnvSpec} `{Host} {D} `{DataStoreSpec D}.
Context (o : CliOptions) (progress : FileTransferProgressFunction) (r : Repository).

(** The entries that an argument names. *)
Definition named_entries (s : Snapshot) (srcFile : bytes) : list (bytes * FileEntry) :=
  List.filter (fun e => under_path (strip_slashes srcFile) e.1) (mFiles s).

(** They are those of its files. *)
Lemma selected_entries (rn : Repository) (w : world D) s m srcFile : represents rn w s m -> unambiguous m srcFile ->
  forEachFileEntry_in s srcFile = Ret (named_entries s srcFile).*2 /\
    (named_entries s srcFile).*1 ≡ₚ selected m srcFile /\
    Forall (described rn s (fun k => default [] (m !! k)) w) (named_entries s srcFile).
Proof.
  intros [Wok Wky Wn Ws] Hun. pose proof (sorted_nodup _ (ok_sorted _ Wok)) as Hnd.
  assert (forall e, e ∈ mFiles s -> getFileEntry s e.1 = Some e.2 /\ is_Some (m !! e.1)) as Hget.
  { intros [k fe] Hin. assert (getFileEntry s k = Some fe) as Hg by (apply find_In; [apply Wok|done]). split; [done|].
    cbn [fst]. destruct (m !! k) eqn:Em; [by eexists|]. apply Wn in Em. congruence. }
  destruct (forEach_subpath_spec s srcFile Wok Wky) as (l & E & _ & Hl).
  specialize (Hl (proj2 (Forall_forall _ _) (fun e Hin Hp => Hun _ (proj2 (Hget e Hin)) Hp))).
  fold (named_entries s srcFile) in Hl. subst l. split; [done|].
  assert (forall e, e ∈ named_entries s srcFile <-> named srcFile e.1 /\ e ∈ mFiles s) as Hel.
  { intros e. unfold named_entries. rewrite list_elem_of_In, List.filter_In, <-list_elem_of_In. unfold named. tauto. }
  split.
  - apply NoDup_Permutation; [|apply NoDup_selected|].
    + unfold named_entries. clear -Hnd. induction (mFiles s) as [|e l IH]; [constructor|].
      cbn [fmap list_fmap List.filter] in *. apply NoDup_cons in Hnd as [Hn Hnd]. destruct (under_path _ _); [|by apply IH].
      cbn [fmap list_fmap]. constructor; [|by apply IH]. intros (e' & Ee & Hin)%list_elem_of_fmap. apply Hn. rewrite Ee.
      apply list_elem_of_In, List.filter_In in Hin as [Hin _]. by apply list_elem_of_fmap_2, list_elem_of_In.
    + intros k. rewrite elem_of_selected. split.
      * intros (e & -> & [Hna Hin]%Hel)%list_elem_of_fmap. split; [done|by apply Hget].
      * intros [Hna [data Hm]]. destruct (Ws k data Hm) as (fe & c & ll & Hfe & _). apply find_In in Hfe; [|apply Wok].
        apply (list_elem_of_fmap_2 fst _ (k, fe)). by apply Hel.
  - apply Forall_forall. intros e [_ Hin]%Hel. destruct (Hget e Hin) as [Hg [data Hm]].
    unfold keyed in Wky. rewrite Forall_forall in Wky. split; [by apply Wky|]. split; [done|]. rewrite Hm. by apply Ws.
Qed.

Lemma all_places_perm destDir (f g : bytes -> list bytes) sources : Forall (fun src => f src ≡ₚ g src) sources ->
  all_places destDir f sources ≡ₚ all_places destDir g sources.
Proof.
  unfold all_places. induction 1 as [|src sources Hp _ IH]; [done|]. cbn [fmap list_fmap concat]. by rewrite Hp, IH.
Qed.

(** Restoring the files of a loaded snapshot that the arguments name. *)
Lemma restore_selected (rn : Repository) (p : process D) s m destDir sources :
  (forall a b x y, progress a b x y = true) -> dryRun o = false -> dvalid (wstore (pworld p)) ->
  represents rn (pworld p) s m -> Forall (unambiguous m) sources -> can_restore o p (all_places destDir (selected m) sources) ->
  exists p', restore_sources o progress rn s destDir sources p = (Ret tt, p') /\
    wrote p (all_places destDir (selected m) sources) p' /\
    forall srcFile path data, srcFile ∈ sources -> named srcFile path -> m !! path = Some data ->
      files (pdisk p') !! target destDir srcFile path = Some data.
Proof.
  intros Hpf Hdry Hd Hrep Hun Hcan. pose proof (rp_ok _ _ _ _ Hrep) as Wok.
  assert (Forall (fun srcFile => forEachFileEntry_in s srcFile = Ret (named_entries s srcFile).*2 /\
    Forall (described rn s (fun k => default [] (m !! k)) (pworld p)) (named_entries s srcFile)) sources) as Hent.
  { eapply Forall_impl; [exact Hun|]. intros src Hsrc. by destruct (selected_entries rn (pworld p) s m src Hrep Hsrc) as (? & _ & ?). }
  assert (Forall (fun srcFile => (named_entries s srcFile).*1 ≡ₚ selected m srcFile) sources) as Hperm.
  { eapply Forall_impl; [exact Hun|]. intros src Hsrc. apply (selected_entries rn (pworld p) s m src Hrep Hsrc). }
  pose proof (all_places_perm destDir _ _ sources Hperm) as Hplaces.
  destruct (restore_sources_spec o progress rn s destDir (fun k => default [] (m !! k)) Hpf Wok Hdry (named_entries s) sources p)
    as (p' & E & Hw & Hin); [|done|done|].
  { eapply can_restore_perm; [symmetry; exact Hplaces|done]. }
  exists p'. split; [done|]. split; [by eapply wrote_perm|].
  intros srcFile path data Hsrc Hna Hm. rewrite Forall_forall in Hperm.
  rewrite (Hin srcFile path Hsrc); [by rewrite Hm|]. rewrite (Hperm _ Hsrc). apply elem_of_selected. by split; [|eexists].
Qed.

(** *** The command *)

(** The path of a file from the directory of an argument. *)
Definition below_argument (srcFile path : bytes) : bytes := zdrop (zlen (parent_path srcFile) + 1) path.

(** The argument [srcFile] is in a directory, [path] is below this directory, and
    there is no symbolic link on the way from it to [path]. *)
Record plain_argument (srcFile path : bytes) : Prop := {
  pa_path : path = parent_path srcFile ++ slash :: below_argument srcFile path;
  pa_rest : normal_rest (below_argument srcFile path);
  pa_dir : weakly_canonical (parent_path srcFile) <> [];
  pa_dir_slash : last (weakly_canonical (parent_path srcFile)) <> Some slash;
  pa_canonical : weakly_canonical path = weakly_canonical (parent_path srcFile) ++ slash :: below_argument srcFile path
}.

(** Where [restore] writes a file that an argument names, and all of them. *)
Definition destination (destDir srcFile path : bytes) : bytes := path_append destDir (below_argument srcFile path).
Definition restored_places (m : gmap (list Byte.byte) (list Byte.byte)) (destDir : bytes) (sources : list bytes) : list bytes :=
  concat ((fun srcFile => destination destDir srcFile <$> selected m srcFile) <$> sources).

Definition plain_arguments (m : gmap (list Byte.byte) (list Byte.byte)) (sources : list bytes) : Prop :=
  forall srcFile path, srcFile ∈ sources -> path ∈ selected m srcFile -> plain_argument srcFile path.

Lemma target_destination destDir srcFile path : plain_argument srcFile path ->
  target destDir srcFile path = destination destDir srcFile path.
Proof.
  intros [_ Hr Hd Hs Hc]. unfold target, destination, relative. rewrite Hc. by rewrite lexically_relative_below.
Qed.

Lemma restored_places_target m destDir sources : plain_arguments m sources ->
  restored_places m destDir sources = all_places destDir (selected m) sources.
Proof.
  intros Hp. unfold restored_places, all_places. f_equal. apply list_fmap_ext. intros i srcFile Hi.
  apply list_fmap_ext. intros k path Hk. symmetry. apply target_destination, Hp; by eapply list_elem_of_lookup_2.
Qed.

(** The arguments of a [restore] name files of [m] that can be restored. *)
Record can_select (p : process D) (m : gmap (list Byte.byte) (list Byte.byte)) (name : bytes) (args sources : list bytes)
    (destDir : bytes) : Prop := {
  se_args : restore_arguments name args = (sources, destDir);
  se_dest : destDir ∈ pdirs p;
  se_unambiguous : Forall (unambiguous m) sources;
  se_plain : plain_arguments m sources;
  se_places : can_restore o p (restored_places m destDir sources)
}.

(** The command [restore <repo> <snapshot> <files> <destdir>]. *)
Lemma restore_command_spec (p : process D) repo name args sources destDir pw rest m :
  (forall a b x y, progress a b x y = true) -> dryRun o = false ->
  can_open o r p repo pw rest -> dvalid (wstore (pworld p)) -> has_snapshot r (pworld p) name m ->
  can_select p m name args sources destDir ->
  exists p', run o progress (Restore repo name args) p = (Ret tt, p') /\
    wstore (pworld p') = wstore (pworld p) /\
    (forall srcFile path data, srcFile ∈ sources -> named srcFile path -> m !! path = Some data ->
      files (pdisk p') !! destination destDir srcFile path = Some data) /\
    forall q, q ∉ restored_places m destDir sources -> files (pdisk p') !! q = files (pdisk p) !! q.
Proof.
  intros Hpf Hdry Hopen Hd Hsnap [Hargs Hdest Hun Hplain Hcan].
  rewrite (restored_places_target m destDir sources Hplain) in *.
  cbn [run]. unfold downloadFiles. rewrite Hargs.
  rewrite (io_bind_Ret (is_directory destDir) _ p _ p eq_refl), bool_decide_eq_true_2 by done. cbn [negb].
  destruct (can_open_spec o r p repo pw rest Hopen) as (rn & p1 & E1 & (W1 & K1 & D1) & _).
  rewrite (io_bind_Ret _ _ _ _ _ E1). rewrite <-W1 in Hd.
  assert (has_snapshot (with_keys rn r) (pworld p1) name m) as Hs1.
  { apply has_snapshot_with_keys. eapply has_snapshot_kept; [by apply same_data_kept|by rewrite W1|done]. }
  destruct (load_snapshot (with_keys rn r) (pworld p1) name m Hd Hs1) as (s & w2 & E2 & D2 & Hrep).
  rewrite (io_bind_Ret _ _ _ _ _ (on_repo_Ret _ p1 _ _ E2)). set (p2 := Build_process w2 _ _ _ _).
  destruct (restore_selected (with_keys rn r) p2 s m destDir sources Hpf Hdry) as (p' & E & [W _ Hout _] & Hin); try done.
  - cbn. by rewrite D2.
  - by apply (can_restore_same o p).
  - exists p'. split; [exact E|]. split; [by rewrite W; cbn; rewrite D2, W1|]. split.
    + intros srcFile path data Hsrc Hna Hm. rewrite <-target_destination; [by apply (Hin srcFile path data)|].
      apply Hplain; [done|]. apply elem_of_selected. by split; [|eexists].
    + intros q Hq. rewrite (Hout q Hq). cbn. by rewrite K1.
Qed.

(** Without file arguments the place of every file is the destination itself. *)
Lemma restore_all_spec `{!PathsSpec} `{!HostSpec} (p : process D) repo name destDir pw rest m :
  dryRun o = false -> can_open o r p repo pw rest -> dvalid (wstore (pworld p)) ->
  has_snapshot r (pworld p) name m -> destDir ∈ pdirs p ->
  exists x p', run o progress (Restore repo name [destDir]) p = (x, p') /\ pdisk p' = pdisk p /\
    (x = Ret tt \/ x = Throw FileNotFoundException \/ x = Throw filesystem_error) /\
    (force o = true -> m <> ∅ -> x <> Ret tt).
Proof.
  intros Hdry Hopen Hd Hsnap Hdest. cbn [run]. unfold downloadFiles. cbn [restore_arguments].
  rewrite (io_bind_Ret (is_directory destDir) _ p _ p eq_refl), bool_decide_eq_true_2 by done. cbn [negb].
  destruct (can_open_spec o r p repo pw rest Hopen) as (rn & p1 & E1 & (W1 & K1 & D1) & _).
  rewrite (io_bind_Ret _ _ _ _ _ E1). rewrite <-W1 in Hd.
  assert (has_snapshot (with_keys rn r) (pworld p1) name m) as Hs1.
  { apply has_snapshot_with_keys. eapply has_snapshot_kept; [by apply same_data_kept|by rewrite W1|done]. }
  destruct (load_snapshot (with_keys rn r) (pworld p1) name m Hd Hs1) as (s & w2 & E2 & D2 & [Wok Wky Wn Ws]).
  rewrite (io_bind_Ret _ _ _ _ _ (on_repo_Ret _ p1 _ _ E2)). set (p2 := Build_process w2 _ _ _ _).
  destruct (forEach_subpath_spec s [] Wok Wky) as (l & El & (before & after & Em & _ & Hl & _) & Hall).
  assert (l = mFiles s) as ->.
  { rewrite Hall; [|apply Forall_forall; intros e _ _; apply named_all]. apply filter_all. }
  cbn [restore_sources]. rewrite El, io_bind_lift.
  destruct (restore_entries_dest o progress (with_keys rn r) s destDir Hdry [] (mFiles s) p2) as (x & p' & E & [K _] & Hx & Hf).
  { cbn. by rewrite D1. }
  { intros key. unfold target, relative. by rewrite parent_path_nil, weakly_canonical_nil, lexically_relative_nil, path_append_nil. }
  { exact Wky. }
  exists x, p'. split; [|split; [by rewrite K|split; [exact Hx|]]].
  - destruct Hx as [-> |[-> | ->]]; [by rewrite (io_bind_Ret _ _ _ _ _ E)|by rewrite (io_bind_Throw _ _ _ _ _ E)..].
  - intros Hforce Hm. apply Hf; [done|]. intros Eempty. apply Hm. apply map_empty. intros path.
    destruct (m !! path) as [data|] eqn:Epath; [|done]. destruct (Ws path data Epath) as (fe & c & ll & Hfe & _).
    unfold getFileEntry in Hfe. by rewrite Eempty in Hfe.
Qed.

(** C4: the command [restore <repo> <snapshot> <files> <destdir>]: with the
    password of the repository typed at the prompt, of a snapshot that was
    committed with the files [m], it completes, and then every file of [m] that
    an argument names, itself or by a directory above it, is below the
    destination, at its path from the parent of the argument, with exactly its
    contents, having passed the MD5 check; all the other files of the disk and
    the store are as before.  The arguments have a directory ("d/a.txt" or "d/",
    not "d") and no symbolic link is below it; no other file of [m] may begin with
    the text of an argument (see [forEach_misses_files]), and the files must have
    places of their own that can be written, and that are free unless [--force]
    is given.  Without file arguments, which is to restore the whole snapshot,
    the command does not work: the place of every file is the destination itself,
    no file is written, and it ends with an exception, or because the user
    declined to overwrite the directory. *)
Theorem restore_correct `{!PathsSpec} `{!HostSpec} (p : process D) repo name pw rest m
    (Hpf : forall a b x y, progress a b x y = true) (Hdry : dryRun o = false)
    (Hopen : can_open o r p repo pw rest) (Hd : dvalid (wstore (pworld p))) (Hsnap : has_snapshot r (pworld p) name m) :
  (forall args sources destDir, can_select p m name args sources destDir ->
     exists p', run o progress (Restore repo name args) p = (Ret tt, p') /\
       wstore (pworld p') = wstore (pworld p) /\
       (forall srcFile path data, srcFile ∈ sources -> named srcFile path -> m !! path = Some data ->
         files (pdisk p') !! destination destDir srcFile path = Some data) /\
       forall q, q ∉ restored_places m destDir sources -> files (pdisk p') !! q = files (pdisk p) !! q) /\
  (forall destDir, destDir ∈ pdirs p ->
     exists x p', run o progress (Restore repo name [destDir]) p = (x, p') /\ pdisk p' = pdisk p /\
       (x = Ret tt \/ x = Throw FileNotFoundException \/ x = Throw filesystem_error) /\
       (force o = true -> m <> ∅ -> x <> Ret tt)).
Proof.
  split.
  - intros args sources destDir Hsel. by apply (restore_command_spec p repo name args sources destDir pw rest m).
  - intros destDir Hdest. by apply (restore_all_spec p repo name destDir pw rest m).
Qed.

(** *** The command on a damaged store *)

Lemma jobs_places destDir content sel sources :
  (jobs destDir content sel sources).*1 = all_places destDir (fun srcFile => (sel srcFile).*1) sources.
Proof.
  unfold jobs, all_places. induction sources as [|src sources IH]; [done|].
  cbn [fmap list_fmap concat]. rewrite fmap_app, IH. f_equal. by rewrite <-!list_fmap_compose.
Qed.

(** The files of [m] that the arguments name, each with its place and contents. *)
Definition selected_jobs (m : gmap (list Byte.byte) (list Byte.byte)) destDir s sources : list (bytes * bytes) :=
  jobs destDir (fun k => default [] (m !! k)) (named_entries s) sources.

Lemma restore_selected_sound (rn : Repository) (w : world D) (p : process D) s m destDir sources :
  (forall a b x y, progress a b x y = true) -> dryRun o = false -> damaged_store rn w p ->
  represents rn w s m -> Forall (unambiguous m) sources -> can_restore o p (all_places destDir (selected m) sources) ->
  (selected_jobs m destDir s sources).*1 ≡ₚ all_places destDir (selected m) sources /\
    salvages (restore_sources o progress rn s destDir sources) p (selected_jobs m destDir s sources).
Proof.
  intros Hpf Hdry Hdam Hrep Hun Hcan. pose proof (rp_ok _ _ _ _ Hrep) as Wok.
  assert (Forall (fun srcFile => (named_entries s srcFile).*1 ≡ₚ selected m srcFile) sources) as Hperm.
  { eapply Forall_impl; [exact Hun|]. intros src Hsrc. apply (selected_entries rn w s m src Hrep Hsrc). }
  pose proof (all_places_perm destDir _ _ sources Hperm) as Hplaces.
  unfold selected_jobs. rewrite jobs_places. split; [exact Hplaces|].
  apply (restore_sources_sound o progress rn s destDir _ Hpf Wok Hdry w); [|done|].
  - rewrite jobs_places. eapply can_restore_perm; [symmetry; exact Hplaces|done].
  - eapply Forall_impl; [exact Hun|]. intros src Hsrc. by destruct (selected_entries rn w s m src Hrep Hsrc) as (? & _ & ?).
Qed.

(** The job of a selected file. *)
Lemma selected_job (rn : Repository) (w : world D) s m destDir sources srcFile path data : represents rn w s m ->
  Forall (unambiguous m) sources -> srcFile ∈ sources -> named srcFile path -> m !! path = Some data ->
  (target destDir srcFile path, data) ∈ selected_jobs m destDir s sources.
Proof.
  intros Hrep Hun Hsrc Hna Hm. rewrite Forall_forall in Hun.
  destruct (selected_entries rn w s m srcFile Hrep (Hun _ Hsrc)) as (_ & Hp & _).
  assert (path ∈ (named_entries s srcFile).*1) as Hin by (rewrite Hp; apply elem_of_selected; by split; [|eexists]).
  apply list_elem_of_fmap in Hin as ([k fe] & -> & Hin). cbn [fst] in *.
  unfold selected_jobs, jobs. apply list_elem_of_In, in_concat.
  exists (job destDir (fun k => default [] (m !! k)) srcFile <$> named_entries s srcFile). split.
  - apply list_elem_of_In, list_elem_of_fmap. by exists srcFile.
  - apply list_elem_of_In, list_elem_of_fmap. exists (k, fe). split; [|done]. unfold job. cbn [fst]. by rewrite Hm.
Qed.
(** The snapshot of the repository is loaded, or the command fails before it
    writes anything. *)
Lemma load_sound (rn : Repository) (w w2 : world D) name m : dvalid (wstore w2) -> has_snapshot rn w name m ->
  forgery_free rn w w2 ->
  (exists s w3, loadSnapshot rn name DefaultProgressFunction w2 = (Ret s, w3) /\ wstore w3 = wstore w2 /\ represents rn w s m) \/
  exists e w3, loadSnapshot rn name DefaultProgressFunction w2 = (Throw e, w3) /\ damage_exception e /\ wstore w3 = wstore w2.
Proof.
  intros Hd Hs Hff. pose proof Hs as (Hn & Hsl & iv & s & _ & _ & Hob & _).
  assert (forall obj2, objects (wstore w2) (str "/snapshot/" ++ name) = Some obj2 ->
    objects (wstore w2) (str "/snapshot/" ++ name) = objects (wstore w) (str "/snapshot/" ++ name) \/
    zlen obj2 < 2 ^ 63 /\ ~ authentic rn obj2) as Hcase.
  { intros obj2 Hob2. rewrite Hob2, Hob.
    destruct (Hff _ _ _ (path_snapshot name Hn Hsl) ltac:(discriminate) Hob Hob2) as [->|[Hl Hp]]; [by left|].
    destruct (Hp 0 0) as [Heq|Hbad]; [left|by right].
    unfold part in Heq. rewrite !(proj2 (Z.ltb_ge 0 0)) in Heq by lia. by rewrite Heq. }
  destruct (objects (wstore w2) (str "/snapshot/" ++ name)) as [obj2|] eqn:Hob2.
  - destruct (Hcase obj2 eq_refl) as [Hsame|Hbad].
    + left. eapply load_snapshot_from; [done|exact Hs|by rewrite Hob2].
    + right. apply load_damaged; [done|done|done|by rewrite Hob2].
  - right. apply load_damaged; [done|done|done|by rewrite Hob2].
Qed.

(** C5: the command [restore] over a store that was damaged since the
    snapshot was committed: objects were removed, cut or changed, the key file
    apart, in any way that makes no authentic bytes of its own and puts no
    authentic object or part of one in the place of another, an older or an
    exchanged one (which is not noticed, see [exchange_unnoticed]).  With the
    password typed at the prompt, the command ends, either normally or with one
    of the exceptions of damaged data.  If it ends normally then every file that
    the arguments name has exactly its contents.  Otherwise every such place is
    as before or has a beginning of the contents of its file, so never has a byte
    of another file or of what was put in the store.  In all cases the other
    files of the disk and the store are unchanged. *)
Theorem restore_damaged (p : process D) (w : world D) repo name args sources destDir pw rest m
    (Hpf : forall a b x y, progress a b x y = true) (Hdry : dryRun o = false)
    (Hopen : can_open o r p repo pw rest) (Hd : dvalid (wstore (pworld p)))
    (Hsnap : has_snapshot r w name m) (Hdam : forgery_free r w (pworld p))
    (Hsel : can_select p m name args sources destDir) :
  exists x p', run o progress (Restore repo name args) p = (x, p') /\
    wstore (pworld p') = wstore (pworld p) /\
    (x = Ret tt \/ exists e, x = Throw e /\ damage_exception e) /\
    (forall srcFile path data, srcFile ∈ sources -> named srcFile path -> m !! path = Some data ->
      let q := destination destDir srcFile path in
      (x = Ret tt -> files (pdisk p') !! q = Some data) /\
      (files (pdisk p') !! q = files (pdisk p) !! q \/
       exists some rest, data = some ++ rest /\ files (pdisk p') !! q = Some some)) /\
    forall q, q ∉ restored_places m destDir sources -> files (pdisk p') !! q = files (pdisk p) !! q.
Proof.
  destruct Hsel as [Hargs Hdest Hun Hplain Hcan]. rewrite (restored_places_target m destDir sources Hplain) in *.
  assert (forall srcFile path data, srcFile ∈ sources -> named srcFile path -> m !! path = Some data ->
    destination destDir srcFile path = target destDir srcFile path) as Htarget.
  { intros srcFile path data Hsrc Hna Hm. symmetry. apply target_destination, Hplain; [done|].
    apply elem_of_selected. by split; [|eexists]. }
  cbn [run]. unfold downloadFiles. rewrite Hargs.
  rewrite (io_bind_Ret (is_directory destDir) _ p _ p eq_refl), bool_decide_eq_true_2 by done. cbn [negb].
  destruct (can_open_spec o r p repo pw rest Hopen) as (rn & p1 & E1 & (W1 & K1 & D1) & _).
  rewrite (io_bind_Ret _ _ _ _ _ E1). rewrite <-W1 in Hd.
  assert (forgery_free (with_keys rn r) w (pworld p1)) as Hdam1 by (intros q ob ob2; rewrite W1; apply Hdam).
  apply (has_snapshot_with_keys rn) in Hsnap.
  destruct (load_sound (with_keys rn r) w (pworld p1) name m Hd Hsnap Hdam1)
    as [(s & w2 & E2 & D2 & Hrep)|(e & w2 & E2 & He & D2)].
  - rewrite (io_bind_Ret _ _ _ _ _ (on_repo_Ret _ p1 _ _ E2)). set (p2 := Build_process w2 _ _ _ _).
    assert (damaged_store (with_keys rn r) w p2) as Hdam2.
    { unfold damaged_store, forgery_free. cbn [p2 pworld]. rewrite D2. by split. }
    destruct (restore_selected_sound (with_keys rn r) w p2 s m destDir sources Hpf Hdry Hdam2 Hrep Hun)
      as (Hperm & x & p' & E & Hx & [Hw Hfiles] & Hall).
    + by apply (can_restore_same o p).
    + exists x, p'. split; [exact E|]. apply (wrote_perm _ _ _ _ Hperm) in Hw. destruct Hw as [W _ Hout _].
      split; [by rewrite W; cbn; rewrite D2, W1|]. split; [exact Hx|].
      change (files (pdisk p2)) with (files (pdisk p1)) in *. rewrite K1 in *. split; [|done].
      intros srcFile path data Hsrc Hna Hm. cbn zeta. rewrite (Htarget srcFile path data Hsrc Hna Hm).
      pose proof (selected_job _ w s m destDir sources srcFile path data Hrep Hun Hsrc Hna Hm) as Hj.
      unfold complete in Hall. rewrite Forall_forall in Hfiles. split; [|exact (Hfiles _ Hj)].
      intros Hx'. specialize (Hall Hx'). rewrite Forall_forall in Hall. exact (Hall _ Hj).
  - rewrite (io_bind_Throw _ _ _ _ _ (on_repo_Throw _ p1 _ _ E2)). eexists _, _. split; [done|].
    cbn [pworld pdisk]. rewrite D2, W1, K1. split; [done|]. split; [right; by exists e|]. split; [|done].
    intros srcFile path data _ _ _. split; [done|by left].
Qed.
End Properties.

(** ** A concrete restore *)

Module SampleRestore.
(** Places that can be written on an empty disk. *)
Lemma free_places w places : NoDup places -> Forall (fun q => q <> str "out") places ->
  Forall (fun q => Forall (fun q' => q ∉ ancestors (parent_path q')) places) places ->
  can_restore (SampleCli.options false) (SampleCli.process_on w) places.
Proof.
  intros Hn Ho Ha. rewrite Forall_forall in Ho, Ha.
  assert (forall q q', q ∈ places -> q' ∈ places -> q ∉ ancestors (parent_path q')) as Habove.
  { intros q q' Hq Hq'. specialize (Ha q Hq). rewrite Forall_forall in Ha. by apply Ha. }
  constructor; [done| |done|by right].
  intros q Hq. constructor; [apply not_elem_of_empty|intros Hin; cbn in Hin; apply elem_of_singleton in Hin; by apply (Ho q)|by apply Habove|done].
Qed.

Definition argument : bytes := str "d/a.txt".

Lemma selected_one srcFile : named srcFile SampleCli.file -> selected SampleCli.committed_files srcFile = [SampleCli.file].
Proof.
  intros Hn. unfold selected, SampleCli.committed_files. rewrite map_to_list_singleton.
  cbn [fmap list_fmap fst]. by rewrite filter_cons_True.
Qed.

Lemma named_argument : named argument SampleCli.file.
Proof. vm_compute. reflexivity. Qed.

(** The file goes to "out/a.txt". *)
Lemma one_place : restored_places SampleCli.committed_files (str "out") [argument] = [str "out/a.txt"].
Proof.
  unfold restored_places. cbn [fmap list_fmap concat]. rewrite (selected_one argument named_argument).
  vm_compute. reflexivity.
Qed.

Lemma selects w : can_select (SampleCli.options false) (SampleCli.process_on w) SampleCli.committed_files (str "s1")
  [argument; str "out"] [argument] (str "out").
Proof.
  constructor.
  - reflexivity.
  - cbn. by apply elem_of_singleton.
  - constructor; [|constructor]. intros path [x Hx] _. unfold SampleCli.committed_files in Hx.
    apply lookup_singleton_Some in Hx as [<- _]. exact named_argument.
  - intros srcFile path ->%list_elem_of_singleton Hp. rewrite (selected_one argument named_argument) in Hp.
    apply list_elem_of_singleton in Hp as ->.
    constructor; [vm_compute; reflexivity|split; [vm_compute; discriminate|split; [vm_compute; discriminate|vm_compute; reflexivity]]
      |vm_compute; discriminate|vm_compute; discriminate|vm_compute; reflexivity].
  - rewrite one_place. apply free_places; [apply NoDup_singleton|by repeat constructor|].
    refine (bool_decide_unpack _ _). vm_compute. exact I.
Qed.

#[global] Instance host_spec : HostSpec.
Proof. reflexivity. Qed.
(** The object of the file in a store with the snapshot. *)
Lemma file_object w : has_snapshot SampleBackup.repo w (str "s1") SampleCli.committed_files ->
  exists id obj, zlen id = SHA256_DIGEST_LENGTH /\ objects (wstore w) (object_file id) = Some obj.
Proof.
  intros (_ & _ & iv & s & _ & [_ _ _ Ws] & _).
  destruct (Ws SampleCli.file (str "some text") ltac:(apply lookup_singleton_eq)) as (fe & c & l & _ & _ & _ & _ & _ & Hl & Hcat & _).
  destruct l as [|[id m] l]; [discriminate Hcat|]. apply Forall_cons in Hl as [(iv' & obj & _ & Hid & Hob & _) _].
  by exists id, obj.
Qed.

Lemma no_forgery : Forall (fun n => ~ authentic SampleBackup.repo (replicate n Byte.x00)) (seq 0 41).
Proof. refine (bool_decide_unpack _ _). vm_compute. exact I. Qed.

Lemma zeros_part off len : exists n, part off len SampleDamage.zeros = replicate n Byte.x00 /\ (n < 41)%nat.
Proof.
  unfold part, SampleDamage.zeros. case_match; [|by exists 40%nat; split; [|lia]].
  rewrite ztake_take, zdrop_drop, drop_replicate, take_replicate. eexists. split; [done|]. lia.
Qed.

(** The object of the file is overwritten with zeros. *)
Lemma zeroed_store : exists (w w2 : world FileDataStore) id, dvalid (wstore w2) /\ keys_ok SampleBackup.repo /\
  (exists salt iv derived junk lr, has_key_file w2 SampleBackup.repo SampleBackup.password salt iv derived junk lr) /\
  has_snapshot SampleBackup.repo w (str "s1") SampleCli.committed_files /\ forgery_free SampleBackup.repo w w2 /\
  is_Some (objects (wstore w) (object_file id)) /\ objects (wstore w2) (object_file id) = Some SampleDamage.zeros.
Proof.
  destruct SampleCli.sample_store as (w & Hd & Hk & Hf & Hs). destruct (file_object w Hs) as (id & obj & Hid & Hob).
  destruct (new_MemoryInputStream_valid SampleDamage.zeros) as (V & C & _).
  destruct (put_spec (wstore w) (object_file id) (new_MemoryInputStream SampleDamage.zeros) DefaultProgressFunction Hd
    (object_file_path id Hid) V (fun _ _ => eq_refl)) as (i' & d & _ & Hd' & Hobs). rewrite C in Hobs.
  exists w, (Build_world d 0), id. cbn [wstore]. split; [exact Hd'|]. split; [exact Hk|]. split; [|split; [exact Hs|split; [|split]]].
  - destruct Hf as (salt & iv & derived & junk & lr & _ & ? & ? & ? & ? & ? & Hkey).
    exists salt, iv, derived, junk, lr. split; [exact Hd'|]. do 5 (split; [assumption|]). cbn [wstore].
    rewrite Hobs by exact path_key. rewrite decide_False by discriminate. exact Hkey.
  - intros q ob ob2 Hq _ Ho Ho2. cbn [wstore] in Ho2. rewrite Hobs in Ho2 by exact Hq.
    case_decide; [right|left; congruence]. injection Ho2 as <-. split; [reflexivity|]. intros off len. right.
    destruct (zeros_part off len) as (n & -> & Hn). pose proof no_forgery as F. rewrite Forall_forall in F.
    apply F. apply elem_of_seq. lia.
  - exists obj. exact Hob.
  - rewrite Hobs by (by apply object_file_path). by rewrite decide_True.
Qed.
End SampleRestore.

Lemma restore_correct_witness :
  exists w p', run (SampleCli.options false) DefaultFileTransferProgressFunction
      (Restore (str "store") (str "s1") [str "d/a.txt"; str "out"]) (SampleCli.process_on w) = (Ret tt, p') /\
    files (pdisk p') !! str "out/a.txt" = Some (str "some text") /\
    exists x p2, run (SampleCli.options false) DefaultFileTransferProgressFunction
      (Restore (str "store") (str "s1") [str "out"]) (SampleCli.process_on w) = (x, p2) /\ pdisk p2 = empty_disk.
Proof.
  destruct SampleCli.sample_store as (w & Hd & Hk & Hf & Hs).
  destruct (restore_correct (SampleCli.options false) DefaultFileTransferProgressFunction SampleBackup.repo
    (SampleCli.process_on w) (str "store") (str "s1") SampleBackup.password []
    SampleCli.committed_files (fun _ _ _ _ => eq_refl) eq_refl (SampleCli.opens false w Hk Hf) Hd Hs) as [R1 R2].
  destruct (R1 [str "d/a.txt"; str "out"] [SampleRestore.argument] (str "out") (SampleRestore.selects w)) as (p' & E & _ & Hin & _).
  destruct (R2 (str "out") ltac:(cbn; by apply elem_of_singleton)) as (x & p2 & E2 & K2 & _).
  exists w, p'. split; [exact E|]. split; [|exists x, p2; split; [exact E2|exact K2]].
  exact (Hin SampleRestore.argument SampleCli.file (str "some text") ltac:(by left) SampleRestore.named_argument
    ltac:(apply lookup_singleton_eq)).
Defined.

Lemma restore_damaged_witness :
  exists w p x p' id, objects (wstore (pworld p)) (object_file id) = Some SampleDamage.zeros /\
    has_snapshot SampleBackup.repo w (str "s1") SampleCli.committed_files /\
    run (SampleCli.options false) DefaultFileTransferProgressFunction
      (Restore (str "store") (str "s1") [str "d/a.txt"; str "out"]) p = (x, p') /\
    (x = Ret tt \/ exists e, x = Throw e /\ damage_exception e) /\
    (x = Ret tt -> files (pdisk p') !! str "out/a.txt" = Some (str "some text")).
Proof.
  destruct SampleRestore.zeroed_store as (w & w2 & id & Hd & Hk & Hf & Hs & Hff & _ & Hz).
  destruct (restore_damaged (SampleCli.options false) DefaultFileTransferProgressFunction SampleBackup.repo
    (SampleCli.process_on w2) w (str "store") (str "s1") [str "d/a.txt"; str "out"] [SampleRestore.argument] (str "out")
    SampleBackup.password [] SampleCli.committed_files (fun _ _ _ _ => eq_refl) eq_refl
    (SampleCli.opens false w2 Hk Hf) Hd Hs Hff (SampleRestore.selects w2)) as (x & p' & E & _ & Hx & Hin & _).
  exists w, (SampleCli.process_on w2), x, p', id. split; [exact Hz|]. split; [exact Hs|]. split; [exact E|]. split; [exact Hx|].
  exact (proj1 (Hin SampleRestore.argument SampleCli.file (str "some text") ltac:(by left) SampleRestore.named_argument
    ltac:(apply lookup_singleton_eq))).
Defined.
