(* ===== verification/CliBackup.v ===== *)
(** * The backup command

    What [backupFiles] of Main.cpp achieves, over the refinement of Backup: small
    files are collected in packs, which end where the rolling hash says and after
    every argument, large files are stored at once, and the snapshot that is
    committed has exactly the files of the arguments. *)
From S2P Require Import Prelude Crypto RollingHash Streams MemoryStreams FileStreams CompositeStreams CryptoStreams Lzma StreamUtils.
From S2P Require Import StdMap Filesystem Snapshot DataStore FileDataStore Repository RepositoryKeys Upload Chunks.
From S2P Require Import RepositoryFiles FileTransfer PackFiles Backup Cli CliFormat CliCommands CliSpec CliRestore.
From Stdlib Require Import ZArith Lia.

(** ** Files to back up *)

Record source := { so_path : bytes; so_data : bytes; so_stat : stat }.

(** The sum of a measure of some files. *)
Definition total (g : source -> Z) (l : list source) : Z := foldr (fun f n => g f + n) 0 l.

Lemma total_cons g f l : total g (f :: l) = g f + total g l.
Proof. done. Qed.

Lemma total_app g l k : total g (l ++ k) = total g l + total g k.
Proof. induction l as [|f l IH]; [done|]. cbn [app]. rewrite !total_cons, IH. lia. Qed.

#[export] Instance total_perm g : Proper ((≡ₚ) ==> eq) (total g).
Proof. induction 1; rewrite ?total_cons; lia. Qed.

Lemma total_nonneg g l : (forall f, 0 <= g f) -> 0 <= total g l.
Proof. intros Hg. induction l as [|f l IH]; [done|]. rewrite total_cons. pose proof (Hg f). lia. Qed.

(** A part of the files has no more than all of them. *)
Lemma total_part g l k m : (forall f, 0 <= g f) -> l ++ k ≡ₚ m -> 0 <= total g l <= total g m.
Proof.
  intros Hg <-. rewrite total_app. pose proof (total_nonneg g l Hg). pose proof (total_nonneg g k Hg). lia.
Qed.

Lemma total_one l : total (fun _ => 1) l = zlen l.
Proof. induction l as [|f l IH]; [done|]. rewrite total_cons, zlen_cons, IH. lia. Qed.

Section Sources.
Context `{EVPSpec} `{LZMA} `{Paths}.

(** The path of a file in the snapshot, and what is known of it. *)
Definition key (f : source) : bytes := relative_normal (so_path f).
Definition source_info (f : source) : FileInfo := new_FileInfo (so_path f) (Some (so_stat f)).
Definition source_compression (f : source) : CompressionType := compression_for (mExtension (source_info f)).

(** What a pack records of a small file; only the offset depends on the pack. *)
Definition pack_info (f : source) (off : Z) : PackFileInfo := {|
  pi_path := key f; pi_user := mUserName (source_info f); pi_group := mGroupName (source_info f);
  pi_type := mType (source_info f); pi_mode := uwrap 16 (mMode (source_info f));
  pi_compression := source_compression f; pi_size := mLength (source_info f);
  pi_mtime := mLastModifyTime (source_info f); pi_rollingHashBits := 0; pi_md5 := md5 (so_data f);
  pi_offset := off; pi_packLength := None |}.

Definition source_room (f : source) : Z := info_room (pack_info f 0).

(** The files of a snapshot. *)
Definition files_map (l : list source) : gmap (list Byte.byte) (list Byte.byte) :=
  list_to_map ((fun f => (key f, so_data f)) <$> l).

Lemma files_map_app l k : files_map (l ++ k) = files_map l ∪ files_map k.
Proof. unfold files_map. by rewrite fmap_app, list_to_map_app. Qed.

Lemma files_map_fst l : ((fun f => (key f, so_data f)) <$> l).*1 = key <$> l.
Proof. by rewrite <-list_fmap_compose. Qed.

Lemma files_map_perm l k : NoDup (key <$> l) -> l ≡ₚ k -> files_map l = files_map k.
Proof. intros Hnd Hp. apply list_to_map_proper; [by rewrite files_map_fst|by rewrite Hp]. Qed.

Lemma files_map_None l path : path ∉ key <$> l -> files_map l !! path = None.
Proof. intros Hn. apply not_elem_of_list_to_map. by rewrite files_map_fst. Qed.

Lemma files_map_keys l : NoDup (key <$> l) -> (map_to_list (files_map l)).*1 ≡ₚ key <$> l.
Proof. intros Hnd. unfold files_map. rewrite map_to_list_to_map by (by rewrite files_map_fst). by rewrite files_map_fst. Qed.

Lemma files_map_Some l f : NoDup (key <$> l) -> f ∈ l -> files_map l !! key f = Some (so_data f).
Proof.
  intros Hnd Hf. apply elem_of_list_to_map; [by rewrite files_map_fst|].
  by apply (list_elem_of_fmap_2 (fun f => (key f, so_data f))).
Qed.

(** The files that are collected in packs. *)
Definition small (f : source) : bool := zlen (so_data f) <? smallFileSize default_Options.
Definition smalls (l : list source) : list source := filter (fun f => small f = true) l.

(** The objects of a file. *)
Definition source_ids `{Env} (rh : RollingHash) (f : source) : Z := zlen (cut_file default_Options rh (so_data f)).2.

(** The files of an argument. *)
Definition arg_paths `{Host} (dirs : gset (list Byte.byte)) (arg : bytes) : list bytes :=
  if bool_decide (arg ∈ dirs) then filter (fun path => path ∉ dirs) (files_below arg) else [arg].
End Sources.

(** ** The state of a backup *)

Section Run.
Context `{EVPSpec} `{LZMASpec} `{Paths} `{EnvSpec} `{Host} {D} `{DataStoreSpec D}.

(** Some files of a list, one after the other. *)
Definition run_of (l b : list source) : Prop := b <> [] /\ exists a c, l = a ++ b ++ c.

Definition pack_name (r : Repository) (l : list source) : bytes := pack_id r (so_data <$> l).

(** What the backup of the files [L] of the disk [d] relies on: they have
    different paths in the snapshot and are what [stat] says, there is room for
    them, and the packs that they can form have names of their own, which are not
    in the store. *)
Record can_backup (r : Repository) (rh : RollingHash) (U : list (CompressionType * bytes)) (d : disk)
    (w : world D) (L : list source) : Prop := {
  cb_hash : first_hash r rh;
  cb_universe : universe_ok r U;
  cb_nodup : NoDup (key <$> L);
  cb_disk : Forall (fun f => files d !! so_path f = Some (so_data f)) L;
  cb_stat : Forall (fun f => stat_path (so_path f) = Some (so_stat f) /\
    st_size (so_stat f) = zlen (so_data f) /\ type_of_mode (st_mode (so_stat f)) <> FileNotFound) L;
  cb_infos : Forall (fun f => info_ok (pack_info f 0) /\ splits (key f)) L;
  cb_small : Forall (fun f => zlen (so_data f) <= Z.of_nat decompress_bound) (smalls L);
  cb_large : Forall (fun f => small f = false -> zlen (so_data f) < 2 ^ 46 /\
    Forall (fun b => (source_compression f, b) ∈ U) (cut_file default_Options rh (so_data f)).2) L;
  cb_absent b : run_of (smalls L) b -> objects (wstore w) (object_file (pack_name r b)) = None;
  cb_packs b c k : run_of (smalls L) (b ++ k ++ c) -> b <> [] -> c <> [] -> pack_name r b <> pack_name r c;
  cb_blocks x b : x ∈ U -> run_of (smalls L) b -> block_id r x.1 x.2 <> pack_name r b;
  cb_pack_size : total (fun f => object_size (source_compression f) (so_data f)) (smalls L) < 2 ^ 32;
  cb_strings : total source_room L < 2 ^ 31;
  cb_ids : total (source_ids rh) L < 2 ^ 31;
  cb_files : zlen L < 2 ^ 31;
  cb_bound : 12 + total source_room L + 32 * total (source_ids rh) L + 68 * zlen L <= Z.of_nat decompress_bound;
  cb_payload m : zlen m <= Z.of_nat decompress_bound -> zlen (payload LZMA2 m) < 2 ^ 62
}.

Lemma run_of_all l : l <> [] -> run_of l l.
Proof. intros Hl. split; [done|]. exists [], []. by rewrite app_nil_r. Qed.

Lemma run_of_part a l c b : run_of l b -> run_of (a ++ l ++ c) b.
Proof. intros (Hb & a' & c' & ->). split; [done|]. exists (a ++ a'), (c' ++ c). by rewrite <-!app_assoc. Qed.

Lemma smalls_app l k : smalls (l ++ k) = smalls l ++ smalls k.
Proof. apply filter_app. Qed.

(** The files of a pack are the pending ones. *)
Record collects (pend : list source) (infos : list PackFileInfo) : Prop := {
  co_paths : pi_path <$> infos = key <$> pend;
  co_room : pack_room infos = total source_room pend;
  co_length : zlen infos = zlen pend;
  co_infos : Forall (fun f => info_ok (pack_info f 0)) pend -> Forall info_ok infos;
  co_size : pack_size (zip infos (so_data <$> pend)) =
    total (fun f => object_size (source_compression f) (so_data f)) pend
}.

Lemma collects_infos pend infos : Forall2 (fun f fi => exists off, fi = pack_info f off) pend infos ->
  collects pend infos.
Proof.
  induction 1 as [|f fi pend infos (off & ->) _ [IP IR IL II IS]]; [by constructor|].
  constructor; cbn [fmap list_fmap zip_with pack_room pack_size foldr fst snd]; fold (pack_room infos);
    rewrite ?total_cons, ?zlen_cons.
  - by rewrite IP.
  - by rewrite IR.
  - by rewrite IL.
  - intros [Hf Hp]%Forall_cons. constructor; [|by apply II]. destruct Hf. by constructor.
  - by rewrite <-IS.
Qed.

Lemma zip_pairs (l : list source) (f g : source -> bytes) : zip (f <$> l) (g <$> l) = (fun x => (f x, g x)) <$> l.
Proof. induction l as [|x l IH]; [done|]. cbn. by rewrite <-IH. Qed.

(** ** The invariant *)

Section Invariant.
Context (r : Repository) (rh : RollingHash) (U : list (CompressionType * bytes)) (kf : bytes).
Context (d : disk) (w0 : world D) (L : list source).
Context (snaps : gmap (list Byte.byte) (gmap (list Byte.byte) (list Byte.byte))).
Context (Hcan : can_backup r rh U d w0 L) (Hopt : mOptions r = default_Options).

(** The files [done] are in the snapshot, [pend] are in the pack, and [rest]
    are still to come. *)
Record running (done pend rest : list source) (w : world D) (s : Snapshot) (pk : PackUploadState) : Prop := {
  ru_files : done ++ pend ++ rest ≡ₚ L;
  ru_smalls : exists a, smalls L = a ++ pend ++ smalls rest;
  ru_refines : refines r U kf {| working := files_map done; committed := snaps |} (Build_system w s);
  ru_absent b : run_of (pend ++ smalls rest) b -> objects (wstore w) (object_file (pack_name r b)) = None;
  ru_pack : pack_inv r pk;
  ru_started : match p_rollingHash pk with Some _ => pend <> [] | None => pend = [] end;
  ru_infos : Forall2 (fun f fi => exists off, fi = pack_info f off) pend (fileInfos pk);
  ru_data : packData pk = so_data <$> pend;
  ru_strings : zlen (mStringBuffer s) <= total source_room done;
  ru_ids : zlen (mObjectIDs s) <= total (source_ids rh) done;
  ru_nfiles : zlen (mFiles s) <= zlen done;
  ru_stored f : f ∈ done -> small f = true ->
    exists b, f ∈ b /\ run_of (smalls L) b /\ is_Some (objects (wstore w) (object_file (pack_name r b)))
}.

Lemma source_room_nonneg f : 0 <= source_room f.
Proof. pose proof (info_room_pos (pack_info f 0)). unfold source_room. lia. Qed.

Lemma source_ids_nonneg f : 0 <= source_ids rh f.
Proof. apply zlen_nonneg. Qed.

(** A small file is one object. *)
Lemma small_ids l : Forall (fun f => small f = true) l -> total (source_ids rh) l = zlen l.
Proof.
  induction 1 as [|f l Hf _ IH]; [done|]. rewrite total_cons, zlen_cons, IH. unfold source_ids, cut_file.
  unfold small in Hf. rewrite Hf. cbn. lia.
Qed.

Lemma pending_small done pend rest w s pk : running done pend rest w s pk ->
  Forall (fun f => small f = true) pend /\ run_of (smalls L) pend \/ pend = [].
Proof.
  intros Hr. destruct (ru_smalls _ _ _ _ _ _ Hr) as [a Ha]. destruct (decide (pend = [])) as [|Hne]; [by right|left].
  split.
  - apply Forall_forall. intros f Hf. assert (f ∈ smalls L) as [? _]%list_elem_of_filter by (rewrite Ha; set_solver). done.
  - split; [done|]. by exists a, (smalls rest).
Qed.

(** The pending files are not yet in the snapshot. *)
Lemma pending_new done pend rest w s pk f : running done pend rest w s pk -> f ∈ pend ++ rest ->
  files_map done !! key f = None.
Proof.
  intros Hr Hf. apply files_map_None. intros (g & Eg & Hg)%list_elem_of_fmap.
  pose proof (cb_nodup _ _ _ _ _ _ Hcan) as Hnd. rewrite <-(ru_files _ _ _ _ _ _ Hr), fmap_app in Hnd.
  apply NoDup_app in Hnd as (_ & Hdis & _). apply (Hdis (key g)); [by apply list_elem_of_fmap_2|].
  rewrite <-Eg. by apply list_elem_of_fmap_2.
Qed.

Lemma running_pack_pre done pend rest w s pk : running done pend rest w s pk -> pend <> [] ->
  pre r rh U (Pack pk) {| working := files_map done; committed := snaps |} (Build_system w s).
Proof.
  intros Hr Hne. destruct (pending_small _ _ _ _ _ _ Hr) as [[Hsm Hrun]|]; [|done].
  pose proof Hr as [Hall [a Ha] Hre Habs Hpk Hst Hin Hda Hs Hi Hf Hsto]. destruct Hre as [Hd _ _ [Wok _ Wn _] _].
  destruct (collects_infos _ _ Hin) as [IP IR IL II IS]. pose proof (cb_nodup _ _ _ _ _ _ Hcan) as Hnd.
  assert (pend ++ done ++ rest ≡ₚ L) as Hperm by (rewrite <-Hall; rewrite !app_assoc; f_equiv; apply Permutation_app_comm).
  assert (done ++ pend ++ rest ≡ₚ L) as Hperm2 by done. rewrite app_assoc in Hperm2.
  assert (Forall (fun f => info_ok (pack_info f 0) /\ splits (key f)) pend) as Hio.
  { pose proof (cb_infos _ _ _ _ _ _ Hcan) as F. rewrite <-Hperm in F. by apply Forall_app in F as [? _]. }
  destruct (total_part source_room (done ++ pend) rest L source_room_nonneg Hperm2) as [_ T1].
  destruct (total_part (source_ids rh) (done ++ pend) rest L source_ids_nonneg Hperm2) as [_ T2].
  rewrite total_app in T1, T2. rewrite (small_ids pend Hsm) in T2.
  pose proof (f_equal zlen IP) as Hlen. rewrite !zlen_fmap in Hlen.
  assert (zlen done + zlen pend <= zlen L) as T3.
  { rewrite <-!total_one, <-total_app. by apply (total_part (fun _ => 1) (done ++ pend) rest). }
  pose proof (cb_strings _ _ _ _ _ _ Hcan). pose proof (cb_ids _ _ _ _ _ _ Hcan). pose proof (cb_files _ _ _ _ _ _ Hcan).
  split; [|split].
  - constructor; cbn [sys_world sys_snapshot] in *; try done.
    + destruct (p_rollingHash pk); [by eexists|done].
    + rewrite Hda. apply Habs. rewrite <-(app_nil_l (pend ++ _)). apply run_of_part, run_of_all. done.
    + rewrite Hda, IS. pose proof (cb_pack_size _ _ _ _ _ _ Hcan) as Hps. rewrite Ha, !total_app in Hps.
      assert (forall l, 0 <= total (fun f => object_size (source_compression f) (so_data f)) l) as Hnn.
      { intros l. apply total_nonneg. intros f. pose proof (object_size_pos (source_compression f) (so_data f)). lia. }
      pose proof (Hnn a). pose proof (Hnn (smalls rest)). lia.
    + rewrite Hda. apply Forall_fmap. pose proof (cb_small _ _ _ _ _ _ Hcan) as F. rewrite Ha in F.
      by apply Forall_app in F as [_ [F _]%Forall_app].
    + apply II. eapply Forall_impl; [exact Hio|]. by intros f [? _].
    + constructor.
      * apply Forall_forall. intros fi Hfi. apply Wn. apply (list_elem_of_fmap_2 pi_path) in Hfi.
        rewrite IP in Hfi. apply list_elem_of_fmap in Hfi as (f & -> & Hfp). cbn [working].
        apply (pending_new _ _ _ _ _ _ f Hr). set_solver.
      * rewrite IP. rewrite <-Hperm, fmap_app in Hnd. by apply NoDup_app in Hnd as [? _].
      * rewrite IR. lia.
      * lia.
      * lia.
  - rewrite IP. apply Forall_fmap. eapply Forall_impl; [exact Hio|]. by intros f [_ ?].
  - intros b Hb. rewrite Hda. by apply (cb_blocks _ _ _ _ _ _ Hcan).
Qed.

(** Finishing the pack moves the pending files to the snapshot. *)
Lemma finalize_running done pend rest w s pk : running done pend rest w s pk ->
  exists s' pk' w', finalizePack r s pk w = (Ret (s', pk'), w') /\ running (pend ++ done) [] rest w' s' pk'.
Proof.
  intros Hr. destruct (decide (pend = [])) as [->|Hne].
  { pose proof (ru_started _ _ _ _ _ _ Hr) as Hst. unfold finalizePack.
    destruct (p_rollingHash pk); [done|]. by exists s, pk, w. }
  pose proof (running_pack_pre _ _ _ _ _ _ Hr Hne) as Hpre.
  pose proof Hr as [Hall [a Ha] Hre Habs Hpk Hst Hin Hda Hs Hi Hf Hsto].
  destruct (pending_small _ _ _ _ _ _ Hr) as [[Hsm _]|]; [|done].
  destruct (collects_infos _ _ Hin) as [IP IR IL _ _].
  destruct (pack_refines r rh U kf pk _ (Build_system w s) Hre Hpre)
    as (s' & w' & E & Hre' & [G1 G2 G3] & Hon & Hin').
  exists s', createPackState, w'. split; [exact E|]. cbn [sys_world sys_snapshot] in *.
  rewrite IR, IL in *. constructor; cbn [app].
  - rewrite <-Hall, <-app_assoc. rewrite (app_assoc done), (app_assoc pend). f_equiv. apply Permutation_app_comm.
  - exists (a ++ pend). by rewrite <-app_assoc.
  - replace (files_map (pend ++ done)) with (pack_files pk ∪ files_map done); [exact Hre'|].
    rewrite files_map_app. f_equal. unfold pack_files, files_map. by rewrite IP, Hda, zip_pairs.
  - intros b Hb. assert (zlen (pack_name r b) = SHA256_DIGEST_LENGTH) as Hlb by apply hmac_length.
    rewrite Hon; [|by apply object_file_path|].
    + apply Habs. rewrite <-(app_nil_r (smalls rest)). by apply run_of_part.
    + rewrite Hda. intros E'%object_file_inj; [|done|apply hmac_length]. destruct Hb as (Hb & b1 & b2 & Eb).
      apply (cb_packs _ _ _ _ _ _ Hcan pend b b1); [|done|done|done].
      split; [by destruct pend|]. exists a, b2. rewrite Ha, Eb. by rewrite <-!app_assoc.
  - apply createPackState_inv.
  - done.
  - constructor.
  - done.
  - rewrite total_app. lia.
  - rewrite total_app, (small_ids pend Hsm). lia.
  - rewrite zlen_app. lia.
  - intros f [Hf'|Hf']%elem_of_app Hfs.
    + exists pend. split; [done|]. split; [split; [done|by exists a, (smalls rest)]|]. unfold pack_name. by rewrite <-Hda.
    + destruct (Hsto f Hf' Hfs) as (b & Hb & Hrun & o & Ho). exists b. split; [done|]. split; [done|]. exists o.
      destruct (decide (object_file (pack_name r b) = object_file (pack_id r (packData pk)))) as [Eq|Hne'].
      * pose proof (cf_absent _ _ _ _ (proj1 Hpre)) as Habs'. cbn [sys_world] in Habs'. congruence.
      * by rewrite Hon by (done || by apply object_file_path, hmac_length).
Qed.

Lemma default_ok : options_ok (mOptions r).
Proof. rewrite Hopt. apply default_options_ok. Qed.

Lemma source_stream f fs : contents fs = so_data f -> mPath fs = so_path f ->
  file_info fs (so_stat f) = source_info f /\ file_compression fs (so_stat f) = source_compression f /\
  file_room fs (so_stat f) (so_path f) = source_room f /\
  cut_file (mOptions r) rh (contents fs) = cut_file default_Options rh (so_data f).
Proof.
  intros Hc Hp. unfold file_room, source_room, info_room, file_compression, source_compression, file_info, source_info.
  by rewrite Hp, Hc, Hopt.
Qed.

(** A large file can be uploaded. *)
Lemma running_upload_pre done pend rest w s pk f fs : running done pend (f :: rest) w s pk -> small f = false ->
  valid fs -> contents fs = so_data f -> mPath fs = so_path f ->
  pre r rh U (Upload (so_path f) fs (so_stat f)) {| working := files_map done; committed := snaps |} (Build_system w s).
Proof.
  intros Hr Hsm Hv Hc Hpath. pose proof Hr as [Hall _ Hre _ _ _ _ _ Hs Hi Hf Hsto].
  assert (f ∈ L) as HfL by (rewrite <-Hall; set_solver).
  pose proof (proj1 (Forall_forall _ _) (cb_stat _ _ _ _ _ _ Hcan) f HfL) as (_ & Hsz & Hex).
  destruct (proj1 (Forall_forall _ _) (cb_infos _ _ _ _ _ _ Hcan) f HfL) as [[] Hsp].
  destruct (proj1 (Forall_forall _ _) (cb_large _ _ _ _ _ _ Hcan) f HfL Hsm) as [Hlen HU].
  destruct (source_stream f fs Hc Hpath) as (Hfi & Hfc & _ & Hcut).
  destruct (new_RollingHash_wf (mRollKey r) 8192) as (rh' & Hrh' & Hwf & _); [lia|].
  pose proof (cb_hash _ _ _ _ _ _ Hcan) as Hh. unfold first_hash in Hh. rewrite Hh in Hrh'. injection Hrh' as <-.
  destruct (cut_file_spec default_Options rh (so_data f) default_options_ok Hwf Hlen) as (_ & Hn & Hbits).
  assert ((f :: done) ++ pend ++ rest ≡ₚ L) as Hperm.
  { rewrite <-Hall. cbn [app]. rewrite app_assoc, Permutation_middle, <-app_assoc. done. }
  destruct (total_part source_room (f :: done) _ L source_room_nonneg Hperm) as [_ T1].
  destruct (total_part (source_ids rh) (f :: done) _ L source_ids_nonneg Hperm) as [_ T2].
  assert (zlen (f :: done) <= zlen L) as T3 by (rewrite <-!total_one; by apply (total_part (fun _ => 1) _ (pend ++ rest))).
  rewrite total_cons in T1, T2. rewrite zlen_cons in T3.
  change (source_room f) with (zlen (filename (relative_normal (so_path f))) + zlen (parent_path (relative_normal (so_path f)))
    + zlen (mUserName (source_info f)) + zlen (mGroupName (source_info f)) + 16) in T1.
  change (source_ids rh f) with (zlen (cut_file default_Options rh (so_data f)).2) in T2.
  pose proof (cb_strings _ _ _ _ _ _ Hcan). pose proof (cb_ids _ _ _ _ _ _ Hcan). pose proof (cb_files _ _ _ _ _ _ Hcan).
  pose proof (total_nonneg source_room done source_room_nonneg).
  cbn [pre]. rewrite Hcut, Hfc, Hfi, Hc. destruct (cut_file default_Options rh (so_data f)) as [bits bs].
  cbn [fst snd] in *. exists bits, bs. do 6 (split; [done|]). split; [done|].
  split; [apply (pending_new _ _ _ _ _ _ f Hr); set_solver|]. cbn [sys_snapshot].
  pose proof (zlen_nonneg (so_data f)).
  constructor; try done; rewrite ?zlen_fmap; try lia.
  - by rewrite md5_length.
  - apply Forall_fmap, Forall_forall. intros b _. apply block_id_length.
Qed.

(** The packs have other names than the blocks of a large file. *)
Lemma packs_apart f b x : f ∈ L -> small f = false -> run_of (smalls L) b ->
  x ∈ (cut_file default_Options rh (so_data f)).2 ->
  object_file (pack_name r b) <> object_file (block_id r (source_compression f) x).
Proof.
  intros HfL Hsm Hb Hx E%object_file_inj; [|apply hmac_length|apply block_id_length].
  destruct (proj1 (Forall_forall _ _) (cb_large _ _ _ _ _ _ Hcan) f HfL Hsm) as [_ HU]. rewrite Forall_forall in HU.
  exact (cb_blocks _ _ _ _ _ _ Hcan (source_compression f, x) b (HU x Hx) Hb (eq_sym E)).
Qed.

(** [uploadFile] takes a small file: it joins the pending ones, unless the pack ends. *)
Lemma upload_small_running progress done pend rest w s pk f fs : (forall a b x y, progress a b x y = true) ->
  running done pend (f :: rest) w s pk -> small f = true ->
  valid fs -> contents fs = so_data f -> mPath fs = so_path f ->
  exists s' pk' w' done' pend',
    uploadFile r (Some pk) s (so_path f) fs (Some (so_stat f)) progress w = (Ret (s', Some pk'), w') /\
    running done' pend' rest w' s' pk'.
Proof.
  intros Hpf Hr Esm Hv Hc Hpath. pose proof Hr as [Hall [a Ha] Hre Habs Hpk Hst Hin Hda Hs Hi Hf Hsto].
  assert (f ∈ L) as HfL by (rewrite <-Hall; set_solver).
  pose proof (proj1 (Forall_forall _ _) (cb_stat _ _ _ _ _ _ Hcan) f HfL) as (_ & Hsz & Hex).
  destruct (source_stream f fs Hc Hpath) as (Hfi & Hfc & _).
  assert (smalls (f :: rest) = f :: smalls rest) as Esr by (unfold smalls; by rewrite filter_cons_True).
  unfold small in Esm. apply Z.ltb_lt in Esm.
  destruct (uploadFile_pack r progress w s pk (so_path f) fs (so_stat f) (so_data f) Hpf Hpk Hv Hc Hsz Hex)
    as (pk' & cut & Hpk' & Hst' & Hd' & Hi' & E); [rewrite Hopt; cbn in *; lia|].
  rewrite Hfi, Hfc in Hi'.
  assert (running done (pend ++ [f]) rest w s pk') as Hr'.
  { constructor; try done.
    - by rewrite <-app_assoc.
    - exists a. by rewrite Ha, Esr, <-app_assoc.
    - intros b Hb. apply Habs. rewrite Esr. change (f :: smalls rest) with ([f] ++ smalls rest). by rewrite app_assoc.
    - destruct Hst' as [h ->]. by destruct pend.
    - rewrite Hi'. apply Forall2_app; [done|]. constructor; [|constructor]. exists (uwrap 32 (zlen (packData pk))). reflexivity.
    - rewrite Hd', Hda, fmap_app. done. }
  destruct cut; [|by exists s, pk', w, done, (pend ++ [f])].
  destruct (finalize_running _ _ _ _ _ _ Hr') as (s' & pk2 & w' & E2 & Hr2).
  exists s', pk2, w', ((pend ++ [f]) ++ done), []. split; [|done]. by rewrite E, (io_bind_Ret _ _ _ _ _ E2).
Qed.

(** [uploadFile] takes a large file: it is stored at once, past the pending ones. *)
Lemma upload_large_running progress done pend rest w s pk f fs : (forall a b x y, progress a b x y = true) ->
  running done pend (f :: rest) w s pk -> small f = false ->
  valid fs -> contents fs = so_data f -> mPath fs = so_path f ->
  exists s' w',
    uploadFile r (Some pk) s (so_path f) fs (Some (so_stat f)) progress w = (Ret (s', Some pk), w') /\
    running (f :: done) pend rest w' s' pk.
Proof.
  intros Hpf Hr Esm Hv Hc Hpath. pose proof Hr as [Hall [a Ha] Hre Habs Hpk Hst Hin Hda Hs Hi Hf Hsto].
  assert (f ∈ L) as HfL by (rewrite <-Hall; set_solver).
  destruct (source_stream f fs Hc Hpath) as (_ & Hfc & Hrm & Hcut).
  assert (smalls (f :: rest) = smalls rest) as Esr by (unfold smalls; by rewrite filter_cons_False by (by rewrite Esm)).
  destruct (upload_refines r rh U kf default_ok (cb_hash _ _ _ _ _ _ Hcan) (cb_universe _ _ _ _ _ _ Hcan) progress
    (Some pk) (so_path f) fs (so_stat f) _ (Build_system w s) Hpf Hre (running_upload_pre _ _ _ _ _ _ f fs Hr Esm Hv Hc Hpath))
    as (s' & w' & E & Hre' & [G1 G2 G3] & Hon).
  { right. rewrite Hc, Hopt. unfold small in Esm. by apply Z.ltb_ge in Esm. }
  exists s', w'. split; [exact E|]. cbn [sys_world sys_snapshot] in *.
  rewrite Hrm in G1. rewrite Hcut in *. rewrite Hfc in Hon.
  assert (forall b, run_of (smalls L) b ->
    objects (wstore w') (object_file (pack_name r b)) = objects (wstore w) (object_file (pack_name r b))) as Hpacks.
  { intros b Hb. apply Hon; [by apply object_file_path, hmac_length|]. intros x Hx. by apply packs_apart. }
  constructor; rewrite ?total_cons, ?zlen_cons; try done.
  - rewrite <-Hall. cbn [app]. by rewrite app_assoc, Permutation_middle, <-app_assoc.
  - exists a. by rewrite Ha, Esr.
  - cbn [spec working committed] in Hre'. rewrite Hc in Hre'. exact Hre'.
  - intros b Hb. rewrite Hpacks; [apply Habs; by rewrite Esr|].
    rewrite Ha, Esr. rewrite <-(app_nil_r (pend ++ _)). by apply run_of_part.
  - lia.
  - change (source_ids rh f) with (zlen (cut_file default_Options rh (so_data f)).2). lia.
  - lia.
  - intros g [->|Hg]%elem_of_cons Hgs; [congruence|]. destruct (Hsto g Hg Hgs) as (b & Hb & Hrun & o & Ho).
    exists b. split; [done|]. split; [done|]. exists o. by rewrite Hpacks.
Qed.

(** [uploadFile] takes the next file. *)
Lemma upload_running progress done pend rest w s pk f fs : (forall a b x y, progress a b x y = true) ->
  running done pend (f :: rest) w s pk -> valid fs -> contents fs = so_data f -> mPath fs = so_path f ->
  exists s' pk' w' done' pend',
    uploadFile r (Some pk) s (so_path f) fs (Some (so_stat f)) progress w = (Ret (s', Some pk'), w') /\
    running done' pend' rest w' s' pk'.
Proof.
  intros Hpf Hr Hv Hc Hpath. destruct (small f) eqn:Esm; [by eapply upload_small_running|].
  destruct (upload_large_running progress _ _ _ _ _ _ f fs Hpf Hr Esm Hv Hc Hpath) as (s' & w' & E & Hr').
  by exists s', pk, w', (f :: done), pend.
Qed.

(** Only the store matters. *)
Lemma refines_same a (w w' : world D) s : wstore w' = wstore w ->
  refines r U kf a (Build_system w s) -> refines r U kf a (Build_system w' s).
Proof.
  intros E [Hd Hk Hb Hw Hc]. cbn [sys_world sys_snapshot] in *. pose proof (same_data_kept w w' E) as Hkept.
  constructor; cbn [sys_world sys_snapshot]; rewrite ?E; try done.
  - intros y Hy. rewrite E. destruct (Hb y Hy) as [Hno|Hst]; [by left|right]. by eapply stored_kept.
  - by eapply represents_kept.
  - intros name m Hm. eapply has_snapshot_kept; [exact Hkept|by rewrite E|by apply Hc].
Qed.

Lemma running_same done pend rest (w w' : world D) s pk : wstore w' = wstore w ->
  running done pend rest w s pk -> running done pend rest w' s pk.
Proof.
  intros E [Hall Ha Hre Habs Hpk Hst Hin Hda Hs Hi Hf Hsto]. constructor; try done; [by eapply refines_same| |].
  - intros b Hb. rewrite E. by apply Habs.
  - intros f Hf' Hfs. rewrite E. by apply Hsto.
Qed.

(** ** The commands *)

Context (o : CliOptions) (progress : FileTransferProgressFunction) (dirs : gset (list Byte.byte)).
Context (Hpf : forall a b x y, progress a b x y = true) (Hdry : dryRun o = false).

(** The process, between two files. *)
Definition backing (done pend rest : list source) (p : process D) (st : Snapshot * PackUploadState) : Prop :=
  running done pend rest (pworld p) st.1 st.2 /\ pdisk p = d /\ pdirs p = dirs.

Lemma backing_keeps done pend rest p p' st : keeps p p' -> backing done pend rest p st -> backing done pend rest p' st.
Proof. intros (W & K & D') (Hr & Hd & Hs). split; [by eapply running_same|]. split; congruence. Qed.

Lemma backup_file_spec done pend rest f p st : backing done pend (f :: rest) p st ->
  exists done' pend' p' st', backup_file o progress r (so_path f) st p = (Ret st', p') /\ backing done' pend' rest p' st'.
Proof.
  intros Hb. unfold backup_file. destruct (say_spec o (so_path f ++ [newline]) p) as (p1 & E1 & K1 & _).
  rewrite (io_bind_Ret _ _ _ _ _ E1), Hdry. destruct (backing_keeps _ _ _ _ _ _ K1 Hb) as (Hr & Hd & Hs).
  rewrite (io_bind_Ret get_state _ _ _ _ eq_refl), Hd.
  assert (f ∈ L) as HfL by (rewrite <-(ru_files _ _ _ _ _ _ Hr); set_solver).
  pose proof (proj1 (Forall_forall _ _) (cb_disk _ _ _ _ _ _ Hcan) f HfL) as Hdf.
  destruct (proj1 (Forall_forall _ _) (cb_stat _ _ _ _ _ _ Hcan) f HfL) as (-> & _).
  destruct (open_read d (so_path f) (mk_is_Some _ _ Hdf)) as (fs & -> & Hv & Hpath & _ & Hc). rewrite io_bind_lift.
  assert (contents fs = so_data f) as Hc'.
  { etrans; [exact Hc|]. unfold file_data. by rewrite Hdf. }
  destruct (upload_running progress _ _ _ _ _ _ f fs Hpf Hr Hv Hc' Hpath)
    as (s' & pk' & w' & done' & pend' & E2 & Hr2).
  rewrite (io_bind_Ret _ _ _ _ _ (on_repo_Ret _ p1 _ _ E2)). cbn [or_undef]. rewrite io_bind_lift.
  set (p2 := Build_process w' _ _ _ _). destruct (say_spec o [newline] p2) as (p3 & E3 & K3 & _).
  rewrite (io_bind_Ret _ _ _ _ _ E3). exists done', pend', p3, (s', pk'). split; [done|].
  apply (backing_keeps _ _ _ p2); [done|]. by split.
Qed.

Lemma backup_list_spec l : forall done pend rest p st paths,
  backing done pend (l ++ rest) p st -> filter (fun path => path ∉ dirs) paths = so_path <$> l ->
  exists done' pend' p' st', backup_list o progress r paths st p = (Ret st', p') /\ backing done' pend' rest p' st'.
Proof.
  intros done pend rest p st paths. revert l done pend p st.
  induction paths as [|path paths IH]; intros l done pend p st Hb Hl; cbn [backup_list].
  - destruct l; [|done]. by exists done, pend, p, st.
  - rewrite (io_bind_Ret (is_directory path) _ p _ p eq_refl).
    pose proof Hb as (_ & _ & Hdirs). rewrite Hdirs. case_bool_decide as Hin.
    + rewrite filter_cons_False in Hl by auto. rewrite (io_bind_Ret (mret st) _ p st p eq_refl). by apply (IH l done pend).
    + rewrite filter_cons_True in Hl by done. destruct l as [|f l]; [done|].
      cbn [fmap list_fmap] in Hl. injection Hl as -> Hl.
      destruct (backup_file_spec _ _ _ _ _ _ Hb) as (done1 & pend1 & p1 & st1 & E1 & Hb1).
      rewrite (io_bind_Ret _ _ _ _ _ E1). by apply (IH l done1 pend1).
Qed.

(** An argument leaves no file pending. *)
Lemma backup_arg_spec l done rest p st arg : backing done [] (l ++ rest) p st ->
  arg_paths dirs arg = so_path <$> l ->
  exists done' p' st', backup_arg o progress r arg st p = (Ret st', p') /\ backing done' [] rest p' st'.
Proof.
  intros Hb Hl. unfold backup_arg, arg_paths in *. rewrite (io_bind_Ret (is_directory arg) _ p _ p eq_refl).
  pose proof Hb as (_ & _ & Hdirs). rewrite Hdirs.
  assert (exists done1 pend1 p1 st1, (if bool_decide (arg ∈ dirs) then backup_list o progress r (files_below arg) st
    else backup_file o progress r arg st) p = (Ret st1, p1) /\ backing done1 pend1 rest p1 st1)
    as (done1 & pend1 & p1 & st1 & E1 & Hr1 & Hd1 & Hs1).
  { case_bool_decide; [by eapply backup_list_spec|]. destruct l as [|f [|]]; [done| |done].
    cbn [fmap list_fmap] in Hl. injection Hl as ->. by eapply backup_file_spec. }
  rewrite (io_bind_Ret _ _ _ _ _ E1). destruct (finalize_running _ _ _ _ _ _ Hr1) as (s' & pk' & w' & E2 & Hr2).
  exists (pend1 ++ done1). eexists. exists (s', pk'). split; [exact (on_repo_Ret _ p1 _ _ E2)|]. by split.
Qed.

Lemma backup_args_spec args : forall l done p st, backing done [] l p st ->
  concat (arg_paths dirs <$> args) = so_path <$> l ->
  exists done' p' st', backup_args o progress r args st p = (Ret st', p') /\ backing done' [] [] p' st'.
Proof.
  induction args as [|arg args IH]; intros l done p st Hb Hl; cbn [backup_args].
  - destruct l; [|done]. by exists done, p, st.
  - cbn [fmap list_fmap concat] in Hl. symmetry in Hl. apply fmap_app_inv in Hl as (l1 & l2 & H1' & H2' & ->).
    destruct (backup_arg_spec l1 done l2 p st arg Hb H1') as (done1 & p1 & st1 & E1 & Hb1).
    rewrite (io_bind_Ret _ _ _ _ _ E1). by apply (IH l2 done1).
Qed.
End Invariant.
End Run.

(** * Properties *)

Section Properties.
Context `{EVPSpec} `{LZMASpec} `{Paths} `{EnvSpec} `{Host} {D} `{DataStoreSpec D}.
Context (progress : FileTransferProgressFunction) (r : Repository) (rh : RollingHash).
Context (U : list (CompressionType * bytes)) (kf : bytes).

Lemma can_backup_with_keys rn d (w w' : world D) L : wstore w' = wstore w ->
  can_backup r rh U d w L -> can_backup (with_keys rn r) rh U d w' L.
Proof.
  intros E [Hh [U1 U2 U3] Hnd Hd Hst Hin Hs Hl Ha Hp Hb ? ? ? ? ? ?]. constructor; try done.
  intros b Hrun. rewrite E. by apply Ha.
Qed.

(** Before the first file. *)
Lemma running_start r1 a (w : world D) s d L : can_backup r1 rh U d w L -> refines r1 U kf a (Build_system w s) ->
  running r1 rh U kf L (committed a) [] [] L w createSnapshot createPackState.
Proof.
  intros Hcan [Hd Hk Hb _ Hc]. constructor; try done.
  - by exists [].
  - constructor; try done. apply represents_empty.
  - intros b Hrun. by apply (cb_absent _ _ _ _ _ _ Hcan).
  - by intros f Hf%elem_of_nil.
Qed.

(** What was prepared can be committed. *)
Lemma running_commit r1 d w0 L snaps done w s pk name : can_backup r1 rh U d w0 L ->
  running r1 rh U kf L snaps done [] [] w s pk -> name <> [] -> slash_free name ->
  pre r1 rh U (Commit name) {| working := files_map done; committed := snaps |} (Build_system w s).
Proof.
  intros Hcan [Hall _ [_ _ _ [Wok _ _ _] _] _ _ _ _ _ Hs Hi Hf _] Hn Hsl. cbn [app sys_snapshot working] in *.
  rewrite app_nil_r in Hall. rewrite Hall in Hs, Hi. rewrite <-total_one, Hall, total_one in Hf.
  pose proof (zlen_snapshot_bytes s Wok) as Hz. destruct Hcan. cbn [pre sys_snapshot].
  assert (zlen (snapshot_bytes s) <= Z.of_nat decompress_bound) as Hb by lia.
  do 3 (split; [done|]). split; [lia|by apply cb_payload0].
Qed.

(** The command [backup <repo> <snapshot> <files>]. *)
Lemma backup_command_spec o (p : process D) a s0 repo name args L pw rest :
  (forall a b x y, progress a b x y = true) -> dryRun o = false -> can_open o r p repo pw rest ->
  refines r U kf a (Build_system (pworld p) s0) -> can_backup r rh U (pdisk p) (pworld p) L ->
  concat (arg_paths (pdirs p) <$> args) = so_path <$> L -> name <> [] -> slash_free name ->
  exists p1 s1, run o progress (BackupFiles repo name args) p = (Ret tt, p1) /\
    refines r U kf {| working := files_map L; committed := <[name := files_map L]> (committed a) |}
      (Build_system (pworld p1) s1) /\
    pdisk p1 = pdisk p /\ pdirs p1 = pdirs p /\
    forall f, f ∈ L -> small f = true -> exists b, f ∈ b /\ run_of (smalls L) b /\
      is_Some (objects (wstore (pworld p1)) (object_file (pack_name r b))).
Proof.
  intros Hpf Hdry Hopen Hr Hcan Hargs Hn Hs. cbn [run]. unfold backupFiles.
  destruct (can_open_spec o r p repo pw rest Hopen) as (rn & p1 & E1 & (W1 & K1 & D1) & _ & Hopt).
  rewrite (io_bind_Ret _ _ _ _ _ E1). set (r' := with_keys rn r).
  assert (can_backup r' rh U (pdisk p) (pworld p1) L) as Hcan1 by (by apply (can_backup_with_keys rn _ (pworld p))).
  assert (refines r' U kf a (Build_system (pworld p1) s0)) as Hr1
    by (apply (refines_same r' U kf a (pworld p)); [done|by apply refines_with_keys]).
  destruct (backup_args_spec r' rh U kf (pdisk p) (pworld p1) L (committed a) Hcan1 Hopt o progress (pdirs p) Hpf Hdry
    args L [] p1 (createSnapshot, createPackState)) as (fin & p2 & [s2 pk2] & E2 & Hr2 & Kd & Ds); [|done|].
  { split; [|done]. exact (running_start r' a _ s0 _ L Hcan1 Hr1). }
  rewrite (io_bind_Ret _ _ _ _ _ E2). cbn [fst snd] in *.
  pose proof Hr2 as [Hperm _ Hre2 _ _ _ _ _ _ _ _ Hsto].
  pose proof (running_commit r' _ _ L _ _ _ _ _ name Hcan1 Hr2 Hn Hs) as Hpre.
  destruct (commit_refines r' rh U kf name _ _ Hre2 Hpre) as (w3 & E3 & Hr3 & Hothers).
  assert (forall f, f ∈ L -> small f = true -> exists b, f ∈ b /\ run_of (smalls L) b /\
    is_Some (objects (wstore w3) (object_file (pack_name r b)))) as Hpacks.
  { intros f Hf Hfs. cbn [app] in Hperm. rewrite app_nil_r in Hperm. rewrite <-Hperm in Hf.
    destruct (Hsto f Hf Hfs) as (b & Hb & Hrun & Hob). exists b. split; [done|]. split; [done|].
    rewrite Hothers; [exact Hob|by apply object_file_path, hmac_length|apply data_not_snapshot]. }
  eexists _, s2. split; [exact (on_repo_Ret _ p2 _ _ E3)|]. split; [|done].
  cbn [pworld spec working committed sys_snapshot] in *.
  assert (files_map fin = files_map L) as Hfiles.
  { cbn [app] in Hperm. rewrite app_nil_r in Hperm.
    apply files_map_perm; [|done]. rewrite Hperm. apply Hcan. }
  rewrite Hfiles in Hr3. apply (refines_with_keys r r') in Hr3.
  by replace (with_keys r r') with r in Hr3 by (by destruct r).
Qed.

(** What a repository can be opened with stays. *)
Lemma can_open_later o o2 (p p1 p2 : process D) a a1 s0 s1 repo pw rest rest2 : can_open o r p repo pw rest ->
  refines r U kf a (Build_system (pworld p) s0) -> refines r U kf a1 (Build_system (pworld p1) s1) ->
  wstore (pworld p2) = wstore (pworld p1) -> can_type o2 p2 repo pw rest2 -> can_open o2 r p2 repo pw rest2.
Proof.
  intros [_ Hkeys (salt & iv & derived & junk & lr & Hkf)] Hr Hr1 Hw Htype. constructor; [done|done|].
  exists salt, iv, derived, junk, lr. destruct Hkf as (_ & ? & ? & ? & ? & ? & Hkey).
  assert (objects (wstore (pworld p2)) (str "/key") = objects (wstore (pworld p)) (str "/key")) as Ek.
  { rewrite Hw. etrans; [apply (rf_key _ _ _ _ _ Hr1)|]. symmetry. apply (rf_key _ _ _ _ _ Hr). }
  split; [rewrite Hw; apply Hr1|]. rewrite Ek. by do 5 (split; [done|]).
Qed.

(** C3: the command line, end to end: from a store that implements the backup [a],
    [backup <repo> <name> <files>] with the password of the repository completes,
    whatever the sizes of the files and wherever their packs end, when the store
    has none of the packs that they can form (see [backup_twice_undefined]) and
    the snapshot has room for them; and the store then
    implements [a] with one more snapshot, [name], that has exactly the files of
    the arguments (of the directories among them, all the files below); the disk is
    unchanged.  In any later process on that store, where the password is typed,
    [restore <repo> <name> <files> <destdir>] puts every one of the files that its
    arguments name, with exactly its contents, below the directory, at its path
    from the parent of the argument, and changes no other file; the arguments are
    as in [restore_correct].  The options may differ: quiet, verified, forced. *)
Theorem backup_command o (p : process D) a s0 repo name args L pw rest
    (Hpf : forall a b x y, progress a b x y = true) (Hdry : dryRun o = false) (Hopen : can_open o r p repo pw rest)
    (Hr : refines r U kf a (Build_system (pworld p) s0)) (Hcan : can_backup r rh U (pdisk p) (pworld p) L)
    (Hargs : concat (arg_paths (pdirs p) <$> args) = so_path <$> L) (Hname : name <> []) (Hslash : slash_free name) :
  exists p1 s1, run o progress (BackupFiles repo name args) p = (Ret tt, p1) /\
    refines r U kf {| working := files_map L; committed := <[name := files_map L]> (committed a) |}
      (Build_system (pworld p1) s1) /\
    pdisk p1 = pdisk p /\ pdirs p1 = pdirs p /\
    forall o2 (p2 : process D) rest2 args2 sources destDir, dryRun o2 = false ->
      wstore (pworld p2) = wstore (pworld p1) -> can_type o2 p2 repo pw rest2 ->
      can_select o2 p2 (files_map L) name args2 sources destDir ->
      exists p3, run o2 progress (Restore repo name args2) p2 = (Ret tt, p3) /\
        wstore (pworld p3) = wstore (pworld p2) /\
        (forall srcFile f, srcFile ∈ sources -> f ∈ L -> named srcFile (key f) ->
          files (pdisk p3) !! destination destDir srcFile (key f) = Some (so_data f)) /\
        forall q, q ∉ restored_places (files_map L) destDir sources -> files (pdisk p3) !! q = files (pdisk p2) !! q.
Proof.
  destruct (backup_command_spec o p a s0 repo name args L pw rest Hpf Hdry Hopen Hr Hcan Hargs Hname Hslash)
    as (p1 & s1 & E1 & Hr1 & Hk & Hd & _). exists p1, s1. do 4 (split; [done|]).
  intros o2 p2 rest2 args2 sources destDir Hdry2 Hw Htype Hsel.
  assert (can_open o2 r p2 repo pw rest2) as Hopen2 by (by eapply can_open_later).
  pose proof (cb_nodup _ _ _ _ _ _ Hcan) as Hnd.
  assert (has_snapshot r (pworld p2) name (files_map L)) as Hsnap.
  { eapply has_snapshot_kept; [by apply (same_data_kept (pworld p1))|by rewrite Hw|].
    apply (rf_committed _ _ _ _ _ Hr1). apply lookup_insert_eq. }
  destruct (restore_command_spec o2 progress r p2 repo name args2 sources destDir pw rest2 (files_map L) Hpf Hdry2 Hopen2)
    as (p3 & E3 & W3 & Hin & Hout); try done.
  { rewrite Hw. apply Hr1. }
  exists p3. split; [done|]. split; [done|]. split; [|done].
  intros srcFile f Hsrc Hf Hna. by apply Hin, files_map_Some.
Qed.
Lemma on_repo_Undef {A} (m : io (world D) A) (p : process D) : fst (m (pworld p)) = Undef -> fst (on_repo m p) = Undef.
Proof. unfold on_repo. by destruct (m (pworld p)) as [a w]. Qed.

(** The only file of an argument makes a pack that is already there. *)
Lemma present_pack o (r1 : Repository) (p : process D) f obj : mOptions r1 = default_Options ->
  (forall a b x y, progress a b x y = true) -> dryRun o = false -> small f = true ->
  files (pdisk p) !! so_path f = Some (so_data f) -> so_path f ∉ pdirs p ->
  stat_path (so_path f) = Some (so_stat f) -> st_size (so_stat f) = zlen (so_data f) ->
  type_of_mode (st_mode (so_stat f)) <> FileNotFound -> dvalid (wstore (pworld p)) ->
  objects (wstore (pworld p)) (object_file (pack_name r1 [f])) = Some obj ->
  fst (backup_arg o progress r1 (so_path f) (createSnapshot, createPackState) p) = Undef.
Proof.
  intros Hopt Hpf Hdry Hsm Hf Hdir Hst Hsz Hex Hd Hob. unfold backup_arg.
  rewrite (io_bind_Ret (is_directory _) _ p _ p eq_refl), bool_decide_eq_false_2 by done.
  unfold backup_file at 1. rewrite io_bind_assoc.
  destruct (say_spec o (so_path f ++ [newline]) p) as (p1 & E1 & (W1 & K1 & D1) & _).
  rewrite (io_bind_Ret _ _ _ _ _ E1), Hdry, io_bind_assoc, (io_bind_Ret get_state _ _ _ _ eq_refl), K1, Hst.
  destruct (open_read (pdisk p) (so_path f) (mk_is_Some _ _ Hf)) as (fs & -> & Hv & _ & _ & Hc).
  assert (contents fs = so_data f) as Hc' by (etrans; [exact Hc|]; unfold file_data; by rewrite Hf).
  rewrite io_bind_assoc, io_bind_lift, io_bind_assoc. cbn [fst snd].
  unfold small in Hsm. apply Z.ltb_lt in Hsm.
  destruct (uploadFile_pack r1 progress (pworld p1) createSnapshot createPackState (so_path f) fs (so_stat f) (so_data f)
    Hpf (createPackState_inv r1) Hv Hc' Hsz Hex) as (pk & cut & Hpk & Hstart & Hdata & Hinfo & E2);
    [rewrite Hopt; cbn in *; lia|]. cbn [createPackState packData fileInfos app] in Hdata, Hinfo.
  assert (forall w : world D, wstore w = wstore (pworld p) -> fst (finalizePack r1 createSnapshot pk w) = Undef) as Hundef.
  { intros w Hw. eapply (finalizePack_existing r1 w); [done|done|by rewrite Hw| |exact Hinfo|done].
    rewrite Hw, Hdata. exact Hob. }
  destruct cut.
  - apply io_bind_Undef, on_repo_Undef. rewrite E2. by apply io_bind_Undef, Hundef.
  - rewrite (io_bind_Ret _ _ _ _ _ (on_repo_Ret _ p1 _ _ E2)). cbn [or_undef]. rewrite io_bind_assoc, io_bind_lift, io_bind_assoc.
    set (p2 := Build_process _ _ _ _ _). destruct (say_spec o [newline] p2) as (p3 & E3 & (W3 & _) & _).
    rewrite (io_bind_Ret _ _ _ _ _ E3). rewrite (io_bind_Ret (mret _) _ p3 _ p3 eq_refl). cbn [fst snd].
    apply on_repo_Undef, Hundef. rewrite W3. exact W1.
Qed.

(** C39: a small file that is backed up alone cannot be backed up again: the
    first [backup <repo> <name> <file>] completes, and from its store any further
    [backup] of the unchanged file, whatever the name of the snapshot, has
    undefined behaviour: the pack is in the store, and its lengths are used
    although nothing set them. *)
Theorem backup_twice_undefined o (p : process D) a s0 repo name f pw rest
    (Hpf : forall a b x y, progress a b x y = true) (Hdry : dryRun o = false) (Hopen : can_open o r p repo pw rest)
    (Hr : refines r U kf a (Build_system (pworld p) s0)) (Hcan : can_backup r rh U (pdisk p) (pworld p) [f])
    (Hsmall : small f = true) (Hfile : so_path f ∉ pdirs p) (Hname : name <> []) (Hslash : slash_free name) :
  exists p1, run o progress (BackupFiles repo name [so_path f]) p = (Ret tt, p1) /\
    forall o2 (p2 : process D) name2 rest2, dryRun o2 = false -> wstore (pworld p2) = wstore (pworld p1) ->
      pdisk p2 = pdisk p -> pdirs p2 = pdirs p -> can_type o2 p2 repo pw rest2 ->
      fst (run o2 progress (BackupFiles repo name2 [so_path f]) p2) = Undef.
Proof.
  destruct (backup_command_spec o p a s0 repo name [so_path f] [f] pw rest Hpf Hdry Hopen Hr Hcan)
    as (p1 & s1 & E1 & Hr1 & _ & _ & Hpacks); [|done|done|].
  { unfold arg_paths. cbn [fmap list_fmap concat]. by rewrite bool_decide_eq_false_2. }
  exists p1. split; [exact E1|]. intros o2 p2 name2 rest2 Hdry2 Hw Hk Hd Htype.
  destruct (Hpacks f) as (b & _ & (Hb & x & y & Eb) & obj & Hob); [by left|done|].
  assert (b = [f]) as ->.
  { assert (smalls [f] = [f]) as Es by (unfold smalls; by rewrite filter_cons_True). rewrite Es in Eb.
    destruct x as [|? x]; [|destruct x, b; discriminate || done]. destruct b as [|? b]; [done|]. injection Eb as <- Eb.
    by destruct b. }
  assert (can_open o2 r p2 repo pw rest2) as Hopen2 by (by eapply can_open_later).
  destruct (can_open_spec o2 r p2 repo pw rest2 Hopen2) as (rn & p3 & E3 & (W3 & K3 & D3) & _ & Hopt).
  cbn [run]. unfold backupFiles. rewrite (io_bind_Ret _ _ _ _ _ E3). apply io_bind_Undef. cbn [backup_args].
  apply io_bind_Undef. pose proof (cb_stat _ _ _ _ _ _ Hcan) as Hst. apply Forall_singleton in Hst as (Hst & Hsz & Hex).
  pose proof (Forall_inv (cb_disk _ _ _ _ _ _ Hcan)) as Hdisk. cbn beta in Hdisk.
  apply (present_pack o2 (with_keys rn r) p3 f obj Hopt Hpf Hdry2 Hsmall); try done.
  - by rewrite K3, Hk.
  - by rewrite D3, Hd.
  - rewrite W3, Hw. apply Hr1.
  - by rewrite W3, Hw.
Qed.
End Properties.

(** ** A concrete backup *)

Module SampleTree.
Definition file_a : source := {| so_path := str "docs/a.txt"; so_data := str "first"; so_stat := SampleCli.stat_of 5 |}.
Definition file_b : source := {| so_path := str "docs/b.txt"; so_data := str "second"; so_stat := SampleCli.stat_of 6 |}.
Definition tree : list source := [file_a; file_b].
Definition tree_disk : disk :=
  set_file (set_file empty_disk (str "docs/a.txt") (str "first")) (str "docs/b.txt") (str "second").
Definition process0 : process FileDataStore :=
  Build_process SampleBackup.world0 {| stdin := SampleBackup.password ++ newline :: []; stdout := []; echo := true |}
    tree_disk {[ str "docs" ]} [].

(** The new store has no blocks. *)
Lemma fresh_store : keys_ok SampleBackup.repo /\
  (exists salt iv derived junk lr,
     has_key_file SampleBackup.world0 SampleBackup.repo SampleBackup.password salt iv derived junk lr) /\
  (exists kf, refines SampleBackup.repo [] kf empty_backup SampleBackup.x0) /\
  forall id, zlen id = SHA256_DIGEST_LENGTH -> objects (wstore SampleBackup.world0) (object_file id) = None.
Proof.
  assert (0 <= 4 <= MAX_LOG_ROUNDS) as H4 by (vm_compute; split; discriminate).
  destruct (initializeRepository_spec Demo.repo SampleBackup.password 4 DefaultProgressFunction Demo.start H4 Demo.start_ok
    (fun _ _ => eq_refl)) as (r' & salt & iv & derived & junk & w1 & E & Hk & _ & Hkf & Hoth).
  rewrite SampleBackup.initialised in E. apply io_Ret_inj in E as [<- <-].
  split; [exact Hk|]. split; [exists salt, iv, derived, junk, 4; exact Hkf|]. split.
  - destruct Hkf as (Hd & _ & _ & _ & _ & _ & Hkey). eexists.
    constructor; [exact Hd|exact Hkey| |apply represents_empty|done]. intros x Hx. apply elem_of_nil in Hx. destruct Hx.
  - intros id Hid. rewrite Hoth; [reflexivity|by apply object_file_path|done].
Qed.

(** Two runs of the two files, one after the other. *)
Lemma two_runs b c k : run_of tree (b ++ k ++ c) -> b <> [] -> c <> [] -> b = [file_a] /\ c = [file_b].
Proof.
  intros (_ & a & e & E) Hb Hc. unfold tree in E.
  destruct b as [|x b]; [done|]. destruct (exists_last Hc) as (c' & y & ->).
  pose proof (f_equal length E) as Hl. repeat (rewrite length_app in Hl || cbn [length] in Hl).
  destruct a as [|? ?], b as [|? ?], k as [|? ?], c' as [|? ?], e as [|? ?]; cbn [length] in Hl; try lia.
  by injection E as -> ->.
Qed.

Lemma names_differ : pack_name SampleBackup.repo [file_a] <> pack_name SampleBackup.repo [file_b].
Proof. vm_compute. discriminate. Qed.

Lemma info_sample f : f ∈ tree -> info_ok (pack_info f 0) /\ splits (key f).
Proof.
  intros [->|[->|Hf%elem_of_nil]%elem_of_cons]%elem_of_cons; [..|done].
  1,2: split; [SamplePack.solve_info|vm_compute; reflexivity].
Qed.

(** A single file has no two runs. *)
Lemma one_run b c k : run_of [file_a] (b ++ k ++ c) -> b <> [] -> c <> [] -> False.
Proof.
  intros (_ & a & e & E) Hb Hc. apply (f_equal length) in E. rewrite !length_app in E. cbn [length] in E.
  destruct b, c; cbn [length] in E; done || lia.
Qed.

(** They can be backed up to a store without packs. *)
Lemma tree_ready r rh (w : world FileDataStore) l : first_hash r rh ->
  (forall id, zlen id = SHA256_DIGEST_LENGTH -> objects (wstore w) (object_file id) = None) ->
  l = tree /\ pack_name r [file_a] <> pack_name r [file_b] \/ l = [file_a] ->
  can_backup r rh [] tree_disk w l.
Proof.
  intros Hrh Hfresh Hn. assert (l = tree \/ l = [file_a]) as Hl by (destruct Hn as [[]|]; auto).
  assert (smalls l = l) as Hsm by (by destruct Hl as [-> | ->]).
  assert (total (source_ids rh) l = zlen l) as Hids.
  { apply (small_ids rh l). destruct Hl as [-> | ->]; by repeat constructor. }
  assert (forall f, f ∈ l -> f ∈ tree) as Hin.
  { destruct Hl as [-> | ->]; intros f Hf; [exact Hf|]. apply list_elem_of_singleton in Hf as ->. apply elem_of_cons. by left. }
  constructor.
  - exact Hrh.
  - constructor; [intros x y Hx; apply elem_of_nil in Hx; destruct Hx|constructor|constructor].
  - destruct Hl as [-> | ->]; refine (bool_decide_unpack _ _); vm_compute; exact I.
  - destruct Hl as [-> | ->]; repeat constructor.
  - destruct Hl as [-> | ->];
      repeat (apply Forall_cons; split; [split; [reflexivity|split; [reflexivity|discriminate]]|]); apply Forall_nil_2.
  - apply Forall_forall. intros f Hf. by apply info_sample, Hin.
  - rewrite Hsm. destruct Hl as [-> | ->]; repeat constructor; vm_compute; discriminate.
  - destruct Hl as [-> | ->]; by repeat constructor.
  - intros b _. apply Hfresh, hmac_length.
  - intros b c k Hr Hb Hc. rewrite Hsm in Hr. destruct Hn as [[-> Hn] | ->]; [|destruct (one_run b c k Hr Hb Hc)].
    destruct (two_runs b c k Hr Hb Hc) as [-> ->]. exact Hn.
  - intros x b Hx. apply elem_of_nil in Hx. destruct Hx.
  - rewrite Hsm. destruct Hl as [-> | ->]; vm_compute; reflexivity.
  - destruct Hl as [-> | ->]; vm_compute; reflexivity.
  - rewrite Hids. destruct Hl as [-> | ->]; reflexivity.
  - destruct Hl as [-> | ->]; reflexivity.
  - rewrite Hids. destruct Hl as [-> | ->]; vm_compute; discriminate.
  - intros m Hm. assert (Z.of_nat decompress_bound = 4096) as Eb by reflexivity. rewrite Eb in Hm.
    unfold payload. cbn. lia.
Qed.

Lemma slash_free_s1 : slash_free (str "s1").
Proof. unfold slash_free. refine (bool_decide_unpack _ _). vm_compute. exact I. Qed.

Lemma tree_opens (w : world FileDataStore) (d : disk) dirs :
  can_type (SampleCli.options false) (Build_process w (pconsole process0) d dirs []) (str "store") SampleBackup.password [].
Proof.
  split; try done.
  split; [refine (bool_decide_unpack _ _); vm_compute; exact I
    |unfold no_nul; refine (bool_decide_unpack _ _); vm_compute; exact I|vm_compute; discriminate].
Qed.

(** The directory "docs/" is restored to "out". *)
Definition argument : bytes := str "docs/".

Lemma tree_paths l path : l = tree \/ l = [file_a] -> is_Some (files_map l !! path) ->
  path = str "docs/a.txt" \/ path = str "docs/b.txt".
Proof.
  intros Hl [x Hx]. assert (path ∈ key <$> l) as Hin.
  { apply dec_stable. intros Hnin. by rewrite files_map_None in Hx. }
  apply list_elem_of_fmap in Hin as (f & -> & Hf).
  assert (f ∈ tree) as Hf2.
  { destruct Hl as [-> | ->]; [exact Hf|]. apply list_elem_of_singleton in Hf as ->. apply elem_of_cons. by left. }
  apply elem_of_cons in Hf2 as [-> |Hf2]; [left; vm_compute; reflexivity|].
  apply list_elem_of_singleton in Hf2 as ->. right; vm_compute; reflexivity.
Qed.

Lemma named_tree path : path = str "docs/a.txt" \/ path = str "docs/b.txt" -> named argument path.
Proof. intros [-> | ->]; vm_compute; reflexivity. Qed.

Lemma plain_tree path : path = str "docs/a.txt" \/ path = str "docs/b.txt" -> plain_argument argument path.
Proof.
  intros [-> | ->];
    (constructor; [vm_compute; reflexivity|split; [vm_compute; discriminate|split; [vm_compute; discriminate|vm_compute; reflexivity]]
      |vm_compute; discriminate|vm_compute; discriminate|vm_compute; reflexivity]).
Qed.

(** The files in the order of the map. *)
Lemma selected_tree l : (l = tree \/ l = [file_a]) -> NoDup (key <$> l) ->
  selected (files_map l) argument ≡ₚ key <$> l.
Proof.
  intros Hl Hnd. apply NoDup_Permutation; [apply NoDup_selected|exact Hnd|]. intros path. rewrite elem_of_selected. split.
  - intros [_ [x Hx]]. apply dec_stable. intros Hnin. by rewrite files_map_None in Hx.
  - intros Hin. assert (is_Some (files_map l !! path)) as Hs.
    { apply list_elem_of_fmap in Hin as (f & -> & Hf). rewrite (files_map_Some l f Hnd Hf). by eexists. }
    split; [by apply named_tree, (tree_paths l)|exact Hs].
Qed.

Lemma tree_selects w l : l = tree \/ l = [file_a] ->
  can_select (SampleCli.options false) (SampleCli.process_on w) (files_map l) (str "s1") [argument; str "out"] [argument] (str "out").
Proof.
  intros Hl. assert (NoDup (key <$> l)) as Hnd
    by (destruct Hl as [-> | ->]; refine (bool_decide_unpack _ _); vm_compute; exact I).
  constructor.
  - reflexivity.
  - cbn. by apply elem_of_singleton.
  - constructor; [|constructor]. intros path Hp _. by apply named_tree, (tree_paths l).
  - intros srcFile path ->%list_elem_of_singleton [_ Hp]%elem_of_selected. by apply plain_tree, (tree_paths l).
  - unfold restored_places. cbn [fmap list_fmap concat]. rewrite app_nil_r.
    eapply can_restore_perm; [apply fmap_Permutation; symmetry; exact (selected_tree l Hl Hnd)|].
    destruct Hl as [-> | ->]; (apply SampleRestore.free_places; [|by repeat constructor|]; refine (bool_decide_unpack _ _); vm_compute; exact I).
Qed.
End SampleTree.

Lemma backup_command_witness :
  exists p1 p3,
    run (SampleCli.options false) DefaultFileTransferProgressFunction
      (BackupFiles (str "store") (str "s1") [str "docs"]) SampleTree.process0 = (Ret tt, p1) /\
    run (SampleCli.options false) DefaultFileTransferProgressFunction
      (Restore (str "store") (str "s1") [str "docs/"; str "out"]) (SampleCli.process_on (pworld p1)) = (Ret tt, p3) /\
    files (pdisk p3) !! str "out/b.txt" = Some (str "second").
Proof.
  destruct SampleTree.fresh_store as (Hk & Hf & (kf & Hr) & Hfresh).
  assert (can_open (SampleCli.options false) SampleBackup.repo SampleTree.process0 (str "store") SampleBackup.password [])
    as Hopen by (split; [apply SampleTree.tree_opens|exact Hk|exact Hf]).
  destruct (backup_command DefaultFileTransferProgressFunction SampleBackup.repo SampleBackup.hash [] kf
    (SampleCli.options false) SampleTree.process0 empty_backup createSnapshot (str "store") (str "s1") [str "docs"]
    SampleTree.tree SampleBackup.password [] (fun _ _ _ _ => eq_refl) eq_refl Hopen Hr
    (SampleTree.tree_ready _ _ _ _ SampleBackup.sample_hash Hfresh (or_introl (conj eq_refl SampleTree.names_differ))) eq_refl ltac:(discriminate) SampleTree.slash_free_s1) as (p1 & s1 & E1 & _ & _ & _ & R).
  destruct (R (SampleCli.options false) (SampleCli.process_on (pworld p1)) [] [str "docs/"; str "out"] [SampleTree.argument]
    (str "out") eq_refl eq_refl (SampleTree.tree_opens _ _ _) (SampleTree.tree_selects _ SampleTree.tree (or_introl eq_refl)))
    as (p3 & E3 & _ & Hin & _).
  exists p1, p3. split; [exact E1|]. split; [exact E3|].
  exact (Hin SampleTree.argument SampleTree.file_b ltac:(by left) ltac:(by right; left)
    (SampleTree.named_tree _ (or_intror eq_refl))).
Defined.

Lemma backup_twice_undefined_witness :
  exists p1 p2, run (SampleCli.options false) DefaultFileTransferProgressFunction
      (BackupFiles (str "store") (str "s1") [str "docs/a.txt"]) SampleTree.process0 = (Ret tt, p1) /\
    wstore (pworld p2) = wstore (pworld p1) /\
    fst (run (SampleCli.options false) DefaultFileTransferProgressFunction
      (BackupFiles (str "store") (str "s2") [str "docs/a.txt"]) p2) = Undef.
Proof.
  destruct SampleTree.fresh_store as (Hk & Hf & (kf & Hr) & Hfresh).
  assert (can_open (SampleCli.options false) SampleBackup.repo SampleTree.process0 (str "store") SampleBackup.password [])
    as Hopen by (split; [apply SampleTree.tree_opens|exact Hk|exact Hf]).
  assert (str "docs/a.txt" ∉ pdirs SampleTree.process0) as Hdir
    by (cbn [pdirs SampleTree.process0]; rewrite elem_of_singleton; discriminate).
  destruct (backup_twice_undefined DefaultFileTransferProgressFunction SampleBackup.repo SampleBackup.hash [] kf
    (SampleCli.options false) SampleTree.process0 empty_backup createSnapshot (str "store") (str "s1")
    SampleTree.file_a SampleBackup.password [] (fun _ _ _ _ => eq_refl) eq_refl Hopen Hr
    (SampleTree.tree_ready _ _ _ _ SampleBackup.sample_hash Hfresh (or_intror eq_refl)) eq_refl Hdir ltac:(discriminate) SampleTree.slash_free_s1)
    as (p1 & E1 & R).
  set (p2 := Build_process (pworld p1) (pconsole SampleTree.process0) SampleTree.tree_disk {[ str "docs" ]} []).
  exists p1, p2. split; [exact E1|]. split; [reflexivity|].
  exact (R (SampleCli.options false) p2 (str "s2") [] eq_refl eq_refl eq_refl eq_refl (SampleTree.tree_opens _ _ _)).
Defined.
