(* ===== verification/CliHistory.v ===== *)
(** * The life of a repository

    A repository is made, backed up to, given other passwords, and used by many
    processes, one after the other, of which only the store remains.  After any
    sequence of commands, each of which could be given ([can_give]), every
    snapshot can be restored with the password that is valid at its end. *)
From S2P Require Import Prelude Crypto RollingHash Streams MemoryStreams FileStreams CompositeStreams CryptoStreams Lzma StreamUtils.
From S2P Require Import StdMap Filesystem Snapshot DataStore FileDataStore Repository RepositoryKeys Upload Chunks.
From S2P Require Import RepositoryFiles FileTransfer PackFiles Backup Cli CliFormat CliCommands CliSpec CliRestore CliBackup.
From Stdlib Require Import ZArith Lia.

Section History.
Context `{EVPSpec} `{LZMASpec} `{Paths} `{EnvSpec} `{Host} {D} `{DataStoreSpec D}.
Context (progress : FileTransferProgressFunction) (Hpf : forall a b x y, progress a b x y = true).

Implicit Types p : process D.

(** ** The commands about passwords *)

(** [init <repo>]: the password is typed twice. *)
Lemma init_command_spec o p repo pw rest r w1 : can_type o p repo pw (pw ++ newline :: rest) ->
  initializeRepository (new_Repository (wclock (pworld p)) None) pw 17 DefaultProgressFunction
    (Build_world (wstore (pworld p)) (S (wclock (pworld p)))) = (Ret r, w1) ->
  exists p1, run o progress (Init repo) p = (Ret tt, p1) /\ wstore (pworld p1) = wstore w1 /\
    pdisk p1 = pdisk p /\ pdirs p1 = pdirs p.
Proof.
  intros [Hb Hex Hpw Hne Hin] Einit. cbn [run]. unfold cli_initializeRepository.
  rewrite repository_prefix by done. unfold ticked. set (rn := new_Repository (wclock (pworld p)) None) in *.
  destruct (prompt_lines (pconsole p) pw rest Hpw Hne Hin) as (c & Ec & _).
  set (w0 := Build_world (wstore (pworld p)) (S (wclock (pworld p)))) in *.
  rewrite (io_bind_Ret _ _ _ _ _ (on_console_Ret _ (Build_process w0 _ _ _ _) _ _ Ec)).
  cbn [pworld pconsole pdisk pdirs pstderr]. rewrite c_str_text by apply Hpw.
  rewrite (io_bind_Ret _ _ _ _ _ (on_repo_Ret _ (Build_process w0 _ _ _ _) _ _ Einit)).
  set (p2 := Build_process _ _ _ _ _). destruct (say_spec o (str "Repository initialized." ++ [newline]) p2)
    as (p3 & E3 & (W3 & K3 & D3) & _).
  exists p3. split; [exact E3|]. split; [exact W3|]. split; [exact K3|exact D3].
Qed.

(** [password <repo>]: the old password, and the new one twice. *)
Lemma password_command_spec o p r repo pw pw' rest : can_open o r p repo pw (pw' ++ newline :: pw' ++ newline :: rest) ->
  typed pw' -> pw' <> [] ->
  exists p1 salt iv derived junk logRounds, run o progress (Password repo) p = (Ret tt, p1) /\
    has_key_file (pworld p1) r pw' salt iv derived junk logRounds /\
    (forall q, object_path q -> q <> str "/key" -> objects (wstore (pworld p1)) q = objects (wstore (pworld p)) q) /\
    pdisk p1 = pdisk p /\ pdirs p1 = pdirs p.
Proof.
  intros [[Hb Hex Hpw Hne Hin] Hk (salt & iv & derived & junk & lr & Hkf)] Hpw' Hne'.
  cbn [run]. unfold cli_changePassword. rewrite repository_prefix by done.
  set (rn := new_Repository (wclock (pworld p)) None).
  destruct (printf_spec (str "Old password" ++ [newline]) (ticked p)) as (p1 & E1 & (W1 & K1 & D1) & I1).
  rewrite (io_bind_Ret _ _ _ _ _ E1).
  destruct (prompt_line (pconsole p1) pw _ Hpw Hne (eq_trans I1 Hin)) as (c1 & Ec1 & I2).
  rewrite (io_bind_Ret _ _ _ _ _ (on_console_Ret _ p1 _ _ Ec1)), c_str_text by apply Hpw.
  set (p2 := Build_process (pworld p1) c1 _ _ _).
  assert (has_key_file (pworld p2) r pw salt iv derived junk lr) as Hkf2 by (unfold has_key_file; cbn [p2 pworld]; rewrite W1; exact Hkf).
  pose proof Hkf as (_ & _ & _ & _ & _ & Hder & _).
  destruct (unlockRepository_spec (pworld p2) r rn pw pw salt iv derived derived junk lr DefaultProgressFunction
    Hk Hkf2 (fun _ _ => eq_refl) Hder) as (w3 & W3 & Hok & _). specialize (Hok eq_refl).
  rewrite (io_bind_Ret _ _ _ _ _ (on_repo_Ret _ p2 _ _ Hok)). cbn [negb].
  set (p3 := Build_process w3 _ _ _ _).
  destruct (printf_spec (str "New password" ++ [newline]) p3) as (p4 & E4 & (W4 & K4 & D4) & I4).
  rewrite (io_bind_Ret _ _ _ _ _ E4).
  destruct (prompt_lines (pconsole p4) pw' rest Hpw' Hne' (eq_trans I4 I2)) as (c5 & Ec5 & _).
  rewrite (io_bind_Ret _ _ _ _ _ (on_console_Ret _ p4 _ _ Ec5)), !c_str_text by (apply Hpw || apply Hpw').
  set (p5 := Build_process (pworld p4) c5 _ _ _).
  assert (wstore (pworld p5) = wstore (pworld p)) as W5
    by (cbn [p5 pworld]; rewrite W4; cbn [p3 pworld]; rewrite W3; cbn [p2 pworld]; rewrite W1; reflexivity).
  assert (has_key_file (pworld p5) r pw salt iv derived junk lr) as Hkf5 by (unfold has_key_file; rewrite W5; exact Hkf).
  destruct (changePassword_spec r (with_keys rn r) pw pw' salt iv derived junk lr 17 DefaultProgressFunction (pworld p5)
    Hk Hkf5 ltac:(unfold MAX_LOG_ROUNDS; lia) (fun _ _ => eq_refl)) as (salt' & iv' & derived' & junk' & w6 & E6 & Hkf6 & Hoth).
  rewrite (io_bind_Ret _ _ _ _ _ (on_repo_Ret _ p5 _ _ E6)).
  destruct (printf_spec (str "Password updated." ++ [newline]) (Build_process w6 c5 (pdisk p4) (pdirs p4) (pstderr p4)))
    as (p7 & E7 & (W7 & K7 & D7) & _).
  exists p7, salt', iv', derived', junk', 17. split; [exact E7|]. split; [unfold has_key_file; rewrite W7; exact Hkf6|].
  split; [intros q Hq Hne2; rewrite W7; cbn [pworld]; by rewrite Hoth, W5|].
  split; [rewrite K7; cbn [pdisk]; rewrite K4; exact K1|rewrite D7; cbn [pdirs]; rewrite D4; exact D1].
Qed.

(** ** What a repository holds *)

(** The snapshots that were committed and the password that is valid. *)
Record life := { snapshots : gmap (list Byte.byte) (gmap (list Byte.byte) (list Byte.byte)); password : bytes }.

Section Life.
Context (r : Repository) (rh : RollingHash) (U : list (CompressionType * bytes)).

(** The store [d] holds [a]. *)
Definition holds (a : life) (d : D) : Prop :=
  (exists salt iv derived junk logRounds, has_key_file (Build_world d 0) r (password a) salt iv derived junk logRounds) /\
  exists kf s, refines r U kf {| working := ∅; committed := snapshots a |} (Build_system (Build_world d 0) s).

(** Nothing matters of a system but its store. *)
Lemma holds_world a w : holds a (wstore w) ->
  (exists salt iv derived junk lr, has_key_file w r (password a) salt iv derived junk lr) /\
  exists kf, refines r U kf {| working := ∅; committed := snapshots a |} (Build_system w new_Snapshot).
Proof.
  intros [Hkey (kf & s & Hr)]. split; [exact Hkey|]. exists kf.
  apply (refines_same r U kf _ (Build_world (wstore w) 0) w); [done|].
  destruct Hr as [Hd Hk Hb _ Hc]. constructor; try done. apply represents_empty.
Qed.

Lemma holds_intro pw kf m s w :
  (exists salt iv derived junk lr, has_key_file w r pw salt iv derived junk lr) -> refines r U kf m (Build_system w s) ->
  holds {| snapshots := committed m; password := pw |} (wstore w).
Proof.
  intros Hkey Hr. split; [exact Hkey|]. exists kf, new_Snapshot.
  apply (refines_same r U kf _ w (Build_world (wstore w) 0)); [done|].
  destruct Hr as [Hd Hk Hb _ Hc]. constructor; try done. apply represents_empty.
Qed.

(** Objects other than data change: [q0] alone is written. *)
Lemma refines_put kf kf' snaps (w w' : world D) q0 : refines r U kf {| working := ∅; committed := snaps |} (Build_system w new_Snapshot) ->
  (forall id, object_file id <> q0) -> dvalid (wstore w') -> objects (wstore w') (str "/key") = Some kf' ->
  (forall q, object_path q -> q <> q0 -> objects (wstore w') q = objects (wstore w) q) ->
  (forall name, q0 = str "/snapshot/" ++ name -> snaps !! name = None) ->
  refines r U kf' {| working := ∅; committed := snaps |} (Build_system w' new_Snapshot).
Proof.
  intros [_ _ Hb _ Hc] Hdata Hd Hk Hoth Hname. cbn [sys_world sys_snapshot working committed] in *.
  assert (data_kept w w') as Hkept.
  { intros id ob Hid Hob. rewrite Hoth; [exact Hob|by apply object_file_path|apply Hdata]. }
  constructor; cbn [sys_world sys_snapshot working committed]; [exact Hd|exact Hk| |apply represents_empty|].
  - intros y Hy. destruct (Hb y Hy) as [Hno|Hst]; [left|right; by eapply stored_kept].
    rewrite Hoth; [exact Hno|by apply object_file_path, block_id_length|apply Hdata].
  - intros name m Hm. pose proof (Hc name m Hm) as Hs. eapply has_snapshot_kept; [exact Hkept| |exact Hs].
    destruct Hs as (Hn & Hsl & _). apply Hoth; [by apply path_snapshot|]. intros Eq. symmetry in Eq.
    by rewrite (Hname name Eq) in Hm.
Qed.

(** ** The commands that can be given *)

Implicit Types o : CliOptions.

(** The command [c] can be given to a store that holds [a], which then holds
    [a']: the password is typed, and the files can be backed up. *)
Inductive can_give o p : action -> life -> life -> Prop :=
  | give_backup repo name args L rest a : dryRun o = false -> can_type o p repo (password a) rest ->
      can_backup r rh U (pdisk p) (pworld p) L -> concat (arg_paths (pdirs p) <$> args) = so_path <$> L ->
      name <> [] -> slash_free name ->
      can_give o p (BackupFiles repo name args) a
        {| snapshots := <[name := files_map L]> (snapshots a); password := password a |}
  | give_dry_run repo name args rest a : dryRun o = true -> can_type o p repo (password a) rest ->
      name <> [] -> slash_free name -> zlen (snapshot_bytes new_Snapshot) <= Z.of_nat decompress_bound ->
      zlen (payload LZMA2 (snapshot_bytes new_Snapshot)) < 2 ^ 62 ->
      can_give o p (BackupFiles repo name args) a
        {| snapshots := <[name := ∅]> (snapshots a); password := password a |}
  | give_password repo pw rest a : can_type o p repo (password a) (pw ++ newline :: pw ++ newline :: rest) ->
      typed pw -> pw <> [] ->
      can_give o p (Password repo) a {| snapshots := snapshots a; password := pw |}
  | give_restore repo name args sources destDir m rest a : dryRun o = false -> can_type o p repo (password a) rest ->
      snapshots a !! name = Some m -> can_select o p m name args sources destDir ->
      can_give o p (Restore repo name args) a a.

Context (Hkeys : keys_ok r).

Lemma holds_opens o p repo a rest : holds a (wstore (pworld p)) -> can_type o p repo (password a) rest ->
  can_open o r p repo (password a) rest.
Proof. intros [Hkey _]%holds_world Ht. by constructor. Qed.

(** A key file stays when its bytes do. *)
Lemma has_key_file_kept (w w' : world D) pw salt iv derived junk lr : dvalid (wstore w') ->
  objects (wstore w') (str "/key") = objects (wstore w) (str "/key") ->
  has_key_file w r pw salt iv derived junk lr -> has_key_file w' r pw salt iv derived junk lr.
Proof. intros Hd Ek (_ & ? & ? & ? & ? & ? & Hkey). split; [exact Hd|]. rewrite Ek. by do 5 (split; [done|]). Qed.

Lemma give_backup_spec o p repo name args L rest a : holds a (wstore (pworld p)) -> dryRun o = false ->
  can_type o p repo (password a) rest -> can_backup r rh U (pdisk p) (pworld p) L ->
  concat (arg_paths (pdirs p) <$> args) = so_path <$> L -> name <> [] -> slash_free name ->
  exists p1, run o progress (BackupFiles repo name args) p = (Ret tt, p1) /\
    holds {| snapshots := <[name := files_map L]> (snapshots a); password := password a |} (wstore (pworld p1)).
Proof.
  intros Hh Hdry Ht Hcan Hargs Hn Hs. pose proof (holds_opens _ _ _ _ _ Hh Ht) as Hopen.
  apply holds_world in Hh as [(salt & iv & derived & junk & lr & Hkf) (kf & Hr)].
  destruct (backup_command_spec progress r rh U kf o p _ new_Snapshot repo name args L (password a) rest Hpf Hdry Hopen Hr
    Hcan Hargs Hn Hs) as (p1 & s1 & E1 & Hr1 & _). exists p1. split; [exact E1|].
  eapply (holds_intro (password a) kf _ s1 (pworld p1)) in Hr1; [exact Hr1|].
  exists salt, iv, derived, junk, lr. apply (has_key_file_kept (pworld p)); [apply Hr1| |exact Hkf].
  etrans; [apply (rf_key _ _ _ _ _ Hr1)|symmetry; apply (rf_key _ _ _ _ _ Hr)].
Qed.

Lemma give_dry_run_spec o p repo name args rest a : holds a (wstore (pworld p)) -> dryRun o = true ->
  can_type o p repo (password a) rest -> name <> [] -> slash_free name ->
  zlen (snapshot_bytes new_Snapshot) <= Z.of_nat decompress_bound ->
  zlen (payload LZMA2 (snapshot_bytes new_Snapshot)) < 2 ^ 62 ->
  exists p1, run o progress (BackupFiles repo name args) p = (Ret tt, p1) /\
    holds {| snapshots := <[name := ∅]> (snapshots a); password := password a |} (wstore (pworld p1)).
Proof.
  intros Hh Hdry Ht Hn Hs Hb Hl. pose proof (holds_opens _ _ _ _ _ Hh Ht) as Hopen.
  apply holds_world in Hh as [(salt & iv & derived & junk & lr & Hkf) (kf & Hr)].
  destruct (dry_run_spec o progress r p repo name args (password a) rest Hdry Hopen (rf_store _ _ _ _ _ Hr) Hn Hs Hb Hl)
    as (p1 & E1 & Hsn & _ & _ & Hd1 & Hoth). exists p1. split; [exact E1|].
  pose proof (Hoth _ path_key ltac:(discriminate)) as Ek.
  assert (refines r U kf {| working := ∅; committed := delete name (snapshots a) |} (Build_system (pworld p1) new_Snapshot)) as Hr1.
  { apply (refines_put kf kf _ (pworld p) (pworld p1) (str "/snapshot/" ++ name)); [|intros id; apply data_not_snapshot
      |exact Hd1|rewrite Ek; apply Hr|exact Hoth|].
    - destruct Hr as [? ? ? ? Hc]. constructor; try done. cbn [committed].
      intros nm m [_ Hm]%lookup_delete_Some. by apply Hc.
    - intros nm <-%app_inv_head. apply lookup_delete_eq. }
  refine (holds_intro (password a) kf {| working := ∅; committed := <[name := ∅]> (snapshots a) |} new_Snapshot (pworld p1) _ _).
  - exists salt, iv, derived, junk, lr. by apply (has_key_file_kept (pworld p)).
  - destruct Hr1 as [? ? ? ? Hc]. constructor; try done. cbn [committed sys_world] in *.
    intros nm m [[<- <-]|[Hne Hm]]%lookup_insert_Some; [exact Hsn|]. apply Hc. by rewrite lookup_delete_ne.
Qed.

Lemma give_password_spec o p repo pw rest a : holds a (wstore (pworld p)) ->
  can_type o p repo (password a) (pw ++ newline :: pw ++ newline :: rest) -> typed pw -> pw <> [] ->
  exists p1, run o progress (Password repo) p = (Ret tt, p1) /\
    holds {| snapshots := snapshots a; password := pw |} (wstore (pworld p1)).
Proof.
  intros Hh Ht Hpw Hne. pose proof (holds_opens _ _ _ _ _ Hh Ht) as Hopen.
  apply holds_world in Hh as [_ (kf & Hr)].
  destruct (password_command_spec o p r repo (password a) pw rest Hopen Hpw Hne)
    as (p1 & salt & iv & derived & junk & lr & E1 & Hkf & Hoth & _). exists p1. split; [exact E1|].
  pose proof Hkf as (Hd1 & _ & _ & _ & _ & _ & Hkey).
  refine (holds_intro pw _ {| working := ∅; committed := snapshots a |} new_Snapshot (pworld p1) _ _);
    [by exists salt, iv, derived, junk, lr|].
  by apply (refines_put kf _ _ (pworld p) (pworld p1) (str "/key")).
Qed.

Lemma give_restore_spec o p repo name args sources destDir m rest a : holds a (wstore (pworld p)) -> dryRun o = false ->
  can_type o p repo (password a) rest -> snapshots a !! name = Some m -> can_select o p m name args sources destDir ->
  exists p1, run o progress (Restore repo name args) p = (Ret tt, p1) /\
    wstore (pworld p1) = wstore (pworld p) /\
    (forall srcFile path data, srcFile ∈ sources -> named srcFile path -> m !! path = Some data ->
      files (pdisk p1) !! destination destDir srcFile path = Some data) /\
    forall q, q ∉ restored_places m destDir sources -> files (pdisk p1) !! q = files (pdisk p) !! q.
Proof.
  intros Hh Hdry Ht Hm Hsel. pose proof (holds_opens _ _ _ _ _ Hh Ht) as Hopen.
  apply holds_world in Hh as [_ (kf & Hr)].
  apply (restore_command_spec o progress r p repo name args sources destDir (password a) rest m); try done; [apply Hr|].
  by apply (rf_committed _ _ _ _ _ Hr).
Qed.

(** One command. *)
Lemma give_spec o p c a a' : can_give o p c a a' -> holds a (wstore (pworld p)) ->
  exists p1, run o progress c p = (Ret tt, p1) /\ holds a' (wstore (pworld p1)).
Proof.
  intros Hg Hh. destruct Hg.
  - by eapply give_backup_spec.
  - by eapply give_dry_run_spec.
  - by eapply give_password_spec.
  - edestruct give_restore_spec as (p1 & E1 & W1 & _); [done..|]. exists p1. split; [done|]. by rewrite W1.
Qed.
End Life.

(** ** One process after the other *)

(** A process that runs a command: all of it but the store. *)
Record visit := {
  v_options : CliOptions; v_command : action; v_clock : nat; v_console : console; v_disk : disk;
  v_dirs : gset (list Byte.byte)
}.

Definition visiting (v : visit) (d : D) : process D :=
  Build_process (Build_world d (v_clock v)) (v_console v) (v_disk v) (v_dirs v) [].

(** Only the store is left of a process. *)
Definition turn (v : visit) : io D unit := fun d =>
  let '(x, p) := run (v_options v) progress (v_command v) (visiting v d) in (x, wstore (pworld p)).

Fixpoint turns (l : list visit) : io D unit :=
  match l with
  | [] => mret tt
  | v :: l => turn v;; turns l
  end.

(** The commands can be given one after the other. *)
Inductive can_live (r : Repository) (rh : RollingHash) (U : list (CompressionType * bytes)) :
    list visit -> life -> D -> life -> Prop :=
  | live_nil a d : can_live r rh U [] a d a
  | live_cons v l a d a1 a2 : can_give r rh U (v_options v) (visiting v d) (v_command v) a a1 ->
      (forall d1, turn v d = (Ret tt, d1) -> can_live r rh U l a1 d1 a2) ->
      can_live r rh U (v :: l) a d a2.

Lemma turns_spec r rh U l a d a2 : keys_ok r -> can_live r rh U l a d a2 -> holds r U a d ->
  exists d2, turns l d = (Ret tt, d2) /\ holds r U a2 d2.
Proof.
  intros Hk Hl. induction Hl as [a d|v l a d a1 a2 Hg _ IH]; intros Hh; [by exists d|].
  destruct (give_spec r rh U Hk _ (visiting v d) _ _ _ Hg Hh) as (p1 & E1 & Hh1).
  assert (turn v d = (Ret tt, wstore (pworld p1))) as Et by (unfold turn; by rewrite E1).
  destruct (IH _ Et Hh1) as (d2 & E2 & Hh2). exists d2. split; [|exact Hh2].
  cbn [turns]. by rewrite (io_bind_Ret _ _ _ _ _ Et).
Qed.

(** A new repository holds nothing. *)
Lemma holds_new r0 pw logRounds (w w1 : world D) r U : 0 <= logRounds <= MAX_LOG_ROUNDS -> dvalid (wstore w) ->
  initializeRepository r0 pw logRounds DefaultProgressFunction w = (Ret r, w1) -> blocks_ok r U w ->
  keys_ok r /\ holds r U {| snapshots := ∅; password := pw |} (wstore w1).
Proof.
  intros Hlog Hd Hinit Hblocks.
  destruct (initializeRepository_spec r0 pw logRounds DefaultProgressFunction w Hlog Hd (fun _ _ => eq_refl))
    as (r' & salt & iv & derived & junk & w1' & E & Hk & _ & Hkf & Hoth).
  rewrite Hinit in E. apply io_Ret_inj in E as [<- <-]. split; [exact Hk|].
  pose proof Hkf as (Hd1 & _ & _ & _ & _ & _ & Hkey).
  refine (holds_intro r U pw _ empty_backup new_Snapshot w1 _ _); [by exists salt, iv, derived, junk, logRounds|].
  constructor; [exact Hd1|exact Hkey| |apply represents_empty|done].
  intros y Hy. assert (objects (wstore w1) (object_file (block_id r y.1 y.2)) =
    objects (wstore w) (object_file (block_id r y.1 y.2))) as Eo
    by (apply Hoth; [by apply object_file_path, block_id_length|done]).
  cbn [sys_world]. rewrite Eo. destruct (Hblocks y Hy) as [Hno|(iv' & ? & ?)]; [by left|]. right. exists iv'. by rewrite Eo.
Qed.
End History.

(** * Properties *)

Section Properties.
Context `{EVPSpec} `{LZMASpec} `{Paths} `{EnvSpec} `{Host} {D} `{DataStoreSpec D}.
Context (progress : FileTransferProgressFunction).

(** C6: the life of a repository: [init] with a password makes one, in any store
    that has none of its blocks.  Then processes, one after the other, of which
    only the store remains, back up files, commit dry runs, change the password
    and restore, each with the password that is valid at its time, and each when
    it can be given: a backup needs that the store has none of the packs it will
    make (see [backup_twice_undefined]) and that no identifiers clash, a restore
    that its arguments name files and have free places.  Every one of them
    completes, and at the end every snapshot is there as it was last committed:
    [restore] in a further process, with the password that is valid now, writes
    the files that its arguments name with exactly their contents, and changes
    neither another file nor the store. *)
Theorem repository_life o (p : process D) repo pw rest r w1 rh U visits a
    (Hpf : forall a b x y, progress a b x y = true) (Htype : can_type o p repo pw (pw ++ newline :: rest))
    (Hd : dvalid (wstore (pworld p)))
    (Hinit : initializeRepository (new_Repository (wclock (pworld p)) None) pw 17 DefaultProgressFunction
      (Build_world (wstore (pworld p)) (S (wclock (pworld p)))) = (Ret r, w1))
    (Hblocks : blocks_ok r U (pworld p))
    (Hlive : can_live progress r rh U visits {| snapshots := ∅; password := pw |} (wstore w1) a) :
  exists p1 d, run o progress (Init repo) p = (Ret tt, p1) /\
    turns progress visits (wstore (pworld p1)) = (Ret tt, d) /\
    forall o2 (p2 : process D) repo2 rest2 name args sources destDir m, wstore (pworld p2) = d -> dryRun o2 = false ->
      can_type o2 p2 repo2 (password a) rest2 -> snapshots a !! name = Some m ->
      can_select o2 p2 m name args sources destDir ->
      exists p3, run o2 progress (Restore repo2 name args) p2 = (Ret tt, p3) /\
        wstore (pworld p3) = d /\
        (forall srcFile path data, srcFile ∈ sources -> named srcFile path -> m !! path = Some data ->
          files (pdisk p3) !! destination destDir srcFile path = Some data) /\
        forall q, q ∉ restored_places m destDir sources -> files (pdisk p3) !! q = files (pdisk p2) !! q.
Proof.
  destruct (init_command_spec progress o p repo pw rest r w1 Htype Hinit) as (p1 & E1 & W1 & _).
  destruct (holds_new _ pw 17 (Build_world (wstore (pworld p)) (S (wclock (pworld p)))) w1 r U ltac:(unfold MAX_LOG_ROUNDS; lia) Hd Hinit Hblocks) as [Hk Hh].
  destruct (turns_spec progress Hpf r rh U visits _ _ a Hk Hlive Hh) as (d & E2 & Hh2).
  exists p1, d. split; [exact E1|]. split; [by rewrite W1|].
  intros o2 p2 repo2 rest2 name args sources destDir m <- Hdry Ht Hm Hsel.
  by apply (give_restore_spec progress Hpf r U Hk o2 p2 repo2 name args sources destDir m rest2 a).
Qed.
End Properties.

(** ** A concrete life *)

Module SampleLife.
Definition new_password : bytes := str "other".
Definition typing (lines : bytes) : console := {| stdin := lines; stdout := []; echo := true |}.
Definition first_lines : bytes := SampleBackup.password ++ newline :: SampleBackup.password ++ newline :: [].
Definition process_init : process FileDataStore :=
  Build_process Demo.start (typing first_lines) empty_disk ∅ [].
Definition backs_up : visit := {|
  v_options := SampleCli.options false; v_command := BackupFiles (str "store") (str "s1") [str "docs/a.txt"];
  v_clock := 100; v_console := typing (SampleBackup.password ++ newline :: []); v_disk := SampleTree.tree_disk;
  v_dirs := {[ str "docs" ]} |}.
Definition dry_runs : visit := {|
  v_options := SampleCli.options true; v_command := BackupFiles (str "store") (str "s2") [str "docs/a.txt"];
  v_clock := 200; v_console := typing (SampleBackup.password ++ newline :: []); v_disk := SampleTree.tree_disk;
  v_dirs := {[ str "docs" ]} |}.
Definition changes_password : visit := {|
  v_options := SampleCli.options false; v_command := Password (str "store");
  v_clock := 300; v_console := typing (SampleBackup.password ++ newline :: new_password ++ newline :: new_password ++ newline :: []);
  v_disk := empty_disk; v_dirs := ∅ |}.
Definition later (d : FileDataStore) : process FileDataStore :=
  Build_process (Build_world d 400) (typing (new_password ++ newline :: [])) empty_disk {[ str "out" ]} [].

Lemma types_password : typed SampleBackup.password /\ typed new_password.
Proof.
  split; (split; [refine (bool_decide_unpack _ _); vm_compute; exact I
    |unfold no_nul; refine (bool_decide_unpack _ _); vm_compute; exact I|vm_compute; discriminate]).
Qed.

Lemma can_type_line dry (w : world FileDataStore) dk dirs pw rest : typed pw -> pw <> [] ->
  can_type (SampleCli.options dry) (Build_process w (typing (pw ++ newline :: rest)) dk dirs []) (str "store") pw rest.
Proof. intros Ht Hne. by split. Qed.

(** The whole life. *)
Lemma lives r rh (w1 : world FileDataStore) : first_hash r rh ->
  (forall id, zlen id = SHA256_DIGEST_LENGTH -> objects (wstore w1) (object_file id) = None) ->
  can_live DefaultFileTransferProgressFunction r rh [] [backs_up; dry_runs; changes_password]
    {| snapshots := ∅; password := SampleBackup.password |} (wstore w1)
    {| snapshots := <[str "s2" := ∅]> (<[str "s1" := files_map [SampleTree.file_a]]> ∅); password := new_password |}.
Proof.
  intros Hrh Hfresh. destruct types_password as [Hp Hn].
  eapply live_cons; [|intros d1 _; eapply live_cons; [|intros d2 _; eapply live_cons; [|intros d3 _; apply live_nil]]].
  - eapply (give_backup r rh [] (SampleCli.options false)) with (L := [SampleTree.file_a]) (rest := []);
      [reflexivity|by apply can_type_line| |reflexivity|discriminate|exact SampleTree.slash_free_s1].
    exact (SampleTree.tree_ready r rh (Build_world (wstore w1) 100) _ Hrh Hfresh (or_intror eq_refl)).
  - eapply (give_dry_run r rh [] (SampleCli.options true)) with (rest := []);
      [reflexivity|by apply can_type_line|discriminate| |vm_compute; discriminate|vm_compute; reflexivity].
    unfold slash_free; refine (bool_decide_unpack _ _); vm_compute; exact I.
  - eapply (give_password r rh [] (SampleCli.options false)) with (rest := []);
      [by apply can_type_line|exact Hn|discriminate].
Qed.

Lemma later_selects d : can_select (SampleCli.options false) (later d) (files_map [SampleTree.file_a]) (str "s1")
  [SampleTree.argument; str "out"] [SampleTree.argument] (str "out").
Proof.
  destruct (SampleTree.tree_selects (Build_world d 400) [SampleTree.file_a] (or_intror eq_refl)) as [Ha Hd Hu Hp Hc].
  constructor; [exact Ha|exact Hd|exact Hu|exact Hp|].
  apply (can_restore_same _ (SampleCli.process_on (Build_world d 400))); [reflexivity..|exact Hc].
Qed.
End SampleLife.

Lemma repository_life_witness :
  exists p1 d p3,
    run (SampleCli.options false) DefaultFileTransferProgressFunction (Init (str "store")) SampleLife.process_init = (Ret tt, p1) /\
    turns DefaultFileTransferProgressFunction
      [SampleLife.backs_up; SampleLife.dry_runs; SampleLife.changes_password] (wstore (pworld p1)) = (Ret tt, d) /\
    run (SampleCli.options false) DefaultFileTransferProgressFunction
      (Restore (str "store") (str "s1") [str "docs/"; str "out"]) (SampleLife.later d) = (Ret tt, p3) /\
    files (pdisk p3) !! str "out/a.txt" = Some (str "first").
Proof.
  destruct SampleLife.types_password as [Hp Hn].
  assert (0 <= 17 <= MAX_LOG_ROUNDS) as H17 by (vm_compute; split; discriminate).
  destruct (initializeRepository_spec (new_Repository 0 None) SampleBackup.password 17 DefaultProgressFunction
    (Build_world (wstore Demo.start) 1) H17 Demo.start_ok (fun _ _ => eq_refl))
    as (r & salt & iv & derived & junk & w1 & E & _ & _ & _ & Hoth).
  destruct (new_RollingHash_wf (mRollKey r) 8192) as (rh & Hrh & _); [lia|].
  assert (forall id, zlen id = SHA256_DIGEST_LENGTH -> objects (wstore w1) (object_file id) = None) as Hfresh.
  { intros id Hid. rewrite Hoth; [reflexivity|exact (object_file_path id Hid)|discriminate]. }
  destruct (repository_life DefaultFileTransferProgressFunction (SampleCli.options false) SampleLife.process_init
    (str "store") SampleBackup.password [] r w1 rh [] _ _ (fun _ _ _ _ => eq_refl)
    (SampleLife.can_type_line false _ _ _ _ _ Hp ltac:(discriminate)) Demo.start_ok E
    (fun x Hx => match not_elem_of_nil x Hx with end) (SampleLife.lives r rh w1 Hrh Hfresh)) as (p1 & d & E1 & E2 & R).
  destruct (R (SampleCli.options false) (SampleLife.later d) (str "store") [] (str "s1")
    [str "docs/"; str "out"] [SampleTree.argument] (str "out") (files_map [SampleTree.file_a]) eq_refl eq_refl
    (SampleLife.can_type_line false _ _ _ _ _ Hn ltac:(discriminate)) eq_refl (SampleLife.later_selects d))
    as (p3 & E3 & _ & Hin & _).
  exists p1, d, p3. split; [exact E1|]. split; [exact E2|]. split; [exact E3|].
  apply (Hin SampleTree.argument (str "docs/a.txt") (str "first") ltac:(by left)
    (SampleTree.named_tree _ (or_introl eq_refl))).
  exact (files_map_Some [SampleTree.file_a] SampleTree.file_a (NoDup_singleton _) ltac:(by left)).
Defined.
